(* ===== verification/_CoqProject ===== *)
-Q . S2P
Prelude.v
Gcm.v
NetIO.v
Gmsm.v
Toy.v
Record.v
Framing.v
KeySchedule.v
GoLib.v
CsvReport.v
CsvVerify.v
CsvMock.v
CsvClient.v
Asn1.v
Evidence.v
Gx509.v
Provider.v
Cert.v
Config.v
SharedCache.v
Verifier.v
Handshake.v
Session.v
Effects.v
Honest.v
Conn.v
ConnState.v
Stream.v
Duplex.v
Goroutines.v
Exclusion.v
Progress.v
Linear.v
Channel.v
Transport.v
