(* ===== verification/Prelude.v ===== *)
(** * teetls: a verification library

    teetls (src/, Go) is TLS 1.3 in the manner of RFC 8998 (SM2, SM3, SM4-GCM)
    whose certificates carry Hygon CSV attestation evidence.  This library
    models the program function by function and proves what each part promises
    and what they promise together.

    ** The program and its model

    Bottom up; each file models the source it names.

    - Prelude (this file): bytes, slices, big- and little-endian integers, Go's
      errors ([error], with wrapping and [errors.Join]), results with panics
      ([result]: [Ok], [Err], [Panic]) and stateful computations ([stM]), with
      their notations ([x <- m; k], [reject_if], [<?>] to wrap an error), the
      tactics [inv_ok], [inv_stm], [zbool], [zlia] and the predicates [decides]
      and [rdecides] (a computation that succeeds exactly when a proposition
      holds).
    - NetIO: [net.Conn] as a record (bytes received, bytes sent, outcomes of the
      coming writes, deadline and close flags), [io.ReadFull], [writeFull].
    - Gcm: [cipher.AEAD] and GCM over any block cipher, with the laws the record
      layer needs.  Gmsm, Gx509: github.com/tjfoc/gmsm (sm2, sm3, sm4, x509) and
      x/crypto/hkdf as classes with laws, since they are not under src/.  Toy:
      small lawful instances of these classes, which the witnesses compute with.
    - Record: record.go.  Framing: handshake.go, the messages, their fragments
      and the transcript.  KeySchedule: handshake.go, keys, ECDHE, HKDF, tags.
    - GoLib, Asn1: the parts of Go's standard library that are used (strings,
      hex, paths, files; DER).
    - CsvReport, CsvVerify, CsvMock, CsvClient: pkg/csvattest (report.go and the
      parsers of verify.go; verify.go; mock.go; client.go, platform.go and the
      ioctl files).  The operating system is the record [platformOps].
    - Evidence: evidence.go.  Provider: provider.go.  Cert: cert.go.  Config:
      config.go, with the certificate cache.  SharedCache: the cache of one
      configuration under any number of goroutines, in small steps
      ([cache_advance], [cache_step]).  Verifier: verifier.go.
    - Handshake: handshake.go, [ClientHandshakeContext] and
      [ServerHandshakeContext].  The state [World] is the connection, the cache,
      the entropy, the provider's own state and the log.
    - Conn: conn.go.  The state is the record [Conn] with the source's fields;
      an operation is one atomic step.
    - Goroutines: conn.go again, for any number of goroutines: [advance] takes
      one small step of [Handshake], [Read], [Write] or [Close], over the shared
      state [Shared], and [sys_step] interleaves them.
    - Transport: transport.go.

    ** What the theorems show

    - Records (Record, Framing): what is sealed is opened and nothing else is;
      both ends of a direction stay in step; no nonce repeats; messages survive
      fragmentation; transcripts determine their messages; the loops end.
    - Keys (KeySchedule): point encoding and decoding are inverse, the two sides
      derive one secret.
    - Attestation (CsvReport to CsvClient, Evidence, Provider, Config, Verifier):
      the verifier accepts exactly the peers of the specification [peer_valid]
      (binding to the key, PEK signature, certificate chain from a root of the
      local configuration, measurement policy); generated certificates meet it;
      the client gives back every resource and no secret.
    - The shared cache (SharedCache): concurrent calls refine atomic ones, and a
      certificate is replaced only when it is of no more use.
    - The handshake against its contract (Session): [client_accepts] and
      [server_accepts] are what a side that returns has checked and sent; two
      sides with the same messages hold the same keys.
    - The handshake against any peer (Effects): no panic, no damage to the
      connection.  [runs] is the program logic of that file; what it asks of the
      third-party code and of the configured provider is [NoPanics] and
      [provider_safe], which the hardware provider is shown to meet.
    - The handshake between honest sides (Honest): it completes.
    - The connection (ConnState): the invariant [conn_inv] of all states that the
      steps [conn_trans] reach, and what no step undoes ([conn_evolves]).
    - The stream (Stream, Duplex): [Read] refines the reader of an abstract
      stream ([took]); integrity and truncation; every outcome of [Write];
      delivery; a read and a write commute.
    - Many goroutines on a connection (Exclusion, Progress, Linear): the
      invariant [sys_inv] of every interleaving, no data race, one handshake, no
      deadlock, every call returns; and once the handshake is done the small
      steps refine the atomic operations of Conn (linearizability), so that the
      theorems about those hold of concurrent use.
    - The whole (Channel, Transport): from two configurations to a delivered
      stream; what a dial leaves behind; the early checks.

    ** Integers, bounds and fuel

    Machine integers are [Z] with their wrap-around written out where the code
    can reach it (64-bit lengths and sequence numbers in Record, 16- and 24-bit
    fields in Framing).  Slice expressions and [make] that may panic are
    [gslice], [gmake].  The loops over a connection or over data take as fuel one
    more than the bytes at hand; every round takes at least one of them, and
    [ErrOutOfFuel] is shown not to be their own result (Framing for the messages,
    Stream for [Read] and [Write]).

    ** Not modelled

    The system calls behind [platformOps] and the sockets behind [net.Conn];
    cryptographic hardness (the theorems say which records and messages are
    accepted, not that nobody can make them); Go's memory model below the steps
    of Goroutines and SharedCache, which are sequentially consistent (as they are for a program
    without data races, see [conn_race_free]), the interleaving inside a
    handshake function, which has the raw connection to itself, and the
    goroutine of a dial, which is an event of the dial; deadlines are flags, and
    their expiry, like the effect of [Close] on a read that is under way, is
    part of what the raw connection is scripted to deliver (NetIO);
    [LocalAddr], [RemoteAddr] and what net/http does with the transport. *)

From Stdlib Require Export ZArith Lia.
From Stdlib Require Export Strings.Byte.
From stdpp Require Export base numbers option strings gmap list.

Set Default Proof Using "Type".
Set Warnings "-register-all".

#[global] Open Scope Z_scope.

(** ** Bytes *)

Abbreviation bytes := (list Byte.byte).

(** Go's conversion [byte(z)] of an integer keeps the low eight bits. *)
Definition byte_of_Z (z : Z) : Byte.byte :=
  default x00 (Byte.of_N (Z.to_N (z mod 256))).

Definition byte_to_Z (b : Byte.byte) : Z := Z.of_N (Byte.to_N b).

#[global] Instance byte_eq_dec : EqDecision Byte.byte := Byte.byte_eq_dec.

(** ** Errors

    [errors.New] makes a leaf, [fmt.Errorf] a node that keeps its format
    string and its arguments.  A [%w] argument is unwrapped by [errors.Is],
    a [%v] argument is not.  [errors.Join] is the third constructor. *)
Inductive error :=
| ErrNew (msg : string)
| Errorf (fmt : string) (args : list farg)
| JoinError (errs : list error)
with farg :=
| FInt (z : Z)
| FStr (s : string)
| FStrs (l : list string)
| FBytes (b : bytes)
| FWrap (e : error)
| FErr (e : error).

(** Two sentinels are the same pointer exactly when they were created with
    the same text: every sentinel of the program has its own text. *)
Definition same_error (e target : error) : bool :=
  match e, target with
  | ErrNew a, ErrNew b => String.eqb a b
  | _, _ => false
  end.

(** [errors.Is] *)
Fixpoint errors_is (e target : error) {struct e} : bool :=
  same_error e target ||
  match e with
  | ErrNew _ => false
  | Errorf _ args =>
      existsb (fun a => match a with FWrap e' => errors_is e' target | _ => false end) args
  | JoinError es => existsb (fun e' => errors_is e' target) es
  end.

(** [errors.Join] drops nil errors and is nil when nothing is left. *)
Definition errors_join (es : list (option error)) : option error :=
  match omap id es with
  | [] => None
  | es' => Some (JoinError es')
  end.

(** ** Results

    A Go call returns a value or an error, or panics. *)
Inductive result (A : Type) :=
| Ok (a : A)
| Err (e : error)
| Panic.
Arguments Ok {A} a.
Arguments Err {A} e.
Arguments Panic {A}.

#[global] Instance result_ret : MRet result := fun A a => Ok a.
#[global] Instance result_bind : MBind result := fun A B f m =>
  match m with Ok a => f a | Err e => Err e | Panic => Panic end.
#[global] Instance result_fmap : FMap result := fun A B f m =>
  match m with Ok a => Ok (f a) | Err e => Err e | Panic => Panic end.

(** A state-passing computation: the state survives an error and a panic,
    as the memory a Go function wrote before it returned does. *)
Definition stM (S A : Type) : Type := S -> result A * S.

#[global] Instance stM_ret {S} : MRet (stM S) := fun A a s => (Ok a, s).
#[global] Instance stM_bind {S} : MBind (stM S) := fun A B f m s =>
  match m s with
  | (Ok a, s') => f a s'
  | (Err e, s') => (Err e, s')
  | (Panic, s') => (Panic, s')
  end.

Definition lift {S A} (r : result A) : stM S A := fun s => (r, s).
Definition get_st {S} : stM S S := fun s => (Ok s, s).
Definition put_st {S} (s' : S) : stM S unit := fun _ => (Ok tt, s').

(** [if err != nil { return fmt.Errorf("ctx: %w", err) }] *)
Class MapErr (M : Type -> Type) := map_err : forall {A}, (error -> error) -> M A -> M A.
#[global] Instance result_map_err : MapErr result := fun A f m =>
  match m with Err e => Err (f e) | _ => m end.
#[global] Instance stM_map_err {S} : MapErr (stM S) := fun A f m s =>
  match m s with
  | (Err e, s') => (Err (f e), s')
  | r => r
  end.

Definition wrapf (fmt : string) (e : error) : error := Errorf fmt [FWrap e].

Declare Scope go_scope.
Delimit Scope go_scope with go.
#[global] Open Scope go_scope.
Notation "m <?> s" := (map_err (wrapf s%string) m)
  (at level 63, left associativity) : go_scope.
(** [if c { return err }] *)
Class Throw (M : Type -> Type) := throw : forall {A}, error -> M A.
#[global] Instance result_throw : Throw result := fun A e => Err e.
#[global] Instance stM_throw {S} : Throw (stM S) := fun A e s => (Err e, s).
Notation "'reject_if' c 'with' e ; k" := (if c then throw e else k)
  (at level 100, c at level 99, e at level 99, k at level 200, right associativity,
   format "'reject_if'  c  'with'  e ;  '/' k") : go_scope.

Definition is_ok {A} (r : result A) : bool :=
  match r with Ok _ => true | _ => false end.
Definition no_panic {A} (r : result A) : Prop := r <> Panic.

(** ** Lengths

    Every Go length is an [int]; a slice in memory is far shorter than 2^63,
    so lengths and indices are unbounded [Z]. *)
Definition zlen {A} (l : list A) : Z := Z.of_nat (length l).

Lemma zlen_nil {A} : zlen (@nil A) = 0.
Proof. reflexivity. Qed.

Lemma zlen_cons {A} (x : A) l : zlen (x :: l) = 1 + zlen l.
Proof. unfold zlen. cbn [length]. lia. Qed.

Lemma zlen_app {A} (l k : list A) : zlen (l ++ k) = zlen l + zlen k.
Proof. unfold zlen. rewrite length_app. lia. Qed.

Lemma zlen_nonneg {A} (l : list A) : 0 <= zlen l.
Proof. unfold zlen. lia. Qed.

Lemma zlen_replicate {A} n (x : A) : zlen (replicate n x) = Z.of_nat n.
Proof. unfold zlen. by rewrite length_replicate. Qed.

Lemma zlen_reverse {A} (l : list A) : zlen (reverse l) = zlen l.
Proof. unfold zlen. by rewrite length_reverse. Qed.

Lemma zlen_fmap {A B} (f : A -> B) (l : list A) : zlen (f <$> l) = zlen l.
Proof. unfold zlen. by rewrite length_fmap. Qed.

Lemma zlen_nil_inv {A} (l : list A) : zlen l = 0 -> l = [].
Proof. destruct l; [done|]. rewrite zlen_cons. pose proof (zlen_nonneg l). lia. Qed.

(** ** Slices

    [take_z]/[drop_z] are [l[:n]] and [l[n:]]; [slice l a b] is [l[a:b]].  The
    monadic [gslice], [gslice_from] and [gindex] panic out of range (a slice's
    capacity is taken to be its length, the strictest reading). *)
Definition take_z {A} (n : Z) (l : list A) : list A := take (Z.to_nat n) l.
Definition drop_z {A} (n : Z) (l : list A) : list A := drop (Z.to_nat n) l.
Definition slice {A} (l : list A) (a b : Z) : list A := take_z (b - a) (drop_z a l).

#[global] Arguments take_z : simpl never.
#[global] Arguments drop_z : simpl never.
#[global] Arguments slice : simpl never.

Definition gslice {A} (l : list A) (a b : Z) : result (list A) :=
  if (0 <=? a) && (a <=? b) && (b <=? zlen l) then Ok (slice l a b) else Panic.
Definition gslice_from {A} (l : list A) (a : Z) : result (list A) :=
  if (0 <=? a) && (a <=? zlen l) then Ok (drop_z a l) else Panic.
Definition gindex {A} (l : list A) (i : Z) : result A :=
  if i <? 0 then Panic
  else match l !! Z.to_nat i with Some x => Ok x | None => Panic end.

(** The byte at index [i], where the code has already checked the length. *)
Definition byte_at (l : bytes) (i : Z) : Byte.byte := default x00 (l !! Z.to_nat i).

(** [make([]byte, n)] *)
Definition zeros (n : Z) : bytes := replicate (Z.to_nat n) x00.

(** [copy(dst, src)]: the destination after the call. *)
Definition gcopy {A} (dst src : list A) : list A :=
  take (length dst) src ++ drop (length src) dst.

(** [copy(dst[a:b], src)] *)
Definition copy_at {A} (dst : list A) (a b : Z) (src : list A) : list A :=
  take_z a dst ++ gcopy (slice dst a b) src ++ drop_z b dst.

(** The same where the code computes [a]: a slice out of range panics. *)
Definition gcopy_at {A} (dst : list A) (a b : Z) (src : list A) : result (list A) :=
  if (0 <=? a) && (a <=? b) && (b <=? zlen dst) then Ok (copy_at dst a b src) else Panic.

Lemma zlen_take_z {A} n (l : list A) : zlen (take_z n l) = Z.min (Z.max 0 n) (zlen l).
Proof. unfold zlen, take_z. rewrite length_take. lia. Qed.

Lemma zlen_drop_z {A} n (l : list A) : zlen (drop_z n l) = Z.max 0 (zlen l - Z.max 0 n).
Proof. unfold zlen, drop_z. rewrite length_drop. lia. Qed.

Lemma zlen_slice {A} (l : list A) a b :
  zlen (slice l a b) = Z.min (Z.max 0 (b - a)) (Z.max 0 (zlen l - Z.max 0 a)).
Proof. unfold slice. by rewrite zlen_take_z, zlen_drop_z. Qed.

Lemma zlen_zeros n : zlen (zeros n) = Z.max 0 n.
Proof. unfold zeros. rewrite zlen_replicate. lia. Qed.

Lemma zlen_gcopy {A} (dst src : list A) : zlen (gcopy dst src) = zlen dst.
Proof. unfold zlen, gcopy. rewrite length_app, length_take, length_drop. lia. Qed.

Lemma zlen_copy_at {A} (dst : list A) a b src :
  0 <= a <= b -> b <= zlen dst -> zlen (copy_at dst a b src) = zlen dst.
Proof.
  intros. unfold copy_at.
  rewrite !zlen_app, zlen_gcopy, zlen_take_z, zlen_drop_z, zlen_slice. lia.
Qed.

Create Rewrite HintDb zlen.
#[export] Hint Rewrite @zlen_nil @zlen_cons @zlen_app @zlen_replicate @zlen_reverse @zlen_fmap
  @zlen_take_z @zlen_drop_z @zlen_slice @zlen_zeros @zlen_gcopy : zlen.

(** Arithmetic on lengths: normalise every [zlen], then [lia]. *)
Ltac zlen_pos :=
  repeat match goal with
  | |- context [zlen ?l] =>
      lazymatch goal with H : 0 <= zlen l |- _ => fail | _ => pose proof (zlen_nonneg l) end
  | H0 : context [zlen ?l] |- _ =>
      lazymatch goal with H : 0 <= zlen l |- _ => fail | _ => pose proof (zlen_nonneg l) end
  end.
Ltac zlen_norm := autorewrite with zlen in *.
Ltac zlia := zlen_norm; zlen_pos; lia.

Lemma take_z_app {A} n (l k : list A) : zlen l = n -> take_z n (l ++ k) = l.
Proof. intros <-. unfold take_z, zlen. rewrite Nat2Z.id. apply take_app_length. Qed.

Lemma drop_z_app {A} n (l k : list A) : zlen l = n -> drop_z n (l ++ k) = k.
Proof. intros <-. unfold drop_z, zlen. rewrite Nat2Z.id. apply drop_app_length. Qed.

Lemma take_drop_z {A} n (l : list A) : take_z n l ++ drop_z n l = l.
Proof. apply take_drop. Qed.

Lemma take_z_all {A} n (l : list A) : zlen l <= n -> take_z n l = l.
Proof. intros. unfold take_z. apply take_ge. unfold zlen in *. lia. Qed.

Lemma drop_z_all {A} n (l : list A) : zlen l <= n -> drop_z n l = [].
Proof. intros. unfold drop_z. apply drop_ge. unfold zlen in *. lia. Qed.

Lemma drop_z_0 {A} (l : list A) : drop_z 0 l = l.
Proof. reflexivity. Qed.

Lemma drop_drop_z {A} a b (l : list A) : 0 <= a -> 0 <= b -> drop_z a (drop_z b l) = drop_z (b + a) l.
Proof. intros. unfold drop_z. rewrite drop_drop. f_equal. lia. Qed.

Lemma slice_app {A} (l m r : list A) a b :
  zlen l = a -> zlen m = b - a -> slice (l ++ m ++ r) a b = m.
Proof. intros. unfold slice. rewrite drop_z_app by done. by apply take_z_app. Qed.

Lemma slice_from_0 {A} (l : list A) b : slice l 0 b = take_z b l.
Proof. unfold slice. by rewrite Z.sub_0_r, drop_z_0. Qed.

Lemma gcopy_all {A} (dst src : list A) : zlen src = zlen dst -> gcopy dst src = src.
Proof.
  unfold zlen, gcopy. intros. rewrite take_ge, drop_ge by lia. apply app_nil_r.
Qed.

Lemma copy_at_app {A} (l m r src : list A) a b :
  zlen l = a -> zlen m = b - a -> zlen src = b - a -> copy_at (l ++ m ++ r) a b src = l ++ src ++ r.
Proof.
  intros Hl Hm Hs. unfold copy_at. rewrite slice_app, gcopy_all by lia.
  rewrite take_z_app by done. rewrite (app_assoc l m r), (drop_z_app b (l ++ m) r) by (rewrite ?zlen_app; lia).
  done.
Qed.

Lemma gcopy_at_ok {A} (dst : list A) a b src :
  0 <= a <= b -> b <= zlen dst -> gcopy_at dst a b src = Ok (copy_at dst a b src).
Proof. intros. unfold gcopy_at. rewrite !(proj2 (Z.leb_le _ _)) by lia. done. Qed.

Lemma gslice_ok {A} (l : list A) a b :
  0 <= a <= b -> b <= zlen l -> gslice l a b = Ok (slice l a b).
Proof. intros. unfold gslice. rewrite !(proj2 (Z.leb_le _ _)) by lia. done. Qed.

Lemma gslice_from_ok {A} (l : list A) a :
  0 <= a <= zlen l -> gslice_from l a = Ok (drop_z a l).
Proof. intros. unfold gslice_from. rewrite !(proj2 (Z.leb_le _ _)) by lia. done. Qed.

Lemma gindex_ok (l : bytes) i : 0 <= i < zlen l -> gindex l i = Ok (byte_at l i).
Proof.
  intros. unfold gindex, byte_at, zlen in *. rewrite (proj2 (Z.ltb_ge _ _)) by lia.
  destruct (l !! Z.to_nat i) eqn:E; [done|]. apply lookup_ge_None in E. lia.
Qed.

(** ** Bytes as integers *)

Lemma byte_to_Z_range b : 0 <= byte_to_Z b < 256.
Proof. unfold byte_to_Z. pose proof (Byte.to_N_bounded b). lia. Qed.

Lemma byte_to_of_Z z : byte_to_Z (byte_of_Z z) = z mod 256.
Proof.
  unfold byte_to_Z, byte_of_Z. pose proof (Z.mod_pos_bound z 256 ltac:(lia)).
  destruct (Byte.of_N _) as [b|] eqn:E; cbn.
  - apply Byte.to_of_N in E. rewrite E. lia.
  - apply Byte.of_N_None_iff in E. lia.
Qed.

Lemma byte_of_to_Z b : byte_of_Z (byte_to_Z b) = b.
Proof.
  unfold byte_of_Z, byte_to_Z. pose proof (Byte.to_N_bounded b).
  rewrite Z.mod_small, N2Z.id, Byte.of_to_N by lia. done.
Qed.

Lemma byte_to_Z_inj a b : byte_to_Z a = byte_to_Z b -> a = b.
Proof. intros H. by rewrite <-(byte_of_to_Z a), <-(byte_of_to_Z b), H. Qed.

Lemma byte_of_Z_mod z : byte_of_Z (z mod 256) = byte_of_Z z.
Proof. apply byte_to_Z_inj. rewrite !byte_to_of_Z. apply Z.mod_mod. lia. Qed.

Lemma byte_of_Z_inj a b :
  0 <= a < 256 -> 0 <= b < 256 -> byte_of_Z a = byte_of_Z b -> a = b.
Proof.
  intros Ha Hb H. apply (f_equal byte_to_Z) in H. rewrite !byte_to_of_Z in H.
  by rewrite !Z.mod_small in H.
Qed.

(** ** Fixed-width integers in a buffer (package [encoding/binary]) *)

(** [binary.LittleEndian.UintN] of the whole list. *)
Fixpoint le_uint (l : bytes) : Z :=
  match l with [] => 0 | b :: l' => byte_to_Z b + 256 * le_uint l' end.

(** [binary.LittleEndian.PutUintN]: the low [n] bytes. *)
Fixpoint le_bytes (n : nat) (z : Z) : bytes :=
  match n with O => [] | S n' => byte_of_Z z :: le_bytes n' (z / 256) end.

Definition be_uint (l : bytes) : Z := le_uint (reverse l).
Definition be_bytes (n : nat) (z : Z) : bytes := reverse (le_bytes n z).

Lemma length_le_bytes n z : length (le_bytes n z) = n.
Proof. revert z. induction n as [|n IH]; intros z; cbn; [done|]. by rewrite IH. Qed.

Lemma length_be_bytes n z : length (be_bytes n z) = n.
Proof. unfold be_bytes. by rewrite length_reverse, length_le_bytes. Qed.

Lemma zlen_le_bytes n z : zlen (le_bytes n z) = Z.of_nat n.
Proof. unfold zlen. by rewrite length_le_bytes. Qed.

Lemma zlen_be_bytes n z : zlen (be_bytes n z) = Z.of_nat n.
Proof. unfold zlen. by rewrite length_be_bytes. Qed.

#[export] Hint Rewrite zlen_le_bytes zlen_be_bytes : zlen.

Lemma le_uint_le_bytes n z : le_uint (le_bytes n z) = z mod 256 ^ Z.of_nat n.
Proof.
  revert z. induction n as [|n IH]; intros z; cbn [le_bytes le_uint].
  - by rewrite Z.mod_1_r.
  - rewrite IH, byte_to_of_Z, Nat2Z.inj_succ, Z.pow_succ_r by lia.
    rewrite Z.rem_mul_r by lia. done.
Qed.

Lemma le_uint_range l : 0 <= le_uint l < 256 ^ zlen l.
Proof.
  induction l as [|b l IH]; [change (zlen []) with 0; cbn; lia|].
  cbn [le_uint]. rewrite zlen_cons.
  pose proof (byte_to_Z_range b). pose proof (zlen_nonneg l).
  rewrite Z.pow_add_r, Z.pow_1_r by lia.
  generalize dependent (256 ^ zlen l). lia.
Qed.

Lemma le_bytes_le_uint l : le_bytes (length l) (le_uint l) = l.
Proof.
  induction l as [|b l IH]; [done|]. cbn [length le_uint le_bytes].
  pose proof (byte_to_Z_range b). f_equal.
  - apply byte_to_Z_inj. rewrite byte_to_of_Z, (Z.mul_comm 256), Z_mod_plus_full.
    by apply Z.mod_small.
  - rewrite (Z.mul_comm 256), Z.div_add, Z.div_small by lia. by rewrite Z.add_0_l.
Qed.

Lemma be_uint_be_bytes n z : be_uint (be_bytes n z) = z mod 256 ^ Z.of_nat n.
Proof. unfold be_uint, be_bytes. rewrite reverse_involutive. apply le_uint_le_bytes. Qed.

Lemma be_uint_range l : 0 <= be_uint l < 256 ^ zlen l.
Proof. unfold be_uint. rewrite <-(zlen_reverse l). apply le_uint_range. Qed.

Lemma be_bytes_be_uint n l : length l = n -> be_bytes n (be_uint l) = l.
Proof.
  intros <-. unfold be_uint, be_bytes. rewrite <-(length_reverse l), le_bytes_le_uint.
  apply reverse_involutive.
Qed.

Lemma be_uint_inj l k : length l = length k -> be_uint l = be_uint k -> l = k.
Proof.
  intros Hl H. rewrite <-(be_bytes_be_uint (length k) l Hl), H. by apply be_bytes_be_uint.
Qed.

Lemma be_bytes_inj n a b :
  0 <= a < 256 ^ Z.of_nat n -> 0 <= b < 256 ^ Z.of_nat n ->
  be_bytes n a = be_bytes n b -> a = b.
Proof.
  intros Ha Hb H. apply (f_equal be_uint) in H. rewrite !be_uint_be_bytes in H.
  by rewrite !Z.mod_small in H.
Qed.

(** ** Exclusive or *)

Definition byte_xor (a b : Byte.byte) : Byte.byte :=
  byte_of_Z (Z.lxor (byte_to_Z a) (byte_to_Z b)).

(** [xor_bytes a b] stops at the shorter operand. *)
Definition xor_bytes (a b : bytes) : bytes := zip_with byte_xor a b.

Lemma lxor_range n a b :
  0 <= n -> 0 <= a < 2 ^ n -> 0 <= b < 2 ^ n -> 0 <= Z.lxor a b < 2 ^ n.
Proof.
  intros Hn Ha Hb. assert (Z.lxor a b = Z.lxor a b mod 2 ^ n) as ->;
    [|apply Z.mod_pos_bound; lia].
  rewrite <-(Z.mod_small a (2 ^ n)), <-(Z.mod_small b (2 ^ n)) by lia.
  apply Z.bits_inj'. intros i Hi.
  destruct (Z.ltb_spec i n) as [Hin|Hin];
    [by rewrite (Z.mod_pow2_bits_low (Z.lxor _ _) n) by lia|].
  rewrite (Z.mod_pow2_bits_high (Z.lxor _ _) n) by lia.
  rewrite Z.lxor_spec, !Z.mod_pow2_bits_high by lia. done.
Qed.

Lemma byte_to_Z_xor a b : byte_to_Z (byte_xor a b) = Z.lxor (byte_to_Z a) (byte_to_Z b).
Proof.
  unfold byte_xor. rewrite byte_to_of_Z. apply Z.mod_small.
  apply (lxor_range 8); [lia|apply byte_to_Z_range..].
Qed.

Lemma byte_xor_invol a b : byte_xor (byte_xor a b) b = a.
Proof.
  apply byte_to_Z_inj. by rewrite !byte_to_Z_xor, Z.lxor_assoc, Z.lxor_nilpotent, Z.lxor_0_r.
Qed.

Lemma byte_xor_inj_r a b c : byte_xor a b = byte_xor a c -> b = c.
Proof.
  intros H. apply (f_equal byte_to_Z) in H. rewrite !byte_to_Z_xor in H.
  apply byte_to_Z_inj. apply (f_equal (Z.lxor (byte_to_Z a))) in H.
  by rewrite <-!Z.lxor_assoc, !Z.lxor_nilpotent, !Z.lxor_0_l in H.
Qed.

Lemma length_xor_bytes a b : length (xor_bytes a b) = Nat.min (length a) (length b).
Proof. apply length_zip_with. Qed.

Lemma zlen_xor_bytes a b : zlen (xor_bytes a b) = Z.min (zlen a) (zlen b).
Proof. unfold zlen. rewrite length_xor_bytes. lia. Qed.
#[export] Hint Rewrite zlen_xor_bytes : zlen.

Lemma xor_bytes_invol a k : (length a <= length k)%nat -> xor_bytes (xor_bytes a k) k = a.
Proof.
  revert k. induction a as [|x a IH]; intros [|y k] H; cbn in *; [done|done|lia|].
  rewrite byte_xor_invol. f_equal. apply IH. lia.
Qed.

Lemma xor_bytes_inj_r a b c :
  length b = length a -> length c = length a -> xor_bytes a b = xor_bytes a c -> b = c.
Proof.
  revert b c. induction a as [|x a IH]; intros [|y b] [|z c] Hb Hc H; try done.
  cbn in *. injection H as H1 H2. apply byte_xor_inj_r in H1 as ->. f_equal. apply IH; lia || done.
Qed.

(** ** Results: inversion *)

Lemma bind_Ok {A B} (m : result A) (f : A -> result B) b :
  (x ← m; f x) = Ok b <-> exists a, m = Ok a /\ f a = Ok b.
Proof. split; [destruct m; [by eauto|done..]|by intros (a & -> & H)]. Qed.

Lemma map_err_Ok {A} g (m : result A) a : map_err g m = Ok a <-> m = Ok a.
Proof. by destruct m. Qed.

Lemma bind_no_panic {A B} (m : result A) (f : A -> result B) :
  no_panic m -> (forall a, m = Ok a -> no_panic (f a)) -> no_panic (x ← m; f x).
Proof. unfold no_panic. destruct m; cbn; intros; [by auto|done..]. Qed.

Lemma map_err_no_panic {A} g (m : result A) : no_panic m -> no_panic (map_err g m).
Proof. by destruct m. Qed.

Lemma throw_no_panic {A} e : no_panic (throw e : result A).
Proof. done. Qed.

Lemma Ok_no_panic {A} (a : A) : no_panic (Ok a).
Proof. done. Qed.

#[export] Hint Resolve throw_no_panic Ok_no_panic : core.

Lemma Ok_inj {A} (a b : A) : Ok a = Ok b -> a = b.
Proof. by intros [= ->]. Qed.

Lemma Ok_pair_inj {S A} (a b : A) (s s' : S) : (Ok a, s) = (Ok b, s') -> a = b /\ s = s'.
Proof. by intros [= -> ->]. Qed.

(** Split every successful bind and every passed guard of a hypothesis. *)
Ltac inv_ok_step :=
  match goal with
  | H : (_ ≫= _) = Ok _ |- _ =>
      let x := fresh "v" in let Hx := fresh "Hv" in
      apply bind_Ok in H as (x & Hx & H); cbv beta in H
  | H : map_err _ _ = Ok _ |- _ => apply map_err_Ok in H
  | H : (if ?c then throw _ else _) = Ok _ |- _ =>
      let Hc := fresh "Hc" in destruct c eqn:Hc; [discriminate H|]
  | H : (if ?c then Err _ else _) = Ok _ |- _ =>
      let Hc := fresh "Hc" in destruct c eqn:Hc; [discriminate H|]
  | H : Ok ?a = Ok ?b |- _ => apply Ok_inj in H; try (is_var b; subst b)
  | H : mret ?a = Ok ?b |- _ => change (Ok a = Ok b) in H
  | H : throw _ = Ok _ |- _ => discriminate H
  | H : Err _ = Ok _ |- _ => discriminate H
  | H : Panic = Ok _ |- _ => discriminate H
  end.
Ltac inv_ok := repeat inv_ok_step.

(** Boolean tests of the code as arithmetic. *)
Ltac zbool :=
  repeat match goal with
  | H : (_ && _)%bool = true |- _ => apply andb_true_iff in H as [? ?]
  | H : (_ || _)%bool = false |- _ => apply orb_false_iff in H as [? ?]
  | H : negb _ = true |- _ => apply negb_true_iff in H
  | H : negb _ = false |- _ => apply negb_false_iff in H
  | H : (_ =? _) = true |- _ => apply Z.eqb_eq in H
  | H : (_ =? _) = false |- _ => apply Z.eqb_neq in H
  | H : (_ <? _) = true |- _ => apply Z.ltb_lt in H
  | H : (_ <? _) = false |- _ => apply Z.ltb_ge in H
  | H : (_ <=? _) = true |- _ => apply Z.leb_le in H
  | H : (_ <=? _) = false |- _ => apply Z.leb_gt in H
  | H : bool_decide _ = true |- _ => apply bool_decide_eq_true in H
  | H : bool_decide _ = false |- _ => apply bool_decide_eq_false in H
  end.

(** ** Running a computation *)

(** Case split on the first integer test of the goal; closes the impossible
    branches by arithmetic on lengths. *)
Ltac zcase1 :=
  match goal with
  | |- context [?a <? ?b] => destruct (Z.ltb_spec a b); try (exfalso; zlia)
  | |- context [?a <=? ?b] => destruct (Z.leb_spec a b); try (exfalso; zlia)
  | |- context [?a =? ?b] => destruct (Z.eqb_spec a b); try (exfalso; zlia)
  end; cbn [negb andb orb].
Ltac zcase := repeat zcase1.

(** Expose the state passing of the goal. *)
Ltac stm := unfold mbind, stM_bind, mret, stM_ret, throw, stM_throw, lift, get_st, put_st,
  map_err, stM_map_err, result_map_err, result_bind, result_ret, result_throw.

Lemma stM_bind_Ok {S A B} (m : stM S A) (f : A -> stM S B) s b s' :
  (x ← m; f x) s = (Ok b, s') <-> exists a s1, m s = (Ok a, s1) /\ f a s1 = (Ok b, s').
Proof.
  unfold mbind, stM_bind. split.
  - destruct (m s) as [[a|e|] s1]; [by eauto|done..].
  - by intros (a & s1 & -> & H).
Qed.

Lemma stM_bind_no_panic {S A B} (m : stM S A) (k : A -> stM S B) s :
  no_panic (m s).1 -> (forall a s', m s = (Ok a, s') -> no_panic (k a s').1) ->
  no_panic ((m ≫= k) s).1.
Proof.
  intros Hm Hk. unfold mbind, stM_bind. destruct (m s) as [[a|e|] s'] eqn:E; [by apply Hk|done|done].
Qed.

Lemma stM_map_err_Ok {S A} g (m : stM S A) s a s' :
  map_err g m s = (Ok a, s') <-> m s = (Ok a, s').
Proof. unfold map_err, stM_map_err. by destruct (m s) as [[?|?|] ?]. Qed.

Lemma stM_if_throw {S A} (c : bool) e (k : stM S A) s b s' :
  (if c then throw e else k) s = (Ok b, s') <-> c = false /\ k s = (Ok b, s').
Proof. destruct c; [split; [done|by intros [? ?]]|by split; [|intros [_ ?]]]. Qed.

Lemma lift_Ok {S A} (r : result A) (s : S) a s' :
  lift r s = (Ok a, s') <-> r = Ok a /\ s' = s.
Proof. unfold lift. split; [by intros [= -> ->]|by intros [-> ->]]. Qed.

(** The same for a computation: every hypothesis [m s = (Ok a, s')]. *)
Ltac inv_stm_step :=
  match goal with
  | H : (_ ≫= _) _ = (Ok _, _) |- _ =>
      let x := fresh "v" in let s := fresh "st" in let Hx := fresh "Hv" in
      apply stM_bind_Ok in H as (x & s & Hx & H); cbv beta in H
  | H : map_err _ _ _ = (Ok _, _) |- _ => apply stM_map_err_Ok in H
  | H : (if _ then throw _ else _) _ = (Ok _, _) |- _ =>
      let Hc := fresh "Hc" in apply stM_if_throw in H as [Hc H]
  | H : lift _ _ = (Ok _, _) |- _ => apply lift_Ok in H as [H ->]
  | H : get_st _ = (Ok _, _) |- _ => unfold get_st in H; injection H as <- <-
  | H : put_st _ _ = (Ok _, _) |- _ => unfold put_st in H; injection H as <- <-
  | H : mret _ _ = (Ok _, _) |- _ => unfold mret, stM_ret in H
  | H : (Ok ?a, ?s) = (Ok ?b, ?s') |- _ =>
      let Hs := fresh "Hs" in apply Ok_pair_inj in H as [H Hs];
      try (is_var b; subst b); try (is_var s'; subst s'); simplify_eq
  end.
Ltac inv_stm := repeat first [inv_stm_step | inv_ok_step].

(** ** For witnesses: evaluate the result of a computation, not its final state. *)

Definition get_ok {A} (d : A) (r : result A) : A := match r with Ok a => a | _ => d end.

Lemma run_pair {S A} (m : stM S A) s a : (m s).1 = Ok a -> m s = (Ok a, (m s).2).
Proof. destruct (m s). by intros [= ->]. Qed.

Lemma run_ok {S A} (m : stM S A) s d : is_ok (m s).1 = true -> m s = (Ok (get_ok d (m s).1), (m s).2).
Proof. destruct (m s) as [[a|e|] s']; done. Qed.

(** ** Computations on a part of the state *)

Definition on_fst {S T A} (m : stM S A) : stM (S * T) A := fun '(s, t) =>
  let '(r, s') := m s in (r, (s', t)).
Definition on_snd {S T A} (m : stM T A) : stM (S * T) A := fun '(s, t) =>
  let '(r, t') := m t in (r, (s, t')).

Lemma on_fst_Ok {S T A} (m : stM S A) (s : S) (t : T) a st :
  on_fst m (s, t) = (Ok a, st) <-> m s = (Ok a, st.1) /\ st.2 = t.
Proof.
  unfold on_fst. destruct (m s) as [r s'] eqn:E, st as [s1 t1]. cbn.
  split; [by intros [= -> -> ->]|by intros [[= -> ->] ->]].
Qed.

Lemma on_snd_Ok {S T A} (m : stM T A) (s : S) (t : T) a st :
  on_snd m (s, t) = (Ok a, st) <-> m t = (Ok a, st.2) /\ st.1 = s.
Proof.
  unfold on_snd. destruct (m t) as [r s'] eqn:E, st as [s1 t1]. cbn.
  split; [by intros [= -> -> ->]|by intros [[= -> ->] ->]].
Qed.

(** A loop that the code bounds by the input it consumes runs on fuel; this
    error, which no Go code returns, marks a fuel that was too small. *)
Definition ErrOutOfFuel : error := ErrNew "model: out of fuel".

(** ** Total correctness

    [decides m s P a s']: run in [s], [m] ends with [a] in [s'] when [P] holds
    and with an error when it does not; it never panics. *)
Definition decides {S A} (m : stM S A) (s : S) (P : Prop) (a : A) (s' : S) : Prop :=
  (P /\ m s = (Ok a, s')) \/ (~ P /\ exists e s'', m s = (Err e, s'')).
Definition rdecides {A} (r : result A) (P : Prop) (a : A) : Prop :=
  (P /\ r = Ok a) \/ (~ P /\ exists e, r = Err e).

Section decides.
Context {S A B : Type}.
Implicit Types (s : S) (P Q : Prop).

Lemma decides_ret s (a : A) : decides (mret a) s True a s.
Proof. by left. Qed.

Lemma decides_put s s' : decides (put_st s') s True tt s'.
Proof. by left. Qed.

Lemma decides_bind (m : stM S A) (k : A -> stM S B) s P a s1 Q b s2 :
  decides m s P a s1 -> (P -> decides (k a) s1 Q b s2) -> decides (x ← m; k x) s (P /\ Q) b s2.
Proof.
  unfold mbind, stM_bind.
  intros [[HP E]|[HP (e & s'' & E)]] Hk; unfold decides; rewrite E.
  - destruct (Hk HP) as [[HQ E2]|[HQ (e & s'' & E2)]]; [by left|].
    right. split; [by intros [_ ?]|eauto].
  - right. split; [by intros [? _]|eauto].
Qed.

Lemma decides_lift (r : result A) s P a : rdecides r P a -> decides (lift r) s P a s.
Proof. intros [[HP ->]|[HP [e ->]]]; [by left|right; split; [done|by eexists _, _]]. Qed.

Lemma decides_throw_if (c : bool) e (k : stM S A) s P Q a s' :
  (c = false <-> P) -> (P -> decides k s Q a s') -> decides (if c then throw e else k) s (P /\ Q) a s'.
Proof.
  intros Hc Hk. destruct c.
  - right. split; [|by eexists _, _]. intros [HP _]. by apply Hc in HP.
  - destruct Hk as [[HQ E]|[HQ H]]; [by apply Hc|left|right].
    + split; [split; [by apply Hc|done]|done].
    + split; [by intros [_ ?]|done].
Qed.

Lemma decides_map_err g (m : stM S A) s P a s' :
  decides m s P a s' -> decides (map_err g m) s P a s'.
Proof.
  unfold decides, map_err, stM_map_err.
  intros [[HP E]|[HP (e & s'' & E)]]; rewrite E; [by left|right; split; [done|eauto]].
Qed.

Lemma decides_iff (m : stM S A) s P Q a s' : (P <-> Q) -> decides m s P a s' -> decides m s Q a s'.
Proof. unfold decides. intros H. rewrite H. done. Qed.

Lemma decides_Ok (m : stM S A) s P a s' x t :
  decides m s P a s' -> m s = (Ok x, t) <-> P /\ x = a /\ t = s'.
Proof.
  intros [[HP E]|[HP (e & s'' & E)]]; rewrite E.
  - split; [by intros [= -> ->]|by intros (_ & -> & ->)].
  - split; [done|by intros (? & _)].
Qed.

Lemma decides_fst_Ok (m : stM S A) s P a s' : decides m s P a s' -> (m s).1 = Ok a <-> P.
Proof. intros [[HP E]|[HP (e & s'' & E)]]; rewrite E; split; done. Qed.

Lemma decides_no_panic (m : stM S A) s P a s' : decides m s P a s' -> no_panic (m s).1.
Proof. intros [[_ E]|[_ (e & s'' & E)]]; by rewrite E. Qed.

Lemma rdecides_ok (a : A) : rdecides (Ok a) True a.
Proof. by left. Qed.

Lemma rdecides_bind (m : result A) (k : A -> result B) P a Q b :
  rdecides m P a -> (P -> rdecides (k a) Q b) -> rdecides (x ← m; k x) (P /\ Q) b.
Proof.
  intros [[HP ->]|[HP [e ->]]] Hk.
  - destruct (Hk HP) as [[HQ E2]|[HQ [e E2]]]; [by left|].
    right. split; [by intros [_ ?]|eauto].
  - right. split; [by intros [? _]|by exists e].
Qed.

Lemma rdecides_throw_if (c : bool) e (k : result A) P Q a :
  (c = false <-> P) -> (P -> rdecides k Q a) -> rdecides (if c then throw e else k) (P /\ Q) a.
Proof.
  intros Hc Hk. destruct c.
  - right. split; [|by exists e]. intros [HP _]. by apply Hc in HP.
  - destruct Hk as [[HQ E]|[HQ H]]; [by apply Hc|left|right].
    + split; [split; [by apply Hc|done]|done].
    + split; [by intros [_ ?]|done].
Qed.

Lemma rdecides_map_err g (m : result A) P a : rdecides m P a -> rdecides (map_err g m) P a.
Proof. intros [[HP ->]|[HP [e ->]]]; [by left|right; split; [done|by exists (g e)]]. Qed.

Lemma rdecides_iff (m : result A) P Q a : (P <-> Q) -> rdecides m P a -> rdecides m Q a.
Proof. unfold rdecides. intros H. rewrite H. done. Qed.

Lemma rdecides_Ok (m : result A) P a x : rdecides m P a -> m = Ok x <-> P /\ x = a.
Proof.
  intros [[HP ->]|[HP [e ->]]].
  - split; [by intros [= ->]|by intros (_ & ->)].
  - split; [done|by intros (? & _)].
Qed.

Lemma rdecides_no_panic (m : result A) P a : rdecides m P a -> no_panic m.
Proof. by intros [[_ ->]|[_ [e ->]]]. Qed.
End decides.

(** ** Fields of a buffer *)

Lemma slice_drop_z {A} (l : list A) o a b :
  0 <= o -> 0 <= a -> slice (drop_z o l) a b = slice l (o + a) (o + b).
Proof.
  intros. unfold slice. rewrite drop_drop_z by lia. f_equal. lia.
Qed.

Lemma slice_take_z {A} (l : list A) n a b :
  0 <= a -> b <= n -> slice (take_z n l) a b = slice l a b.
Proof.
  intros. unfold slice, take_z, drop_z. rewrite skipn_firstn_comm, take_take. f_equal. lia.
Qed.

(** A full overwrite of [l[a:b]]. *)
Lemma copy_at_full {A} (l : list A) a b src :
  0 <= a <= b -> b <= zlen l -> zlen src = b - a ->
  copy_at l a b src = take_z a l ++ src ++ drop_z b l.
Proof. intros. unfold copy_at. rewrite gcopy_all by zlia. done. Qed.

Lemma slice_copy_same {A} (l : list A) a b src :
  0 <= a <= b -> b <= zlen l -> zlen src = b - a -> slice (copy_at l a b src) a b = src.
Proof. intros. rewrite copy_at_full by done. apply slice_app; zlia. Qed.

Lemma slice_copy_before {A} (l : list A) a b src c d :
  0 <= c -> d <= a -> a <= b -> b <= zlen l ->
  slice (copy_at l a b src) c d = slice l c d.
Proof.
  intros. destruct (decide (d <= c)); [unfold slice, take_z; by rewrite !Z2Nat.nonpos by lia|].
  rewrite <-(slice_take_z _ a) by lia. unfold copy_at.
  rewrite take_z_app by zlia. apply slice_take_z; lia.
Qed.

Lemma slice_copy_after {A} (l : list A) a b src c d :
  0 <= a <= b -> b <= c -> b <= zlen l ->
  slice (copy_at l a b src) c d = slice l c d.
Proof.
  intros. replace c with (b + (c - b)) by lia. replace d with (b + (d - b)) by lia.
  rewrite <-!slice_drop_z by lia. f_equal. unfold copy_at.
  rewrite app_assoc, drop_z_app by zlia. done.
Qed.

Lemma slice_full {A} (l : list A) n : zlen l <= n -> slice l 0 n = l.
Proof. intros. rewrite slice_from_0. by apply take_z_all. Qed.

Lemma slice_zeros a b n : 0 <= a -> b <= n -> slice (zeros n) a b = zeros (b - a).
Proof.
  intros. unfold slice, take_z, drop_z, zeros. rewrite drop_replicate, take_replicate. f_equal. lia.
Qed.

Lemma gcopy_prefix {A} (dst src : list A) :
  zlen src <= zlen dst -> gcopy dst src = src ++ drop_z (zlen src) dst.
Proof.
  intros Hl. unfold gcopy, drop_z, zlen in *. rewrite take_ge by lia. by rewrite Nat2Z.id.
Qed.
