(* ===== verification/Gcm.v ===== *)
(** * Authenticated encryption

    [crypto/cipher] is Go's standard library: the [cipher.AEAD] interface as a
    record of operations with its laws, and [cipher.NewGCM] (NIST SP 800-38D,
    96-bit nonces, 128-bit tags) over an arbitrary 128-bit block cipher, with
    the proof that it satisfies the laws.  The record layer is verified
    against the laws only. *)

From S2P Require Import Prelude.

(** ** The interface *)

Record AEAD := {
  aead_Seal : bytes -> bytes -> bytes -> result bytes;  (* nonce, plaintext, aad *)
  aead_Open : bytes -> bytes -> bytes -> result bytes   (* nonce, ciphertext, aad *)
}.

Definition gcmBlockSize : Z := 16.
Definition gcmTagSize : Z := 16.
Definition gcmStandardNonceSize : Z := 12.
Definition gcmMaxPlaintext : Z := (2 ^ 32 - 2) * gcmBlockSize.

Class AEADLaws (a : AEAD) := {
  aead_seal_ok n p ad :
    zlen n = gcmStandardNonceSize -> zlen p <= gcmMaxPlaintext ->
    exists c, aead_Seal a n p ad = Ok c /\ zlen c = zlen p + gcmTagSize /\
              aead_Open a n c ad = Ok p;
  aead_seal_len n p ad c : aead_Seal a n p ad = Ok c -> zlen c = zlen p + gcmTagSize;
  aead_open_sound n c ad p :
    zlen n = gcmStandardNonceSize -> aead_Open a n c ad = Ok p -> aead_Seal a n p ad = Ok c;
  aead_open_no_panic n c ad :
    zlen n = gcmStandardNonceSize -> no_panic (aead_Open a n c ad)
}.

(** ** GCM *)

(** [cipher.Block] *)
Record Block := {
  BlockSize : Z;
  Encrypt : bytes -> bytes
}.

Class BlockLaws (b : Block) := {
  block_size : BlockSize b = gcmBlockSize;
  encrypt_len x : zlen x = gcmBlockSize -> zlen (Encrypt b x) = gcmBlockSize
}.

(** Multiplication in GF(2^128): bit 127 of the integer is the coefficient of x^0. *)
Fixpoint gf_mul_loop (n : nat) (x z v : Z) : Z :=
  match n with
  | O => z
  | S n' =>
      let z' := if Z.testbit x (Z.of_nat n') then Z.lxor z v else z in
      let v' := if Z.testbit v 0 then Z.lxor (Z.shiftr v 1) (Z.shiftl 0xe1 120)
                else Z.shiftr v 1 in
      gf_mul_loop n' x z' v'
  end.
Definition gf_mul (x y : Z) : Z := gf_mul_loop 128 x 0 y.

(** The 16-byte blocks of [l], the last one padded with zeros. *)
Fixpoint blocks16 (fuel : nat) (l : bytes) : list bytes :=
  match fuel, l with
  | O, _ | _, [] => []
  | S f, _ => gcopy (zeros 16) (take_z 16 l) :: blocks16 f (drop_z 16 l)
  end.
Definition gcm_blocks (l : bytes) : list bytes := blocks16 (length l) l.

Definition ghash_update (h y : Z) (bs : list bytes) : Z :=
  foldl (fun y b => gf_mul (Z.lxor y (be_uint b)) h) y bs.
Definition ghash (h : Z) (aad ct : bytes) : Z :=
  ghash_update h 0
    (gcm_blocks aad ++ gcm_blocks ct ++ [be_bytes 8 (8 * zlen aad) ++ be_bytes 8 (8 * zlen ct)]).

Section gcm.
Context (b : Block).

(** The counter block: nonce, then a 32-bit big-endian counter. *)
Definition gcm_ctr (nonce : bytes) (i : Z) : bytes := nonce ++ be_bytes 4 i.

(** Counter mode from counter 2 on; counter 1 masks the tag. *)
Definition gcm_keystream (nonce : bytes) (n : nat) : bytes :=
  concat ((fun i => Encrypt b (gcm_ctr nonce (Z.of_nat i + 2))) <$> seq 0 n).
Definition gcm_crypt (nonce data : bytes) : bytes :=
  xor_bytes data (gcm_keystream nonce (Nat.div (length data + 15) 16)).

Definition gcm_tag (nonce ct aad : bytes) : bytes :=
  xor_bytes (be_bytes 16 (ghash (be_uint (Encrypt b (zeros 16))) aad ct))
            (Encrypt b (gcm_ctr nonce 1)).

Definition errOpen : error := ErrNew "cipher: message authentication failed".

Definition gcm_Seal (nonce p aad : bytes) : result bytes :=
  if negb (zlen nonce =? gcmStandardNonceSize) then Panic
  else if gcmMaxPlaintext <? zlen p then Panic
  else let c := gcm_crypt nonce p in Ok (c ++ gcm_tag nonce c aad).

Definition gcm_Open (nonce ct aad : bytes) : result bytes :=
  if negb (zlen nonce =? gcmStandardNonceSize) then Panic
  else
    reject_if zlen ct <? gcmTagSize with errOpen;
    reject_if gcmMaxPlaintext + gcmTagSize <? zlen ct with errOpen;
    let c := take_z (zlen ct - gcmTagSize) ct in
    let tag := drop_z (zlen ct - gcmTagSize) ct in
    reject_if negb (bool_decide (tag = gcm_tag nonce c aad)) with errOpen;
    Ok (gcm_crypt nonce c).

Definition NewGCM : result AEAD :=
  reject_if negb (BlockSize b =? gcmBlockSize)
    with ErrNew "cipher: NewGCM requires 128-bit block cipher";
  Ok {| aead_Seal := gcm_Seal; aead_Open := gcm_Open |}.
End gcm.

(** The GHASH value of test case 2 of the GCM submission to NIST. *)
Example ghash_nist_case_2 :
  ghash 0x66e94bd4ef8a2c3b884cfa59ca342b2e [] (be_bytes 16 0x0388dace60b6a392f328c2b971b2fe78)
  = 0xf38cbb1ad69223dcc3457ae5b6b0f885.
Proof. vm_compute. reflexivity. Qed.

(** ** GCM satisfies the laws *)

Section laws.
Context (b : Block) `{!BlockLaws b}.

Lemma gcm_ctr_len nonce i :
  zlen nonce = gcmStandardNonceSize -> zlen (gcm_ctr nonce i) = gcmBlockSize.
Proof. unfold gcm_ctr, gcmStandardNonceSize, gcmBlockSize. intros. zlia. Qed.

Lemma gcm_keystream_len nonce n :
  zlen nonce = gcmStandardNonceSize -> zlen (gcm_keystream b nonce n) = 16 * Z.of_nat n.
Proof.
  intros Hn. unfold gcm_keystream.
  enough (forall k, zlen (concat ((fun i => Encrypt b (gcm_ctr nonce (Z.of_nat i + 2))) <$> seq k n))
                    = 16 * Z.of_nat n) by done.
  induction n as [|n IH]; intros k; [done|]. cbn [seq fmap list_fmap concat].
  rewrite zlen_app, IH, encrypt_len by (by apply gcm_ctr_len). unfold gcmBlockSize. lia.
Qed.

Lemma gcm_keystream_covers nonce (p : bytes) :
  zlen nonce = gcmStandardNonceSize ->
  (length p <= length (gcm_keystream b nonce (Nat.div (length p + 15) 16)))%nat.
Proof.
  intros Hn. pose proof (gcm_keystream_len nonce (Nat.div (length p + 15) 16) Hn) as H.
  unfold zlen in H. pose proof (Nat.div_mod_eq (length p + 15) 16).
  pose proof (Nat.mod_upper_bound (length p + 15) 16). lia.
Qed.

Lemma gcm_crypt_len nonce p :
  zlen nonce = gcmStandardNonceSize -> length (gcm_crypt b nonce p) = length p.
Proof.
  intros Hn. unfold gcm_crypt. rewrite length_xor_bytes.
  pose proof (gcm_keystream_covers nonce p Hn). lia.
Qed.

Lemma gcm_crypt_invol nonce p :
  zlen nonce = gcmStandardNonceSize -> gcm_crypt b nonce (gcm_crypt b nonce p) = p.
Proof.
  intros Hn. unfold gcm_crypt at 1. rewrite gcm_crypt_len by done.
  by apply xor_bytes_invol, gcm_keystream_covers.
Qed.

Lemma gcm_tag_len nonce c aad :
  zlen nonce = gcmStandardNonceSize -> zlen (gcm_tag b nonce c aad) = gcmTagSize.
Proof.
  intros Hn. unfold gcm_tag. rewrite zlen_xor_bytes, zlen_be_bytes, encrypt_len.
  - done.
  - by apply gcm_ctr_len.
Qed.

Lemma zlen_gcm_crypt nonce p :
  zlen nonce = gcmStandardNonceSize -> zlen (gcm_crypt b nonce p) = zlen p.
Proof. intros. unfold zlen. by rewrite gcm_crypt_len. Qed.

(** What [Open] accepts is exactly a ciphertext followed by its tag. *)
Lemma gcm_Open_Ok nonce c aad p :
  zlen nonce = gcmStandardNonceSize ->
  gcm_Open b nonce c aad = Ok p <->
  zlen p <= gcmMaxPlaintext /\
  c = gcm_crypt b nonce p ++ gcm_tag b nonce (gcm_crypt b nonce p) aad.
Proof.
  intros Hn. unfold gcm_Open. rewrite Hn, Z.eqb_refl. cbn [negb]. split.
  - intros H. inv_ok. zbool. rewrite gcm_crypt_invol by done.
    rewrite zlen_gcm_crypt by done.
    rewrite <-Hc1, take_drop_z. unfold gcmTagSize in *. split; [zlia|done].
  - intros [Hp ->]. pose proof (gcm_tag_len nonce (gcm_crypt b nonce p) aad Hn) as Ht.
    pose proof (zlen_gcm_crypt nonce p Hn) as Hc.
    rewrite zlen_app, Hc, Ht, Z.add_simpl_r.
    rewrite !(proj2 (Z.ltb_ge _ _)) by (unfold gcmTagSize; zlia).
    rewrite take_z_app, drop_z_app, bool_decide_eq_true_2 by done. cbn [negb].
    by rewrite gcm_crypt_invol.
Qed.

#[export] Instance NewGCM_laws a (H : NewGCM b = Ok a) : AEADLaws a.
Proof.
  unfold NewGCM in H. inv_ok. split; cbn.
  - intros n p ad Hn Hp. eexists. split; [|split].
    + unfold gcm_Seal. rewrite Hn, Z.eqb_refl, (proj2 (Z.ltb_ge _ _)) by lia. done.
    + by rewrite zlen_app, gcm_tag_len, zlen_gcm_crypt.
    + by apply gcm_Open_Ok.
  - intros n p ad c. unfold gcm_Seal. destruct (Z.eqb_spec (zlen n) gcmStandardNonceSize) as [Hn|];
      cbn [negb]; [|done]. case_match; [done|]. intros [= <-].
    by rewrite zlen_app, gcm_tag_len, zlen_gcm_crypt.
  - intros n c ad p Hn [Hp ->]%gcm_Open_Ok; [|done].
    unfold gcm_Seal. by rewrite Hn, Z.eqb_refl, (proj2 (Z.ltb_ge _ _)) by lia.
  - intros n c ad Hn. unfold gcm_Open. rewrite Hn, Z.eqb_refl. cbn [negb].
    repeat case_match; done.
Qed.

Lemma NewGCM_ok : exists a, NewGCM b = Ok a.
Proof. unfold NewGCM. rewrite block_size. by eexists. Qed.
End laws.
