(* ===== verification/NetIO.v ===== *)
(** * Connections

    [net.Conn] and [io] of Go's standard library, as the program uses them: a
    connection is the bytes still to be read, the error that reading past them
    gives, the bytes written so far and a script of the outcomes of the coming
    [Write] calls (a short count with a nil error is an outcome, as the source
    says buggy connections do).  The script is fixed beforehand, so it can be
    that of a connection which a deadline or another goroutine's [Close] cuts
    off at any point: [conn_rx] is then what is delivered before, [conn_rx_err]
    the error that follows, and so for the writes.  [writeFull] is the program's
    own guard. *)

From S2P Require Import Prelude.

Definition io_EOF : error := ErrNew "EOF".
Definition io_ErrUnexpectedEOF : error := ErrNew "unexpected EOF".
Definition io_ErrShortWrite : error := ErrNew "short write".

(** One [Write] call: how many bytes it takes and the error it returns. *)
Record WriteOutcome := { wo_n : Z; wo_err : option error }.

Record RawConn := {
  conn_rx : bytes;                       (* received, not read yet *)
  conn_rx_err : error;                   (* what Read returns after [conn_rx] *)
  conn_tx : bytes;                       (* handed to the network so far *)
  conn_wscript : list WriteOutcome;      (* outcomes of the next writes; then success *)
  conn_deadline_err : option error;      (* what the SetDeadline methods return *)
  conn_deadline_set : bool;              (* a non-zero deadline is in force *)
  conn_close_err : option error;         (* what Close returns *)
  conn_closed : bool
}.

Definition set_rx (c : RawConn) (rx : bytes) : RawConn :=
  {| conn_rx := rx; conn_rx_err := conn_rx_err c; conn_tx := conn_tx c;
     conn_wscript := conn_wscript c; conn_deadline_err := conn_deadline_err c;
     conn_deadline_set := conn_deadline_set c;
     conn_close_err := conn_close_err c; conn_closed := conn_closed c |}.

Definition set_tx (c : RawConn) (tx : bytes) (script : list WriteOutcome) : RawConn :=
  {| conn_rx := conn_rx c; conn_rx_err := conn_rx_err c; conn_tx := tx;
     conn_wscript := script; conn_deadline_err := conn_deadline_err c;
     conn_deadline_set := conn_deadline_set c;
     conn_close_err := conn_close_err c; conn_closed := conn_closed c |}.

(** [io.ReadFull(r, buf)] on a byte source that ends with [e]: the result and
    what is left.  All that was there is consumed when it is not enough. *)
Definition read_full_from (n : Z) (src : bytes) (e : error) : result bytes * bytes :=
  if n <=? 0 then (Ok [], src)
  else if n <=? zlen src then (Ok (take_z n src), drop_z n src)
  else if zlen src =? 0 then (Err e, [])
  else (Err (if same_error e io_EOF then io_ErrUnexpectedEOF else e), []).

Definition read_full (n : Z) : stM RawConn bytes := fun c =>
  let '(r, rest) := read_full_from n (conn_rx c) (conn_rx_err c) in (r, set_rx c rest).

(** [conn.Write(p)] *)
Definition conn_write (p : bytes) (c : RawConn) : (Z * option error) * RawConn :=
  match conn_wscript c with
  | [] => ((zlen p, None), set_tx c (conn_tx c ++ p) [])
  | o :: script =>
      let n := Z.max 0 (Z.min (wo_n o) (zlen p)) in
      ((n, wo_err o), set_tx c (conn_tx c ++ take_z n p) script)
  end.

(** [writeFull] (handshake.go) *)
Definition writeFull (p : bytes) : stM RawConn unit := fun c =>
  let '((n, err), c') := conn_write p c in
  match err with
  | Some e => (Err e, c')
  | None => if negb (n =? zlen p) then (Err io_ErrShortWrite, c') else (Ok tt, c')
  end.

(** [SetDeadline], [SetReadDeadline] and [SetWriteDeadline]; [on] is whether
    the time is non-zero. *)
Definition conn_set_deadline (on : bool) : stM RawConn unit := fun c =>
  match conn_deadline_err c with
  | Some e => (Err e, c)
  | None =>
      (Ok tt, {| conn_rx := conn_rx c; conn_rx_err := conn_rx_err c; conn_tx := conn_tx c;
                 conn_wscript := conn_wscript c; conn_deadline_err := conn_deadline_err c;
                 conn_deadline_set := on;
                 conn_close_err := conn_close_err c; conn_closed := conn_closed c |})
  end.

(** [Close]: the error it returns, and the closed connection. *)
Definition conn_close (c : RawConn) : option error * RawConn :=
  (conn_close_err c,
   {| conn_rx := conn_rx c; conn_rx_err := conn_rx_err c; conn_tx := conn_tx c;
      conn_wscript := conn_wscript c; conn_deadline_err := conn_deadline_err c;
      conn_deadline_set := conn_deadline_set c;
      conn_close_err := conn_close_err c; conn_closed := true |}).

(** ** Facts *)

Lemma read_full_app n (a b : bytes) (c : RawConn) :
  zlen a = n -> conn_rx c = a ++ b -> read_full n c = (Ok a, set_rx c b).
Proof.
  intros Hn Hc. unfold read_full, read_full_from. rewrite Hc.
  destruct (Z.leb_spec n 0) as [Hle|Hgt].
  - assert (a = []) as -> by (apply zlen_nil_inv; zlia). done.
  - rewrite (proj2 (Z.leb_le _ _)) by zlia.
    by rewrite take_z_app, drop_z_app.
Qed.

Lemma read_full_no_panic n c : no_panic (read_full n c).1.
Proof. unfold read_full, read_full_from. by repeat case_match; simplify_eq/=. Qed.

(** A successful [ReadFull] takes exactly the next [n] bytes. *)
Lemma read_full_Ok n c bs c' :
  read_full n c = (Ok bs, c') -> 0 <= n ->
  zlen bs = n /\ conn_rx c = bs ++ conn_rx c' /\ c' = set_rx c (conn_rx c').
Proof.
  unfold read_full, read_full_from. intros H Hn.
  destruct (Z.leb_spec n 0).
  - injection H as <- <-. cbn. split; [zlia|]. done.
  - destruct (Z.leb_spec n (zlen (conn_rx c))).
    + injection H as <- <-. cbn. rewrite take_drop_z. split; [zlia|]. done.
    + destruct (zlen (conn_rx c) =? 0); discriminate.
Qed.

Lemma writeFull_ok p c :
  conn_wscript c = [] -> writeFull p c = (Ok tt, set_tx c (conn_tx c ++ p) []).
Proof. intros H. unfold writeFull, conn_write. by rewrite H, Z.eqb_refl. Qed.

(** [writeFull] succeeds only when every byte was taken. *)
Lemma writeFull_Ok p c c' :
  writeFull p c = (Ok tt, c') -> conn_tx c' = conn_tx c ++ p.
Proof.
  unfold writeFull, conn_write. intros H. destruct (conn_wscript c) as [|o script].
  - cbn in H. rewrite Z.eqb_refl in H. by injection H as <-.
  - destruct (wo_err o); [discriminate|].
    destruct (Z.eqb_spec (Z.max 0 (Z.min (wo_n o) (zlen p))) (zlen p)) as [E|]; [|discriminate].
    injection H as <-. cbn. by rewrite E, take_z_all.
Qed.
