(* ===== verification/Gmsm.v ===== *)
(** * Third-party code

    [github.com/tjfoc/gmsm] and [golang.org/x/crypto/hkdf] are not under src/:
    their functions are parameters of the model, one class per package, and
    what the program relies on is a class of laws. *)

From S2P Require Import Prelude Gcm.

(** ** sm3 and sm4 *)

Class SM3 := sm3_Sm3Sum : bytes -> bytes.
Class SM3Laws `{SM3} := sm3_len m : zlen (sm3_Sm3Sum m) = 32.

Class SM4 := sm4_NewCipher : bytes -> result Block.
Class SM4Laws `{SM4} :=
  sm4_new k : zlen k = 16 -> exists b, sm4_NewCipher k = Ok b /\ BlockLaws b.

(** [crypto/hmac] of Go's standard library over [sm3.New], whose block is 64 bytes. *)
Definition hmac_block : Z := 64.
Definition hmac_sm3 `{SM3} (key data : bytes) : bytes :=
  let key := if hmac_block <? zlen key then sm3_Sm3Sum key else key in
  let k := gcopy (zeros hmac_block) key in
  let pad b := xor_bytes k (replicate (Z.to_nat hmac_block) b) in
  sm3_Sm3Sum (pad x5c ++ sm3_Sm3Sum (pad x36 ++ data)).

(** [hmac.Equal]: equal lengths and equal bytes, compared in constant time. *)
Definition hmac_Equal (a b : bytes) : bool := bool_decide (a = b).

Lemma zlen_hmac `{SM3Laws} k d : zlen (hmac_sm3 k d) = 32.
Proof. apply sm3_len. Qed.

(** ** hkdf

    [hkdf.New(sm3.New, secret, salt, info)] is a reader over the output key
    material; RFC 5869 bounds it to 255 hash lengths. *)
Class HKDF := hkdf_New : bytes -> bytes -> bytes -> bytes.
Class HKDFLaws `{HKDF} :=
  hkdf_len secret salt info : zlen (hkdf_New secret salt info) = 255 * 32.

(** The error the reader gives when it is exhausted. *)
Definition hkdf_exhausted : error := ErrNew "hkdf: entropy limit reached".

(** ** sm2 *)

Record PublicKey := { pub_X : Z; pub_Y : Z }.
Record PrivateKey := { priv_Pub : PublicKey; priv_D : Z }.

#[global] Instance PublicKey_eq_dec : EqDecision PublicKey.
Proof. solve_decision. Defined.

(** Functions that take [rand.Reader] consume a prefix of the entropy stream. *)
Class SM2 := {
  sm2_GenerateKey : bytes -> result PrivateKey * bytes;
  P256_IsOnCurve : Z -> Z -> bool;
  P256_ScalarMult : Z -> Z -> bytes -> option Z;       (* the x coordinate, nil or not *)
  sm2_Sm2Sign : PrivateKey -> bytes -> bytes -> bytes -> result (Z * Z) * bytes;
  sm2_Sm2Verify : PublicKey -> bytes -> bytes -> Z -> Z -> bool;
  sm2_Sign : PrivateKey -> bytes -> bytes -> result bytes * bytes;
  sm2_Verify : PublicKey -> bytes -> bytes -> bool
}.

(** [big.Int.Bytes]: the absolute value, big-endian without leading zeros. *)
Definition big_byte_len (z : Z) : nat := if z =? 0 then 0%nat else Z.to_nat (Z.log2 z / 8 + 1).
Definition big_Bytes (z : Z) : bytes := be_bytes (big_byte_len (Z.abs z)) (Z.abs z).

(** A 256-bit coordinate. *)
Definition coord (z : Z) : Prop := 0 <= z < 2 ^ 256.

(** [sm2_key k] says [k] is a key pair the library makes. *)
Class SM2Laws `{SM2} := {
  sm2_key : PrivateKey -> Prop;
  sm2_generate_key rnd k rnd' : sm2_GenerateKey rnd = (Ok k, rnd') -> sm2_key k;
  sm2_key_coords k : sm2_key k -> coord (pub_X (priv_Pub k)) /\ coord (pub_Y (priv_Pub k));
  sm2_key_on_curve k :
    sm2_key k -> P256_IsOnCurve (pub_X (priv_Pub k)) (pub_Y (priv_Pub k)) = true;
  sm2_dh k1 k2 : sm2_key k1 -> sm2_key k2 -> exists z,
    P256_ScalarMult (pub_X (priv_Pub k1)) (pub_Y (priv_Pub k1)) (big_Bytes (priv_D k2)) = Some z /\
    P256_ScalarMult (pub_X (priv_Pub k2)) (pub_Y (priv_Pub k2)) (big_Bytes (priv_D k1)) = Some z /\
    coord z;
  sm2_sign_verify k msg rnd sig rnd' :
    sm2_key k -> sm2_Sign k msg rnd = (Ok sig, rnd') -> sm2_Verify (priv_Pub k) msg sig = true;
  sm2_Sm2Sign_verify k msg uid rnd r s rnd' :
    sm2_key k -> sm2_Sm2Sign k msg uid rnd = (Ok (r, s), rnd') ->
    coord r /\ coord s /\ sm2_Sm2Verify (priv_Pub k) msg uid r s = true;
  (* Sm2Verify rejects r and s outside [1, N-1] *)
  sm2_Sm2Verify_zero pub msg uid : sm2_Sm2Verify pub msg uid 0 0 = false;
  (* ScalarMult returns affine coordinates, reduced modulo the field's prime *)
  sm2_ScalarMult_coord x y d z : P256_ScalarMult x y d = Some z -> coord z
}.

Lemma big_byte_len_bound n z :
  0 <= z < 256 ^ Z.of_nat n -> (big_byte_len z <= n)%nat.
Proof.
  intros [Hz Hn]. unfold big_byte_len. destruct (Z.eqb_spec z 0) as [->|Hz0]; [lia|].
  assert (Z.log2 z < 8 * Z.of_nat n).
  { apply Z.log2_lt_pow2; [lia|]. rewrite Z.pow_mul_r by lia. done. }
  pose proof (Z.log2_nonneg z). pose proof (Z.div_lt_upper_bound (Z.log2 z) 8 (Z.of_nat n)). lia.
Qed.

Lemma big_byte_len_enough z : 0 <= z -> z < 256 ^ Z.of_nat (big_byte_len z).
Proof.
  intros Hz. unfold big_byte_len. destruct (Z.eqb_spec z 0) as [->|Hz0]; [done|].
  pose proof (Z.log2_nonneg z). pose proof (Z.div_pos (Z.log2 z) 8).
  rewrite Z2Nat.id by lia. change 256 with (2 ^ 8). rewrite <-Z.pow_mul_r by lia.
  apply Z.log2_lt_pow2; [lia|]. pose proof (Z.mod_pos_bound (Z.log2 z) 8).
  pose proof (Z.div_mod (Z.log2 z) 8). lia.
Qed.

(** [new(big.Int).SetBytes(z.Bytes())] *)
Lemma be_uint_big_Bytes z : 0 <= z -> be_uint (big_Bytes z) = z.
Proof.
  intros. unfold big_Bytes. rewrite Z.abs_eq, be_uint_be_bytes by done. apply Z.mod_small.
  pose proof (big_byte_len_enough z). lia.
Qed.

Lemma coord_bytes z : coord z -> zlen (big_Bytes z) <= 32.
Proof.
  intros Hz. unfold big_Bytes. rewrite zlen_be_bytes, Z.abs_eq by apply Hz.
  pose proof (big_byte_len_bound 32 z). unfold coord in *.
  change (256 ^ Z.of_nat 32) with (2 ^ 256) in *. lia.
Qed.

Lemma le_bytes_zeros n z : 0 <= z < 1 -> le_bytes n z = replicate n x00.
Proof.
  intros Hz. replace z with 0 by lia. clear Hz. induction n as [|n IH]; [done|].
  cbn [le_bytes replicate]. rewrite Z.div_0_l by done. by rewrite IH.
Qed.

Lemma le_bytes_pad n k z :
  0 <= z < 256 ^ Z.of_nat n -> le_bytes (n + k) z = le_bytes n z ++ replicate k x00.
Proof.
  revert z. induction n as [|n IH]; intros z Hz; cbn [Nat.add le_bytes app].
  - by apply le_bytes_zeros.
  - f_equal. apply IH. rewrite Nat2Z.inj_succ, Z.pow_succ_r in Hz by lia.
    split; [apply Z.div_pos; lia|apply Z.div_lt_upper_bound; lia].
Qed.

(** [z.Bytes()] right-aligned in 32 zero bytes. *)
Lemma pad_be_bytes z : coord z ->
  zeros (32 - zlen (big_Bytes z)) ++ big_Bytes z = be_bytes 32 z.
Proof.
  intros Hz. pose proof (coord_bytes z Hz) as Hl. unfold big_Bytes, be_bytes in *.
  rewrite Z.abs_eq in * by apply Hz.
  set (n := big_byte_len z) in *. rewrite zlen_reverse, zlen_le_bytes in *.
  replace 32%nat with (n + (32 - n))%nat by lia.
  rewrite le_bytes_pad by (split; [apply Hz|apply big_byte_len_enough, Hz]).
  rewrite reverse_app, reverse_replicate. unfold zeros. do 2 f_equal. lia.
Qed.

