(* ===== verification/Toy.v ===== *)
(** * Concrete instances of the third-party interfaces

    Small executable stand-ins for sm3, sm4, hkdf and sm2 with proofs that they
    satisfy the laws of Gmsm.v: the laws are consistent, and the witnesses of
    the other files compute with them.  They model no code of the repository. *)

From S2P Require Import Prelude Gcm Gmsm.

(** Only the first bytes count, so that it is cheap on long inputs. *)
Definition toy_hash (m : bytes) : Z := foldl (fun acc b => acc * 257 + byte_to_Z b + 1) 7 (take 24 m).

Definition toy_sm3 : SM3 := fun m => be_bytes 32 (toy_hash m).
Lemma toy_sm3_laws : @SM3Laws toy_sm3.
Proof. intros m. apply (zlen_be_bytes 32). Qed.

Definition toy_block (k : bytes) : Block :=
  {| BlockSize := 16; Encrypt := fun x => xor_bytes x k |}.
Definition toy_sm4 : SM4 := fun k =>
  if zlen k =? 16 then Ok (toy_block k) else Err (ErrNew "sm4: invalid key size").

Lemma toy_block_laws k : zlen k = 16 -> BlockLaws (toy_block k).
Proof.
  intros Hk. split; [done|]. intros x Hx. cbn. unfold gcmBlockSize in *. zlia.
Qed.

Lemma toy_sm4_laws : @SM4Laws toy_sm4.
Proof.
  intros k Hk. exists (toy_block k). unfold sm4_NewCipher, toy_sm4. rewrite Hk.
  split; [done|by apply toy_block_laws].
Qed.

Definition toy_hkdf : HKDF := fun secret salt info =>
  concat (replicate 255 (toy_sm3 (secret ++ salt ++ info))).

Lemma zlen_concat_replicate {A} n (l : list A) : zlen (concat (replicate n l)) = Z.of_nat n * zlen l.
Proof. induction n as [|n IH]; [done|]. cbn [replicate concat]. rewrite zlen_app, IH. lia. Qed.

Lemma toy_hkdf_laws : @HKDFLaws toy_hkdf.
Proof.
  intros secret salt info. unfold hkdf_New, toy_hkdf. rewrite zlen_concat_replicate.
  pose proof (toy_sm3_laws (secret ++ salt ++ info)) as H. unfold sm3_Sm3Sum in H. by rewrite H.
Qed.

(** Keys are pairs (d, (d, d + 1)); the shared secret is the product. *)
Definition toy_pub (d : Z) : PublicKey := {| pub_X := d; pub_Y := (d + 1) mod 2 ^ 256 |}.
Definition toy_key (d : Z) : PrivateKey := {| priv_Pub := toy_pub d; priv_D := d |}.
Definition toy_r (msg uid : bytes) : Z := 1 + be_uint (toy_sm3 (uid ++ msg)) mod 2 ^ 255.
Definition toy_s (pub : PublicKey) : Z := 1 + pub_X pub mod 2 ^ 255.
Definition toy_sig (pub : PublicKey) (msg : bytes) : bytes :=
  toy_sm3 msg ++ be_bytes 32 (pub_X pub).

Definition toy_sm2 : SM2 := {|
  sm2_GenerateKey rnd :=
    if zlen rnd <? 32 then (Err (ErrNew "EOF"), [])
    else (Ok (toy_key (be_uint (take_z 32 rnd))), drop_z 32 rnd);
  P256_IsOnCurve x y := y =? (x + 1) mod 2 ^ 256;
  P256_ScalarMult x _ d := Some ((x * be_uint d) mod 2 ^ 256);
  sm2_Sm2Sign k msg uid rnd := (Ok (toy_r msg uid, toy_s (priv_Pub k)), rnd);
  sm2_Sm2Verify pub msg uid r s := (r =? toy_r msg uid) && (s =? toy_s pub);
  sm2_Sign k msg rnd := (Ok (toy_sig (priv_Pub k) msg), rnd);
  sm2_Verify pub msg sig := bool_decide (sig = toy_sig pub msg)
|}.

Definition toy_sm2_key (k : PrivateKey) : Prop := exists d, coord d /\ k = toy_key d.

Lemma coord_mod z : coord (z mod 2 ^ 256).
Proof. apply Z.mod_pos_bound. lia. Qed.

Lemma small_coord z : coord (1 + z mod 2 ^ 255).
Proof. unfold coord. pose proof (Z.mod_pos_bound z (2 ^ 255)). lia. Qed.

Lemma toy_sm2_laws : @SM2Laws toy_sm2.
Proof.
  exists toy_sm2_key.
  - intros rnd k rnd'. cbn. destruct (Z.ltb_spec (zlen rnd) 32); [done|]. intros [= <- _].
    eexists. split; [|done]. unfold coord. pose proof (be_uint_range (take_z 32 rnd)) as Hr.
    replace (zlen (take_z 32 rnd)) with 32 in Hr by zlia. exact Hr.
  - intros k (d & Hd & ->). split; [done|]. apply coord_mod.
  - intros k (d & Hd & ->). cbn. by rewrite Z.eqb_refl.
  - intros k1 k2 (d1 & [Hd1 _] & ->) (d2 & [Hd2 _] & ->). cbn. eexists.
    rewrite !be_uint_big_Bytes by done. split; [done|]. split; [by rewrite Z.mul_comm|].
    apply coord_mod.
  - intros k msg rnd sig rnd' _. cbn. intros [= <- _]. by apply bool_decide_eq_true_2.
  - intros k msg uid rnd r s rnd' _. cbn. intros [= <- <- _].
    split; [apply small_coord|]. split; [apply small_coord|]. by rewrite !Z.eqb_refl.
  - intros pub msg uid. change ((0 =? toy_r msg uid) && (0 =? toy_s pub) = false)%bool. unfold toy_r.
    pose proof (Z.mod_pos_bound (be_uint (toy_sm3 (uid ++ msg))) (2 ^ 255)).
    rewrite (proj2 (Z.eqb_neq _ _)) by lia. done.
  - intros x y d z [= <-]. apply coord_mod.
Defined.
