(* ===== verification/Record.v ===== *)
(** * The record layer (record.go)

    [RecordCipher] with [NewRecordCipher], [Sequence], [Reset], [Seal],
    [SealWithPadding], [Unseal] and [deriveNonce].  The mutex is not modelled:
    an operation is one atomic step, which is what the lock makes it.  The
    AEAD is any one that satisfies [AEADLaws]. *)

From S2P Require Import Prelude Gcm Gmsm Toy.

(** ** Constants *)

(** [RecordType] is a [uint8]. *)
Abbreviation RecordType := Byte.byte.
Definition RecordTypeChangeCipherSpec : RecordType := x14.  (* 20 *)
Definition RecordTypeAlert : RecordType := x15.             (* 21 *)
Definition RecordTypeHandshake : RecordType := x16.         (* 22 *)
Definition RecordTypeApplicationData : RecordType := x17.   (* 23 *)

Definition RecordHeaderLen : Z := 5.
Definition LegacyRecordVersion : Z := 0x0303.
Definition MaxPlaintextLength : Z := 16384.
Definition MaxCiphertextLength : Z := 16384 + 256.
Definition SM4KeySize : Z := 16.
Definition GCMNonceSize : Z := 12.
Definition GCMTagSize : Z := 16.

Definition ErrInvalidKeySize : error := ErrNew "teetls: invalid SM4 key length, must be 16 bytes".
Definition ErrInvalidIVSize : error := ErrNew "teetls: invalid IV length, must be 12 bytes".
Definition ErrPlaintextTooLarge : error := ErrNew "teetls: plaintext exceeds maximum allowed length".
Definition ErrCiphertextTooLarge : error := ErrNew "teetls: ciphertext exceeds maximum allowed length".
Definition ErrRecordTooShort : error := ErrNew "teetls: record buffer is too short".
Definition ErrInvalidRecordHeader : error := ErrNew "teetls: invalid TLS 1.3 outer record header".
Definition ErrRecordLengthMismatch : error := ErrNew "teetls: record length in header does not match data length".
Definition ErrNoContentType : error := ErrNew "teetls: inner plaintext does not contain valid content type".
Definition ErrSequenceOverflow : error := ErrNew "teetls: sequence number overflow".
Definition ErrInvalidInnerContentType : error := ErrNew "teetls: invalid inner plaintext content type".
Definition ErrNegativePadding : error := ErrNew "teetls: padding length cannot be negative".

(** ** State *)

Record RecordCipher := mkRecordCipher {
  aead : AEAD;
  baseIV : bytes;
  seqno : Z          (* the field seq, a uint64 *)
}.

Definition max_uint64 : Z := 2 ^ 64 - 1.   (* ^uint64(0) *)
Definition wrap_int64 (z : Z) : Z := (z + 2 ^ 63) mod 2 ^ 64 - 2 ^ 63.

(** [make([]byte, n)] panics when [n] is negative or beyond the address space. *)
Definition gmake (n : Z) : result bytes :=
  if (n <? 0) || (2 ^ 48 <? n) then Panic else Ok (zeros n).

(** ** Operations *)

Definition NewRecordCipher `{SM4} (key iv : bytes) : result RecordCipher :=
  reject_if negb (zlen key =? SM4KeySize) with ErrInvalidKeySize;
  reject_if negb (zlen iv =? GCMNonceSize) with ErrInvalidIVSize;
  block ← sm4_NewCipher key <?> "teetls: create sm4 cipher: %w";
  gcm ← NewGCM block <?> "teetls: create gcm aead: %w";
  Ok (mkRecordCipher gcm (gcopy (zeros GCMNonceSize) iv) 0).

Definition Sequence (rc : RecordCipher) : Z := seqno rc.

(** Deprecated: it does nothing. *)
Definition Reset (rc : RecordCipher) : RecordCipher := rc.

Definition incr_seq (rc : RecordCipher) : RecordCipher :=
  mkRecordCipher (aead rc) (baseIV rc) ((seqno rc + 1) mod 2 ^ 64).

(** baseIV xor (0x00000000 || seq), both 12 bytes long. *)
Definition deriveNonce (rc : RecordCipher) (seq : Z) : bytes :=
  let nonce := gcopy (zeros GCMNonceSize) (baseIV rc) in
  let seqBytes := be_bytes 8 seq in
  take_z 4 nonce ++ xor_bytes (drop_z 4 nonce) seqBytes.

Definition record_header (ciphertextLen : Z) : bytes :=
  RecordTypeApplicationData :: be_bytes 2 LegacyRecordVersion ++ be_bytes 2 ciphertextLen.

Definition SealWithPadding (contentType : RecordType) (plaintext : bytes) (paddingLen : Z)
  : stM RecordCipher bytes :=
  reject_if MaxPlaintextLength <? zlen plaintext with ErrPlaintextTooLarge;
  reject_if paddingLen <? 0 with ErrNegativePadding;
  let innerLen := wrap_int64 (zlen plaintext + 1 + paddingLen) in
  let ciphertextLen := wrap_int64 (innerLen + GCMTagSize) in
  reject_if MaxCiphertextLength <? ciphertextLen with ErrCiphertextTooLarge;
  rc ← get_st;
  reject_if seqno rc =? max_uint64 with ErrSequenceOverflow;
  buf ← lift (gmake innerLen);
  let innerPlaintext := <[length plaintext := contentType]> (gcopy buf plaintext) in
  let header := record_header ciphertextLen in
  let nonce := deriveNonce rc (seqno rc) in
  sealed ← lift (aead_Seal (aead rc) nonce innerPlaintext header);
  _ ← put_st (incr_seq rc);
  mret (header ++ sealed).

Definition Seal (contentType : RecordType) (plaintext : bytes) : stM RecordCipher bytes :=
  SealWithPadding contentType plaintext 0.

(** The loop [for idx >= 0 && decrypted[idx] == 0 { idx-- }] from [idx = n - 1]. *)
Fixpoint scan_content_type (decrypted : bytes) (n : nat) : Z :=
  match n with
  | O => -1
  | S n' =>
      if bool_decide (byte_at decrypted (Z.of_nat n') = x00)
      then scan_content_type decrypted n'
      else Z.of_nat n'
  end.

Definition valid_inner_type (t : RecordType) : bool :=
  bool_decide (t = RecordTypeAlert) || bool_decide (t = RecordTypeHandshake)
  || bool_decide (t = RecordTypeApplicationData).

Definition Unseal (record : bytes) : stM RecordCipher (RecordType * bytes) :=
  reject_if zlen record <? RecordHeaderLen + 1 + GCMTagSize with ErrRecordTooShort;
  reject_if negb (bool_decide (byte_at record 0 = RecordTypeApplicationData))
    with ErrInvalidRecordHeader;
  reject_if negb (be_uint (slice record 1 3) =? LegacyRecordVersion) with ErrInvalidRecordHeader;
  let declaredLen := be_uint (slice record 3 5) in
  reject_if negb (declaredLen =? zlen record - RecordHeaderLen) with ErrRecordLengthMismatch;
  reject_if MaxCiphertextLength <? declaredLen with ErrCiphertextTooLarge;
  rc ← get_st;
  reject_if seqno rc =? max_uint64 with ErrSequenceOverflow;
  let header := take_z RecordHeaderLen record in
  let ciphertext := drop_z RecordHeaderLen record in
  let nonce := deriveNonce rc (seqno rc) in
  decrypted ← lift (aead_Open (aead rc) nonce ciphertext header <?> "teetls: open record: %w");
  let idx := scan_content_type decrypted (length decrypted) in
  reject_if idx <? 0 with ErrNoContentType;
  let realContentType := byte_at decrypted idx in
  reject_if negb (valid_inner_type realContentType) with ErrInvalidInnerContentType;
  let plaintext := take_z idx decrypted in
  reject_if MaxPlaintextLength <? zlen plaintext with ErrPlaintextTooLarge;
  _ ← put_st (incr_seq rc);
  mret (realContentType, plaintext).

(** ** Invariant *)

Record cipher_ok (rc : RecordCipher) : Prop := {
  cipher_aead : AEADLaws (aead rc);
  cipher_iv : zlen (baseIV rc) = GCMNonceSize;
  cipher_seq : 0 <= seqno rc <= max_uint64
}.

Lemma incr_seq_seqno rc :
  0 <= seqno rc < max_uint64 -> seqno (incr_seq rc) = seqno rc + 1.
Proof. unfold max_uint64. intros. cbn. apply Z.mod_small. lia. Qed.

Lemma incr_seq_ok rc : cipher_ok rc -> seqno rc < max_uint64 -> cipher_ok (incr_seq rc).
Proof.
  intros [Ha Hi Hs] Hlt. split; [done..|]. rewrite incr_seq_seqno; lia.
Qed.

(** ** Nonces *)

Lemma deriveNonce_len rc s : zlen (deriveNonce rc s) = GCMNonceSize.
Proof. unfold deriveNonce, GCMNonceSize. zlia. Qed.

Lemma deriveNonce_inj rc s1 s2 :
  0 <= s1 <= max_uint64 -> 0 <= s2 <= max_uint64 ->
  deriveNonce rc s1 = deriveNonce rc s2 -> s1 = s2.
Proof.
  unfold deriveNonce, max_uint64. intros H1 H2 H. apply app_inv_head in H.
  apply xor_bytes_inj_r in H.
  - by apply (be_bytes_inj 8) in H; [|lia..].
  - apply Nat2Z.inj. fold (zlen (be_bytes 8 s1)). unfold GCMNonceSize in *.
    rewrite zlen_be_bytes. fold (zlen (drop_z 4 (gcopy (zeros 12) (baseIV rc)))). zlia.
  - apply Nat2Z.inj. fold (zlen (be_bytes 8 s2)). unfold GCMNonceSize in *.
    rewrite zlen_be_bytes. fold (zlen (drop_z 4 (gcopy (zeros 12) (baseIV rc)))). zlia.
Qed.

(** ** What a successful Seal does *)

Lemma zlen_record_header n : zlen (record_header n) = RecordHeaderLen.
Proof. unfold record_header, RecordHeaderLen. zlia. Qed.
#[export] Hint Rewrite zlen_record_header deriveNonce_len : zlen.

Lemma wrap_int64_id z : - 2 ^ 63 <= z < 2 ^ 63 -> wrap_int64 z = z.
Proof. unfold wrap_int64. intros. rewrite Z.mod_small; lia. Qed.

(** The plaintext, its type, the padding. *)
Definition inner_plaintext (t : RecordType) (p : bytes) (pad : Z) : bytes := p ++ t :: zeros pad.

Lemma inner_plaintext_built t p pad :
  0 <= pad ->
  <[length p := t]> (gcopy (zeros (zlen p + 1 + pad)) p) = inner_plaintext t p pad.
Proof.
  intros Hpad. unfold gcopy, inner_plaintext, zeros.
  rewrite length_replicate, take_ge by (unfold zlen; lia).
  rewrite <-(Nat.add_0_r (length p)), insert_app_r, Nat.add_0_r, drop_replicate.
  replace (Z.to_nat (zlen p + 1 + pad) - length p)%nat with (S (Z.to_nat pad))
    by (unfold zlen; lia). done.
Qed.

Lemma zlen_inner_plaintext t p pad : 0 <= pad -> zlen (inner_plaintext t p pad) = zlen p + 1 + pad.
Proof. unfold inner_plaintext. intros. zlia. Qed.

(** The record that Seal makes, as a relation between the caller's arguments,
    the cipher and the bytes on the wire. *)
Record sealed (rc : RecordCipher) (t : RecordType) (p : bytes) (pad : Z) (rec : bytes) : Prop := {
  sealed_p : zlen p <= MaxPlaintextLength;
  sealed_pad : 0 <= pad;
  sealed_max : zlen p + 1 + pad + GCMTagSize <= MaxCiphertextLength;
  sealed_seq : seqno rc < max_uint64;
  sealed_rec : exists c, rec = record_header (zlen p + 1 + pad + GCMTagSize) ++ c /\
    aead_Seal (aead rc) (deriveNonce rc (seqno rc)) (inner_plaintext t p pad)
      (record_header (zlen p + 1 + pad + GCMTagSize)) = Ok c
}.

Lemma wrap_int64_over z : 2 ^ 63 <= z < 2 ^ 64 + 2 ^ 63 -> wrap_int64 z = z - 2 ^ 64.
Proof.
  unfold wrap_int64. intros.
  rewrite (Z.mod_eq _ (2 ^ 64)), <-(Z.div_unique (z + 2 ^ 63) (2 ^ 64) 1 (z + 2 ^ 63 - 2 ^ 64)); lia.
Qed.

Lemma gmake_Ok n buf : gmake n = Ok buf <-> 0 <= n <= 2 ^ 48 /\ buf = zeros n.
Proof.
  unfold gmake. destruct (_ || _) eqn:E.
  - split; [done|]. intros [? _]. apply orb_true_iff in E as [E|E]; apply Z.ltb_lt in E; lia.
  - zbool. split; [intros [= <-]; split; [lia|done]|by intros [_ ->]].
Qed.

(** The two length computations of SealWithPadding, as 64-bit integers. *)
Lemma seal_lengths (p : bytes) pad :
  zlen p <= MaxPlaintextLength -> 0 <= pad < 2 ^ 63 ->
  let innerLen := wrap_int64 (zlen p + 1 + pad) in
  let ctLen := wrap_int64 (innerLen + GCMTagSize) in
  if zlen p + 1 + pad + GCMTagSize <? 2 ^ 63
  then innerLen = zlen p + 1 + pad /\ ctLen = zlen p + 1 + pad + GCMTagSize
  else ctLen <= MaxCiphertextLength /\ gmake innerLen = Panic.
Proof.
  unfold MaxPlaintextLength, MaxCiphertextLength, GCMTagSize. intros Hp Hpad. cbv zeta.
  pose proof (zlen_nonneg p). destruct (Z.ltb_spec (zlen p + 1 + pad + 16) (2 ^ 63)).
  - by rewrite !(wrap_int64_id (zlen p + 1 + pad)), wrap_int64_id by lia.
  - destruct (Z.ltb_spec (zlen p + 1 + pad) (2 ^ 63)).
    + rewrite (wrap_int64_id (zlen p + 1 + pad)), wrap_int64_over by lia. split; [lia|].
      unfold gmake. by zcase.
    + rewrite (wrap_int64_over (zlen p + 1 + pad)), wrap_int64_id by lia. split; [lia|].
      unfold gmake. by zcase.
Qed.

Lemma SealWithPadding_sealed rc t p pad rec rc' :
  seqno rc <= max_uint64 -> pad < 2 ^ 63 ->
  SealWithPadding t p pad rc = (Ok rec, rc') <-> sealed rc t p pad rec /\ rc' = incr_seq rc.
Proof.
  intros Hs Hp. pose proof (zlen_nonneg p). unfold SealWithPadding. split.
  - intros Hr. inv_stm. zbool. pose proof (seal_lengths p pad) as Hl. cbv zeta in Hl.
    destruct (Z.ltb_spec (zlen p + 1 + pad + GCMTagSize) (2 ^ 63)).
    + destruct Hl as [Hl1 Hl2]; [lia..|]. rewrite Hl1, Hl2 in *.
      apply gmake_Ok in Hv0 as [? ->]. rewrite inner_plaintext_built in * by done.
      split; [|done]. split; [lia..|]. by eexists.
    + destruct Hl as [_ Hl]; [lia..|]. congruence.
  - intros [[H1 H2 H3 H4 (c & -> & Hc)] ->]. pose proof (seal_lengths p pad H1 ltac:(lia)) as Hl.
    cbv zeta in Hl. unfold MaxPlaintextLength, MaxCiphertextLength, GCMTagSize in *.
    rewrite (proj2 (Z.ltb_lt _ _)) in Hl by lia. destruct Hl as [Hl1 Hl2].
    stm. rewrite Hl1 in Hl2. rewrite Hl1, Hl2. unfold gmake. zcase. rewrite inner_plaintext_built by done.
    by rewrite Hc.
Qed.

(** ** Finding the content type *)

Lemma byte_at_app_r (l k : bytes) i : 0 <= i -> byte_at (l ++ k) (zlen l + i) = byte_at k i.
Proof.
  intros. unfold byte_at, zlen. rewrite lookup_app_r by lia. do 2 f_equal. lia.
Qed.

Lemma byte_at_mid (l : bytes) b k : byte_at (l ++ b :: k) (zlen l) = b.
Proof. rewrite <-(Z.add_0_r (zlen l)). by rewrite byte_at_app_r. Qed.

Lemma byte_at_zeros n i : byte_at (zeros n) i = x00.
Proof.
  unfold byte_at, zeros. destruct (replicate _ _ !! _) eqn:E; [|done].
  by apply lookup_replicate in E as [-> _].
Qed.

Lemma scan_inner t p pad :
  t <> x00 ->
  scan_content_type (inner_plaintext t p pad) (length (inner_plaintext t p pad)) = zlen p.
Proof.
  intros Ht. unfold inner_plaintext. rewrite length_app. cbn [length].
  set (d := p ++ t :: zeros pad).
  assert (forall k, scan_content_type d (length p + S k) = zlen p) as H; [|apply H].
  induction k as [|k IH]; rewrite <-!plus_n_Sm; cbn [scan_content_type].
  - rewrite Nat.add_0_r. fold (zlen p). unfold d.
    rewrite byte_at_mid. by rewrite bool_decide_eq_false_2.
  - rewrite bool_decide_eq_true_2, <-?plus_n_Sm; [by rewrite <-plus_n_Sm in IH|].
    rewrite plus_n_Sm, Nat2Z.inj_add. fold (zlen p). unfold d. rewrite byte_at_app_r by lia.
    rewrite Nat2Z.inj_succ, <-Z.add_1_l.
    change (t :: zeros pad) with ([t] ++ zeros pad).
    change 1 with (zlen [t]). rewrite byte_at_app_r by lia. apply byte_at_zeros.
Qed.

Lemma drop_byte_at (d : bytes) (n : nat) :
  (n < length d)%nat -> drop n d = byte_at d (Z.of_nat n) :: drop (S n) d.
Proof.
  intros H. unfold byte_at. rewrite Nat2Z.id.
  destruct (d !! n) as [b|] eqn:E; [by apply drop_S|]. apply lookup_ge_None in E. lia.
Qed.

Lemma scan_sound d :
  0 <= scan_content_type d (length d) ->
  let i := scan_content_type d (length d) in
  d = inner_plaintext (byte_at d i) (take_z i d) (zlen d - i - 1) /\
  i < zlen d /\ byte_at d i <> x00.
Proof.
  enough (forall n, (n <= length d)%nat -> drop n d = zeros (zlen d - Z.of_nat n) ->
    0 <= scan_content_type d n ->
    let i := scan_content_type d n in
    d = inner_plaintext (byte_at d i) (take_z i d) (zlen d - i - 1) /\
    i < zlen d /\ byte_at d i <> x00) as H.
  { apply H; [lia|]. rewrite drop_ge by lia. unfold zlen. by rewrite Z.sub_diag. }
  induction n as [|n IH]; intros Hn Hd; cbn [scan_content_type]; [lia|].
  destruct (bool_decide_reflect (byte_at d (Z.of_nat n) = x00)) as [E|E].
  - apply IH; [lia|]. rewrite drop_byte_at, Hd, E by lia.
    unfold zeros. rewrite <-replicate_S. f_equal. unfold zlen. lia.
  - intros _. cbv zeta. split; [|unfold zlen; split; [lia|done]].
    unfold inner_plaintext, take_z. rewrite Nat2Z.id.
    replace (zlen d - Z.of_nat n - 1) with (zlen d - Z.of_nat (S n)) by lia.
    rewrite <-Hd, <-drop_byte_at by lia. by rewrite take_drop.
Qed.

(** ** What a successful Unseal says *)

Lemma valid_inner_type_nonzero t : valid_inner_type t = true -> t <> x00.
Proof. by intros H ->. Qed.

Lemma record_header_app n rest :
  record_header n ++ rest
  = [RecordTypeApplicationData] ++ be_bytes 2 LegacyRecordVersion ++ be_bytes 2 n ++ rest.
Proof. unfold record_header. cbn [app]. by rewrite <-app_assoc. Qed.

Lemma record_header_fields n rest :
  0 <= n < 2 ^ 16 ->
  let rec := record_header n ++ rest in
  byte_at rec 0 = RecordTypeApplicationData /\ be_uint (slice rec 1 3) = LegacyRecordVersion /\
  be_uint (slice rec 3 5) = n /\ take_z RecordHeaderLen rec = record_header n /\
  drop_z RecordHeaderLen rec = rest.
Proof.
  intros Hn. cbv zeta.
  split_and!; [done| | |apply take_z_app; by rewrite zlen_record_header
    |apply drop_z_app; by rewrite zlen_record_header].
  - rewrite record_header_app, slice_app by done. by rewrite be_uint_be_bytes.
  - rewrite record_header_app, app_assoc, slice_app by done.
    rewrite be_uint_be_bytes. by apply Z.mod_small.
Qed.

Lemma slice_slice_z {A} (l : list A) a b c :
  0 <= a <= b -> b <= c -> slice l a c = slice l a b ++ slice l b c.
Proof.
  intros. unfold slice, take_z, drop_z.
  replace (Z.to_nat (c - a)) with (Z.to_nat (b - a) + Z.to_nat (c - b))%nat by lia.
  rewrite <-take_take_drop, drop_drop. do 3 f_equal. lia.
Qed.

Lemma record_header_of_fields rec :
  RecordHeaderLen <= zlen rec ->
  byte_at rec 0 = RecordTypeApplicationData -> be_uint (slice rec 1 3) = LegacyRecordVersion ->
  take_z RecordHeaderLen rec = record_header (be_uint (slice rec 3 5)).
Proof.
  unfold RecordHeaderLen. intros Hl H0 H1.
  assert (take_z 5 rec = slice rec 0 1 ++ slice rec 1 3 ++ slice rec 3 5) as ->.
  { rewrite <-(slice_slice_z rec 1 3 5), <-(slice_slice_z rec 0 1 5) by lia.
    by rewrite slice_from_0. }
  unfold record_header. rewrite be_bytes_be_uint, <-H1, be_bytes_be_uint.
  - destruct rec as [|b rec]; [done|]. change (b = RecordTypeApplicationData) in H0. by subst b.
  - apply Nat2Z.inj. fold (zlen (slice rec 1 3)). zlia.
  - apply Nat2Z.inj. fold (zlen (slice rec 3 5)). zlia.
Qed.

Lemma Unseal_sealed rc rec t p rc' :
  cipher_ok rc ->
  Unseal rec rc = (Ok (t, p), rc') <->
  valid_inner_type t = true /\ rc' = incr_seq rc /\ exists pad, sealed rc t p pad rec.
Proof.
  intros [Ha Hi Hs]. unfold Unseal. split.
  - intros Hr. inv_stm. zbool. subst.
    pose proof (record_header_of_fields rec ltac:(unfold RecordHeaderLen, GCMTagSize in *; lia) Hc0 Hc1)
      as Hh.
    set (nonce := deriveNonce rc (seqno rc)) in *.
    apply aead_open_sound in Hv0; [|apply deriveNonce_len].
    pose proof (aead_seal_len _ _ _ _ Hv0) as Hlen. rewrite zlen_drop_z in Hlen.
    destruct (scan_sound v0) as (Hd & Hi' & Ht); [done|].
    set (i := scan_content_type v0 (length v0)) in *.
    split; [done|]. split; [done|]. exists (zlen v0 - i - 1).
    assert (zlen (take_z i v0) = i) as Hti by zlia.
    unfold gcmTagSize, RecordHeaderLen in *.
    split; try lia; rewrite Hti in *.
    + unfold GCMTagSize. lia.
    + exists (drop_z 5 rec). unfold GCMTagSize in *.
      replace (i + 1 + (zlen v0 - i - 1) + 16) with (be_uint (slice rec 3 5)) by lia.
      rewrite <-Hh, take_drop_z. split; [done|]. rewrite <-Hd. done.
  - intros (Ht & -> & pad & [H1 H2 H3 H4 (c & -> & Hc)]).
    pose proof (zlen_inner_plaintext t p pad H2) as Hpl. pose proof (zlen_nonneg p).
    unfold MaxPlaintextLength, MaxCiphertextLength, GCMTagSize in *.
    set (L := zlen p + 1 + pad + 16) in *.
    destruct (record_header_fields L c ltac:(lia)) as (E0 & E1 & E2 & E3 & E4).
    pose proof (aead_seal_len _ _ _ _ Hc) as Hlen. unfold gcmTagSize in Hlen.
    destruct (aead_seal_ok (deriveNonce rc (seqno rc)) (inner_plaintext t p pad) (record_header L))
      as (c' & Hc' & _ & Ho); [apply deriveNonce_len|unfold gcmMaxPlaintext, gcmBlockSize; lia|].
    rewrite Hc in Hc'. injection Hc' as <-.
    rewrite E0, E1, E2, E3, E4, zlen_app, zlen_record_header, bool_decide_eq_true_2 by done.
    unfold RecordHeaderLen in *. stm. zcase. rewrite Ho, scan_inner by (by apply valid_inner_type_nonzero).
    assert (byte_at (inner_plaintext t p pad) (zlen p) = t) as ->.
    { apply byte_at_mid. }
    rewrite Ht. unfold inner_plaintext. rewrite take_z_app by done.
    unfold MaxPlaintextLength, MaxCiphertextLength in *. by zcase.
Qed.

(** ** Effect on the cipher state *)

(** Seal and Unseal either succeed and advance the sequence number by one, or
    leave the cipher as it was. *)
Lemma SealWithPadding_state t p pad rc :
  let '(r, rc') := SealWithPadding t p pad rc in
  if is_ok r then seqno rc <> max_uint64 /\ rc' = incr_seq rc else rc' = rc.
Proof.
  unfold SealWithPadding. stm. repeat (case_match; simplify_eq/=; zbool; try done).
Qed.

Lemma Unseal_state rec rc :
  let '(r, rc') := Unseal rec rc in
  if is_ok r then seqno rc <> max_uint64 /\ rc' = incr_seq rc else rc' = rc.
Proof.
  unfold Unseal. stm. repeat (case_match; simplify_eq/=; zbool; try done).
Qed.

(** ** Construction *)

Lemma NewRecordCipher_Ok `{SM4Laws} key iv rc :
  NewRecordCipher key iv = Ok rc ->
  zlen key = SM4KeySize /\ zlen iv = GCMNonceSize /\ cipher_ok rc /\
  seqno rc = 0 /\ baseIV rc = iv.
Proof.
  unfold NewRecordCipher. intros Hr. inv_ok. zbool.
  destruct (sm4_new key) as (b & Hb & Hl); [done|]. rewrite Hb in Hv. inv_ok.
  rewrite gcopy_all by (unfold GCMNonceSize in *; zlia).
  split_and!; [done|done| |done|done].
  split; cbn; [by eapply NewGCM_laws|done|unfold max_uint64; lia].
Qed.

Lemma NewRecordCipher_total `{SM4Laws} key iv :
  zlen key = SM4KeySize -> zlen iv = GCMNonceSize -> exists rc, NewRecordCipher key iv = Ok rc.
Proof.
  intros Hk Hi. destruct (sm4_new key) as (b & Hb & Hl); [done|]. destruct (NewGCM_ok b) as [a Ha].
  unfold NewRecordCipher. rewrite Hk, Hi, Hb. cbn. rewrite Ha. by eexists.
Qed.

(** [NewRecordCipher] on every input: a key that is not 16 bytes and an IV
    that is not 12 bytes are refused with their own error, the key first; any
    other pair gives a cipher at sequence number 0 with that IV. *)
Theorem NewRecordCipher_outcome `{SM4Laws} key iv :
  match NewRecordCipher key iv with
  | Ok rc => zlen key = SM4KeySize /\ zlen iv = GCMNonceSize /\ cipher_ok rc /\
             Sequence rc = 0 /\ baseIV rc = iv
  | Err e => (e = ErrInvalidKeySize /\ zlen key <> SM4KeySize) \/
             (e = ErrInvalidIVSize /\ zlen key = SM4KeySize /\ zlen iv <> GCMNonceSize)
  | Panic => False
  end.
Proof.
  destruct (Z.eq_dec (zlen key) SM4KeySize) as [Hk|Hk];
    [destruct (Z.eq_dec (zlen iv) GCMNonceSize) as [Hi|Hi]|].
  - destruct (NewRecordCipher_total key iv Hk Hi) as [rc Hrc]. rewrite Hrc.
    by apply NewRecordCipher_Ok in Hrc.
  - unfold NewRecordCipher. rewrite Hk, Z.eqb_refl, (proj2 (Z.eqb_neq _ _)) by done. cbn. auto.
  - unfold NewRecordCipher. rewrite (proj2 (Z.eqb_neq _ _)) by done. cbn. auto.
Qed.

(** A cipher to compute with. *)
Definition toy_cipher : RecordCipher :=
  mkRecordCipher {| aead_Seal := gcm_Seal (toy_block (zeros 16)); aead_Open := gcm_Open (toy_block (zeros 16)) |}
    (zeros 12) 0.

Lemma toy_cipher_ok : cipher_ok toy_cipher.
Proof.
  split; [|done|done]. by apply (@NewGCM_laws (toy_block (zeros 16))
    (toy_block_laws (zeros 16) eq_refl) _ eq_refl).
Qed.

Definition after_seals (n : Z) : RecordCipher :=
  mkRecordCipher (aead toy_cipher) (baseIV toy_cipher) n.

Lemma NewRecordCipher_outcome_witness :
  match @NewRecordCipher toy_sm4 (zeros 16) (zeros 12) with
  | Ok rc => zlen (zeros 16) = SM4KeySize /\ zlen (zeros 12) = GCMNonceSize /\ cipher_ok rc /\
             Sequence rc = 0 /\ baseIV rc = zeros 12
  | _ => False
  end.
Proof.
  pose proof (@NewRecordCipher_outcome toy_sm4 toy_sm4_laws (zeros 16) (zeros 12)) as H.
  exact H.
Defined.

(** ** Round trip and refinement *)

Lemma seal_then_unseal rc t p pad rec rc' :
  cipher_ok rc -> valid_inner_type t = true -> pad < 2 ^ 63 ->
  SealWithPadding t p pad rc = (Ok rec, rc') ->
  Unseal rec rc = (Ok (t, p), rc') /\ rc' = incr_seq rc /\ seqno rc < max_uint64.
Proof.
  intros Hok Ht Hpad [Hs ->]%SealWithPadding_sealed; [|by apply Hok|done].
  split; [|split; [done|apply Hs]]. apply Unseal_sealed; [done|]. split; [done|].
  split; [done|]. by exists pad.
Qed.

(** A peer whose cipher has the same key, IV and sequence number opens every
    record that [Seal] makes: it gets the content type and the plaintext back,
    whatever the padding, and both ciphers end in the same state. *)
Theorem Unseal_Seal rc t p pad rec rc' :
  cipher_ok rc -> valid_inner_type t = true -> pad < 2 ^ 63 ->
  SealWithPadding t p pad rc = (Ok rec, rc') ->
  Unseal rec rc = (Ok (t, p), rc').
Proof. intros. by eapply seal_then_unseal. Qed.

Definition toy_record (t : RecordType) (p : bytes) (pad : Z) : bytes :=
  get_ok [] (SealWithPadding t p pad toy_cipher).1.

Lemma Unseal_Seal_witness :
  Unseal (toy_record RecordTypeHandshake [x01; x02; x00] 7) toy_cipher
  = (Ok (RecordTypeHandshake, [x01; x02; x00]),
     (SealWithPadding RecordTypeHandshake [x01; x02; x00] 7 toy_cipher).2).
Proof.
  apply (Unseal_Seal toy_cipher RecordTypeHandshake [x01; x02; x00] 7);
    [apply toy_cipher_ok|done|lia|]. apply run_pair. vm_compute. reflexivity.
Defined.

(** C13. [Unseal] accepts nothing else: a record it opens is, byte for byte,
    header included, the record that [SealWithPadding] makes from the returned
    type and plaintext with some padding, at the same sequence number. *)
Theorem Unseal_accepts_only_sealed rc rec t p rc' :
  cipher_ok rc -> Unseal rec rc = (Ok (t, p), rc') ->
  valid_inner_type t = true /\ zlen p <= MaxPlaintextLength /\
  exists pad, 0 <= pad /\ SealWithPadding t p pad rc = (Ok rec, rc').
Proof.
  intros Hok (Ht & -> & pad & Hs)%Unseal_sealed; [|done].
  split; [done|]. split; [apply Hs|]. exists pad. split; [apply Hs|].
  apply SealWithPadding_sealed; [by apply Hok| |done].
  destruct Hs as [? ? Hm ? _]. unfold MaxCiphertextLength, GCMTagSize in *.
  pose proof (zlen_nonneg p). lia.
Qed.

Lemma Unseal_accepts_only_sealed_witness :
  let rec := toy_record RecordTypeAlert [x01; x00] 3 in
  exists pad, 0 <= pad /\
  SealWithPadding RecordTypeAlert [x01; x00] pad toy_cipher = (Ok rec, (Unseal rec toy_cipher).2).
Proof.
  refine (proj2 (proj2 (Unseal_accepts_only_sealed toy_cipher _ RecordTypeAlert [x01; x00] _
    toy_cipher_ok _))). apply run_pair. vm_compute. reflexivity.
Defined.

(** ** A whole connection direction *)

Fixpoint seal_stream (msgs : list (RecordType * bytes * Z)) : stM RecordCipher (list bytes) :=
  match msgs with
  | [] => mret []
  | (t, p, pad) :: msgs' =>
      rec ← SealWithPadding t p pad;
      recs ← seal_stream msgs';
      mret (rec :: recs)
  end.

Fixpoint unseal_stream (recs : list bytes) : stM RecordCipher (list (RecordType * bytes)) :=
  match recs with
  | [] => mret []
  | rec :: recs' =>
      m ← Unseal rec;
      ms ← unseal_stream recs';
      mret (m :: ms)
  end.

Lemma unseal_sealed_stream msgs rc recs rc' :
  cipher_ok rc ->
  Forall (fun m => valid_inner_type m.1.1 = true /\ m.2 < 2 ^ 63) msgs ->
  seal_stream msgs rc = (Ok recs, rc') ->
  unseal_stream recs rc = (Ok msgs.*1, rc') /\ cipher_ok rc'.
Proof.
  revert rc recs. induction msgs as [|[[t p] pad] msgs IH]; intros rc recs Hok Hm H;
    cbn [seal_stream] in H; inv_stm; [done|].
  apply Forall_cons in Hm as [[Ht Hp] Hm].
  apply seal_then_unseal in Hv as (Hv & -> & Hs); [|done..].
  apply IH in Hv0 as [Hv0 Hok']; [|by apply incr_seq_ok|done]. split; [|done].
  cbn [unseal_stream]. apply stM_bind_Ok. eexists _, _. split; [exact Hv|].
  apply stM_bind_Ok. eexists _, _. by split.
Qed.

(** C14. The two ends of a direction stay in step: a receiver that starts in the
    sender's state opens any number of records in the order they were sealed
    and ends in the sender's final state. *)
Theorem stream_round_trip msgs rc recs rc' :
  cipher_ok rc ->
  Forall (fun m => valid_inner_type m.1.1 = true /\ m.2 < 2 ^ 63) msgs ->
  seal_stream msgs rc = (Ok recs, rc') ->
  unseal_stream recs rc = (Ok msgs.*1, rc').
Proof. intros. by apply unseal_sealed_stream. Qed.

Lemma stream_round_trip_witness :
  let msgs := [(RecordTypeHandshake, [x01], 0); (RecordTypeApplicationData, [], 5);
               (RecordTypeAlert, [x01; x00], 0)] in
  let recs := get_ok [] (seal_stream msgs toy_cipher).1 in
  length recs = 3%nat /\
  unseal_stream recs toy_cipher = (Ok msgs.*1, (seal_stream msgs toy_cipher).2).
Proof.
  intros msgs recs. split; [vm_compute; reflexivity|].
  apply stream_round_trip; [apply toy_cipher_ok|repeat constructor; done|].
  apply run_pair. vm_compute. reflexivity.
Defined.

(** ** Nonces *)

(** What a holder of a cipher can do with it. *)
Inductive cipher_op :=
| OpSeal (t : RecordType) (p : bytes) (pad : Z)
| OpUnseal (rec : bytes)
| OpReset.

Definition run_op (op : cipher_op) (rc : RecordCipher) : RecordCipher :=
  match op with
  | OpSeal t p pad => (SealWithPadding t p pad rc).2
  | OpUnseal rec => (Unseal rec rc).2
  | OpReset => Reset rc
  end.

(** The nonces that successful Seal calls hand to the AEAD, in order. *)
Fixpoint seal_nonces (ops : list cipher_op) (rc : RecordCipher) : list bytes :=
  match ops with
  | [] => []
  | op :: ops' =>
      match op with
      | OpSeal t p pad =>
          if is_ok (SealWithPadding t p pad rc).1 then [deriveNonce rc (seqno rc)] else []
      | _ => []
      end ++ seal_nonces ops' (run_op op rc)
  end.

Lemma run_op_state op rc :
  cipher_ok rc ->
  cipher_ok (run_op op rc) /\ baseIV (run_op op rc) = baseIV rc /\
  seqno rc <= seqno (run_op op rc) <= seqno rc + 1.
Proof.
  intros Hok. destruct (cipher_seq _ Hok) as [Hs1 Hs2].
  assert (forall (ok : bool) rc1,
    (if ok then seqno rc <> max_uint64 /\ rc1 = incr_seq rc else rc1 = rc) ->
    cipher_ok rc1 /\ baseIV rc1 = baseIV rc /\ seqno rc <= seqno rc1 <= seqno rc + 1) as Hgen.
  { intros [|] rc1; [intros [Hne ->]|intros ->; split_and!; [done|done|lia..]].
    split_and!; [apply incr_seq_ok; [done|lia]|done|rewrite incr_seq_seqno; lia..]. }
  destruct op as [t p pad|rec|]; cbn [run_op].
  - pose proof (SealWithPadding_state t p pad rc) as H. destruct (SealWithPadding t p pad rc).
    by apply Hgen in H.
  - pose proof (Unseal_state rec rc) as H. destruct (Unseal rec rc). by apply Hgen in H.
  - by apply (Hgen false).
Qed.

Lemma deriveNonce_ext rc1 rc2 s : baseIV rc1 = baseIV rc2 -> deriveNonce rc1 s = deriveNonce rc2 s.
Proof. unfold deriveNonce. by intros ->. Qed.

Lemma seal_nonces_range ops rc n :
  cipher_ok rc -> n ∈ seal_nonces ops rc ->
  exists s, seqno rc <= s < max_uint64 /\ n = deriveNonce rc s.
Proof.
  revert rc. induction ops as [|op ops IH]; intros rc Hok Hn; cbn [seal_nonces] in Hn;
    [by apply elem_of_nil in Hn|].
  destruct (run_op_state op rc Hok) as (Hok' & Hiv & Hseq). destruct (cipher_seq _ Hok).
  apply elem_of_app in Hn as [Hn|Hn].
  - destruct op as [t p pad| |]; [|by apply elem_of_nil in Hn..].
    pose proof (SealWithPadding_state t p pad rc) as Hst.
    destruct (SealWithPadding t p pad rc) as [r rc1]. cbn in Hn, Hst.
    destruct (is_ok r); [|by apply elem_of_nil in Hn].
    apply list_elem_of_singleton in Hn as ->. exists (seqno rc). destruct Hst. split; [lia|done].
  - apply IH in Hn as (s & Hs & ->); [|done]. exists s. split; [lia|]. by apply deriveNonce_ext.
Qed.



(** ** Every outcome *)

Lemma SealWithPadding_cases rc t p pad :
  cipher_ok rc -> - 2 ^ 63 <= pad < 2 ^ 63 ->
  let L := zlen p + 1 + pad + GCMTagSize in
  exists c, ((SealWithPadding t p pad rc).1 =
    if MaxPlaintextLength <? zlen p then Err ErrPlaintextTooLarge
    else if pad <? 0 then Err ErrNegativePadding
    else if 2 ^ 63 <=? L then (if seqno rc =? max_uint64 then Err ErrSequenceOverflow else Panic)
    else if MaxCiphertextLength <? L then Err ErrCiphertextTooLarge
    else if seqno rc =? max_uint64 then Err ErrSequenceOverflow
    else Ok (record_header L ++ c)) /\
    (0 <= pad -> L <= MaxCiphertextLength -> zlen c = L).
Proof.
  intros [Ha _ Hseq] Hpad L. pose proof (zlen_nonneg p).
  destruct (Z.ltb_spec pad 0) as [|Hp0].
  { exists []. split; [|lia]. unfold SealWithPadding. stm. by zcase. }
  destruct (Z.ltb_spec MaxCiphertextLength L) as [|HL].
  - exists []. split; [|lia]. unfold SealWithPadding. stm.
    destruct (Z.ltb_spec MaxPlaintextLength (zlen p)) as [|Hp]; [done|].
    pose proof (seal_lengths p pad Hp ltac:(lia)) as Hl. cbv zeta in Hl.
    destruct (Z.ltb_spec (zlen p + 1 + pad + GCMTagSize) (2 ^ 63)) as [Hlt|Hge];
      destruct Hl as [Hl1 Hl2]; subst L.
    + rewrite Hl1 in Hl2. rewrite Hl1, Hl2. by zcase.
    + zcase; by rewrite ?Hl2.
  - destruct (aead_seal_ok (deriveNonce rc (seqno rc)) (inner_plaintext t p pad) (record_header L))
      as (c & Hc & Hcl & _); [apply deriveNonce_len| |].
    { rewrite zlen_inner_plaintext by done. unfold MaxCiphertextLength, gcmMaxPlaintext, gcmBlockSize in *.
      unfold L, GCMTagSize in *. lia. }
    rewrite zlen_inner_plaintext in Hcl by done. exists c. split; [|done].
    unfold SealWithPadding. stm.
    destruct (Z.ltb_spec MaxPlaintextLength (zlen p)) as [|Hp]; [done|].
    pose proof (seal_lengths p pad Hp ltac:(lia)) as Hl. cbv zeta in Hl.
    unfold MaxCiphertextLength in *. fold L in Hl. rewrite (proj2 (Z.ltb_lt _ _)) in Hl by lia.
    destruct Hl as [Hl1 Hl2]. rewrite Hl1 in *. fold L in Hl2 |- *. rewrite Hl2. unfold gmake.
    unfold L, GCMTagSize in *. zcase; [done|].
    rewrite inner_plaintext_built by done. by rewrite Hc.
Qed.

(** C31. All outcomes of [SealWithPadding]: which inputs give which error, what
    length a record has, and the inputs on which it panics.  The guard
    [paddingLen < 0] does not stop a padding so large that the length
    computation overflows an int. *)
Theorem SealWithPadding_outcome rc t p pad :
  cipher_ok rc -> - 2 ^ 63 <= pad < 2 ^ 63 ->
  match (SealWithPadding t p pad rc).1 with
  | Ok rec =>
      zlen p <= MaxPlaintextLength /\ 0 <= pad /\ seqno rc < max_uint64 /\
      zlen p + 1 + pad + GCMTagSize <= MaxCiphertextLength /\
      zlen rec = RecordHeaderLen + (zlen p + 1 + pad + GCMTagSize) /\
      take_z RecordHeaderLen rec = record_header (zlen p + 1 + pad + GCMTagSize)
  | Err e =>
      (e = ErrPlaintextTooLarge /\ MaxPlaintextLength < zlen p) \/
      (e = ErrNegativePadding /\ zlen p <= MaxPlaintextLength /\ pad < 0) \/
      (e = ErrCiphertextTooLarge /\ zlen p <= MaxPlaintextLength /\ 0 <= pad /\
       MaxCiphertextLength < zlen p + 1 + pad + GCMTagSize < 2 ^ 63) \/
      (e = ErrSequenceOverflow /\ zlen p <= MaxPlaintextLength /\ 0 <= pad /\
       seqno rc = max_uint64)
  | Panic => zlen p <= MaxPlaintextLength /\ seqno rc < max_uint64 /\
             2 ^ 63 <= zlen p + 1 + pad + GCMTagSize
  end.
Proof.
  intros Hok Hpad. pose proof (cipher_seq _ Hok) as Hseq.
  destruct (SealWithPadding_cases rc t p pad Hok Hpad) as (c & -> & Hc).
  unfold MaxPlaintextLength, MaxCiphertextLength, RecordHeaderLen in *.
  zcase; split_and?; rewrite ?zlen_app, ?zlen_record_header, ?Hc by lia; auto 8; lia.
Qed.

Lemma SealWithPadding_outcome_witness :
  (SealWithPadding RecordTypeAlert [x01] (2 ^ 63 - 1) toy_cipher).1 = Panic /\
  2 ^ 63 <= zlen [x01] + 1 + (2 ^ 63 - 1) + GCMTagSize.
Proof.
  assert ((SealWithPadding RecordTypeAlert [x01] (2 ^ 63 - 1) toy_cipher).1 = Panic) as E
    by (vm_compute; reflexivity).
  split; [exact E|].
  pose proof (SealWithPadding_outcome toy_cipher RecordTypeAlert [x01] (2 ^ 63 - 1) toy_cipher_ok
    ltac:(lia)) as H.
  rewrite E in H. apply H.
Defined.
