(* ===== verification/Framing.v ===== *)
(** * Handshake messages on the wire (handshake.go)

    The 4-byte message header, messages in plaintext records (ClientHello and
    ServerHello), messages in sealed records with the buffering
    [encryptedHandshakeReader], and the transcript. *)

From S2P Require Import Prelude Gcm Gmsm Toy NetIO Record.

(** ** Constants *)

Definition HandshakeTypeClientHello : Byte.byte := x01.
Definition HandshakeTypeServerHello : Byte.byte := x02.
Definition HandshakeTypeEncryptedExtensions : Byte.byte := x08.
Definition HandshakeTypeCertificate : Byte.byte := x0b.
Definition HandshakeTypeCertificateVerify : Byte.byte := x0f.
Definition HandshakeTypeFinished : Byte.byte := x14.

Definition HandshakeHeaderLen : Z := 4.
Definition maxHandshakeBufferSize : Z := 2 * 1024 * 1024.

(** ** Encoding *)

Definition encodeHandshakeMsg (msgType : Byte.byte) (body : bytes) : bytes :=
  let length := zlen body in
  [msgType;
   byte_of_Z (Z.land (Z.shiftr length 16) 0xff);
   byte_of_Z (Z.land (Z.shiftr length 8) 0xff);
   byte_of_Z (Z.land length 0xff)] ++ body.

Arguments encodeHandshakeMsg : simpl never.

(** [int(b[1])<<16 | int(b[2])<<8 | int(b[3])] *)
Definition header_msg_len (b : bytes) : Z :=
  Z.lor (Z.lor (Z.shiftl (byte_to_Z (byte_at b 1)) 16) (Z.shiftl (byte_to_Z (byte_at b 2)) 8))
        (byte_to_Z (byte_at b 3)).

(** ** Plaintext records *)

Definition plaintext_record (hsMsg : bytes) : bytes :=
  [RecordTypeHandshake; x03; x03] ++ be_bytes 2 (zlen hsMsg) ++ hsMsg.

Definition writePlaintextHandshakeMsg (msgType : Byte.byte) (body : bytes) : stM RawConn bytes :=
  let hsMsg := encodeHandshakeMsg msgType body in
  reject_if MaxPlaintextLength <? zlen hsMsg
    with ErrNew "teetls: plaintext handshake message exceeds max record length";
  _ ← writeFull (plaintext_record hsMsg) <?> "write plaintext handshake record: %w";
  mret hsMsg.

Definition ErrInvalidMsgLength : error := ErrNew "teetls: invalid handshake message length".

(** The head of the loop body: one record's payload. *)
Definition read_plaintext_fragment : stM RawConn bytes :=
  header ← read_full RecordHeaderLen <?> "read plaintext record header: %w";
  reject_if negb (bool_decide (byte_at header 0 = RecordTypeHandshake))
    with Errorf "teetls: expected plaintext handshake record (22), got %d"
           [FInt (byte_to_Z (byte_at header 0))];
  let payloadLen := be_uint (slice header 3 5) in
  reject_if (payloadLen <=? 0) || (MaxPlaintextLength <? payloadLen)
    with Errorf "teetls: invalid plaintext handshake record payload length %d" [FInt payloadLen];
  read_full payloadLen <?> "read plaintext handshake payload: %w".

(** Its tail, on the bytes assembled so far: the new [msgType] and
    [expectedTotalLen], and what the function returns, if it does. *)
Definition plaintext_progress (assembled : bytes) (msgType : Byte.byte) (expectedTotalLen : Z)
  : result (Byte.byte * Z * option (Byte.byte * bytes * bytes)) :=
  '(msgType, expectedTotalLen) ←
    (if (expectedTotalLen =? 0) && (HandshakeHeaderLen <=? zlen assembled) then
       let msgLen := header_msg_len assembled in
       reject_if (msgLen <? 0) || (Z.shiftl 1 24 <? msgLen) with ErrInvalidMsgLength;
       Ok (byte_at assembled 0, HandshakeHeaderLen + msgLen)
     else Ok (msgType, expectedTotalLen));
  if (0 <? expectedTotalLen) && (expectedTotalLen <=? zlen assembled) then
    reject_if expectedTotalLen <? zlen assembled
      with ErrNew "teetls: excess data in plaintext handshake fragment";
    Ok (msgType, expectedTotalLen,
        Some (msgType, slice assembled HandshakeHeaderLen expectedTotalLen, assembled))
  else Ok (msgType, expectedTotalLen, None).

(** The [for] loop: [assembled], [msgType] and [expectedTotalLen] are its variables. *)
Fixpoint readPlaintext_loop (fuel : nat) (assembled : bytes) (msgType : Byte.byte)
    (expectedTotalLen : Z) : stM RawConn (Byte.byte * bytes * bytes) :=
  match fuel with
  | O => throw ErrOutOfFuel
  | S fuel' =>
      recordPayload ← read_plaintext_fragment;
      reject_if maxHandshakeBufferSize <? zlen assembled + zlen recordPayload
        with ErrNew "teetls: plaintext handshake buffer size limit exceeded";
      let assembled := assembled ++ recordPayload in
      '(msgType, expectedTotalLen, done) ←
        lift (plaintext_progress assembled msgType expectedTotalLen);
      match done with
      | Some r => mret r
      | None => readPlaintext_loop fuel' assembled msgType expectedTotalLen
      end
  end.

(** Every round takes a record header at least, so the bytes received bound
    the rounds (theorem [readPlaintext_fuel_enough]). *)
Definition readPlaintextHandshakeMsg : stM RawConn (Byte.byte * bytes * bytes) := fun c =>
  readPlaintext_loop (S (length (conn_rx c))) [] x00 0 c.

(** ** Sealed records *)

Record encryptedHandshakeReader := mkReader {
  hr_cipher : RecordCipher;
  hr_buf : bytes
}.

Definition newEncryptedHandshakeReader (cipher : RecordCipher) : encryptedHandshakeReader :=
  mkReader cipher [].

(** The reader's view: the connection it reads and its own state. *)
Definition readerM : Type -> Type := stM (RawConn * encryptedHandshakeReader).

Definition reader_unseal (record : bytes) : readerM (RecordType * bytes) :=
  on_snd (fun hr =>
    let '(r, rc') := Unseal record (hr_cipher hr) in (r, mkReader rc' (hr_buf hr))).
Definition reader_buf : readerM bytes := fun s => (Ok (hr_buf s.2), s).
Definition reader_set_buf (buf : bytes) : readerM unit := fun s =>
  (Ok tt, (s.1, mkReader (hr_cipher s.2) buf)).

(** The first part of a round: a complete message at the head of the buffer. *)
Definition reader_take_msg (buf : bytes) : result (option (Byte.byte * bytes * bytes)) :=
  if HandshakeHeaderLen <=? zlen buf then
    let msgLen := header_msg_len buf in
    reject_if (msgLen <? 0) || (Z.shiftl 1 24 <? msgLen) with ErrInvalidMsgLength;
    let totalLen := HandshakeHeaderLen + msgLen in
    reject_if maxHandshakeBufferSize <? totalLen
      with ErrNew "teetls: handshake message exceeds buffer limit";
    if totalLen <=? zlen buf
    then Ok (Some (byte_at buf 0, slice buf HandshakeHeaderLen totalLen, drop_z totalLen buf))
    else Ok None
  else Ok None.

(** One sealed handshake record: its plaintext. *)
Definition read_encrypted_record : readerM bytes :=
  header ← on_fst (read_full RecordHeaderLen) <?> "read record header: %w";
  reject_if negb (bool_decide (byte_at header 0 = RecordTypeApplicationData))
    with ErrInvalidRecordHeader;
  let payloadLen := be_uint (slice header 3 5) in
  reject_if (payloadLen <=? 0) || (MaxCiphertextLength <? payloadLen) with ErrCiphertextTooLarge;
  payload ← on_fst (read_full payloadLen) <?> "read record payload: %w";
  '(recType, plaintext) ← reader_unseal (header ++ payload) <?> "unseal record: %w";
  reject_if negb (bool_decide (recType = RecordTypeHandshake))
    with Errorf "teetls: expected handshake record type (22), got %d" [FInt (byte_to_Z recType)];
  mret plaintext.

Fixpoint ReadMsg_loop (fuel : nat) : readerM (Byte.byte * bytes) :=
  match fuel with
  | O => throw ErrOutOfFuel
  | S fuel' =>
      buf ← reader_buf;
      m ← lift (reader_take_msg buf);
      match m with
      | Some (msgType, body, rest) => _ ← reader_set_buf rest; mret (msgType, body)
      | None =>
          plaintext ← read_encrypted_record;
          reject_if maxHandshakeBufferSize <? zlen buf + zlen plaintext
            with ErrNew "teetls: handshake message buffer limit exceeded";
          _ ← reader_set_buf (buf ++ plaintext);
          ReadMsg_loop fuel'
      end
  end.

Definition ReadMsg : readerM (Byte.byte * bytes) := fun s =>
  ReadMsg_loop (S (length (conn_rx s.1))) s.

Definition HasRemaining (hr : encryptedHandshakeReader) : bool := 0 <? zlen (hr_buf hr).

(** The cipher is shared with the caller. *)
Definition readEncryptedHandshakeMsg : stM (RawConn * RecordCipher) (Byte.byte * bytes) :=
  fun '(c, cipher) =>
    let '(r, (c', hr)) := ReadMsg (c, newEncryptedHandshakeReader cipher) in (r, (c', hr_cipher hr)).

(** The loop [for len(hsMsg) > 0]. *)
Fixpoint writeEncrypted_loop (fuel : nat) (hsMsg : bytes) : stM (RawConn * RecordCipher) unit :=
  match fuel with
  | O => throw ErrOutOfFuel
  | S fuel' =>
      if 0 <? zlen hsMsg then
        let chunkSize := if MaxPlaintextLength <? zlen hsMsg then MaxPlaintextLength else zlen hsMsg in
        record ← on_snd (Seal RecordTypeHandshake (take_z chunkSize hsMsg))
                   <?> "seal handshake record: %w";
        _ ← on_fst (writeFull record) <?> "write record: %w";
        writeEncrypted_loop fuel' (drop_z chunkSize hsMsg)
      else mret tt
  end.

Definition writeEncryptedHandshakeMsg (msgType : Byte.byte) (body : bytes)
  : stM (RawConn * RecordCipher) unit :=
  let hsMsg := encodeHandshakeMsg msgType body in
  writeEncrypted_loop (S (length hsMsg)) hsMsg.

(** ** The transcript *)

Definition handshakeTranscript : Type := bytes.
Definition transcript_Write (t : handshakeTranscript) (msgType : Byte.byte) (body : bytes)
  : handshakeTranscript := t ++ encodeHandshakeMsg msgType body.
Definition transcript_Bytes (t : handshakeTranscript) : bytes := t.
Definition transcript_Hash `{SM3} (t : handshakeTranscript) : bytes := sm3_Sm3Sum t.

(** ** The message header *)

Lemma lor_shiftl_add a b n :
  0 <= n -> 0 <= b < 2 ^ n -> Z.lor (Z.shiftl a n) b = a * 2 ^ n + b.
Proof.
  intros Hn Hb. assert (Z.land (Z.shiftl a n) b = 0) as Hland.
  { apply Z.bits_inj'. intros i Hi. rewrite Z.land_spec, Z.shiftl_spec, Z.bits_0 by lia.
    destruct (Z.ltb_spec i n); [by rewrite Z.testbit_neg_r by lia|].
    rewrite <-(Z.mod_small b (2 ^ n)), Z.mod_pow2_bits_high by lia. apply andb_false_r. }
  rewrite <-Z.lxor_lor, <-Z.add_nocarry_lxor by done. by rewrite Z.shiftl_mul_pow2.
Qed.

Lemma header_msg_len_eq b :
  header_msg_len b
  = byte_to_Z (byte_at b 1) * 65536 + byte_to_Z (byte_at b 2) * 256 + byte_to_Z (byte_at b 3).
Proof.
  unfold header_msg_len.
  pose proof (byte_to_Z_range (byte_at b 1)). pose proof (byte_to_Z_range (byte_at b 2)).
  pose proof (byte_to_Z_range (byte_at b 3)).
  rewrite (lor_shiftl_add _ (Z.shiftl _ 8)) by (rewrite ?Z.shiftl_mul_pow2 by lia; lia).
  rewrite Z.shiftl_mul_pow2 by lia.
  replace (byte_to_Z (byte_at b 1) * 2 ^ 16 + byte_to_Z (byte_at b 2) * 2 ^ 8)
    with ((byte_to_Z (byte_at b 1) * 2 ^ 8 + byte_to_Z (byte_at b 2)) * 2 ^ 8) by lia.
  rewrite <-Z.shiftl_mul_pow2 at 1 by lia. rewrite lor_shiftl_add by lia. lia.
Qed.

Lemma header_msg_len_range b : 0 <= header_msg_len b < 2 ^ 24.
Proof.
  rewrite header_msg_len_eq.
  pose proof (byte_to_Z_range (byte_at b 1)). pose proof (byte_to_Z_range (byte_at b 2)).
  pose proof (byte_to_Z_range (byte_at b 3)). lia.
Qed.

Lemma encode_header t body :
  encodeHandshakeMsg t body
  = [t; byte_of_Z (zlen body / 65536); byte_of_Z (zlen body / 256); byte_of_Z (zlen body)] ++ body.
Proof.
  unfold encodeHandshakeMsg. change 0xff with (Z.ones 8).
  rewrite !Z.land_ones, !Z.shiftr_div_pow2 by lia. change (2 ^ 8) with 256.
  change (2 ^ 16) with 65536. by rewrite !byte_of_Z_mod.
Qed.

Lemma zlen_encode t body : zlen (encodeHandshakeMsg t body) = HandshakeHeaderLen + zlen body.
Proof. rewrite encode_header. unfold HandshakeHeaderLen. zlia. Qed.
#[export] Hint Rewrite zlen_encode : zlen.

Lemma encode_msg_len t body rest :
  zlen body < 2 ^ 24 -> header_msg_len (encodeHandshakeMsg t body ++ rest) = zlen body.
Proof.
  intros Hb. pose proof (zlen_nonneg body). rewrite header_msg_len_eq, encode_header.
  change (byte_at _ 1) with (byte_of_Z (zlen body / 65536)).
  change (byte_at _ 2) with (byte_of_Z (zlen body / 256)).
  change (byte_at _ 3) with (byte_of_Z (zlen body)). rewrite !byte_to_of_Z.
  Z.to_euclidean_division_equations. lia.
Qed.

(** A buffer that holds a whole message is that message and the rest. *)
Lemma encode_of_header (buf : bytes) :
  let total := HandshakeHeaderLen + header_msg_len buf in
  HandshakeHeaderLen <= zlen buf -> total <= zlen buf ->
  buf = encodeHandshakeMsg (byte_at buf 0) (slice buf HandshakeHeaderLen total) ++ drop_z total buf.
Proof.
  unfold HandshakeHeaderLen. cbv zeta. intros H4 Hl.
  pose proof (header_msg_len_range buf) as Hr.
  assert (zlen (slice buf 4 (4 + header_msg_len buf)) = header_msg_len buf) as Hs by zlia.
  rewrite encode_header, Hs, header_msg_len_eq.
  pose proof (byte_to_Z_range (byte_at buf 1)). pose proof (byte_to_Z_range (byte_at buf 2)).
  pose proof (byte_to_Z_range (byte_at buf 3)).
  rewrite <-(byte_of_Z_mod (_ / 65536)), <-(byte_of_Z_mod (_ / 256)), <-(byte_of_Z_mod (_ + _)).
  set (b1 := byte_to_Z (byte_at buf 1)) in *. set (b2 := byte_to_Z (byte_at buf 2)) in *.
  set (b3 := byte_to_Z (byte_at buf 3)) in *.
  replace ((b1 * 65536 + b2 * 256 + b3) / 65536 mod 256) with b1
    by (Z.to_euclidean_division_equations; lia).
  replace ((b1 * 65536 + b2 * 256 + b3) / 256 mod 256) with b2
    by (Z.to_euclidean_division_equations; lia).
  replace ((b1 * 65536 + b2 * 256 + b3) mod 256) with b3
    by (Z.to_euclidean_division_equations; lia).
  unfold b1, b2, b3. rewrite !byte_of_to_Z.
  destruct buf as [|c0 [|c1 [|c2 [|c3 buf]]]]; [zlia..|].
  unfold slice. change (drop_z 4 (c0 :: c1 :: c2 :: c3 :: buf)) with buf.
  cbn [app]. do 4 f_equal.
  rewrite <-(take_drop_z (header_msg_len (c0 :: c1 :: c2 :: c3 :: buf)) buf) at 1. f_equal.
  - f_equal. rewrite header_msg_len_eq. lia.
  - unfold drop_z. rewrite header_msg_len_eq in *.
    replace (Z.to_nat (4 + _)) with (4 + Z.to_nat (b1 * 65536 + b2 * 256 + b3))%nat by lia. done.
Qed.

(** ** Reading plaintext messages *)

(** A plaintext record as a peer may send it: the reader does not look at the
    two version bytes. *)
Definition fragment_record (f : bytes * bytes) : bytes :=
  [RecordTypeHandshake] ++ f.1 ++ be_bytes 2 (zlen f.2) ++ f.2.
Arguments fragment_record : simpl never.
Definition fragment_ok (f : bytes * bytes) : Prop :=
  zlen f.1 = 2 /\ 1 <= zlen f.2 <= MaxPlaintextLength.

Lemma plaintext_record_fragment m : plaintext_record m = fragment_record ([x03; x03], m).
Proof. reflexivity. Qed.

Lemma read_plaintext_fragment_Ok c p c' :
  read_plaintext_fragment c = (Ok p, c') <->
  exists ver, fragment_ok (ver, p) /\ conn_rx c = fragment_record (ver, p) ++ conn_rx c' /\
              c' = set_rx c (conn_rx c').
Proof.
  unfold read_plaintext_fragment, fragment_ok, fragment_record, RecordHeaderLen. cbn [fst snd]. split.
  - intros H. inv_stm. zbool. apply read_full_Ok in Hv as (Hl & Hrx & Hst); [|lia].
    apply read_full_Ok in H as (Hp & Hrx' & Hc'); [|lia].
    exists (slice v 1 3). split; [split; [zlia|lia]|].
    split; [|rewrite Hst in Hc'; exact Hc'].
    assert (v = [RecordTypeHandshake] ++ slice v 1 3 ++ be_bytes 2 (zlen p)) as Hveq.
    { rewrite Hp, be_bytes_be_uint by (apply Nat2Z.inj; fold (zlen (slice v 3 5)); zlia).
      rewrite <-(slice_slice_z v 1 3 5) by lia.
      destruct v as [|b v]; [zlia|]. change (b = RecordTypeHandshake) in Hc. subst b.
      unfold slice. change (drop_z 1 (RecordTypeHandshake :: v)) with v.
      by rewrite take_z_all by zlia. }
    rewrite Hrx, Hrx', Hveq at 1. by rewrite <-!app_assoc.
  - intros (ver & [Hv Hp] & Hrx & Hc').
    set (n := zlen p) in *. unfold MaxPlaintextLength in *.
    assert (read_full 5 c = (Ok ([RecordTypeHandshake] ++ ver ++ be_bytes 2 n),
      set_rx c (p ++ conn_rx c'))) as Hr.
    { apply read_full_app; [zlia|]. rewrite Hrx. by rewrite <-!app_assoc. }
    apply stM_bind_Ok. eexists _, _. split; [apply stM_map_err_Ok; exact Hr|]. cbv beta.
    assert (be_uint (slice ([RecordTypeHandshake] ++ ver ++ be_bytes 2 n) 3 5) = n) as Hn.
    { rewrite app_assoc, <-(app_nil_r (be_bytes 2 n)), slice_app by zlia.
      rewrite be_uint_be_bytes. apply Z.mod_small. lia. }
    rewrite Hn, bool_decide_eq_true_2 by done. cbn [negb].
    unfold MaxPlaintextLength. zcase. apply stM_map_err_Ok.
    rewrite (read_full_app n p (conn_rx c')) by done. f_equal. symmetry. exact Hc'.
Qed.

(** The loop variables between two rounds. *)
Definition assembling (asm : bytes) (mt : Byte.byte) (ex : Z) : Prop :=
  (zlen asm < HandshakeHeaderLen /\ ex = 0) \/
  (HandshakeHeaderLen <= zlen asm < ex /\ mt = byte_at asm 0 /\
   ex = HandshakeHeaderLen + header_msg_len asm).

Lemma byte_at_app_l (l k : bytes) i : 0 <= i < zlen l -> byte_at (l ++ k) i = byte_at l i.
Proof. intros. unfold byte_at, zlen in *. rewrite lookup_app_l by lia. done. Qed.

Lemma header_msg_len_app l k :
  HandshakeHeaderLen <= zlen l -> header_msg_len (l ++ k) = header_msg_len l.
Proof.
  unfold HandshakeHeaderLen. intros. unfold header_msg_len. by rewrite !byte_at_app_l by lia.
Qed.

Lemma plaintext_progress_spec asm mt ex p :
  assembling asm mt ex ->
  let a := asm ++ p in
  match plaintext_progress a mt ex with
  | Ok (mt', ex', None) => assembling a mt' ex'
  | Ok (_, _, Some (t, body, raw)) =>
      raw = a /\ a = encodeHandshakeMsg t body /\ zlen body < 2 ^ 24
  | Err _ => HandshakeHeaderLen <= zlen a /\ HandshakeHeaderLen + header_msg_len a < zlen a
  | Panic => False
  end.
Proof.
  intros Hasm a. pose proof (header_msg_len_range a) as Hr.
  assert (HandshakeHeaderLen = 4) as H44 by done.
  pose proof (zlen_nonneg p). assert (zlen a = zlen asm + zlen p) as Ha by (unfold a; zlia).
  assert (HandshakeHeaderLen <= zlen a ->
    match (reject_if HandshakeHeaderLen + header_msg_len a <? zlen a
       with ErrNew "teetls: excess data in plaintext handshake fragment";
     Ok (byte_at a 0, HandshakeHeaderLen + header_msg_len a,
        Some (byte_at a 0, slice a HandshakeHeaderLen (HandshakeHeaderLen + header_msg_len a), a)))
    with
    | Ok (_, _, Some (t, body, raw)) =>
        HandshakeHeaderLen + header_msg_len a <= zlen a ->
        raw = a /\ a = encodeHandshakeMsg t body /\ zlen body < 2 ^ 24
    | Err _ => HandshakeHeaderLen <= zlen a /\ HandshakeHeaderLen + header_msg_len a < zlen a
    | _ => False
    end) as Hdone.
  { intros H4. destruct (Z.ltb_spec (HandshakeHeaderLen + header_msg_len a) (zlen a)); [done|].
    intros Hle. cbn. split; [done|]. pose proof (encode_of_header a H4 Hle) as He. cbv zeta in He.
    rewrite drop_z_all, app_nil_r in He by lia. split; [done|].
    unfold HandshakeHeaderLen in *. zlia. }
  unfold plaintext_progress. destruct Hasm as [[Hlt ->]|(Hle & -> & ->)].
  - cbn [Z.eqb andb]. destruct (Z.leb_spec HandshakeHeaderLen (zlen a)) as [H4|H4].
    + change (Z.shiftl 1 24) with (2 ^ 24).
      rewrite (proj2 (Z.ltb_ge (header_msg_len a) 0)), (proj2 (Z.ltb_ge (2 ^ 24) _)) by lia.
      cbn [orb].
      unfold mbind, result_bind. rewrite (proj2 (Z.ltb_lt 0 _)) by (unfold HandshakeHeaderLen; lia).
      cbn [andb]. destruct (Z.leb_spec (HandshakeHeaderLen + header_msg_len a) (zlen a)).
      * specialize (Hdone H4). destruct (_ <? _); [done|]. by apply Hdone.
      * right. done.
    + cbn. left. done.
  - rewrite (proj2 (Z.eqb_neq _ 0)) by lia. cbn [andb].
    unfold mbind, result_bind. rewrite (proj2 (Z.ltb_lt 0 _)) by (unfold HandshakeHeaderLen in *; lia).
    cbn [andb].
    assert (byte_at asm 0 = byte_at a 0) as ->
      by (unfold a; rewrite byte_at_app_l by (unfold HandshakeHeaderLen in *; lia); done).
    assert (header_msg_len asm = header_msg_len a) as Hm
      by (unfold a; by rewrite header_msg_len_app by lia). rewrite Hm in *.
    destruct (Z.leb_spec (HandshakeHeaderLen + header_msg_len a) (zlen a)).
    + specialize (Hdone ltac:(lia)). destruct (_ <? _); [done|]. by apply Hdone.
    + right. split_and!; [lia..|done|done].
Qed.

(** A proper prefix of one message never completes it. *)
Lemma plaintext_progress_prefix asm mt ex p t body x :
  assembling asm mt ex -> zlen body < 2 ^ 24 -> asm ++ p ++ x = encodeHandshakeMsg t body ->
  match plaintext_progress (asm ++ p) mt ex with
  | Ok (mt', ex', None) => x <> [] /\ assembling (asm ++ p) mt' ex'
  | Ok (_, _, Some r) => x = [] /\ r = (t, body, encodeHandshakeMsg t body)
  | _ => False
  end.
Proof.
  intros Hasm Hb Hx. assert (HandshakeHeaderLen = 4) as H44 by done.
  pose proof (plaintext_progress_spec asm mt ex p Hasm) as H. cbv zeta in H.
  rewrite app_assoc in Hx. set (a := asm ++ p) in *.
  assert (HandshakeHeaderLen <= zlen a -> header_msg_len a = zlen body) as Hlen.
  { intros. rewrite <-(header_msg_len_app a x), Hx, <-(app_nil_r (encodeHandshakeMsg t body)) by done.
    by apply encode_msg_len. }
  assert (zlen a + zlen x = HandshakeHeaderLen + zlen body) as Hz
    by (rewrite <-zlen_app, Hx; apply zlen_encode).
  pose proof (zlen_nonneg x).
  destruct (plaintext_progress a mt ex) as [[[mt' ex'] [[[t' body'] raw]|]]|e|]; [| | |done].
  - destruct H as (-> & Ha & Hb'). assert (x = []) as ->.
    { apply zlen_nil_inv. rewrite Ha in Hlen.
      rewrite <-(app_nil_r (encodeHandshakeMsg t' body')) in Hlen.
      rewrite encode_msg_len in Hlen by done. rewrite Ha in Hz. rewrite app_nil_r in Hlen.
      rewrite zlen_encode in Hz, Hlen. pose proof (zlen_nonneg body'). specialize (Hlen ltac:(lia)). lia. }
    split; [done|]. rewrite app_nil_r in Hx. rewrite <-Hx, Ha in *.
    rewrite !encode_header in Hx. cbn [app] in Hx. by simplify_eq.
  - split; [|done]. intros ->. rewrite zlen_nil in Hz. pose proof (zlen_nonneg body).
    destruct H as [[Hlt ->]|(Hlt & _ & ->)]; [lia|]. rewrite Hlen in Hlt by lia. lia.
  - destruct H as [H4 H]. rewrite Hlen in H by done. lia.
Qed.

Lemma assembling_nil : assembling [] x00 0.
Proof. by left. Qed.

Lemma readPlaintext_loop_sound fuel asm mt ex c t body raw c' :
  assembling asm mt ex ->
  readPlaintext_loop fuel asm mt ex c = (Ok (t, body, raw), c') ->
  raw = encodeHandshakeMsg t body /\ zlen body < 2 ^ 24 /\ zlen raw <= maxHandshakeBufferSize /\
  exists frags, Forall fragment_ok frags /\ asm ++ concat frags.*2 = raw /\
    conn_rx c = concat (fragment_record <$> frags) ++ conn_rx c' /\ c' = set_rx c (conn_rx c').
Proof.
  revert asm mt ex c. induction fuel as [|fuel IH]; intros asm mt ex c Hasm H; [done|].
  cbn [readPlaintext_loop] in H. inv_stm. zbool. destruct v0 as [[mt' ex'] fin].
  apply read_plaintext_fragment_Ok in Hv as (ver & Hok & Hrx & Hst).
  pose proof (plaintext_progress_spec asm mt ex v Hasm) as Hp. cbv zeta in Hp. rewrite Hv0 in Hp.
  destruct fin as [[[t' body'] raw']|].
  - destruct Hp as (-> & Ha & Hb). inv_stm. split_and!; [done|done|zlia|].
    exists [(ver, v)]. cbn. rewrite !app_nil_r. split; [by apply Forall_singleton|].
    split; [done|]. split; [done|exact Hst].
  - apply IH in H as (Hraw & Hb & Hlen & frags & Hf & Hcat & Hrx' & Hc'); [|done].
    split_and!; [done..|]. exists ((ver, v) :: frags). cbn. split; [by constructor|].
    split; [by rewrite app_assoc|]. split; [rewrite Hrx, Hrx'; by rewrite <-app_assoc|].
    rewrite Hst in Hc'. exact Hc'.
Qed.

Lemma readPlaintext_loop_complete frags fuel asm mt ex c t body rest :
  assembling asm mt ex -> zlen body < 2 ^ 24 ->
  zlen (encodeHandshakeMsg t body) <= maxHandshakeBufferSize ->
  Forall fragment_ok frags -> asm ++ concat frags.*2 = encodeHandshakeMsg t body ->
  (length frags <= fuel)%nat -> conn_rx c = concat (fragment_record <$> frags) ++ rest ->
  readPlaintext_loop fuel asm mt ex c
  = (Ok (t, body, encodeHandshakeMsg t body), set_rx c rest).
Proof.
  assert (HandshakeHeaderLen = 4) as H44 by done.
  revert fuel asm mt ex c. induction frags as [|[ver p] frags IH];
    intros fuel asm mt ex c Hasm Hb Hlen Hok Hcat Hfuel Hrx.
  - exfalso. cbn in Hcat. rewrite app_nil_r in Hcat. subst asm. rewrite <-(app_nil_r (encodeHandshakeMsg t body)) in Hasm.
    destruct Hasm as [[Hlt _]|(Hlt & _ & ->)].
    + rewrite app_nil_r, zlen_encode in Hlt. pose proof (zlen_nonneg body). lia.
    + rewrite encode_msg_len in Hlt by done. rewrite app_nil_r, zlen_encode in Hlt. lia.
  - destruct fuel as [|fuel]; [cbn in Hfuel; lia|].
    apply Forall_cons in Hok as [Hp Hok]. cbn in Hcat, Hrx, Hfuel.
    cbn [readPlaintext_loop]. apply stM_bind_Ok.
    exists p, (set_rx c (concat (fragment_record <$> frags) ++ rest)). split.
    { apply read_plaintext_fragment_Ok. exists ver. split; [done|].
      split; [rewrite Hrx, <-app_assoc; reflexivity|reflexivity]. }
    apply stM_if_throw. split.
    { apply Z.ltb_ge. rewrite <-zlen_app. pose proof (f_equal zlen Hcat) as Hz.
      rewrite !zlen_app in *. pose proof (zlen_nonneg (concat frags.*2)). lia. }
    pose proof (plaintext_progress_prefix asm mt ex p t body _ Hasm Hb Hcat) as Hpr.
    apply stM_bind_Ok.
    destruct (plaintext_progress (asm ++ p) mt ex) as [[[mt' ex'] [r|]]|e|] eqn:E; try done;
      eexists _, _; (split; [apply lift_Ok; split; [reflexivity|reflexivity]|]).
    + destruct Hpr as [Hnil ->]. destruct frags as [|[ver' p'] frags]; [done|].
      apply Forall_cons in Hok as [[_ Hp'] _]. cbn in Hnil, Hp'.
      apply app_eq_nil in Hnil as [-> _]. rewrite zlen_nil in Hp'. lia.
    + destruct Hpr as [_ Hasm']. rewrite (IH fuel _ _ _ _ Hasm'); [done|done..|by rewrite <-app_assoc|lia|done].
Qed.

Lemma fragment_record_len f : fragment_ok f -> (0 < length (fragment_record f))%nat.
Proof. intros _. unfold fragment_record. rewrite length_app. cbn [length]. lia. Qed.

Lemma length_concat_records frags :
  Forall fragment_ok frags -> (length frags <= length (concat (fragment_record <$> frags)))%nat.
Proof.
  induction 1 as [|f frags Hf _ IH]; cbn; [done|]. rewrite length_app.
  pose proof (fragment_record_len f Hf). lia.
Qed.

(** C32. [readPlaintextHandshakeMsg] reassembles fragmented messages and nothing
    else: it returns (type, body, raw) exactly when the connection holds a
    sequence of non-empty handshake records of at most 2^14 bytes whose
    payloads, put together, are the encoding of that message, within the 2 MB
    limit; it then leaves the bytes after those records. *)
Theorem readPlaintext_iff c t body raw c' :
  readPlaintextHandshakeMsg c = (Ok (t, body, raw), c') <->
  raw = encodeHandshakeMsg t body /\ zlen body < 2 ^ 24 /\ zlen raw <= maxHandshakeBufferSize /\
  exists frags, Forall fragment_ok frags /\ concat frags.*2 = raw /\
    conn_rx c = concat (fragment_record <$> frags) ++ conn_rx c' /\ c' = set_rx c (conn_rx c').
Proof.
  unfold readPlaintextHandshakeMsg. split.
  - intros H. apply (readPlaintext_loop_sound _ []) in H; [exact H|apply assembling_nil].
  - intros (-> & Hb & Hlen & frags & Hok & Hcat & Hrx & Hc').
    rewrite Hc' at 1. apply (readPlaintext_loop_complete frags); try done; [apply assembling_nil|].
    rewrite Hrx, length_app. pose proof (length_concat_records frags Hok). lia.
Qed.

Lemma read_full_rx_len n c : (length (conn_rx (read_full n c).2) <= length (conn_rx c))%nat.
Proof.
  unfold read_full, read_full_from. repeat case_match; simplify_eq/=; try lia.
  unfold drop_z. rewrite length_drop. lia.
Qed.

Lemma read_plaintext_fragment_not_fuel c : (read_plaintext_fragment c).1 <> Err ErrOutOfFuel.
Proof.
  unfold read_plaintext_fragment. stm. repeat (case_match; simplify_eq/=; try done).
Qed.

Lemma plaintext_progress_not_fuel a mt ex : plaintext_progress a mt ex <> Err ErrOutOfFuel.
Proof.
  unfold plaintext_progress, mbind, result_bind, throw, result_throw.
  repeat (case_match; simplify_eq/=; try done).
Qed.

(** The plaintext read loop terminates: the bytes received bound its rounds.
    Any larger fuel gives the same result, and that result is never the
    out-of-fuel mark. *)
Theorem readPlaintext_fuel_enough fuel c :
  (length (conn_rx c) < fuel)%nat ->
  readPlaintext_loop fuel [] x00 0 c = readPlaintextHandshakeMsg c /\
  (readPlaintextHandshakeMsg c).1 <> Err ErrOutOfFuel.
Proof.
  enough (forall n f asm mt ex c, (length (conn_rx c) < n <= f)%nat ->
    readPlaintext_loop f asm mt ex c = readPlaintext_loop n asm mt ex c /\
    (readPlaintext_loop n asm mt ex c).1 <> Err ErrOutOfFuel) as H by (intros; apply H; lia).
  clear. induction n as [|n IH]; intros [|f] asm mt ex c Hn; [lia..|].
  cbn [readPlaintext_loop]. unfold mbind, stM_bind.
  pose proof (read_plaintext_fragment_not_fuel c) as Hnf.
  destruct (read_plaintext_fragment c) as [[p|e|] c1] eqn:E; [|split; [done|intros [= ->]; done]|done].
  apply read_plaintext_fragment_Ok in E as (ver & Hok & Hrx & _).
  pose proof (fragment_record_len _ Hok). rewrite Hrx, length_app in Hn.
  destruct (_ <? _); [done|]. unfold lift.
  pose proof (plaintext_progress_not_fuel (asm ++ p) mt ex) as Hnf'.
  destruct (plaintext_progress (asm ++ p) mt ex) as [[[mt' ex'] [r|]]|e|]; [done| |split; [done|intros [= ->]; done]|done].
  apply IH. lia.
Qed.

Lemma readPlaintext_fuel_enough_witness :
  let c := Build_RawConn (plaintext_record (encodeHandshakeMsg x01 [x07; x08])) io_EOF [] [] None
             false None false in
  (length (conn_rx c) < 100)%nat /\
  readPlaintext_loop 100 [] x00 0 c = readPlaintextHandshakeMsg c.
Proof.
  intros c. assert (length (conn_rx c) < 100)%nat as Hl by (vm_compute; lia).
  split; [exact Hl|]. exact (proj1 (readPlaintext_fuel_enough 100 c Hl)).
Defined.

(** ** The buffering reader *)

Lemma reader_take_msg_Some buf t body rest :
  reader_take_msg buf = Ok (Some (t, body, rest)) <->
  buf = encodeHandshakeMsg t body ++ rest /\ zlen body < 2 ^ 24 /\
  zlen (encodeHandshakeMsg t body) <= maxHandshakeBufferSize.
Proof.
  assert (HandshakeHeaderLen = 4) as H44 by done. unfold reader_take_msg.
  pose proof (header_msg_len_range buf) as Hr. split.
  - destruct (Z.leb_spec HandshakeHeaderLen (zlen buf)) as [H4|]; [|done].
    intros H. inv_ok. zbool. destruct (Z.leb_spec (HandshakeHeaderLen + header_msg_len buf) (zlen buf))
      as [Hle|]; [|done]. inv_ok. pose proof (encode_of_header buf H4 Hle) as He. cbv zeta in He.
    injection H as <- <- <-. rewrite zlen_encode. split; [done|]. split; zlia.
  - intros (Hbuf & Hb & Hl). pose proof (zlen_nonneg body). pose proof (zlen_nonneg rest).
    assert (header_msg_len buf = zlen body) as Hm by (rewrite Hbuf; by apply encode_msg_len).
    assert (zlen buf = 4 + zlen body + zlen rest) as Hz
      by (rewrite Hbuf, zlen_app, zlen_encode; lia).
    rewrite zlen_encode in Hl. rewrite Hm. change (Z.shiftl 1 24) with (2 ^ 24).
    unfold HandshakeHeaderLen in *. zcase.
    assert (4 + zlen body = zlen (encodeHandshakeMsg t body)) as Hlen
      by (rewrite zlen_encode; done).
    rewrite Hbuf at 3. rewrite drop_z_app by done.
    replace (byte_at buf 0) with t by (rewrite Hbuf, encode_header; done).
    do 5 f_equal. rewrite Hbuf, encode_header, <-app_assoc, slice_app by zlia. done.
Qed.

Lemma reader_take_msg_partial buf x t body extra :
  buf ++ x = encodeHandshakeMsg t body ++ extra -> zlen body < 2 ^ 24 ->
  zlen (encodeHandshakeMsg t body) <= maxHandshakeBufferSize ->
  zlen buf < zlen (encodeHandshakeMsg t body) ->
  reader_take_msg buf = Ok None.
Proof.
  intros Hx Hb Hl Hlt. rewrite zlen_encode in *. unfold reader_take_msg.
  destruct (Z.leb_spec HandshakeHeaderLen (zlen buf)) as [H4|]; [|done].
  assert (header_msg_len buf = zlen body) as ->.
  { rewrite <-(header_msg_len_app buf x) by done. rewrite Hx. by apply encode_msg_len. }
  pose proof (zlen_nonneg body). change (Z.shiftl 1 24) with (2 ^ 24).
  unfold HandshakeHeaderLen in *. by zcase.
Qed.

(** A record that [Unseal] accepts, read off the connection. *)
Lemma Unseal_Ok_shape rc rec t p rc' :
  cipher_ok rc -> Unseal rec rc = (Ok (t, p), rc') ->
  exists L c, rec = record_header L ++ c /\ zlen c = L /\ 17 <= L <= MaxCiphertextLength /\
    zlen p <= MaxPlaintextLength.
Proof.
  intros Hok (_ & _ & pad & [H1 H2 H3 _ (c & -> & Hc)])%Unseal_sealed; [|done].
  eexists _, c. split; [reflexivity|]. destruct Hok as [Ha _ _]. apply aead_seal_len in Hc.
  rewrite zlen_inner_plaintext in Hc by done. pose proof (zlen_nonneg p).
  unfold gcmTagSize, GCMTagSize in *. split; [done|]. split; [lia|done].
Qed.

Lemma read_encrypted_record_Ok c hr p c' hr' :
  cipher_ok (hr_cipher hr) ->
  read_encrypted_record (c, hr) = (Ok p, (c', hr')) <->
  exists rec rc', conn_rx c = rec ++ conn_rx c' /\ c' = set_rx c (conn_rx c') /\
    Unseal rec (hr_cipher hr) = (Ok (RecordTypeHandshake, p), rc') /\ hr' = mkReader rc' (hr_buf hr).
Proof.
  intros Hok. unfold read_encrypted_record, RecordHeaderLen. split.
  - intros H. inv_stm. destruct v1 as [recType plaintext]. inv_stm. zbool.
    destruct st as [c1 h1], st0 as [c2 h2].
    apply on_fst_Ok in Hv as [Hv E1]. apply on_fst_Ok in Hv0 as [Hv0 E2]. cbn in *. subst h1 h2.
    apply read_full_Ok in Hv as (Hl & Hrx & Hst); [|lia].
    apply read_full_Ok in Hv0 as (Hp & Hrx' & Hc'); [|lia].
    unfold reader_unseal, on_snd in Hv1.
    destruct (Unseal (v ++ v0) (hr_cipher hr)) as [r rc'] eqn:Hu. simplify_eq.
    exists (v ++ v0), rc'. split; [by rewrite Hrx, Hrx', app_assoc|].
    split; [rewrite Hst in Hc'; exact Hc'|]. done.
  - intros (rec & rc' & Hrx & Hc' & Hu & ->).
    destruct (Unseal_Ok_shape _ _ _ _ _ Hok Hu) as (L & ct & -> & Hct & HL & _).
    unfold MaxCiphertextLength in *.
    destruct (record_header_fields L [] ltac:(lia)) as (E0 & E1 & E2 & _ & _).
    rewrite app_nil_r in E0, E1, E2.
    apply stM_bind_Ok. exists (record_header L), (set_rx c (ct ++ conn_rx c'), hr).
    split; [apply stM_map_err_Ok, on_fst_Ok; split; [|done];
      apply read_full_app; [apply zlen_record_header|by rewrite Hrx, <-app_assoc]|].
    rewrite E0, E2, bool_decide_eq_true_2 by done. cbn [negb]. unfold MaxCiphertextLength. zcase.
    apply stM_bind_Ok. exists ct, (c', hr).
    split; [apply stM_map_err_Ok, on_fst_Ok; split; [|done]|].
    { rewrite (read_full_app L ct (conn_rx c')) by done. f_equal. symmetry. exact Hc'. }
    apply stM_bind_Ok. exists (RecordTypeHandshake, p), (c', mkReader rc' (hr_buf hr)).
    split; [apply stM_map_err_Ok; unfold reader_unseal, on_snd; by rewrite Hu|]. done.
Qed.

(** [frags] are the plaintexts of the handshake records [recs]. *)
Definition hs_records (rc : RecordCipher) (recs frags : list bytes) (rc' : RecordCipher) : Prop :=
  unseal_stream recs rc = (Ok ((fun f => (RecordTypeHandshake, f)) <$> frags), rc').

Lemma hs_records_cons rc rec recs f frags rc' :
  hs_records rc (rec :: recs) (f :: frags) rc' <->
  exists rc1, Unseal rec rc = (Ok (RecordTypeHandshake, f), rc1) /\ hs_records rc1 recs frags rc'.
Proof.
  unfold hs_records. cbn [unseal_stream]. split.
  - intros H. inv_stm. cbn in H. simplify_eq. eauto.
  - intros (rc1 & H1 & H2). apply stM_bind_Ok. eexists _, _. split; [exact H1|].
    apply stM_bind_Ok. eexists _, _. by split; [exact H2|].
Qed.

Lemma hs_records_nil rc rc' : hs_records rc [] [] rc' <-> rc = rc'.
Proof. unfold hs_records. cbn. split; [by intros [= ->]|by intros ->]. Qed.

Lemma hs_records_length rc recs frags rc' :
  hs_records rc recs frags rc' -> length recs = length frags.
Proof.
  revert rc frags. induction recs as [|rec recs IH]; intros rc [|f frags] H; try done.
  - unfold hs_records in H. cbn [unseal_stream] in H. inv_stm.
  - apply hs_records_cons in H as (rc1 & _ & H). cbn. f_equal. by eapply IH.
Qed.

Lemma Unseal_Ok_cipher rc rec m rc' :
  cipher_ok rc -> Unseal rec rc = (Ok m, rc') -> cipher_ok rc'.
Proof.
  intros Hok H. pose proof (Unseal_state rec rc) as Hst. rewrite H in Hst.
  destruct Hst as [Hne ->]. apply incr_seq_ok; [done|]. destruct (cipher_seq _ Hok). lia.
Qed.

(** The buffered prefix of a message and the records that complete it. *)
Lemma ReadMsg_loop_complete t body extra rest rc' recs :
  zlen body < 2 ^ 24 -> zlen (encodeHandshakeMsg t body) <= maxHandshakeBufferSize ->
  forall frags fuel c rc buf,
  cipher_ok rc -> hs_records rc recs frags rc' ->
  buf ++ concat frags = encodeHandshakeMsg t body ++ extra ->
  zlen (buf ++ concat frags) <= maxHandshakeBufferSize ->
  frags = [] \/ zlen (buf ++ concat (removelast frags)) < zlen (encodeHandshakeMsg t body) ->
  (length frags < fuel)%nat -> conn_rx c = concat recs ++ rest ->
  ReadMsg_loop fuel (c, mkReader rc buf) = (Ok (t, body), (set_rx c rest, mkReader rc' extra)).
Proof.
  intros Hb Hl. induction recs as [|rec recs IH];
    intros frags [|fuel] c rc buf Hok Hrecs Hcat Hmax Hlast Hfuel Hrx; [lia| |lia|];
    pose proof (hs_records_length _ _ _ _ Hrecs) as Hlen; destruct frags as [|f frags]; try done.
  - apply hs_records_nil in Hrecs as <-. cbn in Hcat, Hrx. rewrite app_nil_r in Hcat.
    cbn [ReadMsg_loop]. apply stM_bind_Ok. eexists buf, _. split; [done|].
    apply stM_bind_Ok. exists (Some (t, body, extra)), (c, mkReader rc buf).
    split; [apply lift_Ok; split; [|done]; by apply reader_take_msg_Some|].
    cbn. do 2 f_equal. subst rest. by destruct c.
  - apply hs_records_cons in Hrecs as (rc1 & Hu & Hrecs). destruct Hlast as [|Hlast]; [done|].
    cbn in Hcat, Hrx, Hfuel, Hmax.
    cbn [ReadMsg_loop]. apply stM_bind_Ok. eexists buf, _. split; [done|].
    apply stM_bind_Ok. exists None, (c, mkReader rc buf). split.
    { apply lift_Ok. split; [|done]. eapply reader_take_msg_partial; [exact Hcat|done..|].
      rewrite zlen_app in Hlast. pose proof (zlen_nonneg (concat (removelast (f :: frags)))). lia. }
    apply stM_bind_Ok.
    exists f, (set_rx c (concat recs ++ rest), mkReader rc1 buf). split.
    { apply read_encrypted_record_Ok; [done|]. exists rec, rc1.
      split; [rewrite Hrx, <-app_assoc; done|]. split; [reflexivity|by split]. }
    apply stM_if_throw. split.
    { apply Z.ltb_ge. rewrite !zlen_app in Hmax. pose proof (zlen_nonneg (concat frags)). lia. }
    apply stM_bind_Ok. exists tt, (set_rx c (concat recs ++ rest), mkReader rc1 (buf ++ f)).
    split; [done|].
    rewrite (IH frags fuel _ rc1 (buf ++ f)); [done|by eapply Unseal_Ok_cipher|done|
      by rewrite <-app_assoc|by rewrite <-app_assoc| |lia|done].
    destruct frags as [|f' frags]; [by left|right]. rewrite <-app_assoc. exact Hlast.
Qed.

Lemma ReadMsg_loop_sound fuel c rc buf t body c' hr' :
  cipher_ok rc -> ReadMsg_loop fuel (c, mkReader rc buf) = (Ok (t, body), (c', hr')) ->
  exists recs frags, hs_records rc recs frags (hr_cipher hr') /\
    buf ++ concat frags = encodeHandshakeMsg t body ++ hr_buf hr' /\
    conn_rx c = concat recs ++ conn_rx c' /\ c' = set_rx c (conn_rx c') /\
    zlen body < 2 ^ 24 /\ zlen (encodeHandshakeMsg t body) <= maxHandshakeBufferSize /\
    (zlen buf <= maxHandshakeBufferSize -> zlen (hr_buf hr') <= maxHandshakeBufferSize) /\
    cipher_ok (hr_cipher hr').
Proof.
  revert c rc buf. induction fuel as [|fuel IH]; intros c rc buf Hok H; [done|].
  cbn [ReadMsg_loop] in H. apply stM_bind_Ok in H as (b & s1 & [= <- <-] & H).
  apply stM_bind_Ok in H as (m & s2 & [Hm ->]%lift_Ok & H). destruct m as [[[t1 b1] rest]|].
  - apply stM_bind_Ok in H as (u & s3 & [= <- <-] & H). injection H as <- <- <- <-.
    apply reader_take_msg_Some in Hm as (Hbuf & Hb & Hl). cbn in *. exists [], [].
    split; [by apply hs_records_nil|]. cbn. rewrite app_nil_r.
    split_and!; [done|done|by destruct c|done|done| |done].
    intros Hz. rewrite Hbuf, zlen_app in Hz. pose proof (zlen_nonneg (encodeHandshakeMsg t1 b1)). lia.
  - apply stM_bind_Ok in H as (f & [c1 h1] & Hrec & H).
    apply read_encrypted_record_Ok in Hrec as (rec & rc1 & Hrx & Hc1 & Hu & ->); [|done].
    apply stM_if_throw in H as [Hmax H]. apply stM_bind_Ok in H as (u & s3 & [= <- <-] & H).
    cbn in *. pose proof (Unseal_Ok_cipher _ _ _ _ Hok Hu) as Hok1.
    apply IH in H as (recs & frags & Hr & Hcat & Hrx' & Hc' & Hb & Hl & Hz & Hok'); [|done].
    exists (rec :: recs), (f :: frags). split; [apply hs_records_cons; eauto|]. cbn.
    split_and!; [by rewrite app_assoc|by rewrite Hrx, Hrx', app_assoc| |done|done| |done].
    + rewrite Hc1 in Hc'. exact Hc'.
    + intros _. apply Hz. zbool. zlia.
Qed.

(** ** Writing sealed messages *)

Lemma Seal_chunk t ch rc :
  cipher_ok rc -> zlen ch <= MaxPlaintextLength -> seqno rc < max_uint64 ->
  exists rec, Seal t ch rc = (Ok rec, incr_seq rc).
Proof.
  intros Hok Hch Hs. destruct Hok as [Ha Hi Hseq]. pose proof (zlen_nonneg ch).
  destruct (aead_seal_ok (deriveNonce rc (seqno rc)) (inner_plaintext t ch 0)
    (record_header (zlen ch + 1 + 0 + GCMTagSize))) as (c & Hc & _ & _).
  - apply deriveNonce_len.
  - rewrite zlen_inner_plaintext by done. unfold gcmMaxPlaintext, gcmBlockSize, MaxPlaintextLength in *. lia.
  - eexists. apply SealWithPadding_sealed; [lia|done|]. split; [|done].
    split; [done|done| |done|by eexists].
    unfold MaxCiphertextLength, GCMTagSize, MaxPlaintextLength in *. lia.
Qed.

Lemma writeEncrypted_loop_sound fuel msg w rc w' rc' :
  writeEncrypted_loop fuel msg (w, rc) = (Ok tt, (w', rc')) ->
  exists recs frags, concat frags = msg /\
    Forall (fun f => 1 <= zlen f <= MaxPlaintextLength) frags /\
    seal_stream ((fun f => (RecordTypeHandshake, f, 0)) <$> frags) rc = (Ok recs, rc') /\
    conn_tx w' = conn_tx w ++ concat recs /\ conn_rx w' = conn_rx w.
Proof.
  revert msg w rc. induction fuel as [|fuel IH]; intros msg w rc H; [done|].
  cbn [writeEncrypted_loop] in H. destruct (Z.ltb_spec 0 (zlen msg)) as [Hpos|].
  - set (n := if MaxPlaintextLength <? zlen msg then MaxPlaintextLength else zlen msg) in *.
    assert (1 <= n <= MaxPlaintextLength /\ n <= zlen msg) as [Hn Hn'].
    { unfold n, MaxPlaintextLength. destruct (Z.ltb_spec 16384 (zlen msg)); lia. }
    apply stM_bind_Ok in H as (rec & [w1 rc1] & Hs & H).
    apply stM_map_err_Ok, on_snd_Ok in Hs as [Hs E]. cbn in Hs, E. subst w1.
    apply stM_bind_Ok in H as ([] & [w2 rc2] & Hw & H).
    apply stM_map_err_Ok, on_fst_Ok in Hw as [Hw E]. cbn in Hw, E. subst rc2.
    apply IH in H as (recs & frags & Hcat & Hf & Hseal & Htx & Hrx).
    exists (rec :: recs), (take_z n msg :: frags). cbn.
    split; [rewrite Hcat; apply take_drop_z|].
    split; [constructor; [zlia|done]|].
    split; [apply stM_bind_Ok; eexists _, _; split; [exact Hs|];
      apply stM_bind_Ok; eexists _, _; split; [exact Hseal|done]|].
    apply writeFull_Ok in Hw as Htx1. rewrite Htx, Htx1, app_assoc. split; [done|].
    rewrite Hrx. unfold writeFull, conn_write in Hw. by repeat case_match; simplify_eq/=.
  - injection H as <- <-. exists [], []. cbn. rewrite app_nil_r. split_and!; try done.
    symmetry. apply zlen_nil_inv. pose proof (zlen_nonneg msg). lia.
Qed.

(** What is written depends on the cipher and the message only. *)
Lemma writeEncrypted_loop_total fuel msg rc :
  cipher_ok rc -> (length msg < fuel)%nat -> seqno rc + zlen msg < max_uint64 ->
  exists wire rc', cipher_ok rc' /\ seqno rc' <= seqno rc + zlen msg /\
    forall w, conn_wscript w = [] ->
      writeEncrypted_loop fuel msg (w, rc) = (Ok tt, (set_tx w (conn_tx w ++ wire) [], rc')).
Proof.
  revert msg rc. induction fuel as [|fuel IH]; intros msg rc Hok Hf Hs; [lia|].
  cbn [writeEncrypted_loop]. destruct (Z.ltb_spec 0 (zlen msg)) as [Hpos|Hz].
  - set (n := if MaxPlaintextLength <? zlen msg then MaxPlaintextLength else zlen msg).
    assert (1 <= n <= MaxPlaintextLength /\ n <= zlen msg) as [Hn Hn'].
    { unfold n, MaxPlaintextLength. destruct (Z.ltb_spec 16384 (zlen msg)); lia. }
    pose proof (cipher_seq _ Hok) as Hseq.
    destruct (Seal_chunk RecordTypeHandshake (take_z n msg) rc) as [rec Hrec]; [done|zlia|lia|].
    destruct (IH (drop_z n msg) (incr_seq rc)) as (wire & rc' & Hok' & Hs' & Hl).
    + apply incr_seq_ok; [done|lia].
    + assert (zlen (drop_z n msg) < zlen msg) as Hd by zlia. unfold zlen in Hd. lia.
    + rewrite incr_seq_seqno by lia. zlia.
    + exists (rec ++ wire), rc'. split; [done|].
      split; [rewrite incr_seq_seqno in Hs' by lia; zlia|]. intros w Hw.
      apply stM_bind_Ok. exists rec, (w, incr_seq rc).
      split; [apply stM_map_err_Ok, on_snd_Ok; by split|].
      apply stM_bind_Ok. exists tt, (set_tx w (conn_tx w ++ rec) [], incr_seq rc).
      split; [apply stM_map_err_Ok, on_fst_Ok; split; [by apply writeFull_ok|done]|].
      rewrite Hl by done. cbn. by rewrite app_assoc.
  - exists [], rc. split; [done|]. split; [zlia|]. intros w Hw. rewrite app_nil_r.
    unfold mret, stM_ret. do 2 f_equal. destruct w; cbn in *. by subst.
Qed.

Lemma removelast_concat_lt (frags : list bytes) :
  Forall (fun f => 1 <= zlen f <= MaxPlaintextLength) frags -> frags <> [] ->
  zlen (concat (removelast frags)) < zlen (concat frags).
Proof.
  intros Hf Hne. destruct (exists_last Hne) as (fs & f & ->).
  rewrite removelast_last, concat_app, zlen_app.
  change (concat [f]) with (f ++ []). rewrite app_nil_r.
  apply Forall_app in Hf as [_ Hf]. inversion_clear Hf. lia.
Qed.

Lemma write_then_read t body w rc w' rc' :
  cipher_ok rc -> zlen (encodeHandshakeMsg t body) <= maxHandshakeBufferSize ->
  writeEncryptedHandshakeMsg t body (w, rc) = (Ok tt, (w', rc')) ->
  cipher_ok rc' /\
  exists wire, conn_tx w' = conn_tx w ++ wire /\ conn_rx w' = conn_rx w /\
  forall r rest, conn_rx r = wire ++ rest ->
    ReadMsg (r, newEncryptedHandshakeReader rc) = (Ok (t, body), (set_rx r rest, mkReader rc' [])).
Proof.
  intros Hok Hlen H. assert (HandshakeHeaderLen = 4) as H44 by done.
  apply writeEncrypted_loop_sound in H as (recs & frags & Hcat & Hf & Hseal & Htx & Hrx).
  apply unseal_sealed_stream in Hseal as [Hun Hok']; [|done|].
  2: { apply Forall_fmap, Forall_true. intros f. done. }
  split; [done|]. exists (concat recs). split; [done|]. split; [done|]. intros r rest Hr.
  rewrite <-list_fmap_compose in Hun. change (hs_records rc recs frags rc') in Hun.
  pose proof (zlen_nonneg body). unfold ReadMsg, newEncryptedHandshakeReader. cbn [fst].
  apply (ReadMsg_loop_complete t body [] rest rc' recs) with (frags := frags); try done.
  - rewrite zlen_encode in Hlen. unfold maxHandshakeBufferSize in Hlen. lia.
  - by rewrite app_nil_r.
  - cbn. by rewrite Hcat.
  - right. cbn. rewrite <-Hcat. apply removelast_concat_lt; [done|].
    intros ->. cbn in Hcat. pose proof (zlen_encode t body) as Hz. rewrite <-Hcat in Hz.
    rewrite zlen_nil in Hz. lia.
  - rewrite Hr, length_app.
    enough (length frags <= length (concat recs))%nat by lia.
    rewrite <-(hs_records_length _ _ _ _ Hun).
    clear -Hun Hok. revert rc frags Hok Hun. induction recs as [|rec recs IH]; intros rc frags Hok Hun;
      cbn; [lia|]. destruct frags as [|f frags]; [by apply hs_records_length in Hun|].
    apply hs_records_cons in Hun as (rc1 & Hu & Hun).
    destruct (Unseal_Ok_shape _ _ _ _ _ Hok Hu) as (L & c & -> & _).
    apply IH in Hun; [|by eapply Unseal_Ok_cipher].
    rewrite length_app. pose proof (zlen_record_header L) as Hz.
    unfold zlen, RecordHeaderLen in Hz. rewrite length_app. lia.
Qed.

(** C29. A sealed handshake message of any length up to the 2 MB reader limit,
    however many records it takes, is read back as it was written, from the
    bytes [writeEncryptedHandshakeMsg] put on the connection: the reader ends
    with an empty buffer, at the next byte, with its cipher in the writer's
    state. *)
Theorem write_read_encrypted t body w rc w' rc' :
  cipher_ok rc -> zlen (encodeHandshakeMsg t body) <= maxHandshakeBufferSize ->
  writeEncryptedHandshakeMsg t body (w, rc) = (Ok tt, (w', rc')) ->
  exists wire, conn_tx w' = conn_tx w ++ wire /\
  forall r rest, conn_rx r = wire ++ rest ->
    ReadMsg (r, newEncryptedHandshakeReader rc) = (Ok (t, body), (set_rx r rest, mkReader rc' [])).
Proof.
  intros Hok Hl H. apply write_then_read in H as (_ & wire & Htx & _ & Hr); [|done..]. eauto.
Qed.

Definition toy_conn (rx : bytes) : RawConn := Build_RawConn rx io_EOF [] [] None false None false.

Lemma write_read_encrypted_witness :
  let st := writeEncryptedHandshakeMsg HandshakeTypeFinished [x01; x02] (toy_conn [], toy_cipher) in
  exists wire, conn_tx st.2.1 = [] ++ wire /\
  forall r rest, conn_rx r = wire ++ rest ->
    ReadMsg (r, newEncryptedHandshakeReader toy_cipher)
    = (Ok (HandshakeTypeFinished, [x01; x02]), (set_rx r rest, mkReader st.2.2 [])).
Proof.
  intros st. apply (write_read_encrypted HandshakeTypeFinished [x01; x02] (toy_conn []) toy_cipher);
    [apply toy_cipher_ok|by vm_compute|].
  rewrite <-(surjective_pairing st.2). apply run_pair. vm_compute. reflexivity.
Defined.

(** C28. What [ReadMsg] returns is what the peer's cipher sealed: the returned
    message, followed by the bytes left in the buffer, is the old buffer
    followed by the plaintexts of whole handshake records that open in
    sequence under the reader's cipher; the connection is left after those
    records, the buffer stays within the 2 MB limit, and so does the message. *)
Theorem ReadMsg_authentic c rc buf t body c' hr' :
  cipher_ok rc -> zlen buf <= maxHandshakeBufferSize ->
  ReadMsg (c, mkReader rc buf) = (Ok (t, body), (c', hr')) ->
  exists recs frags, hs_records rc recs frags (hr_cipher hr') /\
    buf ++ concat frags = encodeHandshakeMsg t body ++ hr_buf hr' /\
    conn_rx c = concat recs ++ conn_rx c' /\
    zlen (hr_buf hr') <= maxHandshakeBufferSize /\
    zlen (encodeHandshakeMsg t body) <= maxHandshakeBufferSize.
Proof.
  intros Hok Hz H. apply ReadMsg_loop_sound in H
    as (recs & frags & Hr & Hcat & Hrx & _ & _ & Hl & Hb & _); [|done].
  exists recs, frags. split_and!; auto.
Qed.

Definition toy_wire : bytes :=
  get_ok [] (Seal RecordTypeHandshake (encodeHandshakeMsg x14 [x05] ++ [x0b]) toy_cipher).1.

Lemma ReadMsg_authentic_witness :
  let st := ReadMsg (toy_conn toy_wire, mkReader toy_cipher []) in
  exists recs frags, hs_records toy_cipher recs frags (hr_cipher st.2.2) /\
    [] ++ concat frags = encodeHandshakeMsg x14 [x05] ++ hr_buf st.2.2.
Proof.
  intros st.
  destruct (ReadMsg_authentic (toy_conn toy_wire) toy_cipher [] x14 [x05] st.2.1 st.2.2)
    as (recs & frags & H1 & H2 & _); [apply toy_cipher_ok|by vm_compute| |eauto].
  rewrite <-(surjective_pairing st.2). apply run_pair. vm_compute. reflexivity.
Defined.

(** The sealed read loop ends too. *)
Lemma on_fst_read_full n (s : RawConn * encryptedHandshakeReader) :
  on_fst (read_full n) s = ((read_full n s.1).1, ((read_full n s.1).2, s.2)).
Proof. destruct s as [c hr]. unfold on_fst. cbn. by destruct (read_full n c). Qed.

Lemma read_encrypted_record_rx s :
  match read_encrypted_record s with
  | (Ok _, s') => (length (conn_rx s'.1) < length (conn_rx s.1))%nat
  | (r, _) => r <> Err ErrOutOfFuel
  end.
Proof.
  unfold read_encrypted_record, mbind, stM_bind, map_err, stM_map_err. rewrite on_fst_read_full.
  destruct (read_full RecordHeaderLen s.1) as [[header|e|] c1] eqn:E1; cbn [fst snd];
    [|done|by pose proof (read_full_no_panic RecordHeaderLen s.1) as Hp; rewrite E1 in Hp].
  apply read_full_Ok in E1 as (Hl & Hrx & _); [|done].
  destruct (negb _); [done|]. destruct (_ || _); [done|]. rewrite on_fst_read_full.
  pose proof (read_full_rx_len (be_uint (slice header 3 5)) c1) as Hle. cbn [fst snd] in *.
  destruct (read_full (be_uint (slice header 3 5)) c1) as [[payload|e|] c2] eqn:E2; cbn [fst snd] in *;
    [|done|by pose proof (read_full_no_panic (be_uint (slice header 3 5)) c1) as Hp; rewrite E2 in Hp].
  unfold reader_unseal, on_snd. destruct (Unseal (header ++ payload) (hr_cipher s.2)) as [[[t p]|e|] rc'];
    [|done|done].
  destruct (negb _); [done|]. cbn. rewrite Hrx, length_app. unfold zlen, RecordHeaderLen in Hl. lia.
Qed.

Lemma reader_take_msg_not_fuel buf : reader_take_msg buf <> Err ErrOutOfFuel.
Proof.
  unfold reader_take_msg, throw, result_throw. repeat (case_match; simplify_eq/=; try done).
Qed.

(** [ReadMsg] terminates on every input: each round that does not return
    takes a whole record off the connection, so the bytes received bound the
    rounds, even for records with an empty plaintext. *)
Theorem ReadMsg_fuel_enough fuel s :
  (length (conn_rx s.1) < fuel)%nat ->
  ReadMsg_loop fuel s = ReadMsg s /\ (ReadMsg s).1 <> Err ErrOutOfFuel.
Proof.
  enough (forall n f s, (length (conn_rx s.1) < n <= f)%nat ->
    ReadMsg_loop f s = ReadMsg_loop n s /\ (ReadMsg_loop n s).1 <> Err ErrOutOfFuel) as H
    by (intros; apply H; lia).
  clear. induction n as [|n IH]; intros [|f] s Hn; [lia..|].
  cbn [ReadMsg_loop]. unfold mbind, stM_bind, reader_buf, lift.
  pose proof (reader_take_msg_not_fuel (hr_buf s.2)) as Hnf.
  destruct (reader_take_msg (hr_buf s.2)) as [[[[t b] rest]|]|e|]; [done| |split; [done|by intros [= ->]]|done].
  pose proof (read_encrypted_record_rx s) as Hrx.
  destruct (read_encrypted_record s) as [[p|e|] s1]; [|split; [done|by intros [= ->]]|done].
  destruct (_ <? _); [done|]. apply IH. cbn. lia.
Qed.

Lemma ReadMsg_fuel_enough_witness :
  (length (conn_rx (toy_conn toy_wire)) < 200)%nat /\
  ReadMsg_loop 200 (toy_conn toy_wire, mkReader toy_cipher [])
  = ReadMsg (toy_conn toy_wire, mkReader toy_cipher []).
Proof.
  assert (length (conn_rx (toy_conn toy_wire)) < 200)%nat as Hl by (vm_compute; lia).
  split; [exact Hl|].
  exact (proj1 (ReadMsg_fuel_enough 200 (toy_conn toy_wire, mkReader toy_cipher []) Hl)).
Defined.

(** ** The transcript is unambiguous *)

Definition transcript_of (msgs : list (Byte.byte * bytes)) : handshakeTranscript :=
  foldl (fun t m => transcript_Write t m.1 m.2) [] msgs.

Lemma transcript_of_concat msgs :
  transcript_of msgs = concat ((fun m => encodeHandshakeMsg m.1 m.2) <$> msgs).
Proof.
  unfold transcript_of.
  enough (forall t, foldl (fun t m => transcript_Write t m.1 m.2) t msgs
    = t ++ concat ((fun m => encodeHandshakeMsg m.1 m.2) <$> msgs)) by done.
  induction msgs as [|m msgs IH]; intros t; cbn; [by rewrite app_nil_r|].
  rewrite IH. unfold transcript_Write. by rewrite <-app_assoc.
Qed.

Lemma encode_inj t1 b1 r1 t2 b2 r2 :
  zlen b1 < 2 ^ 24 -> zlen b2 < 2 ^ 24 ->
  encodeHandshakeMsg t1 b1 ++ r1 = encodeHandshakeMsg t2 b2 ++ r2 -> t1 = t2 /\ b1 = b2 /\ r1 = r2.
Proof.
  intros H1 H2 H. assert (zlen b1 = zlen b2) as Hl.
  { rewrite <-(encode_msg_len t1 b1 r1), <-(encode_msg_len t2 b2 r2) by done. by rewrite H. }
  rewrite !encode_header in H. cbn [app] in H. injection H as -> _ _ _ H.
  apply app_inj_1 in H as [-> ->]; [done|]. unfold zlen in Hl. lia.
Qed.

Lemma transcript_of_inj ms1 ms2 :
  Forall (fun m => zlen m.2 < 2 ^ 24) ms1 -> Forall (fun m => zlen m.2 < 2 ^ 24) ms2 ->
  transcript_of ms1 = transcript_of ms2 -> ms1 = ms2.
Proof.
  rewrite !transcript_of_concat. revert ms2.
  induction ms1 as [|[t1 b1] ms1 IH]; intros [|[t2 b2] ms2] H1 H2 H; [done| | |].
  - apply (f_equal zlen) in H. cbn in H. rewrite zlen_app, zlen_encode, zlen_nil in H.
    pose proof (zlen_nonneg b2). unfold HandshakeHeaderLen in H.
    pose proof (zlen_nonneg (concat ((fun m => encodeHandshakeMsg m.1 m.2) <$> ms2))). lia.
  - apply (f_equal zlen) in H. cbn in H. rewrite zlen_app, zlen_encode, zlen_nil in H.
    pose proof (zlen_nonneg b1). unfold HandshakeHeaderLen in H.
    pose proof (zlen_nonneg (concat ((fun m => encodeHandshakeMsg m.1 m.2) <$> ms1))). lia.
  - apply Forall_cons in H1 as [Hb1 H1]. apply Forall_cons in H2 as [Hb2 H2]. cbn in H, Hb1, Hb2.
    apply encode_inj in H as (-> & -> & H); [|done..]. f_equal. by apply IH.
Qed.

(** The transcript determines the messages: two sequences of handshake
    messages (each within the 24-bit length field) that give the same
    transcript bytes are the same sequence, so a signature, a Finished tag or a
    traffic key over the transcript is over one message sequence only. *)
Theorem transcript_injective ms1 ms2 :
  Forall (fun m => zlen m.2 < 2 ^ 24) ms1 -> Forall (fun m => zlen m.2 < 2 ^ 24) ms2 ->
  transcript_of ms1 = transcript_of ms2 -> ms1 = ms2.
Proof. apply transcript_of_inj. Qed.

Lemma transcript_injective_witness :
  [(x01, [x02]); (x03, [])] = [(x01, [x02])] ++ [(x03, [])].
Proof.
  apply transcript_injective; [by repeat constructor..|reflexivity].
Defined.
