(* ===== verification/KeySchedule.v ===== *)
(** * The key schedule (handshake.go)

    SM2 public keys on the wire, the ECDHE shared secret, the HKDF-SM3 traffic
    keys of the two phases and the Finished tag. *)

From S2P Require Import Prelude Gcm Gmsm Toy NetIO Record.

(** ** Constants *)

Definition SM2UncompressedPubKeyLen : Z := 65.
Definition RandomBytesLen : Z := 32.

(** ** Public keys *)

Definition encodePublicKeySM2 (pub : PublicKey) : result bytes :=
  let raw := <[0%nat := x04]> (zeros SM2UncompressedPubKeyLen) in
  let xBytes := big_Bytes (pub_X pub) in
  let yBytes := big_Bytes (pub_Y pub) in
  raw ← gcopy_at raw (1 + 32 - zlen xBytes) (1 + 32) xBytes;
  gcopy_at raw (33 + 32 - zlen yBytes) (33 + 32) yBytes.

Definition ErrPubKeyFormat : error := ErrNew "teetls: invalid SM2 uncompressed public key format".
Definition ErrPubKeyOffCurve : error := ErrNew "teetls: SM2 public key point not on curve".

Definition decodePublicKeySM2 `{SM2} (raw : bytes) : result PublicKey :=
  reject_if negb (zlen raw =? SM2UncompressedPubKeyLen) || negb (bool_decide (byte_at raw 0 = x04))
    with ErrPubKeyFormat;
  let x := be_uint (slice raw 1 33) in
  let y := be_uint (slice raw 33 65) in
  reject_if negb (P256_IsOnCurve x y) with ErrPubKeyOffCurve;
  Ok {| pub_X := x; pub_Y := y |}.

(** The dynamic type of a certificate's [PublicKey] field. *)
Inductive AnyPublicKey :=
| SM2PublicKey (p : PublicKey)
| EcdsaPublicKey (x y : Z)
| OtherPublicKey.

Definition extractSM2PublicKey (pubKey : AnyPublicKey) : result PublicKey :=
  match pubKey with
  | SM2PublicKey p => Ok p
  | EcdsaPublicKey x y => Ok {| pub_X := x; pub_Y := y |}
  | OtherPublicKey => Err (ErrNew "teetls: peer certificate public key is not SM2/ECDSA")
  end.

(** ** The shared secret *)

Definition computeECDHESharedSecret `{SM2} (peerPub : PublicKey) (priv : PrivateKey) : result bytes :=
  match P256_ScalarMult (pub_X peerPub) (pub_Y peerPub) (big_Bytes (priv_D priv)) with
  | None => Err (ErrNew "teetls: scalar mult produced nil point")
  | Some sx =>
      let sxBytes := big_Bytes sx in
      gcopy_at (zeros 32) (32 - zlen sxBytes) 32 sxBytes
  end.

(** ** Traffic keys *)

Record HandshakeTrafficKeys := {
  hk_ClientWriteKey : bytes;
  hk_ClientWriteIV : bytes;
  hk_ServerWriteKey : bytes;
  hk_ServerWriteIV : bytes;
  hk_ServerFinishedKey : bytes;
  hk_ClientFinishedKey : bytes
}.

Record ApplicationTrafficKeys := {
  ak_ClientWriteKey : bytes;
  ak_ClientWriteIV : bytes;
  ak_ServerWriteKey : bytes;
  ak_ServerWriteIV : bytes
}.

(** [io.ReadFull(kdf, make([]byte, n))]: the state is what the reader still has. *)
Definition kdf_read (n : Z) : stM bytes bytes := fun okm => read_full_from n okm hkdf_exhausted.

Definition handshake_info : bytes := String.list_byte_of_string "tls13-rfc8998-sm4-gcm-sm3-handshake".
Definition application_info : bytes := String.list_byte_of_string "tls13-rfc8998-sm4-gcm-sm3-application".

#[global] Arguments handshake_info : simpl never.
#[global] Arguments application_info : simpl never.

Definition read_handshake_keys : stM bytes HandshakeTrafficKeys :=
  ck ← kdf_read 16 <?> "derive client handshake write key: %w";
  civ ← kdf_read 12 <?> "derive client handshake write iv: %w";
  sk ← kdf_read 16 <?> "derive server handshake write key: %w";
  siv ← kdf_read 12 <?> "derive server handshake write iv: %w";
  sfk ← kdf_read 32 <?> "derive server finished key: %w";
  cfk ← kdf_read 32 <?> "derive client finished key: %w";
  mret (Build_HandshakeTrafficKeys ck civ sk siv sfk cfk).

Definition deriveHandshakeTrafficKeys `{HKDF} (sharedSecret clientRandom serverRandom : bytes)
  : result HandshakeTrafficKeys :=
  let salt := clientRandom ++ serverRandom in
  (read_handshake_keys (hkdf_New sharedSecret salt handshake_info)).1.

Definition read_application_keys : stM bytes ApplicationTrafficKeys :=
  ck ← kdf_read 16 <?> "derive client app write key: %w";
  civ ← kdf_read 12 <?> "derive client app write iv: %w";
  sk ← kdf_read 16 <?> "derive server app write key: %w";
  siv ← kdf_read 12 <?> "derive server app write iv: %w";
  mret (Build_ApplicationTrafficKeys ck civ sk siv).

Definition deriveApplicationTrafficKeys `{HKDF} (sharedSecret transcriptHash : bytes)
  : result ApplicationTrafficKeys :=
  (read_application_keys (hkdf_New sharedSecret transcriptHash application_info)).1.

Definition computeHMACSM3 `{SM3} (key data : bytes) : bytes := hmac_sm3 key data.

(** ** Public keys: facts *)

(** The 32-byte big-endian form of a coordinate. *)
Definition coord32 (z : Z) : bytes := be_bytes 32 z.

Lemma zlen_coord32 z : zlen (coord32 z) = 32.
Proof. apply (zlen_be_bytes 32). Qed.
#[export] Hint Rewrite zlen_coord32 : zlen.

Lemma pad_coord z : coord z ->
  zeros (32 - zlen (big_Bytes z)) ++ big_Bytes z = coord32 z.
Proof. apply pad_be_bytes. Qed.

Lemma gcopy_at_pad (l r : bytes) a b z :
  coord z -> zlen l = a -> b = a + 32 ->
  gcopy_at (l ++ zeros 32 ++ r) (b - zlen (big_Bytes z)) b (big_Bytes z) = Ok (l ++ coord32 z ++ r).
Proof.
  intros Hz Hl ->. pose proof (coord_bytes z Hz) as Hb. pose proof (zlen_nonneg (big_Bytes z)).
  pose proof (zlen_nonneg l). pose proof (zlen_nonneg r).
  rewrite gcopy_at_ok by (rewrite ?zlen_app, ?zlen_zeros; lia).
  assert (zeros 32 = zeros (32 - zlen (big_Bytes z)) ++ zeros (zlen (big_Bytes z))) as ->.
  { unfold zeros. rewrite <-replicate_add. f_equal. lia. }
  rewrite <-app_assoc, app_assoc, copy_at_app
    by (rewrite ?zlen_app, ?zlen_zeros; lia).
  rewrite <-app_assoc, (app_assoc (zeros _)), pad_coord by done. done.
Qed.

Lemma encodePublicKeySM2_coords pub :
  coord (pub_X pub) -> coord (pub_Y pub) ->
  encodePublicKeySM2 pub = Ok (x04 :: coord32 (pub_X pub) ++ coord32 (pub_Y pub)).
Proof.
  intros Hx Hy. unfold encodePublicKeySM2.
  change (<[0%nat := x04]> (zeros SM2UncompressedPubKeyLen)) with ([x04] ++ zeros 32 ++ zeros 32).
  rewrite (gcopy_at_pad [x04] (zeros 32) 1) by done. cbn [mbind result_bind].
  rewrite <-(app_nil_r (zeros 32)), (app_assoc [x04]).
  rewrite (gcopy_at_pad ([x04] ++ coord32 (pub_X pub)) [] 33) by (done || zlia).
  by rewrite app_nil_r, <-app_assoc.
Qed.

Lemma be_uint_coord32 z : coord z -> be_uint (coord32 z) = z.
Proof. intros Hz. unfold coord32. rewrite be_uint_be_bytes. by apply Z.mod_small. Qed.

Lemma be_uint_coord l : zlen l = 32 -> coord (be_uint l) /\ coord32 (be_uint l) = l.
Proof.
  intros Hl. pose proof (be_uint_range l) as Hr. rewrite Hl in Hr. split; [exact Hr|].
  apply be_bytes_be_uint. unfold zlen in Hl. lia.
Qed.

Lemma decodePublicKeySM2_Ok `{SM2} raw pub :
  decodePublicKeySM2 raw = Ok pub <->
  P256_IsOnCurve (pub_X pub) (pub_Y pub) = true /\ coord (pub_X pub) /\ coord (pub_Y pub) /\
  raw = x04 :: coord32 (pub_X pub) ++ coord32 (pub_Y pub).
Proof.
  unfold decodePublicKeySM2, SM2UncompressedPubKeyLen. split.
  - intros Hr. inv_ok. zbool. cbn [pub_X pub_Y].
    destruct (be_uint_coord (slice raw 1 33)) as [Hx Ex]; [zlia|].
    destruct (be_uint_coord (slice raw 33 65)) as [Hy Ey]; [zlia|].
    rewrite Ex, Ey. split; [done|]. split; [done|]. split; [done|].
    destruct raw as [|b raw]; [zlia|]. change (b = x04) in H1. subst b. f_equal.
    unfold slice. change (drop_z 1 (x04 :: raw)) with raw.
    change (drop_z 33 (x04 :: raw)) with (drop_z 32 raw).
    rewrite (take_z_all (65 - 33) (drop_z 32 raw)) by zlia. by rewrite take_drop_z.
  - intros (Hc & Hx & Hy & ->).
    assert (zlen (x04 :: coord32 (pub_X pub) ++ coord32 (pub_Y pub)) = 65) as -> by zlia.
    assert (slice (x04 :: coord32 (pub_X pub) ++ coord32 (pub_Y pub)) 1 33 = coord32 (pub_X pub))
      as -> by (apply (slice_app [x04]); zlia).
    assert (slice (x04 :: coord32 (pub_X pub) ++ coord32 (pub_Y pub)) 33 65 = coord32 (pub_Y pub))
      as ->.
    { rewrite <-(app_nil_r (coord32 (pub_Y pub))).
      by apply (slice_app (x04 :: coord32 (pub_X pub))); zlia. }
    rewrite !be_uint_coord32, Hc by done. by destruct pub.
Qed.

(** The wire form of an SM2 public key: [decodePublicKeySM2] accepts exactly
    the 65-byte encodings that [encodePublicKeySM2] makes of the points of the
    curve with 256-bit coordinates, and gives the encoded point back. *)
Theorem decode_iff_encode `{SM2} raw pub :
  decodePublicKeySM2 raw = Ok pub <->
  P256_IsOnCurve (pub_X pub) (pub_Y pub) = true /\ coord (pub_X pub) /\ coord (pub_Y pub) /\
  encodePublicKeySM2 pub = Ok raw.
Proof.
  rewrite decodePublicKeySM2_Ok. split; intros (Hc & Hx & Hy & Hr); split_and!; try done.
  - by rewrite encodePublicKeySM2_coords, Hr.
  - rewrite encodePublicKeySM2_coords in Hr by done. by injection Hr.
Qed.

Lemma encodePublicKeySM2_len pub raw :
  coord (pub_X pub) -> coord (pub_Y pub) -> encodePublicKeySM2 pub = Ok raw ->
  zlen raw = SM2UncompressedPubKeyLen.
Proof. intros. rewrite encodePublicKeySM2_coords in * by done. simplify_eq. unfold SM2UncompressedPubKeyLen. zlia. Qed.

(** The key pairs of the library. *)
Lemma encode_decode_key `{SM2Laws} k :
  sm2_key k -> exists raw, encodePublicKeySM2 (priv_Pub k) = Ok raw /\
    zlen raw = SM2UncompressedPubKeyLen /\ decodePublicKeySM2 raw = Ok (priv_Pub k).
Proof.
  intros Hk. destruct (sm2_key_coords k Hk) as [Hx Hy].
  eexists. rewrite encodePublicKeySM2_coords by done. split; [done|].
  split; [unfold SM2UncompressedPubKeyLen; zlia|].
  apply decodePublicKeySM2_Ok. split_and!; try done. by apply sm2_key_on_curve.
Qed.

(** ** The shared secret: facts *)

Lemma computeECDHESharedSecret_coord `{SM2} pub k z :
  P256_ScalarMult (pub_X pub) (pub_Y pub) (big_Bytes (priv_D k)) = Some z -> coord z ->
  computeECDHESharedSecret pub k = Ok (coord32 z).
Proof.
  intros E Hz. unfold computeECDHESharedSecret. rewrite E.
  pose proof (gcopy_at_pad [] [] 0 32 z Hz eq_refl eq_refl) as Hg.
  cbn [app] in Hg. by rewrite !app_nil_r in Hg.
Qed.

Lemma ecdh_agree `{SM2Laws} k1 k2 :
  sm2_key k1 -> sm2_key k2 ->
  exists z, zlen z = 32 /\ computeECDHESharedSecret (priv_Pub k1) k2 = Ok z /\
    computeECDHESharedSecret (priv_Pub k2) k1 = Ok z.
Proof.
  intros H1 H2. destruct (sm2_dh k1 k2 H1 H2) as (z & E1 & E2 & Hz).
  exists (coord32 z). split; [apply zlen_coord32|].
  split; by apply computeECDHESharedSecret_coord.
Qed.

(** The two ends of an ECDHE exchange, each from its own private key and the
    public key it decoded off the wire, compute the same 32-byte shared secret. *)
Theorem ecdh_agreement `{SM2Laws} k1 k2 raw1 raw2 pub1 pub2 :
  sm2_key k1 -> sm2_key k2 ->
  encodePublicKeySM2 (priv_Pub k1) = Ok raw1 -> encodePublicKeySM2 (priv_Pub k2) = Ok raw2 ->
  decodePublicKeySM2 raw1 = Ok pub1 -> decodePublicKeySM2 raw2 = Ok pub2 ->
  exists z, zlen z = 32 /\ computeECDHESharedSecret pub1 k2 = Ok z /\
    computeECDHESharedSecret pub2 k1 = Ok z.
Proof.
  intros H1 H2 E1 E2 D1 D2.
  destruct (encode_decode_key k1 H1) as (r1 & E1' & _ & D1').
  destruct (encode_decode_key k2 H2) as (r2 & E2' & _ & D2').
  rewrite E1 in E1'. apply Ok_inj in E1' as <-. rewrite E2 in E2'. apply Ok_inj in E2' as <-.
  rewrite D1 in D1'. apply Ok_inj in D1' as ->. rewrite D2 in D2'. apply Ok_inj in D2' as ->.
  by apply ecdh_agree.
Qed.

Lemma toy_key_ok d : coord d -> @sm2_key toy_sm2 toy_sm2_laws (toy_key d).
Proof. intros Hd. by exists d. Qed.

Lemma ecdh_agreement_witness :
  exists z, zlen z = 32 /\ @computeECDHESharedSecret toy_sm2 (toy_pub 5) (toy_key 9) = Ok z /\
    @computeECDHESharedSecret toy_sm2 (toy_pub 9) (toy_key 5) = Ok z.
Proof.
  refine (@ecdh_agreement toy_sm2 toy_sm2_laws (toy_key 5) (toy_key 9) _ _ (toy_pub 5) (toy_pub 9)
    (toy_key_ok 5 _) (toy_key_ok 9 _) eq_refl eq_refl _ _); [done|done|vm_compute; reflexivity..].
Defined.

(** ** Traffic keys: facts *)

Lemma NewRecordCipher_fresh `{SM4Laws} key iv :
  zlen key = SM4KeySize -> zlen iv = GCMNonceSize ->
  exists rc, NewRecordCipher key iv = Ok rc /\ cipher_ok rc /\ seqno rc = 0.
Proof.
  intros Hk Hi. destruct (NewRecordCipher_total key iv Hk Hi) as [rc E].
  exists rc. split; [done|]. apply NewRecordCipher_Ok in E as (_ & _ & Hok & Hs & _). done.
Qed.

Lemma kdf_read_ok n okm rest :
  zlen okm = n -> 0 < n -> kdf_read n (okm ++ rest) = (Ok okm, rest).
Proof.
  intros Hl Hn. unfold kdf_read, read_full_from. pose proof (zlen_nonneg rest).
  rewrite (proj2 (Z.leb_gt _ _)), (proj2 (Z.leb_le _ _)) by (rewrite ?zlen_app; lia).
  by rewrite take_z_app, drop_z_app.
Qed.

Lemma kdf_read_enough n okm :
  0 < n <= zlen okm -> kdf_read n okm = (Ok (take_z n okm), drop_z n okm).
Proof.
  intros Hn. rewrite <-(take_drop_z n okm) at 1. apply kdf_read_ok; [zlia|lia].
Qed.

(** The layouts of the output key material. *)
Definition hs_keys_of (okm : bytes) : HandshakeTrafficKeys := {|
  hk_ClientWriteKey := take_z 16 okm;
  hk_ClientWriteIV := slice okm 16 28;
  hk_ServerWriteKey := slice okm 28 44;
  hk_ServerWriteIV := slice okm 44 56;
  hk_ServerFinishedKey := slice okm 56 88;
  hk_ClientFinishedKey := slice okm 88 120
|}.
Definition app_keys_of (okm : bytes) : ApplicationTrafficKeys := {|
  ak_ClientWriteKey := take_z 16 okm;
  ak_ClientWriteIV := slice okm 16 28;
  ak_ServerWriteKey := slice okm 28 44;
  ak_ServerWriteIV := slice okm 44 56
|}.

Ltac kdf_step :=
  apply stM_bind_Ok; eexists _, _;
  split; [apply stM_map_err_Ok; apply kdf_read_enough; zlia|]; rewrite ?drop_drop_z by lia.

Lemma read_handshake_keys_ok okm :
  120 <= zlen okm -> read_handshake_keys okm = (Ok (hs_keys_of okm), drop_z 120 okm).
Proof. intros Hl. unfold read_handshake_keys. do 6 kdf_step. done. Qed.

Lemma read_application_keys_ok okm :
  56 <= zlen okm -> read_application_keys okm = (Ok (app_keys_of okm), drop_z 56 okm).
Proof. intros Hl. unfold read_application_keys. do 4 kdf_step. done. Qed.

Section keys.
Context `{HK : HKDFLaws}.

Lemma deriveHandshakeTrafficKeys_ok z cr sr :
  deriveHandshakeTrafficKeys z cr sr = Ok (hs_keys_of (hkdf_New z (cr ++ sr) handshake_info)).
Proof.
  unfold deriveHandshakeTrafficKeys. pose proof (hkdf_len z (cr ++ sr) handshake_info).
  by rewrite read_handshake_keys_ok by lia.
Qed.

Lemma deriveApplicationTrafficKeys_ok z th :
  deriveApplicationTrafficKeys z th = Ok (app_keys_of (hkdf_New z th application_info)).
Proof.
  unfold deriveApplicationTrafficKeys. pose proof (hkdf_len z th application_info).
  by rewrite read_application_keys_ok by lia.
Qed.

Lemma hs_keys_len z salt :
  let k := hs_keys_of (hkdf_New z salt handshake_info) in
  zlen (hk_ClientWriteKey k) = SM4KeySize /\ zlen (hk_ClientWriteIV k) = GCMNonceSize /\
  zlen (hk_ServerWriteKey k) = SM4KeySize /\ zlen (hk_ServerWriteIV k) = GCMNonceSize /\
  zlen (hk_ServerFinishedKey k) = 32 /\ zlen (hk_ClientFinishedKey k) = 32.
Proof.
  pose proof (hkdf_len z salt handshake_info). cbn. unfold SM4KeySize, GCMNonceSize.
  split_and!; zlia.
Qed.

Lemma app_keys_len z salt :
  let k := app_keys_of (hkdf_New z salt application_info) in
  zlen (ak_ClientWriteKey k) = SM4KeySize /\ zlen (ak_ClientWriteIV k) = GCMNonceSize /\
  zlen (ak_ServerWriteKey k) = SM4KeySize /\ zlen (ak_ServerWriteIV k) = GCMNonceSize.
Proof.
  pose proof (hkdf_len z salt application_info). cbn. unfold SM4KeySize, GCMNonceSize.
  split_and!; zlia.
Qed.
End keys.

Definition hs_keys_concat (k : HandshakeTrafficKeys) : bytes :=
  hk_ClientWriteKey k ++ hk_ClientWriteIV k ++ hk_ServerWriteKey k ++ hk_ServerWriteIV k ++
  hk_ServerFinishedKey k ++ hk_ClientFinishedKey k.
Definition app_keys_concat (k : ApplicationTrafficKeys) : bytes :=
  ak_ClientWriteKey k ++ ak_ClientWriteIV k ++ ak_ServerWriteKey k ++ ak_ServerWriteIV k.

Lemma take_slice {A} (l : list A) a b rest :
  0 <= a <= b -> rest = drop_z b l -> slice l a b ++ rest = drop_z a l.
Proof.
  intros Hab ->. unfold slice. rewrite <-(take_drop_z (b - a) (drop_z a l)) at 2.
  rewrite drop_drop_z by lia. do 2 f_equal. lia.
Qed.

Ltac slices := repeat match goal with
  | |- context [slice ?l ?a ?b ++ drop_z ?b ?l] =>
      rewrite (take_slice l a b (drop_z b l)) by (lia || reflexivity)
  end.

Lemma take_drop_concat (okm l : bytes) n :
  l ++ drop_z n okm = okm -> zlen l = n -> l = take_z n okm.
Proof. intros E Hl. rewrite <-E. by rewrite take_z_app. Qed.

(** Key derivation never fails and never overlaps: the six handshake secrets
    are the first 120 bytes of one HKDF output, in order, and the four
    application secrets the first 56 bytes of another, each of the length its
    use needs; so the record ciphers of both phases and both directions are
    always created, at sequence number 0. *)
Theorem traffic_keys `{SM4Laws, HKDFLaws} z cr sr th :
  exists hk ak,
    deriveHandshakeTrafficKeys z cr sr = Ok hk /\
    hs_keys_concat hk = take_z 120 (hkdf_New z (cr ++ sr) handshake_info) /\
    deriveApplicationTrafficKeys z th = Ok ak /\
    app_keys_concat ak = take_z 56 (hkdf_New z th application_info) /\
    zlen (hk_ServerFinishedKey hk) = 32 /\ zlen (hk_ClientFinishedKey hk) = 32 /\
    Forall (fun kiv => exists rc, NewRecordCipher kiv.1 kiv.2 = Ok rc /\ cipher_ok rc /\ seqno rc = 0)
      [(hk_ClientWriteKey hk, hk_ClientWriteIV hk); (hk_ServerWriteKey hk, hk_ServerWriteIV hk);
       (ak_ClientWriteKey ak, ak_ClientWriteIV ak); (ak_ServerWriteKey ak, ak_ServerWriteIV ak)].
Proof.
  eexists _, _. split; [apply deriveHandshakeTrafficKeys_ok|].
  pose proof (hkdf_len z (cr ++ sr) handshake_info) as Hl1.
  pose proof (hkdf_len z th application_info) as Hl2.
  destruct (hs_keys_len z (cr ++ sr)) as (A1 & A2 & A3 & A4 & A5 & A6).
  destruct (app_keys_len z th) as (B1 & B2 & B3 & B4).
  split; [|split; [apply deriveApplicationTrafficKeys_ok|]].
  - apply take_drop_concat; unfold hs_keys_concat; cbn; [|zlia].
    rewrite <-!app_assoc. slices. apply take_drop_z.
  - split; [|split; [done|split; [done|]]].
    + apply take_drop_concat; unfold app_keys_concat; cbn; [|zlia].
      rewrite <-!app_assoc. slices. apply take_drop_z.
    + rewrite !Forall_cons, Forall_nil. cbn [fst snd].
      split_and!; try done; by apply NewRecordCipher_fresh.
Qed.

Lemma traffic_keys_witness :
  exists hk ak,
    @deriveHandshakeTrafficKeys toy_hkdf [x01] [x02] [x03] = Ok hk /\
    hs_keys_concat hk = take_z 120 (@hkdf_New toy_hkdf [x01] [x02; x03] handshake_info) /\
    @deriveApplicationTrafficKeys toy_hkdf [x01] [x04] = Ok ak /\
    app_keys_concat ak = take_z 56 (@hkdf_New toy_hkdf [x01] [x04] application_info) /\
    zlen (hk_ServerFinishedKey hk) = 32 /\ zlen (hk_ClientFinishedKey hk) = 32 /\
    Forall (fun kiv => exists rc, @NewRecordCipher toy_sm4 kiv.1 kiv.2 = Ok rc /\ cipher_ok rc /\ seqno rc = 0)
      [(hk_ClientWriteKey hk, hk_ClientWriteIV hk); (hk_ServerWriteKey hk, hk_ServerWriteIV hk);
       (ak_ClientWriteKey ak, ak_ClientWriteIV ak); (ak_ServerWriteKey ak, ak_ServerWriteIV ak)].
Proof. exact (@traffic_keys toy_sm4 toy_sm4_laws toy_hkdf toy_hkdf_laws [x01] [x02] [x03] [x04]). Defined.
