(* ===== verification/GoLib.v ===== *)
(** * Go's standard library on strings, paths and files

    The functions of [encoding/hex], [strings], [path/filepath], [net/url] and
    [os] that the attestation code calls.  A Go string is a Rocq [string] of
    arbitrary bytes. *)

From S2P Require Import Prelude.

(** ** Strings as bytes *)

Definition of_string (s : string) : bytes := String.list_byte_of_string s.
Definition to_string (b : bytes) : string := String.string_of_list_byte b.
#[global] Arguments of_string : simpl never.
#[global] Arguments to_string : simpl never.

Lemma of_to_string b : of_string (to_string b) = b.
Proof. apply String.list_byte_of_string_of_list_byte. Qed.

Lemma to_of_string s : to_string (of_string s) = s.
Proof. apply String.string_of_list_byte_of_string. Qed.

Lemma to_string_inj a b : to_string a = to_string b -> a = b.
Proof. intros H. by rewrite <-(of_to_string a), H, of_to_string. Qed.

Definition slen (s : string) : Z := zlen (of_string s).

(** ** encoding/hex *)

Definition hex_ErrLength : error := ErrNew "encoding/hex: odd length hex string".
Definition hex_InvalidByte (b : Byte.byte) : error :=
  Errorf "encoding/hex: invalid byte: %#U" [FInt (byte_to_Z b)].

Definition hex_digit (n : Z) : Byte.byte := byte_of_Z (if n <? 10 then 48 + n else 87 + n).

Definition hex_value (c : Byte.byte) : option Z :=
  let n := byte_to_Z c in
  if (48 <=? n) && (n <=? 57) then Some (n - 48)
  else if (97 <=? n) && (n <=? 102) then Some (n - 87)
  else if (65 <=? n) && (n <=? 70) then Some (n - 55)
  else None.

Fixpoint hex_encode (l : bytes) : bytes :=
  match l with
  | [] => []
  | b :: l' => hex_digit (byte_to_Z b / 16) :: hex_digit (byte_to_Z b mod 16) :: hex_encode l'
  end.
Definition hex_EncodeToString (l : bytes) : string := to_string (hex_encode l).

Fixpoint hex_decode (l : bytes) : result bytes :=
  match l with
  | [] => Ok []
  | [c] => match hex_value c with None => Err (hex_InvalidByte c) | Some _ => Err hex_ErrLength end
  | p :: q :: l' =>
      match hex_value p, hex_value q with
      | None, _ => Err (hex_InvalidByte p)
      | _, None => Err (hex_InvalidByte q)
      | Some a, Some b => rest ← hex_decode l'; Ok (byte_of_Z (16 * a + b) :: rest)
      end
  end.
Definition hex_DecodeString (s : string) : result bytes := hex_decode (of_string s).

Definition hex_char (c : Byte.byte) : bool := bool_decide (hex_value c <> None).

(** ASCII letter case. *)
Definition to_lower (c : Byte.byte) : Byte.byte :=
  let n := byte_to_Z c in if (65 <=? n) && (n <=? 90) then byte_of_Z (n + 32) else c.
Definition strings_ToLower (s : string) : string := to_string (to_lower <$> of_string s).
(** [strings.EqualFold] on ASCII strings, which is where the program calls it:
    a validated measurement and a string of hex digits. *)
Definition strings_EqualFold (s t : string) : bool :=
  bool_decide (to_lower <$> of_string s = to_lower <$> of_string t).

(** ** strings.TrimSpace

    The UTF-8 forms of the characters [unicode.IsSpace] holds of. *)
Definition space_forms : list bytes :=
  [[x09]; [x0a]; [x0b]; [x0c]; [x0d]; [x20]; [xc2; x85]; [xc2; xa0]; [xe1; x9a; x80];
   [xe2; x80; x80]; [xe2; x80; x81]; [xe2; x80; x82]; [xe2; x80; x83]; [xe2; x80; x84];
   [xe2; x80; x85]; [xe2; x80; x86]; [xe2; x80; x87]; [xe2; x80; x88]; [xe2; x80; x89];
   [xe2; x80; x8a]; [xe2; x80; xa8]; [xe2; x80; xa9]; [xe2; x80; xaf]; [xe2; x81; x9f];
   [xe3; x80; x80]].

Fixpoint strip_prefix (p l : bytes) : option bytes :=
  match p, l with
  | [], _ => Some l
  | a :: p', b :: l' => if bool_decide (a = b) then strip_prefix p' l' else None
  | _ :: _, [] => None
  end.

Fixpoint first_prefix (ps : list bytes) (l : bytes) : option bytes :=
  match ps with
  | [] => None
  | p :: ps' => match strip_prefix p l with Some r => Some r | None => first_prefix ps' l end
  end.

Fixpoint trim_prefixes (fuel : nat) (ps : list bytes) (l : bytes) : bytes :=
  match fuel with
  | O => l
  | S f => match first_prefix ps l with Some r => trim_prefixes f ps r | None => l end
  end.

Definition trim_left (l : bytes) : bytes := trim_prefixes (length l) space_forms l.
Definition trim_right (l : bytes) : bytes :=
  reverse (trim_prefixes (length l) (reverse <$> space_forms) (reverse l)).
Definition trim_space (l : bytes) : bytes := trim_right (trim_left l).
Definition strings_TrimSpace (s : string) : string := to_string (trim_space (of_string s)).

(** [strings.TrimRight(s, "\x00")] *)
Fixpoint drop_zeros (l : bytes) : bytes :=
  match l with x00 :: l' => drop_zeros l' | _ => l end.
Definition trim_right_zeros (l : bytes) : bytes := reverse (drop_zeros (reverse l)).

(** ** url.QueryEscape *)

Definition upper_hex_digit (n : Z) : Byte.byte := byte_of_Z (if n <? 10 then 48 + n else 55 + n).
Definition query_unreserved (n : Z) : bool :=
  ((48 <=? n) && (n <=? 57)) || ((65 <=? n) && (n <=? 90)) || ((97 <=? n) && (n <=? 122))
  || (n =? 45) || (n =? 95) || (n =? 46) || (n =? 126).
Definition query_escape_byte (b : Byte.byte) : bytes :=
  let n := byte_to_Z b in
  if n =? 32 then [x2b]
  else if query_unreserved n then [b]
  else [x25; upper_hex_digit (n / 16); upper_hex_digit (n mod 16)].
Definition url_QueryEscape (s : string) : string :=
  to_string (concat (query_escape_byte <$> of_string s)).

(** ** path/filepath, on Unix *)

Fixpoint split_slash (l cur : bytes) : list bytes :=
  match l with
  | [] => [reverse cur]
  | b :: l' => if bool_decide (b = x2f) then reverse cur :: split_slash l' []
               else split_slash l' (b :: cur)
  end.

(** The elements of a cleaned path, last one first. *)
Fixpoint clean_elems (rooted : bool) (acc : list bytes) (es : list bytes) : list bytes :=
  match es with
  | [] => acc
  | e :: es' =>
      if bool_decide (e = []) || bool_decide (e = [x2e]) then clean_elems rooted acc es'
      else if bool_decide (e = [x2e; x2e]) then
        match acc with
        | a :: acc' =>
            if bool_decide (a = [x2e; x2e]) then clean_elems rooted (e :: acc) es'
            else clean_elems rooted acc' es'
        | [] => clean_elems rooted (if rooted then [] else [e]) es'
        end
      else clean_elems rooted (e :: acc) es'
  end.

Fixpoint join_slash (es : list bytes) : bytes :=
  match es with
  | [] => []
  | [e] => e
  | e :: es' => e ++ [x2f] ++ join_slash es'
  end.

Definition path_clean (l : bytes) : bytes :=
  let rooted := match l with x2f :: _ => true | _ => false end in
  let body := join_slash (reverse (clean_elems rooted [] (split_slash l []))) in
  if rooted then [x2f] ++ body else if bool_decide (body = []) then [x2e] else body.

Definition filepath_Join (a b : string) : string :=
  match of_string a, of_string b with
  | [], [] => EmptyString
  | [], l | l, [] => to_string (path_clean l)
  | l, k => to_string (path_clean (l ++ [x2f] ++ k))
  end.

(** Up to and including the last slash. *)
Fixpoint drop_to_slash (l : bytes) : bytes :=
  match l with
  | [] => []
  | b :: l' => if bool_decide (b = x2f) then l else drop_to_slash l'
  end.
Definition filepath_Dir (s : string) : string :=
  to_string (path_clean (reverse (drop_to_slash (reverse (of_string s))))).

(** ** os.ReadFile *)

Definition FS : Type := string -> error + bytes.
Definition os_ReadFile (fs : FS) (path : string) : result bytes :=
  match fs path with inl e => Err e | inr d => Ok d end.

Definition ErrNotExist : error := ErrNew "file does not exist".
(** A file system that holds these files and no other. *)
Definition fs_of (m : gmap string bytes) : FS := fun p =>
  match m !! p with Some d => inr d | None => inl ErrNotExist end.

Example filepath_examples :
  filepath_Join "certs" "hrk.cert" = "certs/hrk.cert"%string /\
  filepath_Join "/a/../b//" "./c" = "/b/c"%string /\
  filepath_Dir "dir/sub/report.bin" = "dir/sub"%string /\ filepath_Dir "report.bin" = "."%string /\
  strings_TrimSpace "  x y	 " = "x y"%string /\
  url_QueryEscape "A b/C" = "A+b%2FC"%string.
Proof. vm_compute. done. Qed.

(** ** Hex: facts *)

(** A claim about nibbles, by computation. *)
Lemma nibble_ind (P : Z -> Prop) : Forall P (seqZ 0 16) -> forall n, 0 <= n < 16 -> P n.
Proof. rewrite Forall_forall. intros HP n Hn. apply HP, elem_of_seqZ. lia. Qed.

Lemma hex_value_digit n : 0 <= n < 16 -> hex_value (hex_digit n) = Some n.
Proof. revert n. apply nibble_ind. repeat constructor. Qed.

Lemma hex_decode_encode l : hex_decode (hex_encode l) = Ok l.
Proof.
  induction l as [|b l IH]; [done|]. cbn [hex_encode hex_decode].
  pose proof (byte_to_Z_range b). pose proof (Z.div_mod (byte_to_Z b) 16).
  pose proof (Z.mod_pos_bound (byte_to_Z b) 16).
  assert (0 <= byte_to_Z b / 16 < 16)
    by (split; [apply Z.div_pos; lia|apply Z.div_lt_upper_bound; lia]).
  rewrite !hex_value_digit, IH by lia. cbn [mbind result_bind]. do 2 f_equal.
  rewrite <-(byte_of_to_Z b) at 3. f_equal. lia.
Qed.

Lemma zlen_hex_encode l : zlen (hex_encode l) = 2 * zlen l.
Proof. induction l as [|b l IH]; [done|]. cbn [hex_encode]. rewrite !zlen_cons, IH. lia. Qed.

Lemma hex_decode_Ok_len l d : hex_decode l = Ok d -> zlen l = 2 * zlen d.
Proof.
  enough (forall n l d, (length l < n)%nat -> hex_decode l = Ok d -> zlen l = 2 * zlen d) as H
    by eauto. clear.
  induction n as [|n IH]; intros [|a [|b l]] d Hn; [cbn in Hn; lia..| | |]; cbn [hex_decode];
    intros H; [by inv_ok| |].
  - by destruct (hex_value a).
  - destruct (hex_value a), (hex_value b); try done. inv_ok. cbn in Hn.
    rewrite !zlen_cons, (IH l v) by (done || lia). lia.
Qed.

Lemma hex_decode_no_panic l : no_panic (hex_decode l).
Proof.
  enough (forall n l, (length l < n)%nat -> no_panic (hex_decode l)) as H by eauto. clear.
  induction n as [|n IH]; intros [|a [|b l]] Hn; [cbn in Hn; lia..|done| |]; cbn [hex_decode].
  - by destruct (hex_value a).
  - destruct (hex_value a), (hex_value b); try done. apply bind_no_panic; [|done].
    apply IH. cbn in Hn. lia.
Qed.

Lemma to_lower_hex_encode l : to_lower <$> hex_encode l = hex_encode l.
Proof.
  assert (forall n, 0 <= n < 16 -> to_lower (hex_digit n) = hex_digit n) as Hd.
  { apply nibble_ind. repeat constructor. }
  induction l as [|b l IH]; [done|]. cbn [hex_encode fmap list_fmap].
  pose proof (byte_to_Z_range b). pose proof (Z.mod_pos_bound (byte_to_Z b) 16).
  assert (0 <= byte_to_Z b / 16 < 16)
    by (split; [apply Z.div_pos; lia|apply Z.div_lt_upper_bound; lia]).
  by rewrite !Hd, IH by lia.
Qed.
