(* ===== verification/CsvReport.v ===== *)
(** * CSV attestation reports (pkg/csvattest: constants.go, errors.go, report.go
    and the parsers of verify.go)

    The fixed layout of a report and of the Hygon certificates in it, the
    unmasking, the session MAC and nonce checks, and [ParseReport].  A slice
    expression is the panicking [gslice] throughout, so that "does not panic" is
    a statement about the code's own length checks. *)

From S2P Require Import Prelude Gcm Gmsm Toy GoLib.

(** ** constants.go *)

Definition ReportSize : Z := 0x9f4.
Definition PageSize : Z := 4096.
Definition UserDataSize : Z := 64.
Definition NonceSize : Z := 16.
Definition HashSize : Z := 32.
Definition SealingKeySize : Z := 32.
Definition SignedSize : Z := 0xb4.

Definition OffsetReportPubkeyDigest : Z := 0x000.
Definition OffsetReportVMID : Z := 0x020.
Definition OffsetReportVMVersion : Z := 0x030.
Definition OffsetUserData : Z := 0x040.
Definition OffsetMNonce : Z := 0x080.
Definition OffsetMeasure : Z := 0x090.
Definition OffsetReportPolicy : Z := 0x0b0.
Definition OffsetReportSigUsage : Z := 0x0b4.
Definition OffsetReportSigAlgo : Z := 0x0b8.
Definition OffsetANonce : Z := 0x0bc.
Definition OffsetReportSig1 : Z := 0x0c0.
Definition OffsetPEKCert : Z := 0x150.
Definition OffsetChipID : Z := 0x974.
Definition OffsetReserved2 : Z := 0x9b4.
Definition OffsetMAC : Z := 0x9d4.

Definition HrkCertSize : Z := 0x340.
Definition CSVCertSize : Z := 0x824.
Definition HskCekSize : Z := HrkCertSize + CSVCertSize.
Definition ChipIDSize : Z := 64.

Definition OffsetRootKeyUsage : Z := 0x024.
Definition OffsetRootPubKey : Z := 0x040.
Definition OffsetRootSig : Z := 0x240.

Definition OffsetCSVPubKeyUsage : Z := 0x008.
Definition OffsetCSVPubKey : Z := 0x010.
Definition OffsetCSVSig1Usage : Z := 0x414.
Definition OffsetCSVSig1 : Z := 0x41c.
Definition OffsetCSVSig2Usage : Z := 0x61c.

Definition OffsetECCPubKeyQX : Z := 0x004.
Definition OffsetECCPubKeyQY : Z := 0x04c.
Definition OffsetECCPubKeyUserID : Z := 0x094.
Definition OffsetHygonSigR : Z := 0x000.
Definition OffsetHygonSigS : Z := 0x048.

Definition KeyUsageHRK : Z := 0x0.
Definition KeyUsageHSK : Z := 0x13.
Definition KeyUsageInvalid : Z := 0x1000.
Definition KeyUsagePEK : Z := 0x1002.
Definition KeyUsageCEK : Z := 0x1004.
Definition CurveIDSM2 : Z := 0x3.

Definition HRKCertURL : string := "https://cert.hygon.cn/hrk".
Definition KDSCertURL : string := "https://cert.hygon.cn/hsk_cek?snumber=".

Definition defaultCSVGuestDevice : string := "/dev/csv-guest".
Definition defaultUserDataText : string := "user data".

(** Every offset and size, for [lia]. *)
Ltac csv_consts := unfold ReportSize, PageSize, UserDataSize, NonceSize, HashSize, SealingKeySize,
  SignedSize, OffsetReportPubkeyDigest, OffsetReportVMID, OffsetReportVMVersion, OffsetUserData,
  OffsetMNonce, OffsetMeasure, OffsetReportPolicy, OffsetReportSigUsage, OffsetReportSigAlgo,
  OffsetANonce, OffsetReportSig1, OffsetPEKCert, OffsetChipID, OffsetReserved2, OffsetMAC,
  HskCekSize, HrkCertSize, CSVCertSize, ChipIDSize, OffsetRootKeyUsage, OffsetRootPubKey,
  OffsetRootSig, OffsetCSVPubKeyUsage, OffsetCSVPubKey, OffsetCSVSig1Usage, OffsetCSVSig1,
  OffsetCSVSig2Usage, OffsetECCPubKeyQX, OffsetECCPubKeyQY, OffsetECCPubKeyUserID,
  OffsetHygonSigR, OffsetHygonSigS in *.

(** ** errors.go *)

Definition ErrUnsupported : error := ErrNew "csvattest: unsupported operation".
Definition ErrShortBuffer : error := ErrNew "csvattest: buffer too short".
Definition ErrInvalidNonce : error := ErrNew "csvattest: invalid nonce length".
Definition ErrInvalidUserData : error := ErrNew "csvattest: invalid user data".
Definition ErrSessionMAC : error := ErrNew "csvattest: session MAC verification failed".
Definition ErrMNonceMismatch : error := ErrNew "csvattest: report mnonce does not match request nonce".

(** [fmt.Errorf("%w: ... %d ..., need %d", sentinel, got, want)] *)
Definition errf2 (fmt : string) (e : error) (got want : Z) : error :=
  Errorf fmt [FWrap e; FInt got; FInt want].

(** ** report.go *)

Definition hmacSM3 `{SM3} (key data : bytes) : bytes := hmac_sm3 key data.

(** The loop [for ; i+4 <= len(data); i += 4] and the copied tail. *)
Fixpoint UnmaskWords (data : bytes) (anonce : Z) : bytes :=
  match data with
  | a :: b :: c :: d :: rest =>
      le_bytes 4 (Z.lxor (le_uint [a; b; c; d]) anonce) ++ UnmaskWords rest anonce
  | tail => tail
  end.

Definition validateReportBytes (report : bytes) : result unit :=
  reject_if zlen report <? ReportSize
    with errf2 "%w: report has %d bytes, need %d" ErrShortBuffer (zlen report) ReportSize;
  Ok tt.

Definition validateNonce (nonce : bytes) : result unit :=
  reject_if negb (zlen nonce =? NonceSize)
    with errf2 "%w: nonce has %d bytes, need %d" ErrInvalidNonce (zlen nonce) NonceSize;
  Ok tt.

Definition VerifySessionMAC `{SM3} (report nonce : bytes) : result unit :=
  _ ← validateReportBytes report;
  _ ← validateNonce nonce;
  macInput ← gslice report OffsetPEKCert OffsetMAC;
  let got := hmacSM3 nonce macInput in
  want ← gslice report OffsetMAC (OffsetMAC + HashSize);
  reject_if negb (hmac_Equal got want) with ErrSessionMAC;
  Ok tt.

Definition VerifyMNonce (report nonce : bytes) : result unit :=
  _ ← validateReportBytes report;
  _ ← validateNonce nonce;
  a ← gslice report OffsetANonce (OffsetANonce + 4);
  m ← gslice report OffsetMNonce (OffsetMNonce + NonceSize);
  reject_if negb (bool_decide (UnmaskWords m (le_uint a) = nonce)) with ErrMNonceMismatch;
  Ok tt.

Definition ExtractSealingKey (report : bytes) : result bytes :=
  _ ← validateReportBytes report;
  k ← gslice report OffsetReserved2 (OffsetReserved2 + SealingKeySize);
  Ok (gcopy (zeros SealingKeySize) k).

(** The caller's buffer is the state. *)
Definition zeroReserved2 : stM bytes unit :=
  report ← get_st;
  _ ← lift (validateReportBytes report);
  report' ← lift (gcopy_at report OffsetReserved2 (OffsetReserved2 + SealingKeySize)
                    (zeros SealingKeySize));
  put_st report'.

(** ** Parsers of verify.go *)

Definition ReverseCopy (l : bytes) : bytes := reverse l.

Definition ParseHygonSignature (sig : bytes) : result (Z * Z) :=
  if zlen sig <? OffsetHygonSigS + 32 then Ok (0, 0)
  else
    r ← gslice sig OffsetHygonSigR (OffsetHygonSigR + 32);
    s ← gslice sig OffsetHygonSigS (OffsetHygonSigS + 32);
    Ok (be_uint (ReverseCopy r), be_uint (ReverseCopy s)).

Record PubKeyDetails := {
  pd_CurveID : Z;
  pd_UserID : string;
  pd_UserIDHex : string;
  pd_QXHex : string;
  pd_QYHex : string
}.
Definition zero_PubKeyDetails : PubKeyDetails := Build_PubKeyDetails 0 "" "" "" "".

Record hygonPubKey := {
  hp_Key : PublicKey;
  hp_UserID : bytes;
  hp_Details : PubKeyDetails
}.

(** [binary.LittleEndian.Uint32(b)]: panics on fewer than four bytes. *)
Definition le_Uint32 (b : bytes) : result Z := l ← gslice b 0 4; Ok (le_uint l).
Definition le_Uint16 (b : bytes) : result Z := l ← gslice b 0 2; Ok (le_uint l).

Definition parseHygonPubKey (data : bytes) : result hygonPubKey :=
  reject_if zlen data <? OffsetECCPubKeyUserID + 256 with ErrNew "public key data too short";
  curveID ← le_Uint32 data;
  reject_if negb (curveID =? CurveIDSM2) with Errorf "unsupported curve ID: 0x%x" [FInt curveID];
  x ← gslice data OffsetECCPubKeyQX (OffsetECCPubKeyQX + 32);
  y ← gslice data OffsetECCPubKeyQY (OffsetECCPubKeyQY + 32);
  let xBytes := ReverseCopy x in
  let yBytes := ReverseCopy y in
  uidData ← gslice_from data OffsetECCPubKeyUserID;
  uidLen ← le_Uint16 uidData;
  reject_if zlen uidData - 2 <? uidLen with Errorf "invalid SM2 user id length: %d" [FInt uidLen];
  userID ← gslice uidData 2 (2 + uidLen);
  Ok {| hp_Key := {| pub_X := be_uint xBytes; pub_Y := be_uint yBytes |};
        hp_UserID := userID;
        hp_Details := {| pd_CurveID := curveID; pd_UserID := to_string userID;
                         pd_UserIDHex := hex_EncodeToString userID;
                         pd_QXHex := hex_EncodeToString xBytes;
                         pd_QYHex := hex_EncodeToString yBytes |} |}.

Record RootCertDetails := {
  rd_KeyUsage : Z;
  rd_PubKey : PubKeyDetails;
  rd_SelfSignatureVerified : bool;
  rd_SignedByHRKVerified : bool
}.
Definition zero_RootCertDetails : RootCertDetails :=
  Build_RootCertDetails 0 zero_PubKeyDetails false false.

Record CSVCertDetails := {
  cd_PubKeyUsage : Z;
  cd_Sig1Usage : Z;
  cd_Sig2Usage : Z;
  cd_PubKey : PubKeyDetails;
  cd_SignedByHSKVerified : bool;
  cd_SignedByCEKVerified : bool
}.
Definition zero_CSVCertDetails : CSVCertDetails :=
  Build_CSVCertDetails 0 0 0 zero_PubKeyDetails false false.

Definition ParseRootCertDetails (cert : bytes) : result RootCertDetails :=
  reject_if zlen cert <? HrkCertSize
    with Errorf "certificate is %d bytes, need at least %d" [FInt (zlen cert); FInt HrkCertSize];
  pk ← gslice_from cert OffsetRootPubKey;
  pub ← parseHygonPubKey pk;
  ku ← gslice_from cert OffsetRootKeyUsage;
  usage ← le_Uint32 ku;
  Ok (Build_RootCertDetails usage (hp_Details pub) false false).

Definition ParseCSVCertDetails (cert : bytes) : result CSVCertDetails :=
  reject_if zlen cert <? CSVCertSize
    with Errorf "certificate is %d bytes, need at least %d" [FInt (zlen cert); FInt CSVCertSize];
  pk ← gslice_from cert OffsetCSVPubKey;
  pub ← parseHygonPubKey pk;
  u ← gslice_from cert OffsetCSVPubKeyUsage;
  usage ← le_Uint32 u;
  u1 ← gslice_from cert OffsetCSVSig1Usage;
  usage1 ← le_Uint32 u1;
  u2 ← gslice_from cert OffsetCSVSig2Usage;
  usage2 ← le_Uint32 u2;
  Ok (Build_CSVCertDetails usage usage1 usage2 (hp_Details pub) false false).

(** The first byte outside the printable ASCII range, if there is one. *)
Fixpoint first_nonprintable (l : bytes) : option Byte.byte :=
  match l with
  | [] => None
  | b :: l' => if (byte_to_Z b <? 0x20) || (0x7e <? byte_to_Z b) then Some b
               else first_nonprintable l'
  end.

Definition ChipIDASCII (chipID : bytes) : result string :=
  let trimmed := trim_space (trim_right_zeros chipID) in
  reject_if bool_decide (trimmed = []) with ErrNew "ChipID is empty";
  match first_nonprintable trimmed with
  | Some b => Err (Errorf "ChipID contains a non-printable character: 0x%02x" [FInt (byte_to_Z b)])
  | None => Ok (to_string trimmed)
  end.

(** ** VerificationResult and ParseReport

    The Go struct is split by when its fields are set: [ReportFields] are the
    ones of the composite literal, [raw_report] included, the others are
    assigned later. *)

Record ReportFields := {
  vr_ReportSize : Z;
  vr_PubkeyDigest : bytes;
  vr_VMID : bytes;
  vr_VMVersion : bytes;
  vr_UserData : bytes;
  vr_MNonce : bytes;
  vr_Digest : bytes;
  vr_Policy : Z;
  vr_SigUsage : Z;
  vr_SigAlgo : Z;
  vr_ANonce : Z;
  vr_Signature : bytes;
  vr_PEKCert : bytes;
  vr_ChipID : bytes;
  vr_Reserved2 : bytes;
  vr_MAC : bytes;
  vr_HRKURL : string;
  vr_rawReport : bytes
}.

Record CertChainDetails := {
  cc_HRK : RootCertDetails;
  cc_HSK : RootCertDetails;
  cc_CEK : CSVCertDetails;
  cc_PEK : CSVCertDetails
}.

Record VerificationResult := {
  vr_fields : ReportFields;
  vr_ChipIDASCII : string;
  vr_HSKCEKURL : string;
  vr_PEKDetails : CSVCertDetails;
  vr_ReportVerified : bool;
  vr_ChainVerified : bool;
  vr_ChainSource : string;
  vr_CertDetails : option CertChainDetails
}.

Definition parsed_result (f : ReportFields) : VerificationResult :=
  Build_VerificationResult f "" "" zero_CSVCertDetails false false "" None.
Definition set_ChipIDASCII (s url : string) (r : VerificationResult) : VerificationResult :=
  Build_VerificationResult (vr_fields r) s url (vr_PEKDetails r) (vr_ReportVerified r)
    (vr_ChainVerified r) (vr_ChainSource r) (vr_CertDetails r).
Definition set_PEKDetails (d : CSVCertDetails) (r : VerificationResult) : VerificationResult :=
  Build_VerificationResult (vr_fields r) (vr_ChipIDASCII r) (vr_HSKCEKURL r) d (vr_ReportVerified r)
    (vr_ChainVerified r) (vr_ChainSource r) (vr_CertDetails r).

(** A function that returns [*VerificationResult] and an error, or mutates one:
    the pointer and what it points to are the state. *)
Definition resM : Type -> Type := stM (option VerificationResult).
Definition modify_res (f : VerificationResult -> VerificationResult) : resM unit := fun s =>
  match s with Some r => (Ok tt, Some (f r)) | None => (Panic, None) end.

Definition unmask_field (report : bytes) (anonce a n : Z) : result bytes :=
  l ← gslice report a (a + n); Ok (UnmaskWords l anonce).

Definition parse_fields (data : bytes) : result ReportFields :=
  report ← gslice data 0 ReportSize;
  anonce ← (l ← gslice report OffsetANonce (OffsetANonce + 4); le_Uint32 l);
  pubkeyDigest ← gslice report OffsetReportPubkeyDigest (OffsetReportPubkeyDigest + HashSize);
  vmID ← gslice report OffsetReportVMID (OffsetReportVMID + 16);
  vmVersion ← gslice report OffsetReportVMVersion (OffsetReportVMVersion + 16);
  signature ← gslice report OffsetReportSig1 (OffsetReportSig1 + 144);
  reserved2 ← gslice report OffsetReserved2 (OffsetReserved2 + SealingKeySize);
  mac ← gslice report OffsetMAC (OffsetMAC + HashSize);
  userData ← unmask_field report anonce OffsetUserData UserDataSize;
  mnonce ← unmask_field report anonce OffsetMNonce NonceSize;
  digest ← unmask_field report anonce OffsetMeasure HashSize;
  chipID ← unmask_field report anonce OffsetChipID ChipIDSize;
  pekCert ← unmask_field report anonce OffsetPEKCert CSVCertSize;
  policy ← (l ← unmask_field report anonce OffsetReportPolicy 4; le_Uint32 l);
  sigUsage ← (l ← unmask_field report anonce OffsetReportSigUsage 4; le_Uint32 l);
  sigAlgo ← (l ← unmask_field report anonce OffsetReportSigAlgo 4; le_Uint32 l);
  Ok {| vr_ReportSize := zlen report; vr_PubkeyDigest := pubkeyDigest; vr_VMID := vmID;
        vr_VMVersion := vmVersion; vr_UserData := userData; vr_MNonce := mnonce;
        vr_Digest := digest; vr_Policy := policy; vr_SigUsage := sigUsage; vr_SigAlgo := sigAlgo;
        vr_ANonce := anonce; vr_Signature := signature; vr_PEKCert := pekCert;
        vr_ChipID := chipID; vr_Reserved2 := reserved2; vr_MAC := mac; vr_HRKURL := HRKCertURL;
        vr_rawReport := report |}.

Definition ParseReport (data : bytes) : resM unit :=
  reject_if zlen data <? ReportSize
    with errf2 "%w: report has %d bytes, need %d" ErrShortBuffer (zlen data) ReportSize;
  fields ← lift (parse_fields data);
  _ ← put_st (Some (parsed_result fields));
  chipIDASCII ← lift (ChipIDASCII (vr_ChipID fields)) <?> "failed to parse ChipID: %w";
  _ ← modify_res (set_ChipIDASCII chipIDASCII
        (String.append KDSCertURL (url_QueryEscape chipIDASCII)));
  pekDetails ← lift (ParseCSVCertDetails (vr_PEKCert fields))
                 <?> "failed to parse PEK certificate from report: %w";
  modify_res (set_PEKDetails pekDetails).

(** ** Unmasking *)

Lemma UnmaskWords_cons4 (l rest : bytes) an :
  length l = 4%nat -> UnmaskWords (l ++ rest) an = le_bytes 4 (Z.lxor (le_uint l) an) ++ UnmaskWords rest an.
Proof. destruct l as [|a [|b [|c [|d [|e l]]]]]; done. Qed.

(** Words of four, then a tail of at most three. *)
Lemma words_ind (P : bytes -> Prop) :
  (forall l, (length l < 4)%nat -> P l) ->
  (forall w rest, length w = 4%nat -> P rest -> P (w ++ rest)) -> forall l, P l.
Proof.
  intros Hs Hw l. enough (forall n l, (length l < n)%nat -> P l) as H by eauto. clear l.
  induction n as [|n IH]; intros l Hn; [lia|].
  destruct (decide (length l < 4)%nat); [by apply Hs|].
  rewrite <-(take_drop 4 l). apply Hw; [rewrite length_take; lia|].
  apply IH. rewrite length_drop. lia.
Qed.

Lemma UnmaskWords_short l an : (length l < 4)%nat -> UnmaskWords l an = l.
Proof. destruct l as [|a [|b [|c [|d l]]]]; cbn; done || lia. Qed.

Lemma length_UnmaskWords l an : length (UnmaskWords l an) = length l.
Proof.
  induction l as [l Hl|w rest Hw IH] using words_ind; [by rewrite UnmaskWords_short|].
  rewrite UnmaskWords_cons4, !length_app, length_le_bytes, IH by done. lia.
Qed.

Lemma zlen_UnmaskWords l an : zlen (UnmaskWords l an) = zlen l.
Proof. unfold zlen. by rewrite length_UnmaskWords. Qed.
#[export] Hint Rewrite zlen_UnmaskWords : zlen.

Lemma UnmaskWords_0 l : UnmaskWords l 0 = l.
Proof.
  induction l as [l Hl|w rest Hw IH] using words_ind; [by rewrite UnmaskWords_short|].
  rewrite UnmaskWords_cons4, IH, Z.lxor_0_r, <-Hw, le_bytes_le_uint by done. done.
Qed.

Lemma unmask_unmask l an : 0 <= an < 2 ^ 32 -> UnmaskWords (UnmaskWords l an) an = l.
Proof.
  intros Han. induction l as [l Hl|w rest Hw IH] using words_ind.
  - rewrite (UnmaskWords_short l) by done. by apply UnmaskWords_short.
  - rewrite (UnmaskWords_cons4 w rest) by done.
    rewrite UnmaskWords_cons4, IH, le_uint_le_bytes by apply length_le_bytes.
    pose proof (le_uint_range w) as Hr. unfold zlen in Hr. rewrite Hw in Hr.
    assert (0 <= Z.lxor (le_uint w) an < 2 ^ 32) as Hx by (apply lxor_range; lia || done).
    rewrite Z.mod_small by exact Hx.
    rewrite Z.lxor_assoc, Z.lxor_nilpotent, Z.lxor_0_r, <-Hw, le_bytes_le_uint. done.
Qed.

(** Masking and unmasking with a 32-bit nonce are the same operation and
    undo each other, on data of any length (a tail of fewer than four bytes is
    kept as it is), and keep the length. *)
Theorem UnmaskWords_involutive l an :
  0 <= an < 2 ^ 32 -> UnmaskWords (UnmaskWords l an) an = l /\ zlen (UnmaskWords l an) = zlen l.
Proof. intros Han. split; [by apply unmask_unmask|apply zlen_UnmaskWords]. Qed.

Lemma UnmaskWords_involutive_witness :
  let l := [x01; x02; x03; x04; x05] in
  UnmaskWords l 0xdeadbeef <> l /\ UnmaskWords (UnmaskWords l 0xdeadbeef) 0xdeadbeef = l.
Proof.
  split; [by vm_compute|].
  exact (proj1 (UnmaskWords_involutive [x01; x02; x03; x04; x05] 0xdeadbeef ltac:(lia))).
Defined.

(** ** Parsing: facts *)

Lemma le_Uint32_ok b : 4 <= zlen b -> le_Uint32 b = Ok (le_uint (take_z 4 b)).
Proof. intros. unfold le_Uint32. rewrite gslice_ok by lia. cbn. by rewrite slice_from_0. Qed.

Lemma le_Uint16_ok b : 2 <= zlen b -> le_Uint16 b = Ok (le_uint (take_z 2 b)).
Proof. intros. unfold le_Uint16. rewrite gslice_ok by lia. cbn. by rewrite slice_from_0. Qed.

Lemma unmask_field_ok r an a n :
  0 <= a -> 0 <= n -> a + n <= zlen r ->
  unmask_field r an a n = Ok (UnmaskWords (slice r a (a + n)) an).
Proof. intros. unfold unmask_field. by rewrite gslice_ok by lia. Qed.


Lemma le_uint16_nonneg l : 0 <= le_uint l.
Proof. apply le_uint_range. Qed.

(** Run a parser whose slices are all in range. *)
Ltac in_range := csv_consts; zlia.
Ltac run_slices := repeat first
  [ rewrite gslice_ok by in_range
  | rewrite gslice_from_ok by in_range
  | rewrite gcopy_at_ok by in_range
  | rewrite le_Uint32_ok by in_range
  | rewrite le_Uint16_ok by in_range
  | rewrite unmask_field_ok by in_range
  | progress cbn [mbind result_bind] ].

(** What a public key blob of at least [OffsetECCPubKeyUserID + 256] bytes says. *)
Definition hygon_uid_len (data : bytes) : Z :=
  le_uint (take_z 2 (drop_z OffsetECCPubKeyUserID data)).
Definition hygon_key (data : bytes) : hygonPubKey :=
  let x := ReverseCopy (slice data OffsetECCPubKeyQX (OffsetECCPubKeyQX + 32)) in
  let y := ReverseCopy (slice data OffsetECCPubKeyQY (OffsetECCPubKeyQY + 32)) in
  let uid := slice (drop_z OffsetECCPubKeyUserID data) 2 (2 + hygon_uid_len data) in
  {| hp_Key := {| pub_X := be_uint x; pub_Y := be_uint y |};
     hp_UserID := uid;
     hp_Details := {| pd_CurveID := le_uint (take_z 4 data); pd_UserID := to_string uid;
                      pd_UserIDHex := hex_EncodeToString uid;
                      pd_QXHex := hex_EncodeToString x; pd_QYHex := hex_EncodeToString y |} |}.

Record hygon_key_ok (data : bytes) : Prop := {
  hk_len : OffsetECCPubKeyUserID + 256 <= zlen data;
  hk_curve : le_uint (take_z 4 data) = CurveIDSM2;
  hk_uid : OffsetECCPubKeyUserID + 2 + hygon_uid_len data <= zlen data
}.

Lemma parseHygonPubKey_cases data :
  (hygon_key_ok data /\ parseHygonPubKey data = Ok (hygon_key data)) \/
  (~ hygon_key_ok data /\ exists e, parseHygonPubKey data = Err e).
Proof.
  unfold parseHygonPubKey.
  destruct (Z.ltb_spec (zlen data) (OffsetECCPubKeyUserID + 256)) as [Hl|Hl].
  { right. split; [|by eexists]. intros [H _ _]. lia. }
  run_slices.
  destruct (Z.eqb_spec (le_uint (take_z 4 data)) CurveIDSM2) as [Hc|Hc]; cbn [negb].
  2: { right. split; [|by eexists]. by intros [_ H _]. }
  pose proof (le_uint16_nonneg (take_z 2 (drop_z OffsetECCPubKeyUserID data))) as Hu.
  fold (hygon_uid_len data) in *.
  destruct (Z.ltb_spec (zlen (drop_z OffsetECCPubKeyUserID data) - 2) (hygon_uid_len data)) as [Hn|Hn].
  { right. split; [|by eexists]. intros [_ _ H]. revert Hn H. csv_consts. zlia. }
  left. split; [split; [done|done|]|].
  - revert Hn. csv_consts. zlia.
  - by rewrite gslice_ok by lia.
Qed.

Lemma parseHygonPubKey_no_panic data : no_panic (parseHygonPubKey data).
Proof. by destruct (parseHygonPubKey_cases data) as [[_ ->]|[_ [e ->]]]. Qed.

Lemma parseHygonPubKey_Ok data k :
  parseHygonPubKey data = Ok k <-> hygon_key_ok data /\ k = hygon_key data.
Proof.
  destruct (parseHygonPubKey_cases data) as [[H E]|[H [e E]]]; rewrite E.
  - split; [intros [= <-]; done|intros [_ ->]; done].
  - split; [done|]. intros [? _]. done.
Qed.

Definition root_details (cert : bytes) : RootCertDetails :=
  Build_RootCertDetails (le_uint (take_z 4 (drop_z OffsetRootKeyUsage cert)))
    (hp_Details (hygon_key (drop_z OffsetRootPubKey cert))) false false.
Definition csv_details (cert : bytes) : CSVCertDetails :=
  Build_CSVCertDetails (le_uint (take_z 4 (drop_z OffsetCSVPubKeyUsage cert)))
    (le_uint (take_z 4 (drop_z OffsetCSVSig1Usage cert)))
    (le_uint (take_z 4 (drop_z OffsetCSVSig2Usage cert)))
    (hp_Details (hygon_key (drop_z OffsetCSVPubKey cert))) false false.

Lemma ParseRootCertDetails_cases cert :
  (HrkCertSize <= zlen cert /\ hygon_key_ok (drop_z OffsetRootPubKey cert) /\
   ParseRootCertDetails cert = Ok (root_details cert)) \/
  exists e, ParseRootCertDetails cert = Err e.
Proof.
  unfold ParseRootCertDetails.
  destruct (Z.ltb_spec (zlen cert) HrkCertSize) as [Hl|Hl]; [right; by eexists|].
  run_slices. destruct (parseHygonPubKey_cases (drop_z OffsetRootPubKey cert)) as [[H ->]|[_ [e ->]]];
    [left|right; by eexists].
  run_slices. done.
Qed.

Lemma ParseCSVCertDetails_cases cert :
  (CSVCertSize <= zlen cert /\ hygon_key_ok (drop_z OffsetCSVPubKey cert) /\
   ParseCSVCertDetails cert = Ok (csv_details cert)) \/
  exists e, ParseCSVCertDetails cert = Err e.
Proof.
  unfold ParseCSVCertDetails.
  destruct (Z.ltb_spec (zlen cert) CSVCertSize) as [Hl|Hl]; [right; by eexists|].
  run_slices. destruct (parseHygonPubKey_cases (drop_z OffsetCSVPubKey cert)) as [[H ->]|[_ [e ->]]];
    [left|right; by eexists].
  run_slices. done.
Qed.

Lemma ParseCSVCertDetails_ok cert :
  CSVCertSize <= zlen cert -> hygon_key_ok (drop_z OffsetCSVPubKey cert) ->
  ParseCSVCertDetails cert = Ok (csv_details cert).
Proof.
  intros Hl Hk. unfold ParseCSVCertDetails. rewrite (proj2 (Z.ltb_ge _ _)) by done. run_slices.
  destruct (parseHygonPubKey_cases (drop_z OffsetCSVPubKey cert)) as [[_ ->]|[? _]]; [|done].
  by run_slices.
Qed.

Lemma ParseRootCertDetails_ok cert :
  HrkCertSize <= zlen cert -> hygon_key_ok (drop_z OffsetRootPubKey cert) ->
  ParseRootCertDetails cert = Ok (root_details cert).
Proof.
  intros Hl Hk. unfold ParseRootCertDetails. rewrite (proj2 (Z.ltb_ge _ _)) by done. run_slices.
  destruct (parseHygonPubKey_cases (drop_z OffsetRootPubKey cert)) as [[_ ->]|[? _]]; [|done].
  by run_slices.
Qed.

(** The fields of the first [ReportSize] bytes. *)
Definition report_anonce (r : bytes) : Z :=
  le_uint (take_z 4 (slice r OffsetANonce (OffsetANonce + 4))).
Definition unmasked (r : bytes) (a n : Z) : bytes :=
  UnmaskWords (slice r a (a + n)) (report_anonce r).
Definition report_fields (r : bytes) : ReportFields :=
  {| vr_ReportSize := zlen r;
     vr_PubkeyDigest := slice r OffsetReportPubkeyDigest (OffsetReportPubkeyDigest + HashSize);
     vr_VMID := slice r OffsetReportVMID (OffsetReportVMID + 16);
     vr_VMVersion := slice r OffsetReportVMVersion (OffsetReportVMVersion + 16);
     vr_UserData := unmasked r OffsetUserData UserDataSize;
     vr_MNonce := unmasked r OffsetMNonce NonceSize;
     vr_Digest := unmasked r OffsetMeasure HashSize;
     vr_Policy := le_uint (take_z 4 (unmasked r OffsetReportPolicy 4));
     vr_SigUsage := le_uint (take_z 4 (unmasked r OffsetReportSigUsage 4));
     vr_SigAlgo := le_uint (take_z 4 (unmasked r OffsetReportSigAlgo 4));
     vr_ANonce := report_anonce r;
     vr_Signature := slice r OffsetReportSig1 (OffsetReportSig1 + 144);
     vr_PEKCert := unmasked r OffsetPEKCert CSVCertSize;
     vr_ChipID := unmasked r OffsetChipID ChipIDSize;
     vr_Reserved2 := slice r OffsetReserved2 (OffsetReserved2 + SealingKeySize);
     vr_MAC := slice r OffsetMAC (OffsetMAC + HashSize);
     vr_HRKURL := HRKCertURL;
     vr_rawReport := r |}.

Lemma parse_fields_ok data :
  ReportSize <= zlen data -> parse_fields data = Ok (report_fields (take_z ReportSize data)).
Proof.
  intros Hl. unfold parse_fields. rewrite gslice_ok by in_range.
  rewrite slice_from_0. set (r := take_z ReportSize data).
  assert (zlen r = ReportSize) as Hr by (unfold r; in_range).
  clearbody r. clear Hl data. cbn [mbind result_bind].
  run_slices. fold (report_anonce r). run_slices. done.
Qed.

Lemma ChipIDASCII_no_panic l : no_panic (ChipIDASCII l).
Proof. unfold ChipIDASCII. destruct (bool_decide _); [done|]. by destruct (first_nonprintable _). Qed.

Lemma ParseCSVCertDetails_no_panic cert : no_panic (ParseCSVCertDetails cert).
Proof. by destruct (ParseCSVCertDetails_cases cert) as [(_ & _ & ->)|[e ->]]. Qed.

(** ** ParseReport on every input *)

(** What [ParseReport] leaves in the result it returns, error or not. *)
Definition parsed_state (data : bytes) : VerificationResult :=
  let f := report_fields (take_z ReportSize data) in
  match ChipIDASCII (vr_ChipID f) with
  | Ok s =>
      let r := set_ChipIDASCII s (String.append KDSCertURL (url_QueryEscape s)) (parsed_result f) in
      match ParseCSVCertDetails (vr_PEKCert f) with Ok d => set_PEKDetails d r | _ => r end
  | _ => parsed_result f
  end.

Lemma parsed_state_fields data :
  vr_fields (parsed_state data) = report_fields (take_z ReportSize data) /\
  vr_ReportVerified (parsed_state data) = false /\ vr_ChainVerified (parsed_state data) = false.
Proof.
  unfold parsed_state. destruct (ChipIDASCII _); [|done..]. by destruct (ParseCSVCertDetails _).
Qed.

Lemma ParseReport_long data s :
  ReportSize <= zlen data ->
  let f := report_fields (take_z ReportSize data) in
  exists r, ParseReport data s = (r, Some (parsed_state data)) /\ no_panic r /\
    (r = Ok tt <-> is_ok (ChipIDASCII (vr_ChipID f)) = true /\
                   is_ok (ParseCSVCertDetails (vr_PEKCert f)) = true).
Proof.
  intros Hl f. unfold ParseReport, parsed_state. rewrite (proj2 (Z.ltb_ge _ _)) by done.
  stm. rewrite parse_fields_ok by done. fold f.
  pose proof (ChipIDASCII_no_panic (vr_ChipID f)) as Hc.
  pose proof (ParseCSVCertDetails_no_panic (vr_PEKCert f)) as Hd.
  destruct (ChipIDASCII (vr_ChipID f)) as [s'|e|]; [|by eexists; split_and!; [done..|split; [done|intros [? _]]]|done].
  unfold modify_res.
  destruct (ParseCSVCertDetails (vr_PEKCert f)) as [d|e|];
    [|by eexists; split_and!; [done..|split; [done|intros [_ ?]]]|done].
  by eexists.
Qed.

Lemma ParseReport_short data s :
  zlen data < ReportSize ->
  ParseReport data s = (Err (errf2 "%w: report has %d bytes, need %d" ErrShortBuffer (zlen data) ReportSize), s).
Proof. intros Hl. unfold ParseReport. by rewrite (proj2 (Z.ltb_lt _ _)) by done. Qed.

Lemma ParseCSVCertDetails_is_ok cert :
  CSVCertSize <= zlen cert ->
  is_ok (ParseCSVCertDetails cert) = true <-> hygon_key_ok (drop_z OffsetCSVPubKey cert).
Proof.
  intros Hl. destruct (ParseCSVCertDetails_cases cert) as [(_ & H & ->)|[e E]]; [done|].
  rewrite E. split; [done|]. intros Hk. by rewrite ParseCSVCertDetails_ok in E.
Qed.



(** A report passes the session checks exactly when it is long enough, the
    nonce has its 16 bytes, the MAC field is the HMAC-SM3 under the nonce of the
    PEK certificate, chip id and sealing key fields as they are on the wire, and
    the unmasked mnonce is the nonce; and neither check panics. *)
Theorem session_checks `{SM3} report nonce :
  no_panic (VerifySessionMAC report nonce) /\ no_panic (VerifyMNonce report nonce) /\
  (VerifySessionMAC report nonce = Ok tt <->
     ReportSize <= zlen report /\ zlen nonce = NonceSize /\
     slice report OffsetMAC (OffsetMAC + HashSize)
       = hmac_sm3 nonce (slice report OffsetPEKCert OffsetMAC)) /\
  (VerifyMNonce report nonce = Ok tt <->
     ReportSize <= zlen report /\ zlen nonce = NonceSize /\
     unmasked report OffsetMNonce NonceSize = nonce).
Proof.
  unfold VerifySessionMAC, VerifyMNonce, validateReportBytes, validateNonce.
  destruct (Z.ltb_spec (zlen report) ReportSize) as [Hl|Hl].
  { cbn. split_and!; try done; (split; [done|intros (? & _); lia]). }
  cbn [mbind result_bind]. destruct (Z.eqb_spec (zlen nonce) NonceSize) as [Hn|Hn]; cbn [negb].
  2: { cbn. split_and!; try done; (split; [done|intros (_ & ? & _); done]). }
  run_slices. unfold hmac_Equal, hmacSM3, unmasked, report_anonce.
  rewrite take_z_all by in_range. split_and!; try (by case_match).
  - case_bool_decide; cbn; split; try done. by intros (_ & _ & ?).
  - case_bool_decide; cbn; split; try done. by intros (_ & _ & ?).
Qed.
