(* ===== verification/CsvVerify.v ===== *)
(** * Verifying a report (pkg/csvattest/verify.go)

    The PEK signature over the report, the Hygon certificate chain, where its
    certificates come from, and the entry points.  [sm2.Sm2Verify] is a
    parameter; the file system is a function from paths. *)

From S2P Require Import Prelude Gcm Gmsm Toy GoLib CsvReport.

(** ** Inputs *)

Definition ErrMissingCertChain : error := ErrNew "missing CSV certificate chain".
Definition ErrUntrustedHRK : error := ErrNew "untrusted HRK certificate".

Record CertChainInput := {
  ci_HRK : bytes;
  ci_HSKCEK : bytes;
  ci_Source : string
}.

Record VerifyOptions := {
  vo_VerifyChain : bool;
  vo_TrustedHRKCertBytes : bytes;
  vo_TrustedHRKCertPath : string;
  vo_HSKCekCertBytes : bytes;
  vo_HSKCekCertPath : string;
  vo_CertDir : string;
  vo_HRKCertBytes : bytes;
  vo_HRKCertPath : string
}.

(** ** The report signature *)

Definition get_res : resM VerificationResult := fun s =>
  match s with Some r => (Ok r, s) | None => (Panic, s) end.
Definition set_ReportVerified (r : VerificationResult) : VerificationResult :=
  Build_VerificationResult (vr_fields r) (vr_ChipIDASCII r) (vr_HSKCEKURL r) (vr_PEKDetails r) true
    (vr_ChainVerified r) (vr_ChainSource r) (vr_CertDetails r).

Definition verify_hygon `{SM2} (pub : hygonPubKey) (msg sig : bytes) : result bool :=
  '(r, s) ← ParseHygonSignature sig;
  Ok (sm2_Sm2Verify (hp_Key pub) msg (hp_UserID pub) r s).

(** [VerifyReportPEKSignature(res)] where [res] is not nil. *)
Definition verify_pek `{SM2} (f : ReportFields) : resM unit :=
  reject_if zlen (vr_PEKCert f) <? CSVCertSize
    with errf2 "%w: PEK certificate is %d bytes, need %d" ErrShortBuffer (zlen (vr_PEKCert f)) CSVCertSize;
  reject_if zlen (vr_Signature f) <? OffsetHygonSigS + 32
    with errf2 "%w: report signature is %d bytes, need %d" ErrShortBuffer (zlen (vr_Signature f))
           (OffsetHygonSigS + 32);
  pk ← lift (gslice_from (vr_PEKCert f) OffsetCSVPubKey);
  pekPub ← lift (parseHygonPubKey pk) <?> "failed to parse PEK public key from report: %w";
  reject_if zlen (vr_rawReport f) <? SignedSize
    with errf2 "%w: report is %d bytes, need at least %d" ErrShortBuffer (zlen (vr_rawReport f)) SignedSize;
  signed ← lift (gslice (vr_rawReport f) 0 SignedSize);
  ok ← lift (verify_hygon pekPub signed (vr_Signature f));
  reject_if negb ok with ErrNew "PEK report signature verification failed";
  modify_res set_ReportVerified.

(** A nil [res] is the state [None]. *)
Definition VerifyReportPEKSignature `{SM2} : resM unit := fun st =>
  match st with
  | None => (Err (ErrNew "verification result is nil"), None)
  | Some res => verify_pek (vr_fields res) st
  end.

(** ** Where the chain comes from *)

Section chain_source.
Context (fs : FS).

Definition readFixedFile (path : string) (size : Z) : result bytes :=
  data ← os_ReadFile fs path;
  reject_if zlen data <? size
    with Errorf "file is %d bytes, need at least %d" [FInt (zlen data); FInt size];
  gslice data 0 size.

Definition LoadCertChainFromFiles (hrkPath hskCekPath : string) : result CertChainInput :=
  hrk ← map_err (fun e => Errorf "read hrk cert %s: %w" [FStr hrkPath; FWrap e])
          (readFixedFile hrkPath HrkCertSize);
  hskCek ← map_err (fun e => Errorf "read hsk_cek cert %s: %w" [FStr hskCekPath; FWrap e])
             (readFixedFile hskCekPath HskCekSize);
  Ok (Build_CertChainInput hrk hskCek "local file").

Definition LoadLocalCertChain (certDir : string) : result CertChainInput :=
  LoadCertChainFromFiles (filepath_Join certDir "hrk.cert") (filepath_Join certDir "hsk_cek.cert").

Definition LoadCertChain (certDir chipIDASCII : string) : result CertChainInput :=
  map_err (fun e => Errorf "%w: local certificates unavailable (chip_id=%s): %v"
                      [FWrap ErrMissingCertChain; FStr chipIDASCII; FErr e])
    (LoadLocalCertChain certDir).

Definition missing_chain (fmt : string) : error := Errorf fmt [FWrap ErrMissingCertChain].

Definition loadChainFromOptions (opts : VerifyOptions) (chipIDASCII : string) : result CertChainInput :=
  let trustedHRK := if zlen (vo_TrustedHRKCertBytes opts) =? 0 then vo_HRKCertBytes opts
                    else vo_TrustedHRKCertBytes opts in
  let trustedHRKPath :=
    let p := strings_TrimSpace (vo_TrustedHRKCertPath opts) in
    if bool_decide (p = EmptyString) then strings_TrimSpace (vo_HRKCertPath opts) else p in
  let hskCek := vo_HSKCekCertBytes opts in
  let hskCekPath := strings_TrimSpace (vo_HSKCekCertPath opts) in
  if (0 <? zlen trustedHRK) || (0 <? zlen hskCek) then
    reject_if (zlen trustedHRK =? 0) || (zlen hskCek =? 0)
      with missing_chain "%w: trusted HRK and HSK/CEK bytes must be provided together";
    Ok (Build_CertChainInput trustedHRK hskCek "in-memory trusted HRK and HSK/CEK bytes")
  else if negb (bool_decide (trustedHRKPath = EmptyString)) || negb (bool_decide (hskCekPath = EmptyString)) then
    reject_if bool_decide (trustedHRKPath = EmptyString) || bool_decide (hskCekPath = EmptyString)
      with missing_chain "%w: trusted HRK and HSK/CEK paths must be provided together";
    LoadCertChainFromFiles trustedHRKPath hskCekPath
  else if negb (bool_decide (strings_TrimSpace (vo_CertDir opts) = EmptyString)) then
    LoadCertChain (vo_CertDir opts) chipIDASCII
  else Err (missing_chain "%w: no trusted HRK and HSK/CEK material configured").
End chain_source.

(** ** The chain *)

Definition zero_chain : CertChainDetails :=
  Build_CertChainDetails zero_RootCertDetails zero_RootCertDetails zero_CSVCertDetails zero_CSVCertDetails.

(** [VerifyCertChain] returns its details and an error: the details are the
    state, [None] before they are allocated. *)
Definition chainM : Type -> Type := stM (option CertChainDetails).
Definition modify_chain (f : CertChainDetails -> CertChainDetails) : chainM unit := fun s =>
  match s with Some d => (Ok tt, Some (f d)) | None => (Panic, None) end.
Definition get_chain : chainM CertChainDetails := fun s =>
  match s with Some d => (Ok d, s) | None => (Panic, s) end.

Definition set_HRK (x : RootCertDetails) (d : CertChainDetails) : CertChainDetails :=
  Build_CertChainDetails x (cc_HSK d) (cc_CEK d) (cc_PEK d).
Definition set_HSK (x : RootCertDetails) (d : CertChainDetails) : CertChainDetails :=
  Build_CertChainDetails (cc_HRK d) x (cc_CEK d) (cc_PEK d).
Definition set_CEK (x : CSVCertDetails) (d : CertChainDetails) : CertChainDetails :=
  Build_CertChainDetails (cc_HRK d) (cc_HSK d) x (cc_PEK d).
Definition set_PEK (x : CSVCertDetails) (d : CertChainDetails) : CertChainDetails :=
  Build_CertChainDetails (cc_HRK d) (cc_HSK d) (cc_CEK d) x.
Definition root_self (v : bool) (x : RootCertDetails) : RootCertDetails :=
  Build_RootCertDetails (rd_KeyUsage x) (rd_PubKey x) v (rd_SignedByHRKVerified x).
Definition root_by_hrk (v : bool) (x : RootCertDetails) : RootCertDetails :=
  Build_RootCertDetails (rd_KeyUsage x) (rd_PubKey x) (rd_SelfSignatureVerified x) v.
Definition csv_by_hsk (v : bool) (x : CSVCertDetails) : CSVCertDetails :=
  Build_CSVCertDetails (cd_PubKeyUsage x) (cd_Sig1Usage x) (cd_Sig2Usage x) (cd_PubKey x) v
    (cd_SignedByCEKVerified x).
Definition csv_by_cek (v : bool) (x : CSVCertDetails) : CSVCertDetails :=
  Build_CSVCertDetails (cd_PubKeyUsage x) (cd_Sig1Usage x) (cd_Sig2Usage x) (cd_PubKey x)
    (cd_SignedByHSKVerified x) v.

Definition verifyHygonSignature `{SM2} (pub : hygonPubKey) (msg sig : bytes) : result bool :=
  verify_hygon pub msg sig.

(** The parse of the four certificates, in order. *)
Definition parse_chain (hrk hsk cek pekCert : bytes) : chainM unit :=
  d ← lift (ParseRootCertDetails hrk) <?> "parse HRK cert: %w";
  _ ← modify_chain (set_HRK d);
  d ← lift (ParseRootCertDetails hsk) <?> "parse HSK cert: %w";
  _ ← modify_chain (set_HSK d);
  d ← lift (ParseCSVCertDetails cek) <?> "parse CEK cert: %w";
  _ ← modify_chain (set_CEK d);
  d ← lift (ParseCSVCertDetails pekCert) <?> "parse PEK cert: %w";
  modify_chain (set_PEK d).

Definition check_usages : chainM unit :=
  d ← get_chain;
  reject_if negb (rd_KeyUsage (cc_HRK d) =? KeyUsageHRK)
    with Errorf "invalid HRK key_usage: 0x%x" [FInt (rd_KeyUsage (cc_HRK d))];
  reject_if negb (rd_KeyUsage (cc_HSK d) =? KeyUsageHSK)
    with Errorf "invalid HSK key_usage: 0x%x" [FInt (rd_KeyUsage (cc_HSK d))];
  reject_if negb (cd_PubKeyUsage (cc_CEK d) =? KeyUsageCEK)
    with Errorf "invalid CEK pubkey_usage: 0x%x" [FInt (cd_PubKeyUsage (cc_CEK d))];
  reject_if negb (cd_Sig1Usage (cc_CEK d) =? KeyUsageHSK)
    with Errorf "invalid CEK sig1_usage: 0x%x" [FInt (cd_Sig1Usage (cc_CEK d))];
  reject_if negb (cd_Sig2Usage (cc_CEK d) =? KeyUsageInvalid)
    with Errorf "invalid CEK sig2_usage: 0x%x" [FInt (cd_Sig2Usage (cc_CEK d))];
  reject_if negb (cd_PubKeyUsage (cc_PEK d) =? KeyUsagePEK)
    with Errorf "invalid PEK pubkey_usage: 0x%x" [FInt (cd_PubKeyUsage (cc_PEK d))];
  mret tt.

(** One signature: verify, record the outcome, fail if it is wrong. *)
Definition check_signature `{SM2} (pub : hygonPubKey) (cert : bytes) (signedLen sigOff : Z)
    (record : bool -> CertChainDetails -> CertChainDetails) (msg : string) : chainM unit :=
  signed ← lift (gslice cert 0 signedLen);
  sig ← lift (gslice_from cert sigOff);
  v ← lift (verifyHygonSignature pub signed sig);
  _ ← modify_chain (record v);
  reject_if negb v with ErrNew msg;
  mret tt.

Definition VerifyCertChain `{SM2} (certs : CertChainInput) (pekCert : bytes) : chainM unit :=
  reject_if zlen (ci_HRK certs) <? HrkCertSize
    with Errorf "hrk.cert is %d bytes, need at least %d" [FInt (zlen (ci_HRK certs)); FInt HrkCertSize];
  reject_if zlen (ci_HSKCEK certs) <? HskCekSize
    with Errorf "hsk_cek.cert is %d bytes, need at least %d" [FInt (zlen (ci_HSKCEK certs)); FInt HskCekSize];
  hrk ← lift (gslice (ci_HRK certs) 0 HrkCertSize);
  hsk ← lift (gslice (ci_HSKCEK certs) 0 HrkCertSize);
  cek ← lift (gslice (ci_HSKCEK certs) HrkCertSize HskCekSize);
  _ ← put_st (Some zero_chain);
  _ ← parse_chain hrk hsk cek pekCert;
  _ ← check_usages;
  k ← lift (gslice_from hrk OffsetRootPubKey);
  hrkPub ← lift (parseHygonPubKey k) <?> "parse HRK public key: %w";
  k ← lift (gslice_from hsk OffsetRootPubKey);
  hskPub ← lift (parseHygonPubKey k) <?> "parse HSK public key: %w";
  k ← lift (gslice_from cek OffsetCSVPubKey);
  cekPub ← lift (parseHygonPubKey k) <?> "parse CEK public key: %w";
  _ ← check_signature hrkPub hrk OffsetRootSig OffsetRootSig
        (fun v d => set_HRK (root_self v (cc_HRK d)) d) "HRK self-signature verification failed";
  _ ← check_signature hrkPub hsk OffsetRootSig OffsetRootSig
        (fun v d => set_HSK (root_by_hrk v (cc_HSK d)) d) "HRK verification of HSK signature failed";
  _ ← check_signature hskPub cek OffsetCSVSig1Usage OffsetCSVSig1
        (fun v d => set_CEK (csv_by_hsk v (cc_CEK d)) d) "HSK verification of CEK signature failed";
  check_signature cekPub pekCert OffsetCSVSig1Usage OffsetCSVSig1
    (fun v d => set_PEK (csv_by_cek v (cc_PEK d)) d) "CEK verification of PEK signature failed".

(** ** Entry points *)

Definition set_ChainSource (s : string) (r : VerificationResult) : VerificationResult :=
  Build_VerificationResult (vr_fields r) (vr_ChipIDASCII r) (vr_HSKCEKURL r) (vr_PEKDetails r)
    (vr_ReportVerified r) (vr_ChainVerified r) s (vr_CertDetails r).
Definition set_CertDetails (d : CertChainDetails) (r : VerificationResult) : VerificationResult :=
  Build_VerificationResult (vr_fields r) (vr_ChipIDASCII r) (vr_HSKCEKURL r) (cc_PEK d)
    (vr_ReportVerified r) (vr_ChainVerified r) (vr_ChainSource r) (Some d).
Definition set_ChainVerified (r : VerificationResult) : VerificationResult :=
  Build_VerificationResult (vr_fields r) (vr_ChipIDASCII r) (vr_HSKCEKURL r) (vr_PEKDetails r)
    (vr_ReportVerified r) true (vr_ChainSource r) (vr_CertDetails r).

Definition VerifyReportWithOptions `{SM2} (fs : FS) (data : bytes) (opts : VerifyOptions) : resM unit :=
  _ ← ParseReport data;
  _ ← VerifyReportPEKSignature;
  if negb (vo_VerifyChain opts) then mret tt
  else
    res ← get_res;
    certs ← lift (loadChainFromOptions fs opts (vr_ChipIDASCII res));
    _ ← modify_res (set_ChainSource (ci_Source certs));
    let '(r, details) := VerifyCertChain certs (vr_PEKCert (vr_fields res)) None in
    _ ← match details with Some d => modify_res (set_CertDetails d) | None => mret tt end;
    _ ← lift r;
    modify_res set_ChainVerified.

Definition dir_options (certDir : string) (verifyChain : bool) : VerifyOptions :=
  {| vo_VerifyChain := verifyChain; vo_TrustedHRKCertBytes := []; vo_TrustedHRKCertPath := "";
     vo_HSKCekCertBytes := []; vo_HSKCekCertPath := ""; vo_CertDir := certDir;
     vo_HRKCertBytes := []; vo_HRKCertPath := "" |}.

Definition VerifyReportData `{SM2} (fs : FS) (data : bytes) (certDir : string) (verifyChain : bool)
  : resM unit := VerifyReportWithOptions fs data (dir_options certDir verifyChain).

Definition VerifyReport `{SM2} (fs : FS) (reportFile : string) (verifyChain : bool) : resM unit :=
  let reportFile := strings_TrimSpace reportFile in
  reject_if bool_decide (reportFile = EmptyString) with ErrNew "report file path cannot be empty";
  data ← lift (os_ReadFile fs reportFile) <?> "read report file: %w";
  VerifyReportData fs data (filepath_Dir reportFile) verifyChain.

(** The method of [Client] with that name: only the error comes back. *)
Definition VerifyAttestationReport `{SM2} (fs : FS) (reportBuf : bytes) (verifyChain : bool) : result unit :=
  (VerifyReportData fs reportBuf "." verifyChain None).1.

(** The package-level function (client.go): a default client's method, which
    reads nothing of the client. *)
Definition pkg_VerifyAttestationReport `{SM2} (fs : FS) (reportBuf : bytes) (verifyChain : bool) : result unit :=
  VerifyAttestationReport fs reportBuf verifyChain.

(** ** Signatures: facts *)

Lemma neqb_false_iff a b : negb (a =? b) = false <-> a = b.
Proof. rewrite negb_false_iff. apply Z.eqb_eq. Qed.

Definition hygon_sig (sig : bytes) : Z * Z :=
  if zlen sig <? OffsetHygonSigS + 32 then (0, 0)
  else (be_uint (ReverseCopy (slice sig OffsetHygonSigR (OffsetHygonSigR + 32))),
        be_uint (ReverseCopy (slice sig OffsetHygonSigS (OffsetHygonSigS + 32)))).

Lemma ParseHygonSignature_eq sig : ParseHygonSignature sig = Ok (hygon_sig sig).
Proof.
  unfold ParseHygonSignature, hygon_sig.
  destruct (Z.ltb_spec (zlen sig) (OffsetHygonSigS + 32)); [done|]. by run_slices.
Qed.

Section sm2.
Context `{SM2}.

(** [sig] is a signature of [msg] under the key and the user id of [pub]. *)
Definition hygon_signed (pub : hygonPubKey) (msg sig : bytes) : bool :=
  sm2_Sm2Verify (hp_Key pub) msg (hp_UserID pub) (hygon_sig sig).1 (hygon_sig sig).2.

Lemma verify_hygon_eq pub msg sig : verify_hygon pub msg sig = Ok (hygon_signed pub msg sig).
Proof. unfold verify_hygon. rewrite ParseHygonSignature_eq. unfold hygon_signed. by destruct (hygon_sig sig). Qed.

(** The key of a certificate, and the report's own signature. *)
Definition csv_key (cert : bytes) : hygonPubKey := hygon_key (drop_z OffsetCSVPubKey cert).
Definition root_key (cert : bytes) : hygonPubKey := hygon_key (drop_z OffsetRootPubKey cert).

Record pek_signed (f : ReportFields) : Prop := {
  ps_cert : CSVCertSize <= zlen (vr_PEKCert f);
  ps_sig : OffsetHygonSigS + 32 <= zlen (vr_Signature f);
  ps_key : hygon_key_ok (drop_z OffsetCSVPubKey (vr_PEKCert f));
  ps_raw : SignedSize <= zlen (vr_rawReport f);
  ps_valid : hygon_signed (csv_key (vr_PEKCert f)) (take_z SignedSize (vr_rawReport f))
               (vr_Signature f) = true
}.

Lemma parse_pub_rdecides data :
  rdecides (parseHygonPubKey data) (hygon_key_ok data) (hygon_key data).
Proof. exact (parseHygonPubKey_cases data). Qed.

Lemma VerifyReportPEKSignature_decides res :
  decides VerifyReportPEKSignature (Some res) (pek_signed (vr_fields res)) tt
    (Some (set_ReportVerified res)).
Proof.
  set (f := vr_fields res).
  assert (decides VerifyReportPEKSignature (Some res)
    (CSVCertSize <= zlen (vr_PEKCert f) /\ OffsetHygonSigS + 32 <= zlen (vr_Signature f) /\
     True /\ hygon_key_ok (drop_z OffsetCSVPubKey (vr_PEKCert f)) /\
     SignedSize <= zlen (vr_rawReport f) /\ True /\ True /\
     hygon_signed (csv_key (vr_PEKCert f)) (take_z SignedSize (vr_rawReport f)) (vr_Signature f) = true
     /\ True) tt (Some (set_ReportVerified res))) as Hd.
  { change (decides (verify_pek f) (Some res)
      (CSVCertSize <= zlen (vr_PEKCert f) /\ OffsetHygonSigS + 32 <= zlen (vr_Signature f) /\
       True /\ hygon_key_ok (drop_z OffsetCSVPubKey (vr_PEKCert f)) /\
       SignedSize <= zlen (vr_rawReport f) /\ True /\ True /\
       hygon_signed (csv_key (vr_PEKCert f)) (take_z SignedSize (vr_rawReport f)) (vr_Signature f) = true
       /\ True) tt (Some (set_ReportVerified res))).
    unfold verify_pek. apply decides_throw_if; [apply Z.ltb_ge|intros H1].
    apply decides_throw_if; [apply Z.ltb_ge|intros H2].
    eapply decides_bind; [apply decides_lift; rewrite gslice_from_ok by in_range; apply rdecides_ok|intros _].
    eapply decides_bind; [apply decides_map_err, decides_lift, parse_pub_rdecides|intros H3].
    apply decides_throw_if; [apply Z.ltb_ge|intros H4].
    eapply decides_bind; [apply decides_lift; rewrite gslice_ok by in_range; apply rdecides_ok|intros _].
    eapply decides_bind; [apply decides_lift; rewrite verify_hygon_eq; apply rdecides_ok|intros _].
    rewrite slice_from_0. apply decides_throw_if; [apply negb_false_iff|intros H5].
    by left. }
  eapply decides_iff; [|exact Hd]. split.
  - by intros (? & ? & _ & ? & ? & _ & _ & ? & _).
  - by intros [? ? ? ? ?].
Qed.

(** The report signature check is total on every result a caller can build,
    of whatever field lengths: it never panics; it succeeds exactly when the PEK
    certificate is whole and holds a usable key, the signature field holds both
    halves, the raw report holds the signed region, and the signature is one of
    its first [SignedSize] bytes under that key; and only then is
    [ReportVerified] set. *)
Theorem VerifyReportPEKSignature_total res :
  no_panic (VerifyReportPEKSignature (Some res)).1 /\
  ((VerifyReportPEKSignature (Some res)).1 = Ok tt <-> pek_signed (vr_fields res)) /\
  (pek_signed (vr_fields res) ->
     (VerifyReportPEKSignature (Some res)).2 = Some (set_ReportVerified res)) /\
  (~ pek_signed (vr_fields res) -> (VerifyReportPEKSignature (Some res)).2 = Some res).
Proof.
  pose proof (VerifyReportPEKSignature_decides res) as Hd.
  split; [by eapply decides_no_panic|]. split; [by eapply decides_fst_Ok|].
  split; [intros Hp; by destruct Hd as [[_ ->]|[? _]]|]. intros Hn.
  enough (forall m s, (VerifyReportPEKSignature (Some res)) = (m, s) ->
    s = Some res \/ m = Ok tt) as Hs.
  { destruct (VerifyReportPEKSignature (Some res)) as [m s] eqn:E. destruct (Hs m s eq_refl) as [->| ->]; [done|].
    destruct Hd as [[? _]|[_ (e & s'' & ?)]]; [done|congruence]. }
  intros m s. unfold VerifyReportPEKSignature, verify_pek. stm. unfold modify_res.
  repeat (case_match; simplify_eq/=; try (intros [= <- <-]; auto)).
Qed.

(** ** The chain: facts *)

Definition root_ok (cert : bytes) : Prop :=
  HrkCertSize <= zlen cert /\ hygon_key_ok (drop_z OffsetRootPubKey cert).
Definition csv_ok (cert : bytes) : Prop :=
  CSVCertSize <= zlen cert /\ hygon_key_ok (drop_z OffsetCSVPubKey cert).

Lemma ParseRootCertDetails_rdecides cert :
  rdecides (ParseRootCertDetails cert) (root_ok cert) (root_details cert).
Proof.
  destruct (ParseRootCertDetails_cases cert) as [(H1 & H2 & E)|[e E]]; [by left|].
  right. split; [|eauto]. intros [H1 H2]. by rewrite ParseRootCertDetails_ok in E.
Qed.

Lemma ParseCSVCertDetails_rdecides cert :
  rdecides (ParseCSVCertDetails cert) (csv_ok cert) (csv_details cert).
Proof.
  destruct (ParseCSVCertDetails_cases cert) as [(H1 & H2 & E)|[e E]]; [by left|].
  right. split; [|eauto]. intros [H1 H2]. by rewrite ParseCSVCertDetails_ok in E.
Qed.

Lemma modify_chain_decides f d : decides (modify_chain f) (Some d) True tt (Some (f d)).
Proof. by left. Qed.

Lemma get_chain_decides d : decides get_chain (Some d) True d (Some d).
Proof. by left. Qed.

Definition parsed_chain (hrk hsk cek pek : bytes) : CertChainDetails :=
  Build_CertChainDetails (root_details hrk) (root_details hsk) (csv_details cek) (csv_details pek).

Lemma parse_chain_decides hrk hsk cek pek :
  decides (parse_chain hrk hsk cek pek) (Some zero_chain)
    (root_ok hrk /\ root_ok hsk /\ csv_ok cek /\ csv_ok pek) tt (Some (parsed_chain hrk hsk cek pek)).
Proof.
  eapply decides_iff; [|unfold parse_chain;
    repeat (eapply decides_bind;
      [apply decides_map_err, decides_lift; first [apply ParseRootCertDetails_rdecides|apply ParseCSVCertDetails_rdecides]
      |intros _; first [eapply decides_bind; [apply modify_chain_decides|intros _]|apply modify_chain_decides]])].
  tauto.
Qed.

Definition usages_ok (d : CertChainDetails) : Prop :=
  rd_KeyUsage (cc_HRK d) = KeyUsageHRK /\ rd_KeyUsage (cc_HSK d) = KeyUsageHSK /\
  cd_PubKeyUsage (cc_CEK d) = KeyUsageCEK /\ cd_Sig1Usage (cc_CEK d) = KeyUsageHSK /\
  cd_Sig2Usage (cc_CEK d) = KeyUsageInvalid /\ cd_PubKeyUsage (cc_PEK d) = KeyUsagePEK.

Lemma check_usages_decides d : decides check_usages (Some d) (usages_ok d) tt (Some d).
Proof.
  eapply decides_iff; [|unfold check_usages; eapply decides_bind; [apply get_chain_decides|];
    intros _; repeat (apply decides_throw_if; [apply neqb_false_iff|intros _]); apply decides_ret].
  unfold usages_ok. tauto.
Qed.

Lemma check_signature_decides pub cert n off rec msg d :
  0 <= n <= zlen cert -> 0 <= off <= zlen cert ->
  decides (check_signature pub cert n off rec msg) (Some d)
    (hygon_signed pub (take_z n cert) (drop_z off cert) = true) tt (Some (rec true d)).
Proof.
  intros Hn Ho. unfold check_signature.
  destruct (hygon_signed pub (take_z n cert) (drop_z off cert)) eqn:E.
  - left. split; [done|]. stm. rewrite gslice_ok, slice_from_0, gslice_from_ok by lia.
    unfold verifyHygonSignature. rewrite verify_hygon_eq, E. done.
  - right. split; [done|]. stm. rewrite gslice_ok, slice_from_0, gslice_from_ok by lia.
    unfold verifyHygonSignature. rewrite verify_hygon_eq, E. by eexists _, _.
Qed.

(** ** The chain: what is accepted *)

Definition certs_hrk (c : CertChainInput) : bytes := take_z HrkCertSize (ci_HRK c).
Definition certs_hsk (c : CertChainInput) : bytes := take_z HrkCertSize (ci_HSKCEK c).
Definition certs_cek (c : CertChainInput) : bytes := slice (ci_HSKCEK c) HrkCertSize HskCekSize.

Record chain_valid (c : CertChainInput) (pek : bytes) : Prop := {
  cv_hrk_len : HrkCertSize <= zlen (ci_HRK c);
  cv_bundle_len : HskCekSize <= zlen (ci_HSKCEK c);
  cv_keys : root_ok (certs_hrk c) /\ root_ok (certs_hsk c) /\ csv_ok (certs_cek c) /\ csv_ok pek;
  cv_usages : usages_ok (parsed_chain (certs_hrk c) (certs_hsk c) (certs_cek c) pek);
  cv_hrk : hygon_signed (root_key (certs_hrk c)) (take_z OffsetRootSig (certs_hrk c))
             (drop_z OffsetRootSig (certs_hrk c)) = true;
  cv_hsk : hygon_signed (root_key (certs_hrk c)) (take_z OffsetRootSig (certs_hsk c))
             (drop_z OffsetRootSig (certs_hsk c)) = true;
  cv_cek : hygon_signed (root_key (certs_hsk c)) (take_z OffsetCSVSig1Usage (certs_cek c))
             (drop_z OffsetCSVSig1 (certs_cek c)) = true;
  cv_pek : hygon_signed (csv_key (certs_cek c)) (take_z OffsetCSVSig1Usage pek)
             (drop_z OffsetCSVSig1 pek) = true
}.

(** The details with the four signatures recorded. *)
Definition verified_chain (c : CertChainInput) (pek : bytes) : CertChainDetails :=
  Build_CertChainDetails (root_self true (root_details (certs_hrk c)))
    (root_by_hrk true (root_details (certs_hsk c)))
    (csv_by_hsk true (csv_details (certs_cek c))) (csv_by_cek true (csv_details pek)).

Lemma parse_pub_ok_decides {S} data (st : S) :
  hygon_key_ok data -> rdecides (parseHygonPubKey data) True (hygon_key data).
Proof. intros Hk. left. split; [done|]. by apply parseHygonPubKey_Ok. Qed.

Lemma VerifyCertChain_decides c pek :
  decides (VerifyCertChain c pek) None (chain_valid c pek) tt (Some (verified_chain c pek)).
Proof.
  eapply decides_iff; [|unfold VerifyCertChain;
    apply decides_throw_if; [apply Z.ltb_ge|intros H1];
    apply decides_throw_if; [apply Z.ltb_ge|intros H2];
    rewrite !gslice_ok by in_range; rewrite !slice_from_0;
    fold (certs_hrk c) (certs_hsk c) (certs_cek c);
    do 3 (eapply decides_bind; [apply decides_lift, rdecides_ok|intros _]);
    eapply decides_bind; [apply decides_put|intros _];
    eapply decides_bind; [apply parse_chain_decides|intros ([L1 K1] & [L2 K2] & [L3 K3] & [L4 K4])];
    eapply decides_bind; [apply check_usages_decides|intros _];
    rewrite !gslice_from_ok by in_range;
    do 3 (eapply decides_bind; [apply decides_lift, rdecides_ok|intros _];
          eapply decides_bind; [by apply decides_map_err, decides_lift, (parse_pub_ok_decides _ tt)|intros _]);
    do 3 (eapply decides_bind; [apply check_signature_decides; in_range|intros _]);
    apply check_signature_decides; in_range].
  split.
  - intros (? & ? & _ & _ & _ & _ & ? & ? & _ & _ & _ & _ & _ & _ & ? & ? & ? & ?). by split.
  - intros [? ? (? & ? & ? & ?) ? ? ? ? ?]. by split_and!.
Qed.

(** C16. The chain check accepts exactly the chains in which the root is the HRK
    given by the caller and signs itself and the HSK, the HSK signs the CEK, the
    CEK signs the report's PEK, every certificate is whole, holds a usable SM2
    key and has the key usage of its place; and it panics on no input. *)
Theorem VerifyCertChain_sound_complete c pek :
  no_panic (VerifyCertChain c pek None).1 /\
  ((VerifyCertChain c pek None).1 = Ok tt <-> chain_valid c pek) /\
  (chain_valid c pek -> (VerifyCertChain c pek None).2 = Some (verified_chain c pek)).
Proof.
  pose proof (VerifyCertChain_decides c pek) as Hd.
  split; [by eapply decides_no_panic|]. split; [by eapply decides_fst_Ok|].
  intros Hv. by destruct Hd as [[_ ->]|[? _]].
Qed.

(** ** The whole verification: what is accepted *)

(** A report accepted with these options: it parses, its PEK signed it, and
    when the chain is asked for, the chain that the options select is valid for
    its PEK. *)
Record report_valid (fs : FS) (data : bytes) (o : VerifyOptions) : Prop := {
  rv_len : ReportSize <= zlen data;
  rv_chip : is_ok (ChipIDASCII (vr_ChipID (report_fields (take_z ReportSize data)))) = true;
  rv_key : is_ok (ParseCSVCertDetails (vr_PEKCert (report_fields (take_z ReportSize data)))) = true;
  rv_pek : pek_signed (report_fields (take_z ReportSize data));
  rv_chain : vo_VerifyChain o = true -> exists c,
    loadChainFromOptions fs o (vr_ChipIDASCII (parsed_state data)) = Ok c /\
    chain_valid c (vr_PEKCert (report_fields (take_z ReportSize data)))
}.

Lemma readFixedFile_no_panic fs p n : 0 <= n -> no_panic (readFixedFile fs p n).
Proof.
  intros Hn. unfold readFixedFile, os_ReadFile. destruct (fs p) as [|d]; [done|]. cbn [mbind result_bind].
  destruct (Z.ltb_spec (zlen d) n); [done|]. by rewrite gslice_ok by lia.
Qed.

Lemma LoadCertChainFromFiles_no_panic fs a b : no_panic (LoadCertChainFromFiles fs a b).
Proof.
  unfold LoadCertChainFromFiles.
  apply bind_no_panic; [by apply map_err_no_panic, readFixedFile_no_panic|intros hrk _].
  apply bind_no_panic; [by apply map_err_no_panic, readFixedFile_no_panic|done].
Qed.

Lemma loadChainFromOptions_no_panic fs o chip : no_panic (loadChainFromOptions fs o chip).
Proof.
  unfold loadChainFromOptions. destruct (_ || _); [by destruct (_ || _)|].
  destruct (_ || _); [destruct (_ || _); [done|apply LoadCertChainFromFiles_no_panic]|].
  destruct (negb _); [|done]. unfold LoadCertChain, LoadLocalCertChain.
  apply map_err_no_panic, LoadCertChainFromFiles_no_panic.
Qed.

Lemma no_panic_rdecides {A} (r : result A) : no_panic r ->
  (exists a, r = Ok a) \/ (exists e, r = Err e).
Proof. destruct r; [left|right|done]; eauto. Qed.

(** The result of a successful run, by what was asked for. *)
Definition verified_result (fs : FS) (data : bytes) (o : VerifyOptions) : VerificationResult :=
  let r := set_ReportVerified (parsed_state data) in
  if vo_VerifyChain o then
    match loadChainFromOptions fs o (vr_ChipIDASCII (parsed_state data)) with
    | Ok c => set_ChainVerified (set_CertDetails
                (verified_chain c (vr_PEKCert (report_fields (take_z ReportSize data))))
                (set_ChainSource (ci_Source c) r))
    | _ => r
    end
  else r.

Lemma ParseReport_decides data s :
  let f := report_fields (take_z ReportSize data) in
  decides (ParseReport data) s
    (ReportSize <= zlen data /\ is_ok (ChipIDASCII (vr_ChipID f)) = true /\
     is_ok (ParseCSVCertDetails (vr_PEKCert f)) = true) tt (Some (parsed_state data)).
Proof.
  intros f. destruct (Z.ltb_spec (zlen data) ReportSize) as [Hl|Hl].
  - right. split; [by lia|]. rewrite ParseReport_short by done. eauto.
  - destruct (ParseReport_long data s Hl) as (r & E & Hp & Hr). fold f in Hr.
    destruct (no_panic_rdecides r Hp) as [[[] ->]|[e ->]].
    + left. split; [split; [done|by apply Hr]|done].
    + right. split; [|eauto]. intros [_ H1]. by apply Hr in H1.
Qed.

Lemma get_res_bind {A} (k : VerificationResult -> resM A) r :
  (x ← get_res; k x) (Some r) = k r (Some r).
Proof. done. Qed.

Lemma VerifyReportWithOptions_decides fs data o :
  decides (VerifyReportWithOptions fs data o) None (report_valid fs data o) tt
    (Some (verified_result fs data o)).
Proof.
  set (f := report_fields (take_z ReportSize data)).
  destruct (parsed_state_fields data) as (Hf & _ & _). fold f in Hf.
  pose proof (ParseReport_decides data None) as Hparse. fold f in Hparse.
  pose proof (VerifyReportPEKSignature_decides (parsed_state data)) as Hpek. rewrite Hf in Hpek.
  unfold VerifyReportWithOptions.
  eapply decides_iff; [|eapply decides_bind; [exact Hparse|intros _];
    eapply decides_bind; [exact Hpek|intros _];
    instantiate (1 := vo_VerifyChain o = true -> exists c,
      loadChainFromOptions fs o (vr_ChipIDASCII (parsed_state data)) = Ok c /\
      chain_valid c (vr_PEKCert f))].
  { split; [intros ((? & ? & ?) & ? & ?); by split|intros [? ? ? ? ?]; split_and!; done]. }
  unfold verified_result. destruct (vo_VerifyChain o) eqn:Ev; cbn [negb].
  2: { left. split; [done|reflexivity]. }
  unfold decides. rewrite get_res_bind.
  set (chip := vr_ChipIDASCII (parsed_state data)).
  change (vr_ChipIDASCII (set_ReportVerified (parsed_state data))) with chip.
  change (vr_fields (set_ReportVerified (parsed_state data))) with (vr_fields (parsed_state data)).
  rewrite Hf.
  destruct (no_panic_rdecides _ (loadChainFromOptions_no_panic fs o chip)) as [[c Ec]|[e Ec]].
  2: { right. split; [intros Hc; destruct (Hc eq_refl) as (c & Hc' & _); congruence|].
       stm. rewrite Ec. by eexists _, _. }
  rewrite Ec. unfold mbind, stM_bind, lift. cbn [modify_res].
  destruct (VerifyCertChain_decides c (vr_PEKCert f)) as [[Hv E]|[Hv (e & s & E)]]; rewrite E.
  - left. split; [intros _; by exists c|]. done.
  - right. split; [intros Hc; destruct (Hc eq_refl) as (c' & Hc' & Hv'); simplify_eq; done|].
    destruct s; cbn [modify_res]; by eexists _, _.
Qed.

(** C15. A report is accepted with a chain exactly when it parses, its first
    [SignedSize] bytes carry a signature of the key in its own PEK certificate,
    and the certificates that the options select form a valid chain from the
    caller's HRK to that PEK; there is no input on which the verifier panics;
    and the returned result claims [ReportVerified] and [ChainVerified] only
    then. *)
Theorem VerifyReportWithOptions_sound_complete fs data o :
  no_panic (VerifyReportWithOptions fs data o None).1 /\
  ((VerifyReportWithOptions fs data o None).1 = Ok tt <-> report_valid fs data o) /\
  (report_valid fs data o -> exists r, (VerifyReportWithOptions fs data o None).2 = Some r /\
     vr_fields r = report_fields (take_z ReportSize data) /\ vr_ReportVerified r = true /\
     vr_ChainVerified r = vo_VerifyChain o).
Proof.
  pose proof (VerifyReportWithOptions_decides fs data o) as Hd.
  split; [by eapply decides_no_panic|]. split; [by eapply decides_fst_Ok|].
  intros Hv. destruct Hd as [[_ ->]|[? _]]; [|done]. eexists. split; [done|].
  destruct (parsed_state_fields data) as (Hf & _ & Hc). unfold verified_result.
  destruct (vo_VerifyChain o) eqn:Ev; [|done].
  destruct Hv as [_ _ _ _ (c & Ec & _)]; [done|]. rewrite Ec. done.
Qed.
End sm2.
