(* ===== verification/CsvMock.v ===== *)
(** * The mock attestation authority (pkg/csvattest/mock.go)

    The test authority that owns a whole HRK, HSK, CEK, PEK chain and signs
    reports with it.  It is the program's only producer of certificates and
    signed reports, so it is what shows that the verifier accepts something:
    every report it makes is valid under its own root. *)

From S2P Require Import Prelude Gcm Gmsm Toy GoLib CsvReport CsvVerify.

(** ** Operations

    Entropy is the state of the computations; a buffer and an offset stand for
    the slice [buf[off:]] that the code passes to be written to. *)

Definition padLeft32 (l : bytes) : result bytes := gcopy_at (zeros 32) (32 - zlen l) 32 l.

(** [binary.LittleEndian.PutUint32(buf[off:], v)] and [PutUint16] *)
Definition PutUint32 (buf : bytes) (off v : Z) : result bytes := gcopy_at buf off (off + 4) (le_bytes 4 v).
Definition PutUint16 (buf : bytes) (off v : Z) : result bytes := gcopy_at buf off (off + 2) (le_bytes 2 v).

Definition putMockHygonPubKey (buf : bytes) (dst : Z) (pub : PublicKey) (userID : bytes) : result bytes :=
  buf ← PutUint32 buf dst CurveIDSM2;
  x ← padLeft32 (big_Bytes (pub_X pub));
  buf ← gcopy_at buf (dst + OffsetECCPubKeyQX) (dst + OffsetECCPubKeyQX + 32) (ReverseCopy x);
  y ← padLeft32 (big_Bytes (pub_Y pub));
  buf ← gcopy_at buf (dst + OffsetECCPubKeyQY) (dst + OffsetECCPubKeyQY + 32) (ReverseCopy y);
  buf ← PutUint16 buf (dst + OffsetECCPubKeyUserID) (zlen userID mod 2 ^ 16);
  gcopy_at buf (dst + OffsetECCPubKeyUserID + 2) (zlen buf) userID.

Section mock.
Context `{SM2}.

Definition signMockHygonData (key : PrivateKey) (msg buf : bytes) (sig : Z) (userID : bytes)
  : stM bytes bytes :=
  '(r, s) ← (sm2_Sm2Sign key msg userID : stM bytes (Z * Z));
  rb ← lift (padLeft32 (big_Bytes r));
  buf ← lift (gcopy_at buf (sig + OffsetHygonSigR) (sig + OffsetHygonSigR + 32) (ReverseCopy rb));
  sb ← lift (padLeft32 (big_Bytes s));
  lift (gcopy_at buf (sig + OffsetHygonSigS) (sig + OffsetHygonSigS + 32) (ReverseCopy sb)).

Record MockAttestationAuthority := {
  ma_hrkKey : PrivateKey;
  ma_hskKey : PrivateKey;
  ma_cekKey : PrivateKey;
  ma_pekKey : PrivateKey;
  ma_userID : bytes;
  ma_hrkCert : bytes;
  ma_hskCekCert : bytes;
  ma_pekCert : bytes
}.

(** A root certificate (HRK or HSK), signed by [signer]. *)
Definition mock_root_cert (usage : Z) (pub : PublicKey) (signer : PrivateKey) (userID : bytes)
    (fmt : string) : stM bytes bytes :=
  cert ← lift (PutUint32 (zeros HrkCertSize) OffsetRootKeyUsage usage);
  cert ← lift (putMockHygonPubKey cert OffsetRootPubKey pub userID);
  msg ← lift (gslice cert 0 OffsetRootSig);
  signMockHygonData signer msg cert OffsetRootSig userID <?> fmt.

(** A CSV certificate (CEK or PEK), signed by [signer]. *)
Definition mock_csv_cert (usage sig1Usage : Z) (pub : PublicKey) (signer : PrivateKey) (userID : bytes)
    (fmt : string) : stM bytes bytes :=
  cert ← lift (PutUint32 (zeros CSVCertSize) OffsetCSVPubKeyUsage usage);
  cert ← lift (PutUint32 cert OffsetCSVSig1Usage sig1Usage);
  cert ← lift (PutUint32 cert OffsetCSVSig2Usage KeyUsageInvalid);
  cert ← lift (putMockHygonPubKey cert OffsetCSVPubKey pub userID);
  msg ← lift (gslice cert 0 OffsetCSVSig1Usage);
  signMockHygonData signer msg cert OffsetCSVSig1 userID <?> fmt.

(** [generateCertificates] on an authority whose keys are set. *)
Definition generateCertificates (hrk hsk cek pek : PrivateKey) (uid : bytes)
  : stM bytes MockAttestationAuthority :=
  hrkCert ← mock_root_cert KeyUsageHRK (priv_Pub hrk) hrk uid "sign hrk cert: %w";
  hskCert ← mock_root_cert KeyUsageHSK (priv_Pub hsk) hrk uid "sign hsk cert: %w";
  cekCert ← mock_csv_cert KeyUsageCEK KeyUsageHSK (priv_Pub cek) hsk uid "sign cek cert: %w";
  pekCert ← mock_csv_cert KeyUsagePEK KeyUsageCEK (priv_Pub pek) cek uid "sign pek cert: %w";
  mret (Build_MockAttestationAuthority hrk hsk cek pek uid hrkCert (hskCert ++ cekCert) pekCert).

Definition mock_userID : bytes := of_string "test-sm2-user".

Definition NewMockAttestationAuthority : stM bytes MockAttestationAuthority :=
  hrk ← (sm2_GenerateKey : stM bytes PrivateKey) <?> "generate hrk key: %w";
  hsk ← (sm2_GenerateKey : stM bytes PrivateKey) <?> "generate hsk key: %w";
  cek ← (sm2_GenerateKey : stM bytes PrivateKey) <?> "generate cek key: %w";
  pek ← (sm2_GenerateKey : stM bytes PrivateKey) <?> "generate pek key: %w";
  generateCertificates hrk hsk cek pek mock_userID.

Definition mock_HRKCert (a : MockAttestationAuthority) : bytes := ma_hrkCert a.
Definition mock_HSKCekCert (a : MockAttestationAuthority) : bytes := ma_hskCekCert a.

(** The measurement a report carries: what the hex string decodes to, or a
    filler when it is not 32 bytes of hex. *)
Definition mock_measurement (measurementHex : string) : bytes :=
  match hex_DecodeString measurementHex with
  | Ok m => if zlen m =? HashSize then m else replicate (Z.to_nat HashSize) x5a
  | _ => replicate (Z.to_nat HashSize) x5a
  end.

Definition mock_chipID : bytes := of_string "TESTCHIP0001" ++ zeros (ChipIDSize - 12).

Definition Generate (a : MockAttestationAuthority) (userData : bytes) (measurementHex : string)
  : stM bytes (bytes * bytes * bytes) :=
  let anonce := 0 in
  report ← lift (PutUint32 (zeros ReportSize) OffsetANonce anonce);
  let userBytes := gcopy (zeros UserDataSize) userData in
  report ← lift (gcopy_at report OffsetUserData (OffsetUserData + UserDataSize)
                   (UnmaskWords userBytes anonce));
  report ← lift (gcopy_at report OffsetMNonce (OffsetMNonce + NonceSize)
                   (UnmaskWords (of_string "0123456789abcdef") anonce));
  report ← lift (gcopy_at report OffsetMeasure (OffsetMeasure + HashSize)
                   (UnmaskWords (mock_measurement measurementHex) anonce));
  report ← lift (gcopy_at report OffsetPEKCert (OffsetPEKCert + CSVCertSize)
                   (UnmaskWords (ma_pekCert a) anonce));
  report ← lift (gcopy_at report OffsetChipID (OffsetChipID + ChipIDSize)
                   (UnmaskWords mock_chipID anonce));
  msg ← lift (gslice report 0 SignedSize);
  report ← signMockHygonData (ma_pekKey a) msg report OffsetReportSig1 (ma_userID a)
             <?> "sign report: %w";
  mret (report, ma_hrkCert a, ma_hskCekCert a).

Definition GenerateMockAttestationData (userData : bytes) (measurementHex : string)
  : stM bytes (bytes * bytes * bytes) :=
  a ← NewMockAttestationAuthority;
  Generate a userData measurementHex.
End mock.

(** ** Writing fields *)

(** [l'] is [l] with [src] written over [l[a:b]], nothing else touched. *)
Record wrote (l : bytes) (a b : Z) (src l' : bytes) : Prop := {
  wrote_len : zlen l' = zlen l;
  wrote_same : slice l' a b = src;
  wrote_frame c d : 0 <= c -> d <= a \/ b <= c -> slice l' c d = slice l c d
}.

Lemma gcopy_at_wrote l a b src l' :
  gcopy_at l a b src = Ok l' -> zlen src = b - a -> wrote l a b src l'.
Proof.
  unfold gcopy_at. intros Hl Hs. destruct (_ && _) eqn:E; [|done]. zbool. inv_ok.
  split; [by apply zlen_copy_at|by apply slice_copy_same|].
  intros c d Hc [Hd|Hd]; [by apply slice_copy_before|by apply slice_copy_after].
Qed.

(** A copy to the end of the buffer of a source that fits. *)
Lemma gcopy_at_wrote_part l a src l' :
  gcopy_at l a (zlen l) src = Ok l' -> a + zlen src <= zlen l -> wrote l a (a + zlen src) src l'.
Proof.
  unfold gcopy_at. intros Hl Hs. destruct (_ && _) eqn:E; [|done]. zbool. inv_ok.
  pose proof (zlen_nonneg src).
  assert (copy_at l a (zlen l) src = copy_at l a (a + zlen src) src) as ->.
  { unfold copy_at. rewrite (drop_z_all (zlen l)) by done. rewrite app_nil_r. f_equal.
    unfold gcopy. rewrite !take_ge by (unfold slice, take_z, drop_z, zlen in *; rewrite ?length_take, ?length_drop; lia).
    rewrite <-app_assoc. f_equal. rewrite (drop_ge (slice l a (a + zlen src)))
      by (unfold slice, take_z, drop_z, zlen in *; rewrite ?length_take, ?length_drop; lia).
    unfold slice. rewrite take_z_all by zlia. cbn [app]. unfold drop_z, zlen.
    rewrite drop_drop. f_equal. lia. }
  split; [apply zlen_copy_at; lia|apply slice_copy_same; lia|].
  intros c d Hc [Hd|Hd]; [by apply slice_copy_before; lia|by apply slice_copy_after; lia].
Qed.

(** Read a field through the writes of the context. *)
Ltac field :=
  repeat match goal with
  | Hw : wrote ?l ?a ?b ?src ?l' |- context [slice ?l' ?c ?d] =>
      first [ rewrite (wrote_same _ _ _ _ _ Hw)
            | rewrite (wrote_frame _ _ _ _ _ Hw c d) by (csv_consts; lia) ]
  end.

Lemma padLeft32_coord z : coord z -> padLeft32 (big_Bytes z) = Ok (be_bytes 32 z).
Proof.
  intros Hz. pose proof (coord_bytes z Hz) as Hb. pose proof (zlen_nonneg (big_Bytes z)).
  unfold padLeft32. rewrite gcopy_at_ok by (rewrite ?zlen_zeros; lia). f_equal.
  rewrite copy_at_full by (rewrite ?zlen_zeros; lia).
  rewrite (drop_z_all 32) by zlia. rewrite app_nil_r.
  rewrite <-slice_from_0, slice_zeros, Z.sub_0_r by lia. by apply pad_be_bytes.
Qed.

(** ** Keys and signatures in a buffer *)

(** The fields that [parseHygonPubKey] reads at [o]. *)
Record key_at (l : bytes) (o : Z) (pub : PublicKey) (uid : bytes) : Prop := {
  ka_curve : slice l o (o + 4) = le_bytes 4 CurveIDSM2;
  ka_x : slice l (o + OffsetECCPubKeyQX) (o + OffsetECCPubKeyQX + 32) = le_bytes 32 (pub_X pub);
  ka_y : slice l (o + OffsetECCPubKeyQY) (o + OffsetECCPubKeyQY + 32) = le_bytes 32 (pub_Y pub);
  ka_len : slice l (o + OffsetECCPubKeyUserID) (o + OffsetECCPubKeyUserID + 2)
             = le_bytes 2 (zlen uid);
  ka_uid : slice l (o + OffsetECCPubKeyUserID + 2) (o + OffsetECCPubKeyUserID + 2 + zlen uid) = uid
}.

Definition uid_fits (uid : bytes) : Prop := zlen uid <= 254.

Lemma be_uint_reverse_le n z : be_uint (ReverseCopy (le_bytes n z)) = z mod 256 ^ Z.of_nat n.
Proof. unfold be_uint, ReverseCopy. rewrite reverse_involutive. apply le_uint_le_bytes. Qed.

Lemma key_at_parsed l o pub uid :
  0 <= o -> o + OffsetECCPubKeyUserID + 256 <= zlen l -> uid_fits uid ->
  coord (pub_X pub) -> coord (pub_Y pub) -> key_at l o pub uid ->
  hygon_key_ok (drop_z o l) /\ hp_Key (hygon_key (drop_z o l)) = pub /\
  hp_UserID (hygon_key (drop_z o l)) = uid.
Proof.
  unfold uid_fits. intros Ho Hl Hu Hx Hy [H1 H2 H3 H4 H5]. pose proof (zlen_nonneg uid).
  assert (hygon_uid_len (drop_z o l) = zlen uid) as Hlen.
  { unfold hygon_uid_len. rewrite <-slice_from_0, !slice_drop_z by in_range.
    rewrite !Z.add_0_r, Z.add_assoc, H4, le_uint_le_bytes. apply Z.mod_small. lia. }
  split; [split|].
  - in_range.
  - rewrite <-slice_from_0, slice_drop_z, Z.add_0_r, H1 by lia. by rewrite le_uint_le_bytes.
  - rewrite Hlen. in_range.
  - unfold hygon_key. cbn [hp_Key hp_UserID]. rewrite Hlen, !slice_drop_z by in_range.
    rewrite !Z.add_assoc, H2, H3, H5, !be_uint_reverse_le. split; [|done].
    rewrite !Z.mod_small by (exact Hx || exact Hy). by destruct pub.
Qed.

Lemma ReverseCopy_be_bytes n z : ReverseCopy (be_bytes n z) = le_bytes n z.
Proof. apply reverse_involutive. Qed.

(** [bind] of writes: invert every one of them. *)
Ltac inv_writes := repeat match goal with
  | H : gcopy_at ?l ?a ?b ?src = Ok ?l' |- _ =>
      let Hw := fresh "Hw" in
      first [ assert (wrote l a b src l') as Hw
                by (apply gcopy_at_wrote; [exact H|csv_consts; zlia])
            | assert (wrote l a (a + zlen src) src l') as Hw
                by (apply gcopy_at_wrote_part; [exact H|csv_consts; zlia]) ];
      clear H
  end.

Lemma wrote_keeps_len l a b src l' n : wrote l a b src l' -> zlen l = n -> zlen l' = n.
Proof. intros [Hl _ _] <-. exact Hl. Qed.

Lemma putMockHygonPubKey_key_at l o pub uid l' :
  0 <= o -> o + OffsetECCPubKeyUserID + 256 <= zlen l -> uid_fits uid ->
  coord (pub_X pub) -> coord (pub_Y pub) -> putMockHygonPubKey l o pub uid = Ok l' ->
  zlen l' = zlen l /\ key_at l' o pub uid /\
  forall c d, 0 <= c -> d <= o \/ o + OffsetECCPubKeyUserID + 256 <= c -> slice l' c d = slice l c d.
Proof.
  unfold uid_fits. intros Ho Hl Hu Hx Hy H. unfold putMockHygonPubKey, PutUint32, PutUint16 in H.
  pose proof (zlen_nonneg uid).
  rewrite (padLeft32_coord (pub_X pub)), (padLeft32_coord (pub_Y pub)) in H by done.
  apply bind_Ok in H as (l1 & H1 & H). cbn [mbind result_bind] in H.
  apply bind_Ok in H as (l2 & H2 & H). apply bind_Ok in H as (l3 & H3 & H).
  apply bind_Ok in H as (l4 & H4 & H5). rewrite !ReverseCopy_be_bytes, ?Z.mod_small in * by lia.
  apply gcopy_at_wrote in H1; [|zlia]. apply gcopy_at_wrote in H2; [|zlia].
  apply gcopy_at_wrote in H3; [|zlia]. apply gcopy_at_wrote in H4; [|zlia].
  pose proof (wrote_len _ _ _ _ _ H1). pose proof (wrote_len _ _ _ _ _ H2).
  pose proof (wrote_len _ _ _ _ _ H3). pose proof (wrote_len _ _ _ _ _ H4).
  apply gcopy_at_wrote_part in H5; [|revert Hl; csv_consts; lia].
  pose proof (wrote_len _ _ _ _ _ H5).
  split; [congruence|]. split; [split; by field|]. intros c d Hc Hcd. by field.
Qed.

Section sign.
Context `{SM2Laws}.

Lemma signMockHygonData_Ok key msg l o uid rnd l' rnd' :
  sm2_key key -> 0 <= o ->
  signMockHygonData key msg l o uid rnd = (Ok l', rnd') ->
  zlen l' = zlen l /\ (o + 104 <= zlen l ->
    sm2_Sm2Verify (priv_Pub key) msg uid (hygon_sig (drop_z o l')).1 (hygon_sig (drop_z o l')).2 = true) /\
  forall c d, 0 <= c -> d <= o \/ o + 104 <= c -> slice l' c d = slice l c d.
Proof.
  intros Hk Ho Hs. unfold signMockHygonData in Hs.
  apply stM_bind_Ok in Hs as ([r s] & rnd1 & Hsign & Hs).
  apply sm2_Sm2Sign_verify in Hsign as (Hr & Hs' & Hv); [|done].
  rewrite (padLeft32_coord r), (padLeft32_coord s) in Hs by done.
  unfold mbind, stM_bind, lift in Hs. rewrite !ReverseCopy_be_bytes in Hs.
  destruct (gcopy_at l _ _ _) as [l1| |] eqn:E1; [|done..].
  destruct (gcopy_at l1 _ _ _) as [l2| |] eqn:E2; [|done..]. injection Hs as -> ->.
  apply gcopy_at_wrote in E1; [|zlia]. apply gcopy_at_wrote in E2; [|zlia].
  pose proof (wrote_len _ _ _ _ _ E1). pose proof (wrote_len _ _ _ _ _ E2).
  split; [congruence|]. split; [|intros c d Hc Hcd; by field]. intros Hl.
  unfold hygon_sig. rewrite (proj2 (Z.ltb_ge _ _)) by in_range. cbn [fst snd].
  rewrite !slice_drop_z by (csv_consts; lia). rewrite !Z.add_assoc.
  field. rewrite !be_uint_reverse_le, !Z.mod_small by done. done.
Qed.
End sign.

(** ** Certificates *)

Section certs.
Context `{SM2Laws}.

(** The certificate is signed by [signer] with user id [uid]. *)
Definition signed_at (cert : bytes) (n o : Z) (signer : PublicKey) (uid : bytes) : Prop :=
  sm2_Sm2Verify signer (take_z n cert) uid
    (hygon_sig (drop_z o cert)).1 (hygon_sig (drop_z o cert)).2 = true.

Record root_cert (cert : bytes) (usage : Z) (pub signer : PublicKey) (uid : bytes) : Prop := {
  rc_len : zlen cert = HrkCertSize;
  rc_usage : slice cert OffsetRootKeyUsage (OffsetRootKeyUsage + 4) = le_bytes 4 usage;
  rc_key : key_at cert OffsetRootPubKey pub uid;
  rc_sig : signed_at cert OffsetRootSig OffsetRootSig signer uid
}.

Record csv_cert (cert : bytes) (usage sig1 : Z) (pub signer : PublicKey) (uid : bytes) : Prop := {
  vc_len : zlen cert = CSVCertSize;
  vc_usage : slice cert OffsetCSVPubKeyUsage (OffsetCSVPubKeyUsage + 4) = le_bytes 4 usage;
  vc_sig1 : slice cert OffsetCSVSig1Usage (OffsetCSVSig1Usage + 4) = le_bytes 4 sig1;
  vc_sig2 : slice cert OffsetCSVSig2Usage (OffsetCSVSig2Usage + 4) = le_bytes 4 KeyUsageInvalid;
  vc_key : key_at cert OffsetCSVPubKey pub uid;
  vc_sig : signed_at cert OffsetCSVSig1Usage OffsetCSVSig1 signer uid
}.

(** Fields outside the region that a later step writes are kept. *)
Lemma key_at_frame l l' o n pub uid :
  (forall c d, 0 <= c -> d <= n -> slice l' c d = slice l c d) ->
  0 <= o -> o + OffsetECCPubKeyUserID + 256 <= n -> uid_fits uid ->
  key_at l o pub uid -> key_at l' o pub uid.
Proof.
  unfold uid_fits. intros Hf Ho Hn Hu [H1 H2 H3 H4 H5]. pose proof (zlen_nonneg uid).
  split; rewrite Hf by (csv_consts; lia); done.
Qed.

Lemma key_coords k : sm2_key k -> coord (pub_X (priv_Pub k)) /\ coord (pub_Y (priv_Pub k)).
Proof. apply sm2_key_coords. Qed.

Lemma mock_root_cert_Ok usage k signer uid fmt rnd cert rnd' :
  sm2_key k -> sm2_key signer -> uid_fits uid ->
  mock_root_cert usage (priv_Pub k) signer uid fmt rnd = (Ok cert, rnd') ->
  root_cert cert usage (priv_Pub k) (priv_Pub signer) uid.
Proof.
  intros Hk Hsg Hu Hr. destruct (key_coords k Hk) as [Hx Hy]. unfold mock_root_cert, PutUint32 in Hr.
  inv_stm. apply gcopy_at_wrote in Hv; [|csv_consts; zlia].
  pose proof (wrote_len _ _ _ _ _ Hv) as L1. rewrite zlen_zeros in L1.
  apply putMockHygonPubKey_key_at in Hv0 as (L2 & K & F2);
    [|by csv_consts|csv_consts; lia|done..].
  apply signMockHygonData_Ok in Hr as (L3 & V & F3); [|done|by csv_consts].
  unfold gslice in Hv1. destruct (_ && _); [|done]. simplify_eq/=.
  assert (forall c d, 0 <= c -> d <= OffsetRootSig -> slice cert c d = slice v0 c d) as F3'
    by (intros; apply F3; lia).
  split.
  - rewrite L3, L2, L1. done.
  - rewrite F3', F2 by (csv_consts; lia). by apply wrote_same in Hv.
  - eapply key_at_frame; [exact F3'|csv_consts; lia..|done|done].
  - unfold signed_at. rewrite <-(slice_from_0 cert), F3' by (csv_consts; lia).
    apply V. rewrite L2, L1. csv_consts. lia.
Qed.

Lemma mock_csv_cert_Ok usage sig1 k signer uid fmt rnd cert rnd' :
  sm2_key k -> sm2_key signer -> uid_fits uid ->
  mock_csv_cert usage sig1 (priv_Pub k) signer uid fmt rnd = (Ok cert, rnd') ->
  csv_cert cert usage sig1 (priv_Pub k) (priv_Pub signer) uid.
Proof.
  intros Hk Hsg Hu Hr. destruct (key_coords k Hk) as [Hx Hy]. unfold mock_csv_cert, PutUint32 in Hr.
  inv_stm. apply gcopy_at_wrote in Hv; [|csv_consts; zlia].
  apply gcopy_at_wrote in Hv0; [|csv_consts; zlia]. apply gcopy_at_wrote in Hv1; [|csv_consts; zlia].
  pose proof (wrote_len _ _ _ _ _ Hv) as L1. rewrite zlen_zeros in L1.
  pose proof (wrote_len _ _ _ _ _ Hv0) as L1'. pose proof (wrote_len _ _ _ _ _ Hv1) as L1''.
  apply putMockHygonPubKey_key_at in Hv2 as (L2 & K & F2);
    [|by csv_consts|csv_consts; lia|done..].
  apply signMockHygonData_Ok in Hr as (L3 & V & F3); [|done|by csv_consts].
  unfold gslice in Hv3. destruct (_ && _); [|done]. simplify_eq/=.
  assert (forall c d, 0 <= c -> d <= OffsetCSVSig1Usage -> slice cert c d = slice v2 c d) as F3'
    by (intros; apply F3; [lia|]; csv_consts; lia).
  split.
  - rewrite L3, L2, L1'', L1', L1. done.
  - rewrite F3', F2 by (csv_consts; lia). by field.
  - rewrite F3, F2 by (csv_consts; lia). by field.
  - rewrite F3, F2 by (csv_consts; lia). by field.
  - eapply key_at_frame; [exact F3'|csv_consts; lia..|done|done].
  - unfold signed_at. rewrite <-(slice_from_0 cert), F3' by (csv_consts; lia).
    apply V. rewrite L2, L1'', L1', L1. csv_consts. lia.
Qed.

(** What the verifier sees in such certificates. *)
Lemma le_uint_field l o n v :
  0 <= o -> slice l o (o + 4) = le_bytes 4 v -> 0 <= v < 2 ^ 32 -> n = 4 ->
  le_uint (take_z n (drop_z o l)) = v.
Proof.
  intros Ho Hs Hv ->. rewrite <-slice_from_0, slice_drop_z, Z.add_0_r, Hs by lia.
  rewrite le_uint_le_bytes. by apply Z.mod_small.
Qed.

Lemma root_cert_seen cert usage k signer uid :
  sm2_key k -> uid_fits uid -> root_cert cert usage (priv_Pub k) signer uid ->
  0 <= usage < 2 ^ 32 ->
  root_ok cert /\ rd_KeyUsage (root_details cert) = usage /\
  hp_Key (root_key cert) = priv_Pub k /\ hp_UserID (root_key cert) = uid.
Proof.
  intros Hk Hu [L U K _] Hus. destruct (key_coords k Hk) as [Hx Hy].
  apply key_at_parsed in K as (Hok & E1 & E2); [|csv_consts; lia..|done|done|done].
  split; [split; [lia|done]|]. split; [|done]. by apply le_uint_field.
Qed.

Lemma csv_cert_seen cert usage sig1 k signer uid :
  sm2_key k -> uid_fits uid -> csv_cert cert usage sig1 (priv_Pub k) signer uid ->
  0 <= usage < 2 ^ 32 -> 0 <= sig1 < 2 ^ 32 ->
  csv_ok cert /\ cd_PubKeyUsage (csv_details cert) = usage /\ cd_Sig1Usage (csv_details cert) = sig1 /\
  cd_Sig2Usage (csv_details cert) = KeyUsageInvalid /\
  hp_Key (csv_key cert) = priv_Pub k /\ hp_UserID (csv_key cert) = uid.
Proof.
  intros Hk Hu [L U S1 S2 K _] Hus Hs1. destruct (key_coords k Hk) as [Hx Hy].
  apply key_at_parsed in K as (Hok & E1 & E2); [|csv_consts; lia..|done|done|done].
  split; [split; [lia|done]|]. split_and!; [by apply le_uint_field..|done|done].
Qed.

Lemma signed_at_hygon cert n o signer pub uid :
  signed_at cert n o (priv_Pub signer) uid -> hp_Key pub = priv_Pub signer -> hp_UserID pub = uid ->
  hygon_signed pub (take_z n cert) (drop_z o cert) = true.
Proof. unfold signed_at, hygon_signed. by intros Hs -> ->. Qed.

(** The invariant of an authority: its keys are keys, its certificates the
    chain of those keys. *)
Record authority_ok (a : MockAttestationAuthority) : Prop := {
  ao_keys : sm2_key (ma_hrkKey a) /\ sm2_key (ma_hskKey a) /\ sm2_key (ma_cekKey a) /\ sm2_key (ma_pekKey a);
  ao_uid : uid_fits (ma_userID a);
  ao_hrk : root_cert (ma_hrkCert a) KeyUsageHRK (priv_Pub (ma_hrkKey a)) (priv_Pub (ma_hrkKey a)) (ma_userID a);
  ao_bundle : exists hsk cek, ma_hskCekCert a = hsk ++ cek /\
    root_cert hsk KeyUsageHSK (priv_Pub (ma_hskKey a)) (priv_Pub (ma_hrkKey a)) (ma_userID a) /\
    csv_cert cek KeyUsageCEK KeyUsageHSK (priv_Pub (ma_cekKey a)) (priv_Pub (ma_hskKey a)) (ma_userID a);
  ao_pek : csv_cert (ma_pekCert a) KeyUsagePEK KeyUsageCEK (priv_Pub (ma_pekKey a))
             (priv_Pub (ma_cekKey a)) (ma_userID a)
}.

Lemma NewMockAttestationAuthority_ok rnd a rnd' :
  NewMockAttestationAuthority rnd = (Ok a, rnd') -> authority_ok a.
Proof.
  intros Hn. unfold NewMockAttestationAuthority, generateCertificates in Hn.
  assert (uid_fits mock_userID) as Hu by (unfold uid_fits; by vm_compute).
  repeat (apply stM_bind_Ok in Hn as (?v & ? & ?Hv & Hn)). injection Hn as <- _.
  rewrite stM_map_err_Ok in Hv, Hv0, Hv1, Hv2.
  apply sm2_generate_key in Hv, Hv0, Hv1, Hv2.
  apply mock_root_cert_Ok in Hv3; [|done..]. apply mock_root_cert_Ok in Hv4; [|done..].
  apply mock_csv_cert_Ok in Hv5; [|done..]. apply mock_csv_cert_Ok in Hv6; [|done..].
  split; cbn; [done..| |done]. by eexists _, _.
Qed.

Lemma authority_chain_valid a pek :
  authority_ok a -> pek = ma_pekCert a ->
  chain_valid (Build_CertChainInput (ma_hrkCert a) (ma_hskCekCert a)
                 "in-memory trusted HRK and HSK/CEK bytes") pek.
Proof.
  intros [(K1 & K2 & K3 & K4) Hu Hrk (hsk & cek & Hb & Hsk & Hck) Hpk] ->.
  set (c := Build_CertChainInput _ _ _).
  assert (certs_hrk c = ma_hrkCert a) as E1
    by (unfold certs_hrk; cbn; apply take_z_all; rewrite (rc_len _ _ _ _ _ Hrk); lia).
  assert (certs_hsk c = hsk) as E2
    by (unfold certs_hsk; cbn; rewrite Hb; apply take_z_app, (rc_len _ _ _ _ _ Hsk)).
  assert (certs_cek c = cek) as E3.
  { unfold certs_cek. cbn. rewrite Hb, <-(app_nil_r cek) at 1. apply slice_app.
    - apply (rc_len _ _ _ _ _ Hsk).
    - rewrite (vc_len _ _ _ _ _ _ Hck). done. }
  destruct (root_cert_seen _ _ _ _ _ K1 Hu Hrk ltac:(done)) as (A1 & A2 & A3 & A4).
  destruct (root_cert_seen _ _ _ _ _ K2 Hu Hsk ltac:(done)) as (B1 & B2 & B3 & B4).
  destruct (csv_cert_seen _ _ _ _ _ _ K3 Hu Hck ltac:(done) ltac:(done)) as (C1 & C2 & C3 & C4 & C5 & C6).
  destruct (csv_cert_seen _ _ _ _ _ _ K4 Hu Hpk ltac:(done) ltac:(done)) as (D1 & D2 & D3 & D4 & D5 & D6).
  split; rewrite ?E1, ?E2, ?E3.
  - cbn. rewrite (rc_len _ _ _ _ _ Hrk). done.
  - cbn. rewrite Hb, zlen_app, (rc_len _ _ _ _ _ Hsk), (vc_len _ _ _ _ _ _ Hck). done.
  - done.
  - by split_and!.
  - eapply signed_at_hygon; [apply Hrk|done..].
  - eapply signed_at_hygon; [apply Hsk|done..].
  - eapply signed_at_hygon; [apply Hck|done..].
  - eapply signed_at_hygon; [apply Hpk|done..].
Qed.
End certs.

(** ** Reports *)

Lemma le_uint_slice_field l o v :
  slice l o (o + 4) = le_bytes 4 v -> 0 <= v < 2 ^ 32 -> le_uint (take_z 4 (slice l o (o + 4))) = v.
Proof.
  intros Hs Hv. rewrite Hs, take_z_all by (rewrite zlen_le_bytes; lia).
  rewrite le_uint_le_bytes. by apply Z.mod_small.
Qed.

Section reports.
Context `{SM2Laws}.

Lemma zlen_mock_measurement m : zlen (mock_measurement m) = HashSize.
Proof.
  unfold mock_measurement. destruct (hex_DecodeString m) as [d| |]; [|done..].
  by destruct (Z.eqb_spec (zlen d) HashSize).
Qed.

(** The fields of a report that [Generate] makes. *)
Record report_made (a : MockAttestationAuthority) (userData : bytes) (m : string) (r : bytes) : Prop := {
  rm_len : zlen r = ReportSize;
  rm_anonce : report_anonce r = 0;
  rm_user : unmasked r OffsetUserData UserDataSize = gcopy (zeros UserDataSize) userData;
  rm_digest : unmasked r OffsetMeasure HashSize = mock_measurement m;
  rm_pek : unmasked r OffsetPEKCert CSVCertSize = ma_pekCert a;
  rm_chip : unmasked r OffsetChipID ChipIDSize = mock_chipID;
  rm_sig : signed_at r SignedSize OffsetReportSig1 (priv_Pub (ma_pekKey a)) (ma_userID a)
}.

Lemma Generate_Ok a userData m rnd r hrk bundle rnd' :
  authority_ok a -> Generate a userData m rnd = (Ok (r, hrk, bundle), rnd') ->
  report_made a userData m r /\ hrk = ma_hrkCert a /\ bundle = ma_hskCekCert a.
Proof.
  intros [(_ & _ & _ & K4) Hu _ _ Hpk] Hg. unfold Generate, PutUint32 in Hg.
  pose proof (zlen_mock_measurement m) as Hm.
  assert (zlen mock_chipID = ChipIDSize) as Hc by (by vm_compute).
  pose proof (vc_len _ _ _ _ _ _ Hpk) as Hp.
  inv_stm. rewrite !UnmaskWords_0 in *.
  apply gcopy_at_wrote in Hv; [|csv_consts; zlia].
  apply gcopy_at_wrote in Hv0; [|csv_consts; zlia].
  apply gcopy_at_wrote in Hv1; [|by vm_compute].
  apply gcopy_at_wrote in Hv2; [|csv_consts; lia].
  apply gcopy_at_wrote in Hv3; [|csv_consts; lia].
  apply gcopy_at_wrote in Hv4; [|csv_consts; lia].
  pose proof (wrote_len _ _ _ _ _ Hv) as L1. rewrite zlen_zeros in L1.
  pose proof (wrote_len _ _ _ _ _ Hv0) as L2. pose proof (wrote_len _ _ _ _ _ Hv1) as L3.
  pose proof (wrote_len _ _ _ _ _ Hv2) as L4. pose proof (wrote_len _ _ _ _ _ Hv3) as L5.
  pose proof (wrote_len _ _ _ _ _ Hv4) as L6.
  apply signMockHygonData_Ok in Hv6 as (L7 & V & F); [|done|by csv_consts].
  unfold gslice in Hv5. destruct (_ && _); [|done]. simplify_eq/=.
  assert (report_anonce r = 0) as Han.
  { unfold report_anonce. apply le_uint_slice_field; [|done].
    rewrite F by (csv_consts; lia). by field. }
  split; [|done]. split; [|done|..].
  - rewrite L7, L6, L5, L4, L3, L2, L1. done.
  - unfold unmasked. rewrite Han, UnmaskWords_0, F by (csv_consts; lia). by field.
  - unfold unmasked. rewrite Han, UnmaskWords_0, F by (csv_consts; lia). by field.
  - unfold unmasked. rewrite Han, UnmaskWords_0, F by (csv_consts; lia). by field.
  - unfold unmasked. rewrite Han, UnmaskWords_0, F by (csv_consts; lia). by field.
  - unfold signed_at. rewrite <-(slice_from_0 r), F by (csv_consts; lia).
    apply V. rewrite L6, L5, L4, L3, L2, L1. csv_consts. lia.
Qed.

(** The options under which an authority's own root is the anchor. *)
Definition anchored (hrk bundle : bytes) : VerifyOptions :=
  {| vo_VerifyChain := true; vo_TrustedHRKCertBytes := hrk; vo_TrustedHRKCertPath := "";
     vo_HSKCekCertBytes := bundle; vo_HSKCekCertPath := ""; vo_CertDir := "";
     vo_HRKCertBytes := []; vo_HRKCertPath := "" |}.

Lemma hygon_sig_take l n o :
  0 <= o -> o + 104 <= n -> zlen l = n -> forall m, 104 <= m -> o + m <= n ->
  hygon_sig (slice l o (o + m)) = hygon_sig (drop_z o l).
Proof.
  intros Ho Hn Hl m Hm Hm'. unfold hygon_sig.
  rewrite !(proj2 (Z.ltb_ge _ _)) by in_range.
  assert (forall a b, 0 <= a -> b <= m -> slice (slice l o (o + m)) a b = slice (drop_z o l) a b) as E.
  { intros a b Ha Hb. unfold slice at 2. replace (o + m - o) with m by lia. by rewrite slice_take_z by lia. }
  rewrite !E by (csv_consts; lia). done.
Qed.

Lemma report_made_valid fs a userData m r opts :
  authority_ok a -> report_made a userData m r ->
  (vo_VerifyChain opts = true -> exists c,
     loadChainFromOptions fs opts "TESTCHIP0001" = Ok c /\ ci_HRK c = ma_hrkCert a /\
     ci_HSKCEK c = ma_hskCekCert a /\
     ci_Source c = "in-memory trusted HRK and HSK/CEK bytes"%string) ->
  report_valid fs r opts.
Proof.
  intros Ha [L An U D P C S] Hopts. pose proof Ha as [(_ & _ & _ & K4) Hu _ _ Hpk].
  pose proof (csv_cert_seen _ _ _ _ _ _ K4 Hu Hpk ltac:(done) ltac:(done)) as (V & _ & _ & _ & E1 & E2).
  assert (take_z ReportSize r = r) as Et by (apply take_z_all; lia).
  assert (vr_PEKCert (report_fields r) = ma_pekCert a) as Ep by exact P.
  assert (ChipIDASCII (vr_ChipID (report_fields r)) = Ok "TESTCHIP0001"%string) as Ec.
  { change (vr_ChipID (report_fields r)) with (unmasked r OffsetChipID ChipIDSize).
    rewrite C. by vm_compute. }
  assert (vr_ChipIDASCII (parsed_state r) = "TESTCHIP0001"%string) as Echip.
  { unfold parsed_state. rewrite Et, Ec. by destruct (ParseCSVCertDetails _). }
  destruct V as [V1 V2]. split; rewrite ?Et.
  - lia.
  - by rewrite Ec.
  - by rewrite Ep, ParseCSVCertDetails_ok.
  - split; rewrite ?Ep; [lia| |done| |].
    + change (vr_Signature (report_fields r)) with (slice r OffsetReportSig1 (OffsetReportSig1 + 144)).
      csv_consts. zlia.
    + change (vr_rawReport (report_fields r)) with r. csv_consts. lia.
    + unfold hygon_signed. rewrite E1, E2.
      change (vr_rawReport (report_fields r)) with r.
      change (vr_Signature (report_fields r)) with (slice r OffsetReportSig1 (OffsetReportSig1 + 144)).
      rewrite (hygon_sig_take r ReportSize) by (csv_consts; lia). exact S.
  - intros Hv. rewrite Echip, Ep. destruct (Hopts Hv) as ([h b s] & Hl & E3 & E4 & E5). cbn in *. subst.
    eexists. split; [exact Hl|]. by apply authority_chain_valid.
Qed.

(** An authority's reports verify under its own root. *)
Lemma report_made_anchored fs a userData m r :
  authority_ok a -> report_made a userData m r ->
  report_valid fs r (anchored (ma_hrkCert a) (ma_hskCekCert a)).
Proof.
  intros Hn Hr. eapply report_made_valid; [done|exact Hr|]. intros _.
  unfold loadChainFromOptions, anchored. cbn [vo_TrustedHRKCertBytes vo_HSKCekCertBytes].
  destruct Hn as [_ _ Hrk (hsk & cek & Hb & Hsk & Hck) _].
  pose proof (rc_len _ _ _ _ _ Hrk) as L1. pose proof (rc_len _ _ _ _ _ Hsk) as L2.
  rewrite L1, Hb, zlen_app, L2. pose proof (zlen_nonneg cek).
  change (HrkCertSize =? 0) with false. cbn iota. rewrite L1.
  rewrite (proj2 (Z.eqb_neq (HrkCertSize + zlen cek) 0)) by (csv_consts; lia). cbn.
  eexists. by split_and!.
Qed.

(** The verifier accepts what the authority makes: a report that
    [Generate] signs for any user data and measurement is accepted, PEK
    signature and whole chain, when the authority's own root and bundle are the
    anchor, and the verified result carries that user data (zero-padded to 64
    bytes) and that measurement. *)
Theorem mock_report_accepted fs rnd a rnd1 userData m r hrk bundle rnd2 :
  NewMockAttestationAuthority rnd = (Ok a, rnd1) ->
  Generate a userData m rnd1 = (Ok (r, hrk, bundle), rnd2) ->
  report_valid fs r (anchored hrk bundle) /\
  exists res, VerifyReportWithOptions fs r (anchored hrk bundle) None = (Ok tt, Some res) /\
    vr_ReportVerified res = true /\ vr_ChainVerified res = true /\
    vr_UserData (vr_fields res) = gcopy (zeros UserDataSize) userData /\
    vr_Digest (vr_fields res) = mock_measurement m.
Proof.
  intros Hn Hg. apply NewMockAttestationAuthority_ok in Hn.
  apply Generate_Ok in Hg as (Hr & -> & ->); [|done].
  pose proof (report_made_anchored fs a userData m r Hn Hr) as Hv.
  split; [done|]. destruct (VerifyReportWithOptions_decides fs r (anchored (ma_hrkCert a) (ma_hskCekCert a)))
    as [[_ E]|[? _]]; [|done].
  rewrite E. eexists. split; [done|].
  destruct (parsed_state_fields r) as (Hf & _ & _). destruct Hr as [L _ U D _ _ _].
  unfold verified_result. cbn [vo_VerifyChain anchored].
  destruct Hv as [_ _ _ _ (c & -> & _)]; [done|]. cbn. rewrite Hf, take_z_all by lia. done.
Qed.
End reports.

Definition toy_no_authority : MockAttestationAuthority :=
  Build_MockAttestationAuthority (toy_key 0) (toy_key 0) (toy_key 0) (toy_key 0) [] [] [] [].
(** A run of the authority on an all-zero entropy stream. *)
Definition toy_new : result MockAttestationAuthority * bytes :=
  @NewMockAttestationAuthority toy_sm2 (zeros 128).
Definition toy_authority : MockAttestationAuthority := get_ok toy_no_authority toy_new.1.
Definition toy_generate (userData : bytes) : result (bytes * bytes * bytes) * bytes :=
  @Generate toy_sm2 toy_authority userData "ab" toy_new.2.
Definition toy_generated (userData : bytes) : bytes * bytes * bytes :=
  get_ok ([], [], []) (toy_generate userData).1.

Lemma mock_report_accepted_witness :
  let '(r, hrk, bundle) := toy_generated [x01] in
  @report_valid toy_sm2 (fs_of ∅) r (anchored hrk bundle).
Proof.
  destruct (toy_generated [x01]) as [[r hrk] bundle] eqn:E.
  apply (@mock_report_accepted toy_sm2 toy_sm2_laws (fs_of ∅) (zeros 128) toy_authority toy_new.2
    [x01] "ab" r hrk bundle (toy_generate [x01]).2).
  - apply (run_ok (@NewMockAttestationAuthority toy_sm2) (zeros 128) toy_no_authority).
    vm_compute. reflexivity.
  - rewrite <-E. apply (run_ok (@Generate toy_sm2 toy_authority [x01] "ab") toy_new.2 ([], [], [])).
    vm_compute. reflexivity.
Defined.
