(* ===== verification/CsvClient.v ===== *)
(** * The attestation client (pkg/csvattest: client.go, platform.go,
    ioctl_linux.go, ioctl_unsupported.go, vmmcall_unsupported.go)

    The operating system is the interface [platformOps] over a state [W]; what
    the client needs of it is the class [PlatformLaws].  The page that the
    driver fills is the value that [ioctl] returns. *)

From S2P Require Import Prelude Gcm Gmsm Toy GoLib NetIO CsvReport.

(** ** platform.go *)

Record platformOps (W : Type) := {
  po_mmap : Z -> stM W bytes;
  po_munmap : bytes -> W -> W;              (* the code drops its error *)
  po_openDevice : string -> stM W Z;        (* a file descriptor *)
  po_close : Z -> W -> W;                   (* the code drops its error *)
  po_ioctl : Z -> Z -> bytes -> stM W bytes (* descriptor, request, page: the page after *)
}.
Arguments po_mmap {W} _ _ _.
Arguments po_munmap {W} _ _ _.
Arguments po_openDevice {W} _ _ _.
Arguments po_close {W} _ _ _.
Arguments po_ioctl {W} _ _ _ _ _.

(** The resources a platform holds for the process. *)
Class PlatformLaws {W} (ops : platformOps W) := {
  mapped : W -> Z;      (* pages mapped and not unmapped *)
  opened : W -> Z;      (* devices open *)
  mmap_law n w : match po_mmap ops n w with
    | (Ok page, w') => zlen page = Z.max 0 n /\ mapped w' = mapped w + 1 /\ opened w' = opened w
    | (Err _, w') => mapped w' = mapped w /\ opened w' = opened w
    | (Panic, _) => False
    end;
  munmap_law p w : mapped (po_munmap ops p w) = mapped w - 1 /\ opened (po_munmap ops p w) = opened w;
  open_law path w : match po_openDevice ops path w with
    | (Ok _, w') => mapped w' = mapped w /\ opened w' = opened w + 1
    | (Err _, w') => mapped w' = mapped w /\ opened w' = opened w
    | (Panic, _) => False
    end;
  close_law fd w : mapped (po_close ops fd w) = mapped w /\ opened (po_close ops fd w) = opened w - 1;
  ioctl_law fd req page w : match po_ioctl ops fd req page w with
    | (Ok page', w') => zlen page' = zlen page /\ mapped w' = mapped w /\ opened w' = opened w
    | (Err _, w') => mapped w' = mapped w /\ opened w' = opened w
    | (Panic, _) => False
    end
}.

(** ** client.go *)

(** An [io.Reader]: the bytes it still has and the error after them. *)
Definition Reader : Type := bytes * error.

Record Client (W : Type) := {
  cl_DevicePath : string;
  cl_UserData : bytes;
  cl_Rand : option Reader;
  cl_ops : option (platformOps W)
}.
Arguments cl_DevicePath {W} _.
Arguments cl_UserData {W} _.
Arguments cl_Rand {W} _.
Arguments cl_ops {W} _.
Arguments Build_Client {W} _ _ _ _.

Definition getAttestationReportNR : Z := 1.
Definition csvGuestMemSize : Z := 16.
Definition csvGuestIOCType : Z := 68.   (* 'D' *)
Definition getAttestationReportIOCT : Z :=
  Z.lor (Z.lor (Z.shiftl 3 30) (Z.shiftl csvGuestMemSize 16))
        (Z.lor (Z.shiftl csvGuestIOCType 8) getAttestationReportNR).

Definition validateReportBuffer (reportBuf : bytes) : result unit :=
  reject_if zlen reportBuf <? ReportSize
    with errf2 "%w: report buffer has %d bytes, need %d" ErrShortBuffer (zlen reportBuf) ReportSize;
  Ok tt.

(** [defer f()]: the cleanup runs whatever the outcome, a panic included. *)
Definition with_defer {S A} (cleanup : S -> S) (m : stM S A) : stM S A := fun s =>
  let '(r, s') := m s in (r, cleanup s').

Section client.
Context {W : Type}.

(** [Option] is a function on the client; a nil option is [None]. *)
Definition Option_ : Type := Client W -> Client W.

Definition WithDevicePath (path : string) : Option_ := fun c =>
  Build_Client (strings_TrimSpace path) (cl_UserData c) (cl_Rand c) (cl_ops c).
Definition WithUserData (userData : bytes) : Option_ := fun c =>
  Build_Client (cl_DevicePath c) userData (cl_Rand c) (cl_ops c).
Definition WithRand (r : option Reader) : Option_ := fun c =>
  Build_Client (cl_DevicePath c) (cl_UserData c) r (cl_ops c).

(** The process's [rand.Reader], [defaultPlatformOps] and the value of the
    environment variable ATTESTATION_USERDATA. *)
Context (rand_Reader : Reader) (defaultPlatformOps : platformOps W) (env_userdata : string).

Definition NewClient (opts : list (option Option_)) : Client W :=
  let c := Build_Client defaultCSVGuestDevice [] (Some rand_Reader) (Some defaultPlatformOps) in
  let c := foldl (fun c o => match o with Some f => f c | None => c end) c opts in
  Build_Client
    (if bool_decide (cl_DevicePath c = EmptyString) then defaultCSVGuestDevice else cl_DevicePath c)
    (cl_UserData c)
    (match cl_Rand c with None => Some rand_Reader | r => r end)
    (match cl_ops c with None => Some defaultPlatformOps | o => o end).

Definition userData (c : Client W) : result bytes :=
  if 0 <? zlen (cl_UserData c) then
    reject_if negb (zlen (cl_UserData c) =? UserDataSize)
      with errf2 "%w: got %d bytes, need %d" ErrInvalidUserData (zlen (cl_UserData c)) UserDataSize;
    Ok (cl_UserData c)
  else
    let value := strings_TrimSpace env_userdata in
    if negb (bool_decide (value = EmptyString)) then
      reject_if negb (slen value =? UserDataSize * 2)
        with errf2 "%w: ATTESTATION_USERDATA has %d hex chars, need %d" ErrInvalidUserData
               (slen value) (UserDataSize * 2);
      map_err (fun e => Errorf "%w: decode ATTESTATION_USERDATA: %v" [FWrap ErrInvalidUserData; FErr e])
        (hex_DecodeString value)
    else Ok (gcopy (zeros UserDataSize) (of_string defaultUserDataText)).

(** A method call on a nil interface panics. *)
Definition client_ops (c : Client W) : result (platformOps W) :=
  match cl_ops c with Some o => Ok o | None => Panic end.
Definition client_rand (c : Client W) : result Reader :=
  match cl_Rand c with Some r => Ok r | None => Panic end.

(** ** ioctl_linux.go *)

Definition fetchReportIOCTL `{SM3} (c : Client W) (nonce : bytes) : stM W bytes :=
  _ ← lift (validateNonce nonce);
  userData ← lift (userData c);
  ops ← lift (client_ops c);
  page ← po_mmap ops PageSize <?> "allocate attestation page: %w";
  with_defer (po_munmap ops page) (
    page ← lift (gcopy_at page 0 UserDataSize userData);
    page ← lift (gcopy_at page UserDataSize (UserDataSize + NonceSize) nonce);
    let hashInputEnd := UserDataSize + NonceSize in
    hashInput ← lift (gslice page 0 hashInputEnd);
    let hash := sm3_Sm3Sum hashInput in
    page ← lift (gcopy_at page hashInputEnd (hashInputEnd + HashSize) hash);
    dev ← map_err (fun e => Errorf "open %s: %w" [FStr (cl_DevicePath c); FWrap e])
            (po_openDevice ops (cl_DevicePath c));
    with_defer (po_close ops dev) (
      page ← po_ioctl ops dev getAttestationReportIOCT page <?> "ioctl get attestation report: %w";
      head ← lift (gslice page 0 ReportSize);
      let report := gcopy (zeros ReportSize) head in
      _ ← lift (VerifySessionMAC report nonce);
      _ ← lift (VerifyMNonce report nonce);
      mret report)).

(** A nil receiver is [None]. *)
Definition receiver (c : option (Client W)) : Client W :=
  match c with Some c => c | None => NewClient [] end.

(** The caller's report buffer is the first part of the state. *)
Definition GetAttestationReportIOCTL `{SM3} (c : option (Client W)) (nonce : bytes)
  : stM (bytes * W) unit := fun '(reportBuf, w) =>
  let c := receiver c in
  (_ ← lift (validateReportBuffer reportBuf);
   report ← on_snd (fetchReportIOCTL c nonce);
   let '(r, report) := zeroReserved2 report in
   _ ← lift r;
   on_fst (put_st (gcopy reportBuf report))) (reportBuf, w).

(** The caller's key buffer is the first part of the state, the system second.
    The reader is read once, so its position afterwards is not kept. *)
Definition GetSealingKeyIOCTL `{SM3} (c : option (Client W)) : stM (bytes * W) unit :=
  fun '(keyBuf, w) =>
  let c := receiver c in
  (reject_if zlen keyBuf <? SealingKeySize
     with errf2 "%w: sealing key buffer has %d bytes, need %d" ErrShortBuffer (zlen keyBuf) SealingKeySize;
   '(src, e) ← lift (client_rand c);
   nonce ← lift (read_full_from NonceSize src e).1 <?> "generate nonce: %w";
   report ← on_snd (fetchReportIOCTL c nonce);
   key ← lift (ExtractSealingKey report);
   on_fst (put_st (gcopy keyBuf key))) (keyBuf, w).
End client.

(** ** vmmcall_unsupported.go *)

Definition unsupported (msg : string) : error := Errorf msg [FWrap ErrUnsupported].

Definition GetAttestationReportVMMCall (reportBuf : bytes) : result unit :=
  _ ← validateReportBuffer reportBuf;
  Err (unsupported "%w: vmmcall requires pagemap access and Go assembly or cgo").

Definition GetSealingKeyVMMCall (keyBuf : bytes) : result unit :=
  reject_if zlen keyBuf <? SealingKeySize
    with errf2 "%w: sealing key buffer has %d bytes, need %d" ErrShortBuffer (zlen keyBuf) SealingKeySize;
  Err (unsupported "%w: vmmcall requires pagemap access and Go assembly or cgo").

(** ** The package-level functions (client.go): a default client's methods *)

Section package_level.
Context {W : Type} (rand_Reader : Reader) (defaultPlatformOps : platformOps W) (env_userdata : string).

Definition pkg_GetAttestationReportIOCTL `{SM3} (nonce : bytes) : stM (bytes * W) unit :=
  GetAttestationReportIOCTL rand_Reader defaultPlatformOps env_userdata
    (Some (NewClient rand_Reader defaultPlatformOps [])) nonce.
Definition pkg_GetSealingKeyIOCTL `{SM3} : stM (bytes * W) unit :=
  GetSealingKeyIOCTL rand_Reader defaultPlatformOps env_userdata
    (Some (NewClient rand_Reader defaultPlatformOps [])).
End package_level.

(** These methods read nothing of the client. *)
Definition pkg_GetAttestationReportVMMCall (reportBuf : bytes) : result unit :=
  GetAttestationReportVMMCall reportBuf.
Definition pkg_GetSealingKeyVMMCall (keyBuf : bytes) : result unit := GetSealingKeyVMMCall keyBuf.

(** ** ioctl_unsupported.go *)

Module Unsupported.
Definition GetAttestationReportIOCTL_stub (reportBuf nonce : bytes) : result unit :=
  _ ← validateReportBuffer reportBuf;
  _ ← validateNonce nonce;
  Err (unsupported "%w: ioctl attestation requires linux").

Definition GetSealingKeyIOCTL_stub (keyBuf : bytes) : result unit :=
  reject_if zlen keyBuf <? SealingKeySize
    with errf2 "%w: sealing key buffer has %d bytes, need %d" ErrShortBuffer (zlen keyBuf) SealingKeySize;
  Err (unsupported "%w: ioctl attestation requires linux").

(** Every platform operation fails closed. *)
Definition defaultPlatformOps_stub (W : Type) : platformOps W := {|
  po_mmap := fun _ => throw (unsupported "%w: attestation requires linux");
  po_munmap := fun _ w => w;
  po_openDevice := fun _ => throw (unsupported "%w: attestation requires linux");
  po_close := fun _ w => w;
  po_ioctl := fun _ _ _ => throw (unsupported "%w: attestation requires linux")
|}.
End Unsupported.

(** ** Resources *)

Section resources.
Context `{Hlaws : PlatformLaws W ops} `{SM3}.

(** [m] never panics and leaves the process's pages and devices as they were. *)
Definition keeps {A} (m : stM W A) : Prop := forall w,
  no_panic (m w).1 /\ mapped (m w).2 = mapped w /\ opened (m w).2 = opened w.

Lemma keeps_lift {A} (r : result A) : no_panic r -> keeps (lift r).
Proof. intros Hr w. done. Qed.

Lemma keeps_bind {A B} (m : stM W A) (k : A -> stM W B) :
  keeps m -> (forall w a w', m w = (Ok a, w') -> keeps (k a)) -> keeps (x ← m; k x).
Proof.
  intros Hm Hk w. unfold mbind, stM_bind. destruct (Hm w) as (Hp & H1 & H2).
  destruct (m w) as [[a|e|] w'] eqn:E; cbn in *; [|done|done].
  destruct (Hk _ _ _ E w') as (Hp' & H1' & H2'). split; [done|]. lia.
Qed.

(** A bind on a value that is known. *)
Lemma keeps_bind_lift {A B} (r : result A) (k : A -> stM W B) :
  no_panic r -> (forall a, r = Ok a -> keeps (k a)) -> keeps (x ← lift r; k x).
Proof.
  intros Hr Hk w. unfold mbind, stM_bind, lift. destruct r as [a|e|]; [by apply Hk|done|done].
Qed.

Lemma keeps_mmap {A} n s (k : bytes -> stM W A) :
  0 <= n -> (forall page, zlen page = n -> keeps (k page)) ->
  keeps (page ← po_mmap ops n <?> s; with_defer (po_munmap ops page) (k page)).
Proof.
  intros Hn Hk w. unfold mbind, stM_bind, map_err, stM_map_err, with_defer.
  pose proof (mmap_law n w) as Hm. destruct (po_mmap ops n w) as [[page|e|] w1]; [|done|done].
  rewrite Z.max_r in Hm by done. destruct Hm as (Hl & H1 & H2). destruct (Hk page Hl w1) as (Hp & H3 & H4).
  destruct (k page w1) as [r w2]. cbn in *.
  destruct (munmap_law page w2) as [H5 H6]. split; [done|]. lia.
Qed.

Lemma keeps_open {A} path f (k : Z -> stM W A) :
  (forall dev, keeps (k dev)) ->
  keeps (dev ← map_err f (po_openDevice ops path); with_defer (po_close ops dev) (k dev)).
Proof.
  intros Hk w. unfold mbind, stM_bind, map_err, stM_map_err, with_defer.
  pose proof (open_law path w) as Hm. destruct (po_openDevice ops path w) as [[dev|e|] w1]; [|done|done].
  destruct Hm as (H1 & H2). destruct (Hk dev w1) as (Hp & H3 & H4).
  destruct (k dev w1) as [r w2]. cbn in *.
  destruct (close_law dev w2) as [H5 H6]. split; [done|]. lia.
Qed.

Lemma keeps_ioctl {A} fd req page s (k : bytes -> stM W A) :
  (forall page', zlen page' = zlen page -> keeps (k page')) ->
  keeps (page ← po_ioctl ops fd req page <?> s; k page).
Proof.
  intros Hk. unfold mbind, stM_bind, map_err, stM_map_err. intros w.
  pose proof (ioctl_law fd req page w) as Hm.
  destruct (po_ioctl ops fd req page w) as [[page'|e|] w1]; [|done|done].
  destruct Hm as (Hl & H1 & H2). destruct (Hk page' Hl w1) as (Hp & H3 & H4). split; [done|]. lia.
Qed.

Context (rand_Reader : Reader) (defaultOps : platformOps W) (env : string).

(** ** User data *)

Lemma userData_no_panic (c : Client W) : no_panic (userData env c).
Proof.
  unfold userData. destruct (0 <? _); [by destruct (negb _)|].
  destruct (negb _); [|done]. destruct (negb _); [done|].
  apply map_err_no_panic, hex_decode_no_panic.
Qed.

(** Whatever its source, it is 64 bytes. *)
Lemma userData_len (c : Client W) ud : userData env c = Ok ud -> zlen ud = UserDataSize.
Proof.
  unfold userData. destruct (0 <? _).
  - intros Hu. inv_ok. zbool. done.
  - destruct (negb _); intros Hu; inv_ok; zbool; [|by vm_compute].
    unfold hex_DecodeString, slen in *. apply hex_decode_Ok_len in Hu. unfold UserDataSize in *. lia.
Qed.

Lemma validateNonce_Ok nonce : validateNonce nonce = Ok tt <-> zlen nonce = NonceSize.
Proof.
  unfold validateNonce. destruct (Z.eqb_spec (zlen nonce) NonceSize); cbn; split; done.
Qed.

(** ** The fetch *)

(** The request page: user data, nonce and their digest. *)
Definition request_page (ud nonce page : bytes) : bytes :=
  let p := copy_at (copy_at page 0 UserDataSize ud) UserDataSize (UserDataSize + NonceSize) nonce in
  copy_at p (UserDataSize + NonceSize) (UserDataSize + NonceSize + HashSize)
    (sm3_Sm3Sum (slice p 0 (UserDataSize + NonceSize))).

Lemma session_no_panic report nonce :
  no_panic (VerifySessionMAC report nonce) /\ no_panic (VerifyMNonce report nonce).
Proof.
  unfold VerifySessionMAC, VerifyMNonce, validateReportBytes, validateNonce.
  destruct (Z.ltb_spec (zlen report) ReportSize); [done|].
  destruct (negb (zlen nonce =? NonceSize)); [done|]. cbn [mbind result_bind].
  run_slices. split; by case_match.
Qed.

Lemma fetch_keeps (c : Client W) nonce :
  cl_ops c = Some ops -> keeps (fetchReportIOCTL env c nonce).
Proof.
  intros Hc. unfold fetchReportIOCTL.
  apply keeps_bind_lift; [by unfold validateNonce; destruct (negb _)|intros [] Hn%validateNonce_Ok].
  apply keeps_bind_lift; [apply userData_no_panic|intros ud Hud%userData_len].
  unfold client_ops. rewrite Hc. apply keeps_bind_lift; [done|intros ? [= <-]].
  apply keeps_mmap; [done|]. intros page Hp.
  apply keeps_bind_lift; rewrite gcopy_at_ok by in_range; [done|intros p1 [= <-]].
  assert (zlen (copy_at page 0 UserDataSize ud) = PageSize) as L1
    by (rewrite zlen_copy_at by in_range; done).
  apply keeps_bind_lift; rewrite gcopy_at_ok by in_range; [done|intros p2 [= <-]].
  set (p2 := copy_at _ _ _ nonce).
  assert (zlen p2 = PageSize) as L2 by (unfold p2; rewrite zlen_copy_at by in_range; done).
  apply keeps_bind_lift; rewrite gslice_ok by in_range; [done|intros h [= <-]].
  apply keeps_bind_lift; rewrite gcopy_at_ok by in_range; [done|intros p3 [= <-]].
  set (p3 := copy_at p2 _ _ _).
  assert (zlen p3 = PageSize) as L3 by (unfold p3; rewrite zlen_copy_at by in_range; done).
  apply keeps_open. intros dev. apply keeps_ioctl. intros page' Hp'.
  apply keeps_bind_lift; rewrite gslice_ok by in_range; [done|intros head _].
  apply keeps_bind_lift; [apply session_no_panic|intros [] _].
  apply keeps_bind_lift; [apply session_no_panic|intros [] _].
  by intros w.
Qed.

Lemma with_defer_Ok {S A} (f : S -> S) (m : stM S A) s a s' :
  with_defer f m s = (Ok a, s') <-> exists s1, m s = (Ok a, s1) /\ s' = f s1.
Proof.
  unfold with_defer. destruct (m s) as [r s1]. split.
  - intros [= -> <-]. eauto.
  - by intros (s2 & [= -> ->] & ->).
Qed.

(** What a fetched report is: 2548 bytes that the driver wrote to a page that
    carried the request, and that pass the session checks. *)
Record fetched (c : Client W) (nonce report : bytes) : Prop := {
  ft_len : zlen report = ReportSize;
  ft_nonce : zlen nonce = NonceSize;
  ft_mac : slice report OffsetMAC (OffsetMAC + HashSize)
             = hmac_sm3 nonce (slice report OffsetPEKCert OffsetMAC);
  ft_mnonce : unmasked report OffsetMNonce NonceSize = nonce;
  ft_driver : exists ud page fd w1 page' w2, userData env c = Ok ud /\
    po_ioctl ops fd getAttestationReportIOCT (request_page ud nonce page) w1 = (Ok page', w2) /\
    report = take_z ReportSize page'
}.

Lemma VerifySessionMAC_Ok report nonce :
  ReportSize <= zlen report -> VerifySessionMAC report nonce = Ok tt ->
  slice report OffsetMAC (OffsetMAC + HashSize) = hmac_sm3 nonce (slice report OffsetPEKCert OffsetMAC).
Proof.
  intros Hl. unfold VerifySessionMAC, validateReportBytes, validateNonce, hmacSM3, hmac_Equal.
  rewrite (proj2 (Z.ltb_ge _ _)) by done. destruct (negb (zlen nonce =? NonceSize)); [done|].
  cbn [mbind result_bind]. run_slices. by case_bool_decide.
Qed.

Lemma VerifyMNonce_Ok report nonce :
  ReportSize <= zlen report -> VerifyMNonce report nonce = Ok tt ->
  unmasked report OffsetMNonce NonceSize = nonce.
Proof.
  intros Hl. unfold VerifyMNonce, validateReportBytes, validateNonce.
  rewrite (proj2 (Z.ltb_ge _ _)) by done. destruct (negb (zlen nonce =? NonceSize)); [done|].
  cbn [mbind result_bind]. run_slices. unfold unmasked, report_anonce.
  rewrite take_z_all by in_range. by case_bool_decide.
Qed.

Lemma fetch_sound (c : Client W) nonce w report w' :
  cl_ops c = Some ops -> fetchReportIOCTL env c nonce w = (Ok report, w') -> fetched c nonce report.
Proof.
  intros Hc Hf. unfold fetchReportIOCTL in Hf.
  apply stM_bind_Ok in Hf as (u1 & w1 & [Hn ->]%lift_Ok & Hf). destruct u1.
  apply stM_bind_Ok in Hf as (ud & w2 & [Hud ->]%lift_Ok & Hf).
  apply stM_bind_Ok in Hf as (o & w3 & [Ho ->]%lift_Ok & Hf).
  unfold client_ops in Ho. rewrite Hc in Ho. injection Ho as <-.
  apply validateNonce_Ok in Hn. pose proof (userData_len c ud Hud) as Lud.
  apply stM_bind_Ok in Hf as (page & w4 & Hm & Hf). apply stM_map_err_Ok in Hm.
  pose proof (mmap_law PageSize w) as Lm. rewrite Hm, Z.max_r in Lm by done. destruct Lm as (Lp & _ & _).
  apply with_defer_Ok in Hf as (w5 & Hf & _).
  apply stM_bind_Ok in Hf as (p1 & w6 & [E1 ->]%lift_Ok & Hf).
  rewrite gcopy_at_ok in E1 by in_range. injection E1 as <-.
  apply stM_bind_Ok in Hf as (p2 & w7 & [E2 ->]%lift_Ok & Hf).
  assert (zlen (copy_at page 0 UserDataSize ud) = PageSize) as L1
    by (rewrite zlen_copy_at by in_range; done).
  rewrite gcopy_at_ok in E2 by in_range. injection E2 as <-.
  set (p2 := copy_at _ _ _ nonce) in *.
  assert (zlen p2 = PageSize) as L2 by (unfold p2; rewrite zlen_copy_at by in_range; done).
  apply stM_bind_Ok in Hf as (h & w8 & [E3 ->]%lift_Ok & Hf).
  rewrite gslice_ok in E3 by in_range. injection E3 as <-.
  apply stM_bind_Ok in Hf as (p3 & w9 & [E4 ->]%lift_Ok & Hf).
  rewrite gcopy_at_ok in E4 by in_range. injection E4 as <-.
  set (p3 := copy_at p2 _ _ _) in *.
  assert (zlen p3 = PageSize) as L3 by (unfold p3; rewrite zlen_copy_at by in_range; done).
  apply stM_bind_Ok in Hf as (dev & w10 & Ho & Hf). apply with_defer_Ok in Hf as (w11 & Hf & _).
  apply stM_bind_Ok in Hf as (page' & w12 & Hio & Hf). apply stM_map_err_Ok in Hio.
  pose proof (ioctl_law dev getAttestationReportIOCT p3 w10) as Lio. rewrite Hio in Lio.
  destruct Lio as (Lp' & _ & _).
  apply stM_bind_Ok in Hf as (head & w13 & [E5 ->]%lift_Ok & Hf).
  rewrite gslice_ok, slice_from_0 in E5 by in_range. injection E5 as <-.
  rewrite gcopy_all in Hf by in_range.
  apply stM_bind_Ok in Hf as ([] & w14 & [Hmac ->]%lift_Ok & Hf).
  apply stM_bind_Ok in Hf as ([] & w15 & [Hmn ->]%lift_Ok & Hf). injection Hf as <- _.
  assert (zlen (take_z ReportSize page') = ReportSize) as Lr by in_range.
  split; [done|done|apply VerifySessionMAC_Ok; [lia|done]|apply VerifyMNonce_Ok; [lia|done]|].
  exists ud, page, dev, w10, page', w12. done.
Qed.

(** ** The exported operations *)

(** The report without the sealing key. *)
Definition wiped (report : bytes) : bytes :=
  copy_at report OffsetReserved2 (OffsetReserved2 + SealingKeySize) (zeros SealingKeySize).

Lemma zeroReserved2_ok report :
  zlen report = ReportSize -> zeroReserved2 report = (Ok tt, wiped report).
Proof.
  intros Hl. unfold zeroReserved2. stm. unfold validateReportBytes.
  rewrite (proj2 (Z.ltb_ge _ _)) by lia. rewrite gcopy_at_ok by in_range. done.
Qed.

Lemma wiped_fields report :
  zlen report = ReportSize ->
  zlen (wiped report) = ReportSize /\
  slice (wiped report) OffsetReserved2 (OffsetReserved2 + SealingKeySize) = zeros SealingKeySize /\
  (forall a b, 0 <= a -> b <= OffsetReserved2 -> slice (wiped report) a b = slice report a b) /\
  (forall a b, OffsetReserved2 + SealingKeySize <= a -> slice (wiped report) a b = slice report a b).
Proof.
  intros Hl. unfold wiped. split; [rewrite zlen_copy_at by in_range; done|].
  split; [apply slice_copy_same; in_range|].
  split; intros; [apply slice_copy_before|apply slice_copy_after]; in_range.
Qed.

Lemma GetAttestationReportIOCTL_no_panic c nonce s :
  cl_ops (receiver rand_Reader defaultOps c) = Some ops ->
  no_panic (GetAttestationReportIOCTL rand_Reader defaultOps env c nonce s).1.
Proof.
  destruct s as [buf w]. intros Hc. unfold GetAttestationReportIOCTL, validateReportBuffer.
  destruct (zlen buf <? ReportSize); [done|]. destruct (fetch_keeps _ nonce Hc w) as (Hp & _). stm. unfold on_snd.
  destruct (fetchReportIOCTL env (receiver rand_Reader defaultOps c) nonce w) as [[report|e|] w'] eqn:E;
    [|done|by destruct Hp].
  apply fetch_sound in E; [|done]. pose proof (ft_len _ _ _ E). by rewrite zeroReserved2_ok by lia.
Qed.

(** C38. Fetching a report: whatever the operating system answers, the call does
    not panic and leaves no page mapped and no device open; when it fails the
    caller's buffer is untouched; when it succeeds the buffer starts with the
    report that the driver wrote for a request carrying the client's user data
    and the caller's nonce, after its MAC and its mnonce were checked against
    that nonce, and with the sealing key field zeroed: the key never reaches
    the caller's buffer. *)
Theorem GetAttestationReportIOCTL_safe c nonce buf w :
  cl_ops (receiver rand_Reader defaultOps c) = Some ops ->
  let out := GetAttestationReportIOCTL rand_Reader defaultOps env c nonce (buf, w) in
  no_panic out.1 /\ mapped out.2.2 = mapped w /\ opened out.2.2 = opened w /\
  (out.1 <> Ok tt -> out.2.1 = buf) /\
  (out.1 = Ok tt -> exists report, fetched (receiver rand_Reader defaultOps c) nonce report /\
     out.2.1 = wiped report ++ drop_z ReportSize buf /\
     slice out.2.1 OffsetReserved2 (OffsetReserved2 + SealingKeySize) = zeros SealingKeySize).
Proof.
  intros Hc. unfold GetAttestationReportIOCTL, validateReportBuffer.
  destruct (Z.ltb_spec (zlen buf) ReportSize) as [|Hb]; [done|].
  destruct (fetch_keeps _ nonce Hc w) as (Hp & H1 & H2). stm. unfold on_snd.
  destruct (fetchReportIOCTL env (receiver rand_Reader defaultOps c) nonce w) as [[report|e|] w'] eqn:E;
    cbn in Hp, H1, H2; [|done|done].
  apply fetch_sound in E; [|done]. pose proof (ft_len _ _ _ E) as Hl.
  destruct (wiped_fields report Hl) as (L & Z1 & _ & _).
  rewrite zeroReserved2_ok, gcopy_prefix by lia. cbn. rewrite L. split_and!; try done.
  intros _. exists report. split; [done|]. split; [done|].
  rewrite <-(slice_take_z _ ReportSize) by in_range. rewrite take_z_app by done. done.
Qed.

(** The sealing key: the call does not panic, releases what it took, leaves
    the caller's buffer alone on an error, and on success puts in its first 32
    bytes exactly the sealing key field of a report fetched under a fresh
    16-byte nonce from the client's reader and verified under it. *)
Theorem GetSealingKeyIOCTL_safe c src e buf w :
  cl_ops (receiver rand_Reader defaultOps c) = Some ops ->
  cl_Rand (receiver rand_Reader defaultOps c) = Some (src, e) ->
  let out := GetSealingKeyIOCTL rand_Reader defaultOps env c (buf, w) in
  no_panic out.1 /\ mapped out.2.2 = mapped w /\ opened out.2.2 = opened w /\
  (out.1 <> Ok tt -> out.2.1 = buf) /\
  (out.1 = Ok tt -> exists report,
     fetched (receiver rand_Reader defaultOps c) (take_z NonceSize src) report /\
     out.2.1 = slice report OffsetReserved2 (OffsetReserved2 + SealingKeySize)
                 ++ drop_z SealingKeySize buf).
Proof.
  intros Hc Hr. unfold GetSealingKeyIOCTL, client_rand. rewrite Hr.
  destruct (Z.ltb_spec (zlen buf) SealingKeySize) as [|Hb]; [done|].
  stm. unfold read_full_from. change (NonceSize <=? 0) with false. cbn iota.
  destruct (NonceSize <=? zlen src); [|by destruct (zlen src =? 0)]. cbn [fst].
  destruct (fetch_keeps _ (take_z NonceSize src) Hc w) as (Hp & H1 & H2). unfold on_snd.
  destruct (fetchReportIOCTL env (receiver rand_Reader defaultOps c) (take_z NonceSize src) w)
    as [[report|e'|] w'] eqn:E; cbn in Hp, H1, H2; [|done|done].
  apply fetch_sound in E; [|done]. pose proof (ft_len _ _ _ E) as Hl.
  unfold ExtractSealingKey, validateReportBytes. rewrite (proj2 (Z.ltb_ge _ _)) by lia.
  cbn [mbind result_bind]. rewrite gslice_ok by in_range. cbn [mbind result_bind].
  rewrite (gcopy_all (zeros _)) by in_range. rewrite gcopy_prefix by in_range. cbn.
  split_and!; try done. intros _. exists report. split; [done|]. do 2 f_equal. in_range.
Qed.

(** The user data of a request is 64 bytes whatever the client field and the
    environment hold, and a wrong length or a malformed hex string is reported
    as [ErrInvalidUserData], never truncated or padded. *)
Theorem userData_outcome (c : Client W) :
  (exists ud, userData env c = Ok ud /\ zlen ud = UserDataSize) \/
  (exists e, userData env c = Err e /\ errors_is e ErrInvalidUserData = true).
Proof.
  destruct (userData env c) as [ud|e|] eqn:E; [left|right|by apply userData_no_panic in E].
  - exists ud. split; [done|]. by eapply userData_len.
  - exists e. split; [done|]. revert E. unfold userData.
    destruct (0 <? _); [destruct (negb _); [by intros [= <-]|done]|].
    destruct (negb _); [|done]. destruct (negb _); [by intros [= <-]|].
    destruct (hex_DecodeString _); [done|by intros [= <-]|done].
Qed.
End resources.

(** ** A platform to compute with

    Its driver is honest: it puts the nonce of the request and a MAC under it
    into an otherwise empty report. *)
Definition toy_driver (page : bytes) : bytes :=
  let nonce := slice page UserDataSize (UserDataSize + NonceSize) in
  let report := copy_at page OffsetMNonce (OffsetMNonce + NonceSize) nonce in
  copy_at report OffsetMAC (OffsetMAC + HashSize)
    (@hmac_sm3 toy_sm3 nonce (slice report OffsetPEKCert OffsetMAC)).

Definition toy_ops : platformOps (Z * Z) := {|
  po_mmap := fun n w => (Ok (zeros n), (w.1 + 1, w.2));
  po_munmap := fun _ w => (w.1 - 1, w.2);
  po_openDevice := fun path w =>
    if bool_decide (path = defaultCSVGuestDevice) then (Ok 3, (w.1, w.2 + 1)) else (Err ErrNotExist, w);
  po_close := fun _ w => (w.1, w.2 - 1);
  po_ioctl := fun _ _ page w =>
    if zlen page =? PageSize then (Ok (toy_driver page), w) else (Err (ErrNew "EFAULT"), w)
|}.

(** The laws, for page sizes that are lengths. *)
Lemma toy_driver_len page : zlen page = PageSize -> zlen (toy_driver page) = PageSize.
Proof.
  intros Hl. unfold toy_driver.
  assert (zlen (copy_at page OffsetMNonce (OffsetMNonce + NonceSize)
    (slice page UserDataSize (UserDataSize + NonceSize))) = PageSize) as L
    by (rewrite zlen_copy_at by in_range; done).
  by rewrite zlen_copy_at by in_range.
Qed.

#[global] Instance toy_platform : PlatformLaws toy_ops.
Proof.
  refine (Build_PlatformLaws _ toy_ops fst snd _ _ _ _ _); cbn.
  - intros n w. rewrite zlen_zeros. lia.
  - intros p w. done.
  - intros path w. case_bool_decide; cbn; lia.
  - intros fd w. done.
  - intros fd req page w. destruct (Z.eqb_spec (zlen page) PageSize) as [Hl|]; [|done].
    by rewrite toy_driver_len.
Defined.

Definition toy_reader : Reader := (zeros 32, io_EOF).

Lemma GetAttestationReportIOCTL_safe_witness :
  let out := @GetAttestationReportIOCTL (Z * Z) toy_reader toy_ops "" toy_sm3 None
               (replicate 16 x07) (zeros ReportSize, (0, 0)) in
  out.1 = Ok tt /\ mapped out.2.2 = 0 /\ opened out.2.2 = 0 /\
  slice out.2.1 OffsetReserved2 (OffsetReserved2 + SealingKeySize) = zeros SealingKeySize.
Proof.
  intros out. assert (out.1 = Ok tt) as Hok by (vm_compute; reflexivity). split; [exact Hok|].
  destruct (@GetAttestationReportIOCTL_safe _ _ toy_platform toy_sm3 toy_reader toy_ops ""
    None (replicate 16 x07) (zeros ReportSize) (0, 0) eq_refl) as (_ & H1 & H2 & _ & H3).
  destruct (H3 Hok) as (report & _ & _ & Hz). exact (conj H1 (conj H2 Hz)).
Defined.

Lemma GetSealingKeyIOCTL_safe_witness :
  let out := @GetSealingKeyIOCTL (Z * Z) toy_reader toy_ops "" toy_sm3 None (zeros 40, (0, 0)) in
  out.1 = Ok tt /\ mapped out.2.2 = 0 /\ opened out.2.2 = 0.
Proof.
  intros out. assert (out.1 = Ok tt) as Hok by (vm_compute; reflexivity). split; [exact Hok|].
  destruct (@GetSealingKeyIOCTL_safe _ _ toy_platform toy_sm3 toy_reader toy_ops ""
    None (zeros 32) io_EOF (zeros 40) (0, 0) eq_refl eq_refl) as (_ & H1 & H2 & _ & _).
  exact (conj H1 H2).
Defined.
