(* ===== verification/Asn1.v ===== *)
(** * DER (package [encoding/asn1] of Go's standard library)

    The identifier and length octets, and the parsing of one field of a
    struct: what [Marshal] and [Unmarshal] do with the evidence extension. *)

From S2P Require Import Prelude.

Definition SyntaxError (msg : string) : error := ErrNew (String.append "asn1: syntax error: " msg).
Definition StructuralError (msg : string) : error := ErrNew (String.append "asn1: structure error: " msg).

(** ** Identifier and length *)

Record tagAndLength := {
  tl_class : Z;
  tl_isCompound : bool;
  tl_tag : Z;
  tl_length : Z
}.

(** Tags of 31 and more, base 128: at most five groups. *)
Fixpoint parseBase128Int (fuel : nat) (shifted : Z) (ret : Z) (l : bytes) : result (Z * bytes) :=
  match fuel with
  | O => match l with
         | [] => Err (SyntaxError "truncated base 128 integer")
         | _ => Err (StructuralError "base 128 integer too large")
         end
  | S fuel' =>
      match l with
      | [] => Err (SyntaxError "truncated base 128 integer")
      | b :: l' =>
          let b := byte_to_Z b in
          reject_if (shifted =? 0) && (b =? 0x80) with SyntaxError "integer is not minimally encoded";
          let ret := Z.lor (Z.shiftl ret 7) (Z.land b 0x7f) in
          if Z.land b 0x80 =? 0 then
            reject_if 2 ^ 31 - 1 <? ret with StructuralError "base 128 integer too large";
            Ok (ret, l')
          else parseBase128Int fuel' (shifted + 1) ret l'
      end
  end.

(** The bytes of a long-form length. *)
Fixpoint parse_long_length (n : nat) (length : Z) (l : bytes) : result (Z * bytes) :=
  match n with
  | O => Ok (length, l)
  | S n' =>
      match l with
      | [] => Err (SyntaxError "truncated tag or length")
      | b :: l' =>
          reject_if 2 ^ 23 <=? length with StructuralError "length too large";
          let length := Z.lor (Z.shiftl length 8) (byte_to_Z b) in
          reject_if length =? 0 with StructuralError "superfluous leading zeros in length";
          parse_long_length n' length l'
      end
  end.

Definition parse_length (l : bytes) : result (Z * bytes) :=
  match l with
  | [] => Err (SyntaxError "truncated tag or length")
  | b :: l =>
      let b := byte_to_Z b in
      if Z.land b 0x80 =? 0 then Ok (Z.land b 0x7f, l)
      else
        let numBytes := Z.land b 0x7f in
        reject_if numBytes =? 0 with SyntaxError "indefinite length found (not DER)";
        '(length, l) ← parse_long_length (Z.to_nat numBytes) 0 l;
        reject_if length <? 0x80 with StructuralError "non-minimal length";
        Ok (length, l)
  end.

Definition parseTagAndLength (l : bytes) : result (tagAndLength * bytes) :=
  match l with
  | [] => Err (SyntaxError "truncated tag or length")
  | b :: l =>
      let b := byte_to_Z b in
      '(tag, l) ←
        (if Z.land b 0x1f =? 0x1f then
           '(tag, l) ← parseBase128Int 5 0 0 l;
           reject_if tag <? 0x1f with SyntaxError "non-minimal tag";
           Ok (tag, l)
         else Ok (Z.land b 0x1f, l));
      '(length, l) ← parse_length l;
      Ok ({| tl_class := Z.shiftr b 6; tl_isCompound := Z.land b 0x20 =? 0x20;
             tl_tag := tag; tl_length := length |}, l)
  end.

Definition ClassUniversal : Z := 0.
Definition ClassContextSpecific : Z := 2.
Definition TagInteger : Z := 2.
Definition TagSequence : Z := 16.

(** ** One field

    [parseField] on a field of the given class, tag and form: [Ok (None, l)]
    when the element is not there, [Ok (Some content, rest)] when it is. *)
Definition parseField (optional : bool) (class tag : Z) (compound : bool) (l : bytes)
  : result (option bytes * bytes) :=
  match l with
  | [] => if optional then Ok (None, []) else Err (SyntaxError "sequence truncated")
  | _ =>
      '(t, body) ← parseTagAndLength l;
      if negb (tl_class t =? class) || negb (tl_tag t =? tag) || negb (Bool.eqb (tl_isCompound t) compound)
      then (if optional then Ok (None, l) else Err (StructuralError "tags don't match"))
      else
        reject_if zlen body <? tl_length t with SyntaxError "data truncated";
        Ok (Some (take_z (tl_length t) body), drop_z (tl_length t) body)
  end.

(** [parseInt64]: minimal two's complement, at most eight bytes. *)
Definition checkInteger (l : bytes) : result unit :=
  match l with
  | [] => Err (StructuralError "empty integer")
  | [_] => Ok tt
  | a :: b :: _ =>
      let a := byte_to_Z a in let b := byte_to_Z b in
      if ((a =? 0) && (Z.land b 0x80 =? 0)) || ((a =? 0xff) && (Z.land b 0x80 =? 0x80))
      then Err (StructuralError "integer not minimally-encoded") else Ok tt
  end.
Definition parseInt64 (l : bytes) : result Z :=
  _ ← checkInteger l;
  reject_if 8 <? zlen l with StructuralError "integer too large";
  let n := be_uint l in
  Ok (if Z.testbit n (8 * zlen l - 1) then n - 2 ^ (8 * zlen l) else n).

(** ** Encoding *)

(** Identifier and length octets; the tag is below 31. *)
Fixpoint lengthLength (fuel : nat) (i : Z) : Z :=
  match fuel with
  | O => 1
  | S f => if 255 <? i then 1 + lengthLength f (Z.shiftr i 8) else 1
  end.
Definition appendTagAndLength (class tag : Z) (compound : bool) (length : Z) : bytes :=
  byte_of_Z (Z.lor (Z.lor (Z.shiftl class 6) (if compound then 0x20 else 0)) tag) ::
  (if 128 <=? length then
     let n := lengthLength 8 length in
     byte_of_Z (Z.lor 0x80 n) :: be_bytes (Z.to_nat n) length
   else [byte_of_Z length]).

Definition der (class tag : Z) (compound : bool) (content : bytes) : bytes :=
  appendTagAndLength class tag compound (zlen content) ++ content.

(** ** Parsing fails with an error at worst *)

Lemma parseBase128Int_no_panic fuel k r l : no_panic (parseBase128Int fuel k r l).
Proof.
  revert k r l. induction fuel as [|fuel IH]; intros k r [|b l]; cbn [parseBase128Int]; try done.
  destruct (_ && _); [done|]. destruct (_ =? 0); [by destruct (_ <? _)|apply IH].
Qed.

Lemma parse_long_length_no_panic n k l : no_panic (parse_long_length n k l).
Proof.
  revert k l. induction n as [|n IH]; intros k [|b l]; cbn [parse_long_length]; try done.
  destruct (_ <=? _); [done|]. destruct (_ =? 0); [done|apply IH].
Qed.

Lemma parseTagAndLength_no_panic l : no_panic (parseTagAndLength l).
Proof.
  destruct l as [|b l]; [done|]. cbn [parseTagAndLength]. apply bind_no_panic.
  - destruct (_ =? _); [|done]. apply bind_no_panic; [apply parseBase128Int_no_panic|].
    intros [t l'] _. by destruct (_ <? _).
  - intros [t l'] _. apply bind_no_panic; [|by intros []]. unfold parse_length.
    destruct l' as [|c l']; [done|]. destruct (_ =? 0); [done|]. destruct (_ =? 0); [done|].
    apply bind_no_panic; [apply parse_long_length_no_panic|]. intros [n l''] _. by destruct (_ <? _).
Qed.

Lemma parseField_no_panic o c t k l : no_panic (parseField o c t k l).
Proof.
  unfold parseField. destruct l as [|b l]; [by destruct o|].
  apply bind_no_panic; [apply parseTagAndLength_no_panic|]. intros [tl body] _.
  destruct (_ || _); [by destruct o|]. by destruct (_ <? _).
Qed.

Lemma parseInt64_no_panic l : no_panic (parseInt64 l).
Proof.
  unfold parseInt64. apply bind_no_panic; [|intros _ _; by destruct (8 <? _)].
  unfold checkInteger. destruct l as [|a [|b l]]; [done..|]. by destruct (_ || _).
Qed.

(** ** The encoding is parsed back *)

Lemma be_bytes_1 n : be_bytes 1 n = [byte_of_Z n].
Proof. reflexivity. Qed.

Lemma be_bytes_2 n : be_bytes 2 n = [byte_of_Z (n / 256); byte_of_Z n].
Proof. reflexivity. Qed.

Lemma lor_256 a b : 0 <= b < 256 -> Z.lor (Z.shiftl a 8) b = a * 256 + b.
Proof.
  intros Hb. rewrite <-(Z.mod_small b 256) at 1 by done.
  assert (Z.land (Z.shiftl a 8) (b mod 256) = 0) as Hl.
  { apply Z.bits_inj'. intros i Hi. rewrite Z.land_spec, Z.bits_0.
    change 256 with (2 ^ 8). destruct (Z.ltb_spec i 8).
    - by rewrite Z.shiftl_spec_low by lia.
    - by rewrite Z.mod_pow2_bits_high, andb_false_r by lia. }
  rewrite <-Z.lxor_lor, <-Z.add_nocarry_lxor, Z.shiftl_mul_pow2, Z.mod_small by (done || lia). done.
Qed.

(** The octets of a length below 2^16. *)
Definition length_octets (n : Z) : bytes :=
  if n <? 128 then [byte_of_Z n]
  else if n <? 256 then [x81; byte_of_Z n]
  else [x82; byte_of_Z (n / 256); byte_of_Z n].

Lemma appendTagAndLength_eq class tag compound n :
  0 <= n < 2 ^ 16 ->
  appendTagAndLength class tag compound n =
  byte_of_Z (Z.lor (Z.lor (Z.shiftl class 6) (if compound then 0x20 else 0)) tag) :: length_octets n.
Proof.
  intros Hn. unfold appendTagAndLength, length_octets. f_equal.
  destruct (Z.leb_spec 128 n), (Z.ltb_spec n 128); try lia; [|done].
  cbn [lengthLength]. rewrite !Z.shiftr_div_pow2 by lia. change (2 ^ 8) with 256.
  destruct (Z.ltb_spec n 256).
  - rewrite (proj2 (Z.ltb_ge 255 n)) by lia. done.
  - rewrite (proj2 (Z.ltb_lt 255 n)) by lia.
    assert (n / 256 < 256) by (apply Z.div_lt_upper_bound; lia).
    rewrite (proj2 (Z.ltb_ge 255 (n / 256))) by lia. done.
Qed.

(** Decide the integer tests of the goal. *)
Ltac tests_lia := repeat match goal with
  | |- context [?a <? ?b] => destruct (Z.ltb_spec a b); [try lia|try lia]
  | |- context [?a <=? ?b] => destruct (Z.leb_spec a b); [try lia|try lia]
  | |- context [?a =? ?b] => destruct (Z.eqb_spec a b); [try lia|try lia]
  | _ => progress cbn [mbind result_bind]
  end.

Lemma parse_length_encoded n rest :
  0 <= n < 2 ^ 16 -> parse_length (length_octets n ++ rest) = Ok (n, rest).
Proof.
  intros Hn. unfold length_octets. destruct (Z.ltb_spec n 128).
  - cbn [app parse_length]. rewrite byte_to_of_Z, Z.mod_small by lia.
    assert (forall m, 0 <= m < 128 -> Z.land m 0x80 = 0 /\ Z.land m 0x7f = m) as Hb.
    { intros m Hm. split.
      - change 0x80 with (2 ^ 7). apply Z.bits_inj'. intros i Hi.
        rewrite Z.land_spec, Z.bits_0, Z.pow2_bits_eqb by lia. destruct (Z.eqb_spec 7 i); [|apply andb_false_r].
        subst. rewrite <-(Z.mod_small m (2 ^ 7)), Z.mod_pow2_bits_high by lia. done.
      - change 0x7f with (Z.ones 7). rewrite Z.land_ones by lia. by apply Z.mod_small. }
    destruct (Hb n) as [-> ->]; [lia|]. done.
  - destruct (Z.ltb_spec n 256).
    + change (([x81; byte_of_Z n] ++ rest)) with (x81 :: byte_of_Z n :: rest).
      unfold parse_length. change (byte_to_Z x81) with 129.
      change (Z.land 129 128 =? 0) with false. change (Z.land 129 127) with 1.
      change (Z.to_nat 1) with 1%nat. cbn -[Z.shiftl Z.lor byte_to_Z byte_of_Z Z.div].
      rewrite (lor_256 0) by apply byte_to_Z_range.
      rewrite byte_to_of_Z, Z.mod_small, Z.mul_0_l, Z.add_0_l by lia.
      rewrite (proj2 (Z.eqb_neq _ _)) by lia. cbn [mbind result_bind].
      by tests_lia.
    + change (([x82; byte_of_Z (n / 256); byte_of_Z n] ++ rest))
        with (x82 :: byte_of_Z (n / 256) :: byte_of_Z n :: rest).
      assert (1 <= n / 256 < 256) by (Z.to_euclidean_division_equations; lia).
      unfold parse_length. change (byte_to_Z x82) with 130.
      change (Z.land 130 128 =? 0) with false. change (Z.land 130 127) with 2.
      change (Z.to_nat 2) with 2%nat. cbn -[Z.shiftl Z.lor byte_to_Z byte_of_Z Z.div].
      rewrite !byte_to_of_Z, (Z.mod_small (n / 256)) by lia.
      rewrite (lor_256 0) by lia. rewrite Z.mul_0_l, Z.add_0_l.
      rewrite (proj2 (Z.eqb_neq (n / 256) 0)) by lia. cbn -[Z.shiftl Z.lor byte_to_Z byte_of_Z Z.div].
      rewrite (proj2 (Z.leb_gt _ _)) by lia. cbn -[Z.shiftl Z.lor byte_to_Z byte_of_Z Z.div].
      rewrite lor_256 by (apply Z.mod_pos_bound; lia).
      replace (n / 256 * 256 + n mod 256) with n by (rewrite (Z.div_mod n 256) at 1; lia).
      rewrite (proj2 (Z.eqb_neq _ _)) by lia. cbn [mbind result_bind].
      by tests_lia.
Qed.

(** The identifiers the evidence uses: [SEQUENCE] and context tags 0, 1, 2. *)
Lemma parseTagAndLength_der class tag compound n rest :
  0 <= class < 4 -> 0 <= tag < 31 -> 0 <= n < 2 ^ 16 ->
  parseTagAndLength (appendTagAndLength class tag compound n ++ rest)
  = Ok ({| tl_class := class; tl_isCompound := compound; tl_tag := tag; tl_length := n |}, rest).
Proof.
  intros Hc Ht Hn. rewrite appendTagAndLength_eq by done.
  cbn [app]. unfold parseTagAndLength.
  set (b := Z.lor _ tag).
  assert (b = class * 64 + (if compound then 32 else 0) + tag) as Hb.
  { unfold b. rewrite Z.shiftl_mul_pow2 by lia.
    assert (class = 0 \/ class = 1 \/ class = 2 \/ class = 3) as Hcs by lia.
    assert (exists k, (k < 31)%nat /\ tag = Z.of_nat k) as (k & Hk & ->)
      by (exists (Z.to_nat tag); lia).
    clear -Hcs Hk. do 31 (destruct k as [|k]; [by destruct compound; repeat destruct Hcs as [->|Hcs]; subst|]).
    lia. }
  assert (0 <= b < 256) as Hr by (rewrite Hb; destruct compound; lia). clearbody b.
  rewrite byte_to_of_Z, Z.mod_small by done.
  assert (Z.land b 0x1f = tag) as E1.
  { change 0x1f with (Z.ones 5). rewrite Z.land_ones by lia. rewrite Hb.
    change (2 ^ 5) with 32. destruct compound; Z.to_euclidean_division_equations; lia. }
  assert (Z.shiftr b 6 = class) as E2.
  { rewrite Z.shiftr_div_pow2 by lia. rewrite Hb. change (2 ^ 6) with 64.
    destruct compound; Z.to_euclidean_division_equations; lia. }
  assert ((Z.land b 0x20 =? 0x20) = compound) as E3.
  { assert (Z.testbit b 5 = compound) as Hbit.
    { rewrite Z.testbit_eqb by lia. rewrite Hb. change (2 ^ 5) with 32.
      destruct compound; apply eq_true_iff_eq; rewrite Z.eqb_eq;
        Z.to_euclidean_division_equations; split; intros; try lia; done. }
    rewrite <-Hbit. change 0x20 with (2 ^ 5). apply eq_true_iff_eq. rewrite Z.eqb_eq. split.
    - intros E. apply (f_equal (fun z => Z.testbit z 5)) in E.
      by rewrite Z.land_spec, Z.pow2_bits_true, andb_true_r in E by lia.
    - intros E. apply Z.bits_inj'. intros i Hi. rewrite Z.land_spec, Z.pow2_bits_eqb by lia.
      destruct (Z.eqb_spec 5 i); [subst; by rewrite E|apply andb_false_r]. }
  rewrite E1, (proj2 (Z.eqb_neq tag 0x1f)) by lia. cbn [mbind result_bind].
  rewrite parse_length_encoded by done. cbn [mbind result_bind]. by rewrite E2, E3.
Qed.

Lemma appendTagAndLength_nonempty class tag compound n : appendTagAndLength class tag compound n <> [].
Proof. done. Qed.

(** A field that is there. *)
Lemma parseField_der optional class tag compound content rest :
  0 <= class < 4 -> 0 <= tag < 31 -> zlen content < 2 ^ 16 ->
  parseField optional class tag compound (der class tag compound content ++ rest)
  = Ok (Some content, rest).
Proof.
  intros Hc Ht Hn. pose proof (zlen_nonneg content). unfold parseField, der.
  destruct ((appendTagAndLength _ _ _ _ ++ content) ++ rest) as [|b l] eqn:E; [done|].
  rewrite <-E, <-app_assoc, parseTagAndLength_der by (done || lia). cbn -[app].
  rewrite !Z.eqb_refl, Bool.eqb_reflx. cbn -[app].
  rewrite (proj2 (Z.ltb_ge _ _)) by (rewrite zlen_app; pose proof (zlen_nonneg rest); lia).
  by rewrite take_z_app, drop_z_app.
Qed.

(** An optional field that is not there: another element follows, or none. *)
Lemma parseField_absent class tag compound class' tag' compound' content rest :
  0 <= class' < 4 -> 0 <= tag' < 31 -> zlen content < 2 ^ 16 -> (class', tag') <> (class, tag) ->
  parseField true class tag compound (der class' tag' compound' content ++ rest)
  = Ok (None, der class' tag' compound' content ++ rest).
Proof.
  intros Hc Ht Hn Hne. pose proof (zlen_nonneg content). unfold parseField.
  destruct (der class' tag' compound' content ++ rest) as [|b l] eqn:E; [done|].
  rewrite <-E. unfold der. rewrite <-app_assoc, parseTagAndLength_der by (done || lia). cbn -[app].
  destruct (Z.eqb_spec class' class), (Z.eqb_spec tag' tag); subst; done.
Qed.
