(* ===== verification/Evidence.v ===== *)
(** * The evidence extension (evidence.go)

    [CSVEvidenceExtension] with its validation and its DER form. *)

From S2P Require Import Prelude Gcm Gmsm GoLib CsvReport Asn1.

(** An ASN.1 object identifier and a [pkix.Extension]. *)
Abbreviation ObjectIdentifier := (list Z).
Record Extension := {
  ext_Id : ObjectIdentifier;
  ext_Critical : bool;
  ext_Value : bytes
}.

Definition OIDCSVEvidence : ObjectIdentifier := [1; 3; 6; 1; 4; 1; 58270; 1; 1].
Definition EvidenceVersion : Z := 1.
Definition errNilEvidence : error := ErrNew "nil evidence extension".

Record CSVEvidenceExtension := {
  ev_Version : Z;
  ev_Report : bytes;
  ev_HRKCert : bytes;
  ev_HSKCekCert : bytes
}.

(** A nil pointer is [None]. *)
Definition validateEvidenceExtension (ev : option CSVEvidenceExtension) : result unit :=
  match ev with
  | None => Err errNilEvidence
  | Some ev =>
      reject_if negb (ev_Version ev =? EvidenceVersion)
        with Errorf "unsupported csv evidence version %d, want %d" [FInt (ev_Version ev); FInt EvidenceVersion];
      reject_if negb (zlen (ev_Report ev) =? ReportSize)
        with Errorf "invalid report size in evidence extension: got %d, want %d"
               [FInt (zlen (ev_Report ev)); FInt ReportSize];
      reject_if (0 <? zlen (ev_HRKCert ev)) && negb (zlen (ev_HRKCert ev) =? HrkCertSize)
        with Errorf "invalid HRK cert size in evidence extension: got %d, want %d"
               [FInt (zlen (ev_HRKCert ev)); FInt HrkCertSize];
      reject_if (0 <? zlen (ev_HSKCekCert ev)) && negb (zlen (ev_HSKCekCert ev) =? HskCekSize)
        with Errorf "invalid HSK/CEK cert size in evidence extension: got %d, want %d"
               [FInt (zlen (ev_HSKCekCert ev)); FInt HskCekSize];
      Ok tt
  end.

(** [asn1.Marshal] of the struct: an optional integer that has its default and
    an empty optional slice are left out. *)
Fixpoint int64_len (fuel : nat) (i : Z) : nat :=
  match fuel with
  | O => 1
  | S f => if (127 <? i) || (i <? -128) then S (int64_len f (Z.shiftr i 8)) else 1
  end.
Definition int64_bytes (i : Z) : bytes := be_bytes (int64_len 8 i) i.
Definition optional_field (tag : Z) (content : bytes) : bytes :=
  if zlen content =? 0 then [] else der ClassContextSpecific tag false content.
Definition marshal_evidence (ev : CSVEvidenceExtension) : bytes :=
  der ClassUniversal TagSequence true
    ((if ev_Version ev =? 1 then [] else der ClassUniversal TagInteger false (int64_bytes (ev_Version ev)))
     ++ der ClassContextSpecific 0 false (ev_Report ev)
     ++ optional_field 1 (ev_HRKCert ev) ++ optional_field 2 (ev_HSKCekCert ev)).

(** [asn1.Unmarshal] into the struct: the value and what follows it.  Elements
    of the sequence after the last field are skipped. *)
Definition unmarshal_evidence (data : bytes) : result (CSVEvidenceExtension * bytes) :=
  '(seq, rest) ← parseField false ClassUniversal TagSequence true data;
  '(v, l) ← parseField true ClassUniversal TagInteger false (default [] seq);
  version ← match v with None => Ok 1 | Some c => parseInt64 c end;
  '(r, l) ← parseField false ClassContextSpecific 0 false l;
  '(h, l) ← parseField true ClassContextSpecific 1 false l;
  '(k, _) ← parseField true ClassContextSpecific 2 false l;
  Ok ({| ev_Version := version; ev_Report := default [] r; ev_HRKCert := default [] h;
         ev_HSKCekCert := default [] k |}, rest).

Definition normalise_version (ev : CSVEvidenceExtension) : CSVEvidenceExtension :=
  if ev_Version ev =? 0
  then {| ev_Version := EvidenceVersion; ev_Report := ev_Report ev; ev_HRKCert := ev_HRKCert ev;
          ev_HSKCekCert := ev_HSKCekCert ev |}
  else ev.

Definition EncodeCSVEvidence (ev : option CSVEvidenceExtension) : result Extension :=
  match ev with
  | None => Err errNilEvidence
  | Some ev =>
      let evCopy := normalise_version ev in
      _ ← validateEvidenceExtension (Some evCopy);
      Ok {| ext_Id := OIDCSVEvidence; ext_Critical := false; ext_Value := marshal_evidence evCopy |}
  end.

Definition DecodeCSVEvidence (data : bytes) : result CSVEvidenceExtension :=
  '(ev, rest) ← unmarshal_evidence data <?> "unmarshal csv evidence: %w";
  reject_if 0 <? zlen rest with ErrNew "trailing bytes in csv evidence extension";
  _ ← validateEvidenceExtension (Some ev);
  Ok ev.

(** ** Validation *)

Record evidence_ok (ev : CSVEvidenceExtension) : Prop := {
  eo_version : ev_Version ev = EvidenceVersion;
  eo_report : zlen (ev_Report ev) = ReportSize;
  eo_hrk : zlen (ev_HRKCert ev) = 0 \/ zlen (ev_HRKCert ev) = HrkCertSize;
  eo_bundle : zlen (ev_HSKCekCert ev) = 0 \/ zlen (ev_HSKCekCert ev) = HskCekSize
}.

Lemma optional_size_false (l : bytes) n :
  (0 <? zlen l) && negb (zlen l =? n) = false <-> zlen l = 0 \/ (zlen l = n).
Proof.
  pose proof (zlen_nonneg l). destruct (Z.ltb_spec 0 (zlen l)), (Z.eqb_spec (zlen l) n); cbn;
    split; try done; lia.
Qed.

Lemma neqb_false a b : negb (a =? b) = false <-> a = b.
Proof. rewrite negb_false_iff. apply Z.eqb_eq. Qed.

Lemma validateEvidenceExtension_rdecides ev :
  rdecides (validateEvidenceExtension (Some ev)) (evidence_ok ev) tt.
Proof.
  eapply rdecides_iff; [|unfold validateEvidenceExtension;
    apply rdecides_throw_if; [apply neqb_false|intros _];
    apply rdecides_throw_if; [apply neqb_false|intros _];
    apply rdecides_throw_if; [apply optional_size_false|intros _];
    apply rdecides_throw_if; [apply optional_size_false|intros _]; apply rdecides_ok].
  split; [intros (? & ? & ? & ? & _); by split|intros [? ? ? ?]; by split_and!].
Qed.

Lemma validateEvidenceExtension_Ok ev :
  validateEvidenceExtension (Some ev) = Ok tt <-> evidence_ok ev.
Proof. rewrite (rdecides_Ok _ _ _ _ (validateEvidenceExtension_rdecides ev)). tauto. Qed.

(** ** The DER form *)

Lemma zlen_length_octets n : 0 <= n < 2 ^ 16 -> zlen (length_octets n) <= 3.
Proof. intros. unfold length_octets. repeat case_match; zlia. Qed.

Lemma zlen_der class tag compound c :
  zlen c < 2 ^ 16 -> zlen (der class tag compound c) <= zlen c + 4.
Proof.
  intros Hc. pose proof (zlen_nonneg c). unfold der. rewrite appendTagAndLength_eq by lia.
  pose proof (zlen_length_octets (zlen c)). rewrite zlen_app, zlen_cons. lia.
Qed.

Lemma zlen_optional_field tag c : zlen c < 2 ^ 16 -> zlen (optional_field tag c) <= zlen c + 4.
Proof.
  intros Hc. unfold optional_field. destruct (Z.eqb_spec (zlen c) 0); [rewrite zlen_nil; lia|].
  by apply zlen_der.
Qed.

(** An optional slice, parsed from its encoding followed by the rest. *)
Lemma parse_optional tag tag' c c' :
  0 <= tag < 31 -> 0 <= tag' < 31 -> tag <> tag' -> zlen c < 2 ^ 16 -> zlen c' < 2 ^ 16 ->
  exists o, parseField true ClassContextSpecific tag false (optional_field tag c ++ optional_field tag' c')
    = Ok (o, optional_field tag' c') /\ default [] o = c.
Proof.
  intros Ht Ht' Hne Hc Hc'. unfold optional_field at 1. destruct (Z.eqb_spec (zlen c) 0) as [E|E].
  - apply zlen_nil_inv in E as ->. cbn [app]. exists None. split; [|done].
    unfold optional_field. destruct (zlen c' =? 0); [done|].
    rewrite <-(app_nil_r (der _ tag' _ _)). rewrite parseField_absent; [done|done..|congruence].
  - exists (Some c). split; [|done]. by rewrite parseField_der.
Qed.

Lemma unmarshal_marshal ev :
  evidence_ok ev -> unmarshal_evidence (marshal_evidence ev) = Ok (ev, []).
Proof.
  intros [Hv Hr Hh Hk]. unfold EvidenceVersion in Hv.
  assert (zlen (ev_HRKCert ev) < 3000 /\ zlen (ev_HSKCekCert ev) < 3000) as [Lh Lk]
    by (csv_consts; lia).
  assert (zlen (ev_Report ev) = 2548) as Lr by done.
  unfold unmarshal_evidence, marshal_evidence. rewrite Hv, Z.eqb_refl. cbn [app].
  pose proof (zlen_optional_field 1 (ev_HRKCert ev)). pose proof (zlen_optional_field 2 (ev_HSKCekCert ev)).
  pose proof (zlen_der ClassContextSpecific 0 false (ev_Report ev)).
  rewrite <-(app_nil_r (der ClassUniversal TagSequence _ _)), parseField_der
    by (rewrite ?zlen_app; done || lia).
  cbn [mbind result_bind]. cbn [default from_option id]. rewrite parseField_absent by (done || lia).
  cbn [mbind result_bind]. rewrite parseField_der by (done || lia). cbn [mbind result_bind].
  destruct (parse_optional 1 2 (ev_HRKCert ev) (ev_HSKCekCert ev)) as (o & -> & Eo); [lia..|].
  cbn [mbind result_bind]. destruct (parse_optional 2 3 (ev_HSKCekCert ev) []) as (o' & E' & Eo'); [try lia..|].
  { rewrite zlen_nil. lia. }
  change (optional_field 3 []) with (@nil Byte.byte) in E'. rewrite app_nil_r in E'. rewrite E'. cbn.
  rewrite Eo, Eo'. destruct ev; cbn in *. by subst.
Qed.

Lemma decode_encoded ev :
  evidence_ok (normalise_version ev) ->
  DecodeCSVEvidence (marshal_evidence (normalise_version ev)) = Ok (normalise_version ev).
Proof.
  intros Ho. unfold DecodeCSVEvidence.
  rewrite unmarshal_marshal by done. cbn [map_err result_map_err mbind result_bind].
  apply validateEvidenceExtension_Ok in Ho. change (0 <? 0) with false. cbn iota. by rewrite Ho.
Qed.

(** C39. The evidence a peer puts in its certificate is the evidence that the
    verifier reads: whatever [EncodeCSVEvidence] accepts, an unset version
    included, [DecodeCSVEvidence] gives back field by field, with the version
    made explicit. *)
Theorem evidence_round_trip ev ext :
  EncodeCSVEvidence (Some ev) = Ok ext ->
  ext_Id ext = OIDCSVEvidence /\ DecodeCSVEvidence (ext_Value ext) = Ok (normalise_version ev).
Proof.
  unfold EncodeCSVEvidence. intros He. inv_ok. destruct v. apply validateEvidenceExtension_Ok in Hv.
  cbn [ext_Id ext_Value]. split; [done|]. by apply decode_encoded.
Qed.

Definition toy_evidence : CSVEvidenceExtension :=
  {| ev_Version := 0; ev_Report := zeros ReportSize; ev_HRKCert := [];
     ev_HSKCekCert := replicate (Z.to_nat HskCekSize) x07 |}.

Lemma evidence_round_trip_witness :
  DecodeCSVEvidence (ext_Value (get_ok (Build_Extension [] true []) (EncodeCSVEvidence (Some toy_evidence))))
  = Ok (normalise_version toy_evidence).
Proof.
  apply (evidence_round_trip toy_evidence). vm_compute. reflexivity.
Defined.

Lemma DecodeCSVEvidence_ok data ev : DecodeCSVEvidence data = Ok ev -> evidence_ok ev.
Proof.
  intros Hd. unfold DecodeCSVEvidence in Hd.
  apply bind_Ok in Hd as ([e rest] & _ & Hd). destruct (0 <? _); [done|]. inv_ok.
  destruct v. by apply validateEvidenceExtension_Ok.
Qed.

Lemma DecodeCSVEvidence_no_panic data : no_panic (DecodeCSVEvidence data).
Proof.
  unfold DecodeCSVEvidence. apply bind_no_panic.
  - apply map_err_no_panic. unfold unmarshal_evidence.
    repeat (apply bind_no_panic; [first [apply parseField_no_panic|case_match; [apply parseInt64_no_panic|done]]
                                 |intros ? _; try case_match]). done.
  - intros [ev rest] _. destruct (0 <? _); [done|]. apply bind_no_panic; [|done].
    eapply rdecides_no_panic, validateEvidenceExtension_rdecides.
Qed.

(** C40. Both directions fail closed: [EncodeCSVEvidence] emits an extension
    exactly for evidence with version 0 or 1, a report of [ReportSize] bytes and
    certificates that are absent or of their exact size; and whatever bytes it
    is given, [DecodeCSVEvidence] returns an error or evidence of version 1 with
    those sizes, and does not panic. *)
Theorem evidence_validated ev data :
  no_panic (DecodeCSVEvidence data) /\
  (is_ok (EncodeCSVEvidence (Some ev)) = true <-> evidence_ok (normalise_version ev)) /\
  (forall ev', DecodeCSVEvidence data = Ok ev' -> evidence_ok ev').
Proof.
  split; [apply DecodeCSVEvidence_no_panic|]. split.
  - unfold EncodeCSVEvidence.
    destruct (validateEvidenceExtension_rdecides (normalise_version ev)) as [[Ho ->]|[Ho [e ->]]]; done.
  - apply DecodeCSVEvidence_ok.
Qed.
