(* ===== verification/Gx509.v ===== *)
(** * Certificates: the interface to gmsm/x509

    [github.com/tjfoc/gmsm/x509] is not under src/: a certificate is the fields
    that the program reads, and the package is the class [X509] with the laws
    the program relies on.  A time is a number of nanoseconds since the zero
    [time.Time]. *)

From S2P Require Import Prelude Gcm Gmsm Toy NetIO GoLib CsvReport Asn1 Evidence.
From S2P Require Import KeySchedule.

Definition second : Z := 1000000000.
Definition minute : Z := 60 * second.
Definition hour : Z := 60 * minute.

(** What the program reads of a parsed certificate, as gmsm/x509 or as the
    standard library's type gives it ([ToX509Certificate] only converts). *)
Record Certificate := {
  c_NotBefore : Z;
  c_NotAfter : Z;
  c_Extensions : list Extension;
  c_RawSubjectPublicKeyInfo : bytes;
  c_PublicKey : AnyPublicKey
}.

(** The fields the program sets of a template. *)
Record Template := {
  t_SerialNumber : Z;
  t_CommonName : string;
  t_NotBefore : Z;
  t_NotAfter : Z;
  t_KeyUsage : list string;
  t_ExtKeyUsage : list string;
  t_BasicConstraintsValid : bool;
  t_IsCA : bool;
  t_ExtraExtensions : list Extension
}.

Class X509 := {
  gx_ReadCertificateFromPem : bytes -> result Certificate;
  gx_MarshalPKIXPublicKey : PublicKey -> result bytes;
  gx_CreateCertificateToPem : Template -> PublicKey -> PrivateKey -> bytes -> result bytes * bytes;
  gx_WritePrivateKeyToPem : PrivateKey -> result bytes;
  gx_ReadPrivateKeyFromPem : bytes -> result PrivateKey
}.

(** What the program relies on.  A self-signed certificate reads back with its
    times truncated to seconds, the extensions of the template after the ones
    the library makes (all under the X.509 arc 2.5.29), and the public key. *)
Class X509Laws `{X509, SM2Laws} := {
  gx_create_read t k rnd pem rnd' :
    sm2_key k -> gx_CreateCertificateToPem t (priv_Pub k) k rnd = (Ok pem, rnd') ->
    0 < zlen pem /\
    exists cert pre, gx_ReadCertificateFromPem pem = Ok cert /\
      gx_MarshalPKIXPublicKey (priv_Pub k) = Ok (c_RawSubjectPublicKeyInfo cert) /\
      extractSM2PublicKey (c_PublicKey cert) = Ok (priv_Pub k) /\
      c_Extensions cert = pre ++ t_ExtraExtensions t /\
      Forall (fun e => take 3 (ext_Id e) = [2; 5; 29]) pre /\
      t_NotBefore t - second < c_NotBefore cert <= t_NotBefore t /\
      t_NotAfter t - second < c_NotAfter cert <= t_NotAfter t;
  gx_key_round_trip k pem :
    sm2_key k -> gx_WritePrivateKeyToPem k = Ok pem ->
    0 < zlen pem /\ gx_ReadPrivateKeyFromPem pem = Ok k
}.

(** [rand.Int(rand.Reader, max)] of Go's standard library for [max = 2^128]:
    sixteen bytes, never rejected. *)
Definition rand_Int128 : stM bytes Z :=
  b ← (fun rnd => read_full_from 16 rnd io_EOF);
  mret (be_uint b).

(** ** A concrete instance, to compute with *)

Definition toy_template_ok (t : Template) : bool :=
  match t_ExtraExtensions t with
  | [e] => bool_decide (ext_Id e = OIDCSVEvidence) && negb (ext_Critical e)
           && (0 <=? t_NotBefore t) && (t_NotBefore t <? 2 ^ 64)
           && (0 <=? t_NotAfter t) && (t_NotAfter t <? 2 ^ 64)
  | _ => false
  end.

Definition toy_spki (p : PublicKey) : bytes := coord32 (pub_X p) ++ coord32 (pub_Y p).

Definition toy_x509 : X509 := {|
  gx_ReadCertificateFromPem pem :=
    if zlen pem <? 81 then Err (ErrNew "failed to decode certificate")
    else Ok {| c_NotBefore := be_uint (slice pem 1 9); c_NotAfter := be_uint (slice pem 9 17);
               c_Extensions := [Build_Extension OIDCSVEvidence false (drop_z 81 pem)];
               c_RawSubjectPublicKeyInfo := slice pem 17 81;
               c_PublicKey := EcdsaPublicKey (be_uint (slice pem 17 49)) (be_uint (slice pem 49 81)) |};
  gx_MarshalPKIXPublicKey p := Ok (toy_spki p);
  gx_CreateCertificateToPem t p k rnd :=
    (if toy_template_ok t then
       Ok ([x30] ++ be_bytes 8 (t_NotBefore t) ++ be_bytes 8 (t_NotAfter t) ++ coord32 (pub_X p)
           ++ coord32 (pub_Y p) ++ match t_ExtraExtensions t with [e] => ext_Value e | _ => [] end)
     else Err (ErrNew "unsupported template"), rnd);
  gx_WritePrivateKeyToPem k := Ok (coord32 (priv_D k));
  gx_ReadPrivateKeyFromPem pem := Ok (toy_key (be_uint pem))
|}.

Lemma slice_seg {A} (l m r : list A) a b :
  zlen l = a -> zlen m = b - a -> slice (l ++ m ++ r) a b = m.
Proof. apply slice_app. Qed.

Lemma be_uint_be_bytes8 z : 0 <= z < 2 ^ 64 -> be_uint (be_bytes 8 z) = z.
Proof. intros Hz. rewrite be_uint_be_bytes. by apply Z.mod_small. Qed.

Lemma toy_x509_laws : @X509Laws toy_x509 toy_sm2 toy_sm2_laws.
Proof.
  split.
  - intros t k rnd pem rnd' (d & Hd & ->). cbn [gx_CreateCertificateToPem toy_x509].
    destruct (toy_template_ok t) eqn:Et; [|done]. intros [= <- <-].
    unfold toy_template_ok in Et. destruct (t_ExtraExtensions t) as [|e [|]] eqn:Ee; [done| |done].
    zbool. set (X := pub_X (priv_Pub (toy_key d))). set (Y := pub_Y (priv_Pub (toy_key d))).
    assert (coord X) as HX by exact Hd. assert (coord Y) as HY by apply coord_mod.
    set (l := [x30] ++ be_bytes 8 (t_NotBefore t) ++ be_bytes 8 (t_NotAfter t) ++ coord32 X
                ++ coord32 Y ++ ext_Value e).
    change (0 < zlen l /\ exists cert pre,
      @gx_ReadCertificateFromPem toy_x509 l = Ok cert /\
      Ok (toy_spki (toy_pub d)) = Ok (c_RawSubjectPublicKeyInfo cert) /\
      extractSM2PublicKey (c_PublicKey cert) = Ok (toy_pub d) /\ c_Extensions cert = pre ++ [e] /\
      Forall (fun e => take 3 (ext_Id e) = [2; 5; 29]) pre /\
      t_NotBefore t - second < c_NotBefore cert <= t_NotBefore t /\
      t_NotAfter t - second < c_NotAfter cert <= t_NotAfter t).
    assert (zlen l = 81 + zlen (ext_Value e)) as Hl by (unfold l; zlia).
    pose proof (zlen_nonneg (ext_Value e)). split; [lia|].
    assert (slice l 1 9 = be_bytes 8 (t_NotBefore t)) as E1 by (apply (slice_seg [x30]); zlia).
    assert (slice l 9 17 = be_bytes 8 (t_NotAfter t)) as E2
      by (apply (slice_seg ([x30] ++ be_bytes 8 (t_NotBefore t))); zlia).
    assert (slice l 17 49 = coord32 X) as E3
      by (apply (slice_seg ([x30] ++ be_bytes 8 (t_NotBefore t) ++ be_bytes 8 (t_NotAfter t))); zlia).
    assert (slice l 49 81 = coord32 Y) as E4
      by (apply (slice_seg ([x30] ++ be_bytes 8 (t_NotBefore t) ++ be_bytes 8 (t_NotAfter t) ++ coord32 X)); zlia).
    assert (drop_z 81 l = ext_Value e) as E5
      by (apply (drop_z_app 81 ([x30] ++ be_bytes 8 (t_NotBefore t) ++ be_bytes 8 (t_NotAfter t) ++ coord32 X ++ coord32 Y)); zlia).
    assert (slice l 17 81 = coord32 X ++ coord32 Y) as E6.
    { change (slice l 17 81) with (take_z (81 - 17) (drop_z 17 l)).
      rewrite <-(take_slice l 17 49 (drop_z 49 l)), <-(take_slice l 49 81 (drop_z 81 l)) by (lia || done).
      rewrite app_assoc, E3, E4. apply take_z_app. zlia. }
    cbn [gx_ReadCertificateFromPem toy_x509]. rewrite (proj2 (Z.ltb_ge _ _)) by lia.
    eexists _, []. split; [reflexivity|].
    cbn [c_RawSubjectPublicKeyInfo c_PublicKey c_Extensions c_NotBefore c_NotAfter extractSM2PublicKey].
    rewrite E1, E2, E3, E4, E5, E6, !be_uint_be_bytes8, !be_uint_coord32 by (done || lia).
    split; [done|]. split; [done|]. split; [destruct e; cbn in *; by subst|].
    split; [constructor|]. unfold second. lia.
  - intros k pem (d & Hd & ->) [= <-]. split; [zlia|]. cbn [gx_ReadPrivateKeyFromPem toy_x509].
    cbn [priv_D toy_key]. by rewrite be_uint_coord32.
Qed.
