(* ===== verification/Provider.v ===== *)
(** * Evidence providers (provider.go)

    The provider interfaces, the mock provider and the Hygon hardware provider.
    The state of a provider's calls is the process's entropy and the provider's
    own state [W] (the mock's fields, the hardware's operating system). *)

From S2P Require Import Prelude Gcm Gmsm Toy NetIO GoLib CsvReport CsvVerify CsvMock.
From S2P Require Import CsvClient Asn1 Evidence.

Definition DefaultMockMeasurementHex : string :=
  "11223344556677889900aabbccddeeff11223344556677889900aabbccddeeff".

(** ** Interfaces *)

(** A [context.Context]: the error it is done with, if it is done, and whether a
    [select] between it and a result that is ready takes the context. *)
Record Context_ := {
  ctx_Err : option error;
  ctx_first : bool
}.
Definition Background : Context_ := {| ctx_Err := None; ctx_first := false |}.

(** [EvidenceProvider], with what the type assertions to
    [ContextEvidenceProvider] and [TrustedHRKProvider] give. *)
Record EvidenceProvider (W : Type) := {
  ep_GetEvidence : bytes -> stM (bytes * W) (option CSVEvidenceExtension);
  ep_GetMeasurementHex : stM (bytes * W) string;
  ep_GetEvidenceContext : option (Context_ -> bytes -> stM (bytes * W) (option CSVEvidenceExtension));
  ep_TrustedHRKCert : option (W -> bytes)
}.
Arguments ep_GetEvidence {W} _ _ _.
Arguments ep_GetMeasurementHex {W} _ _.
Arguments ep_GetEvidenceContext {W} _.
Arguments ep_TrustedHRKCert {W} _.

(** [select { case <-ctx.Done(): return nil, ctx.Err(); default: }] and the call. *)
Definition check_ctx {S A} (ctx : Context_) (k : stM S A) : stM S A :=
  match ctx_Err ctx with Some e => throw e | None => k end.

(** ** The mock provider *)

Record MockEvidenceProvider := {
  mp_MeasurementHex : string;
  mp_HRKCert : bytes;
  mp_HSKCekCert : bytes;
  mp_authority : option MockAttestationAuthority;
  mp_initErr : option error
}.

Section mock.
Context `{SM2}.

Definition NewMockEvidenceProvider : stM bytes MockEvidenceProvider := fun rnd =>
  let '(r, rnd') := NewMockAttestationAuthority rnd in
  match r with
  | Ok a => (Ok (Build_MockEvidenceProvider DefaultMockMeasurementHex (mock_HRKCert a)
                   (mock_HSKCekCert a) (Some a) None), rnd')
  | Err e => (Ok (Build_MockEvidenceProvider DefaultMockMeasurementHex [] [] None (Some e)), rnd')
  | Panic => (Panic, rnd')
  end.

Definition attestationAuthority : stM (bytes * MockEvidenceProvider) MockAttestationAuthority :=
  fun '(rnd, m) =>
  match mp_initErr m, mp_authority m with
  | Some e, _ => (Err (wrapf "initialize mock attestation authority: %w" e), (rnd, m))
  | None, Some a => (Ok a, (rnd, m))
  | None, None =>
      (a ← on_fst NewMockAttestationAuthority <?> "initialize mock attestation authority: %w";
       _ ← on_snd (put_st (Build_MockEvidenceProvider (mp_MeasurementHex m) (mock_HRKCert a)
                             (mock_HSKCekCert a) (Some a) None));
       mret a) (rnd, m)
  end.

Definition mock_GetEvidence (pubKeyDigest : bytes)
  : stM (bytes * MockEvidenceProvider) (option CSVEvidenceExtension) :=
  authority ← attestationAuthority;
  m ← (fun s => (Ok s.2, s));
  '(report, hrkCert, hskCekCert) ← on_fst (Generate authority pubKeyDigest (mp_MeasurementHex m))
    <?> "generate mock attestation data: %w";
  mret (Some {| ev_Version := 1; ev_Report := report; ev_HRKCert := hrkCert;
                ev_HSKCekCert := hskCekCert |}).

Definition mock_GetEvidenceContext (ctx : Context_) (pubKeyDigest : bytes)
  : stM (bytes * MockEvidenceProvider) (option CSVEvidenceExtension) :=
  check_ctx ctx (mock_GetEvidence pubKeyDigest).

Definition mock_TrustedHRKCert (m : MockEvidenceProvider) : bytes := mp_HRKCert m.
Definition mock_GetMeasurementHex (m : MockEvidenceProvider) : string := mp_MeasurementHex m.

Definition MockProvider : EvidenceProvider MockEvidenceProvider := {|
  ep_GetEvidence := mock_GetEvidence;
  ep_GetMeasurementHex := fun s => (Ok (mock_GetMeasurementHex s.2), s);
  ep_GetEvidenceContext := Some mock_GetEvidenceContext;
  ep_TrustedHRKCert := Some mock_TrustedHRKCert
|}.
End mock.

(** ** The hardware provider *)

Record HygonHardwareProvider := {
  hh_DevicePath : string;
  hh_HRKCertPath : string;
  hh_HSKCekCertPath : string
}.

Definition NewHygonHardwareProvider (devicePath hrkPath hskCekPath : string) : HygonHardwareProvider :=
  {| hh_DevicePath := if bool_decide (devicePath = EmptyString) then "/dev/csv-guest" else devicePath;
     hh_HRKCertPath := hrkPath; hh_HSKCekCertPath := hskCekPath |}.

Section hygon.
Context `{SM3} (fs : FS).

Definition readCertFile (path : string) (size : Z) : result bytes :=
  data ← os_ReadFile fs path;
  reject_if zlen data <? size
    with Errorf "certificate file %s is %d bytes, need at least %d"
           [FStr path; FInt (zlen data); FInt size];
  gslice data 0 size.

Definition hygon_TrustedHRKCert (h : HygonHardwareProvider) : bytes :=
  if bool_decide (hh_HRKCertPath h = EmptyString) then []
  else match readCertFile (hh_HRKCertPath h) HrkCertSize with Ok data => data | _ => [] end.

(** A certificate file, when a path is configured. *)
Definition optional_cert (path : string) (size : Z) : result bytes :=
  if bool_decide (path = EmptyString) then Ok [] else readCertFile path size.

Section device.
Context {W : Type} (ops : platformOps W) (env_userdata : string).

Definition hygon_GetEvidence (h : HygonHardwareProvider) (pubKeyDigest : bytes)
  : stM (bytes * W) (option CSVEvidenceExtension) := fun '(rnd, w) =>
  let userData := copy_at (zeros UserDataSize) 0 32 pubKeyDigest in
  let rand_Reader := (rnd, io_EOF) in
  let client := NewClient rand_Reader ops
    [Some (WithDevicePath (hh_DevicePath h)); Some (WithUserData userData)] in
  (nonce ← on_fst (fun rnd => read_full_from NonceSize rnd io_EOF)
             <?> "generate hardware attestation nonce: %w";
   reportBuf ← on_snd (fun w =>
       let '(r, (buf, w')) := GetAttestationReportIOCTL rand_Reader ops env_userdata (Some client) nonce
                                (zeros ReportSize, w) in
       (r ≫= (fun _ => Ok buf), w')) <?> "fetch attestation report from hardware: %w";
   hrkCert ← lift (optional_cert (hh_HRKCertPath h) HrkCertSize) <?> "read hrk cert: %w";
   hskCekCert ← lift (optional_cert (hh_HSKCekCertPath h) HskCekSize) <?> "read hsk_cek cert: %w";
   mret (Some {| ev_Version := 1; ev_Report := reportBuf; ev_HRKCert := hrkCert;
                 ev_HSKCekCert := hskCekCert |})) (rnd, w).

Definition hygon_GetEvidenceContext (h : HygonHardwareProvider) (ctx : Context_) (pubKeyDigest : bytes)
  : stM (bytes * W) (option CSVEvidenceExtension) := check_ctx ctx (hygon_GetEvidence h pubKeyDigest).

(** Every failure is the empty string. *)
Definition hygon_GetMeasurementHex (h : HygonHardwareProvider) : stM (bytes * W) string := fun s =>
  let '(r, s') := hygon_GetEvidence h (zeros 32) s in
  match r with
  | Ok (Some ev) =>
      if zlen (ev_Report ev) <? ReportSize then (Ok EmptyString, s')
      else
        match ParseReport (ev_Report ev) None with
        | (Ok _, Some res) => (Ok (hex_EncodeToString (vr_Digest (vr_fields res))), s')
        | (Panic, _) => (Panic, s')
        | _ => (Ok EmptyString, s')
        end
  | Err _ => (Ok EmptyString, s')
  | Ok None | Panic => (Panic, s')
  end.

Definition HygonProvider (h : HygonHardwareProvider) : EvidenceProvider W := {|
  ep_GetEvidence := hygon_GetEvidence h;
  ep_GetMeasurementHex := hygon_GetMeasurementHex h;
  ep_GetEvidenceContext := Some (hygon_GetEvidenceContext h);
  ep_TrustedHRKCert := Some (fun _ => hygon_TrustedHRKCert h)
|}.
End device.
End hygon.

(** ** What a provider promises *)

(** [binds fs digest ev hrk bundle meas]: the evidence is for that public key
    digest, verifies under that root and bundle and carries that measurement. *)
Record binds `{SM2} (digest : bytes) (ev : CSVEvidenceExtension) (hrk bundle meas : bytes) : Prop := {
  bi_ok : evidence_ok (normalise_version ev);
  bi_valid fs : report_valid fs (ev_Report ev) (anchored hrk bundle);
  bi_user : take_z 32 (vr_UserData (report_fields (take_z ReportSize (ev_Report ev)))) = digest;
  bi_digest : vr_Digest (report_fields (take_z ReportSize (ev_Report ev))) = meas;
  bi_hrk : ev_HRKCert ev = hrk;
  bi_bundle : ev_HSKCekCert ev = bundle
}.

(** What the certificate code relies on: a provider in a good state answers
    with evidence that binds the digest it was given, and stays good. *)
Class EvidenceProviderLaws `{SM2} {W} (ep : EvidenceProvider W) (hrk bundle meas : bytes) := {
  ep_inv : W -> Prop;
  ep_get_law digest rnd w oev rnd' w' :
    ep_inv w -> zlen digest = 32 ->
    ep_GetEvidence ep digest (rnd, w) = (Ok oev, (rnd', w')) ->
    ep_inv w' /\ exists ev, oev = Some ev /\ binds digest ev hrk bundle meas;
  ep_get_context_law f ctx digest rnd w oev rnd' w' :
    ep_GetEvidenceContext ep = Some f ->
    ep_inv w -> zlen digest = 32 ->
    f ctx digest (rnd, w) = (Ok oev, (rnd', w')) ->
    ep_inv w' /\ exists ev, oev = Some ev /\ binds digest ev hrk bundle meas
}.

(** ** The mock provider keeps the promise *)

Section mock_laws.
Context `{SM2Laws}.

(** A mock provider after a successful construction. *)
Record mock_ready (hrk bundle meas : bytes) (m : MockEvidenceProvider) : Prop := {
  mr_authority : exists a, mp_authority m = Some a /\ authority_ok a /\ ma_hrkCert a = hrk /\
                   ma_hskCekCert a = bundle;
  mr_init : mp_initErr m = None;
  mr_hrk : mp_HRKCert m = hrk;
  mr_meas : mock_measurement (mp_MeasurementHex m) = meas
}.

Lemma mock_GetEvidence_binds hrk bundle meas digest rnd m oev rnd' m' :
  mock_ready hrk bundle meas m -> zlen digest = 32 ->
  mock_GetEvidence digest (rnd, m) = (Ok oev, (rnd', m')) ->
  m' = m /\ exists ev, oev = Some ev /\ binds digest ev hrk bundle meas.
Proof.
  intros [(a & Ha & Hok & Eh & Eb) Hi _ Hm] Hd Hg. unfold mock_GetEvidence in Hg.
  apply stM_bind_Ok in Hg as (a' & [rnd1 m1] & Hat & Hg). cbn in Hat. rewrite Hi, Ha in Hat.
  injection Hat as <- <- <-.
  apply stM_bind_Ok in Hg as (m2 & [rnd2 m3] & Hgm & Hg). cbn in Hgm. injection Hgm as <- <- <-.
  apply stM_bind_Ok in Hg as ([[r h] b] & [rnd3 m4] & Hgen & Hg).
  apply stM_map_err_Ok, on_fst_Ok in Hgen as [Hgen Em]. cbn in Hgen, Em. subst m4.
  cbn in Hg. injection Hg as <- <- <-.
  apply Generate_Ok in Hgen as (Hr & -> & ->); [|done]. split; [done|].
  eexists. split; [done|]. pose proof (report_made_anchored (fun _ => inl ErrNotExist) a digest _ r Hok Hr) as _.
  pose proof Hok as [_ _ Hrk (hsk & cek & Hb & Hsk & Hck) _].
  pose proof Hr as [L _ U D _ _ _]. split; cbn.
  - split; cbn; [done|lia|right; apply (rc_len _ _ _ _ _ Hrk)|right].
    rewrite Hb, zlen_app, (rc_len _ _ _ _ _ Hsk), (vc_len _ _ _ _ _ _ Hck). done.
  - intros fs. rewrite <-Eh, <-Eb. by eapply report_made_anchored.
  - rewrite (take_z_all ReportSize) by lia. change (vr_UserData (report_fields r)) with
      (unmasked r OffsetUserData UserDataSize). rewrite U, gcopy_prefix by (rewrite zlen_zeros, Hd; done).
    by apply take_z_app.
  - rewrite (take_z_all ReportSize) by lia. change (vr_Digest (report_fields r)) with
      (unmasked r OffsetMeasure HashSize). by rewrite D.
  - done.
  - done.
Qed.

#[global] Instance MockProvider_laws hrk bundle meas :
  EvidenceProviderLaws MockProvider hrk bundle meas.
Proof.
  exists (mock_ready hrk bundle meas).
  - intros digest rnd w oev rnd' w' Hw Hd Hg.
    destruct (mock_GetEvidence_binds _ _ _ _ _ _ _ _ _ Hw Hd Hg) as [-> He]. done.
  - intros f ctx digest rnd w oev rnd' w' [= <-] Hw Hd Hg.
    unfold mock_GetEvidenceContext, check_ctx in Hg. destruct (ctx_Err ctx); [done|].
    destruct (mock_GetEvidence_binds _ _ _ _ _ _ _ _ _ Hw Hd Hg) as [-> He]. done.
Defined.

(** A mock provider either reports its initialisation error on every call or
    answers every request with evidence for exactly the public key digest it was
    asked about, under its own root and bundle and with its configured
    measurement; its state, and so its root, never changes. *)
Theorem mock_provider_binds rnd m rnd1 digest rnd2 :
  NewMockEvidenceProvider rnd = (Ok m, rnd1) -> zlen digest = 32 ->
  (exists e, mock_GetEvidence digest (rnd2, m) =
     (Err (wrapf "initialize mock attestation authority: %w" e), (rnd2, m))) \/
  (forall oev rnd3 m', mock_GetEvidence digest (rnd2, m) = (Ok oev, (rnd3, m')) ->
     m' = m /\ exists ev, oev = Some ev /\
       binds digest ev (mock_TrustedHRKCert m) (mp_HSKCekCert m)
         (mock_measurement (mp_MeasurementHex m))).
Proof.
  intros Hn Hd. unfold NewMockEvidenceProvider in Hn.
  destruct (NewMockAttestationAuthority rnd) as [[a|e|] rnd'] eqn:E; [right|left|done]; injection Hn as <- <-.
  - apply NewMockAttestationAuthority_ok in E. intros oev rnd3 m' Hg.
    eapply mock_GetEvidence_binds; [|exact Hd|exact Hg]. split; cbn; [by exists a|done..].
  - by exists e.
Qed.
End mock_laws.

Definition toy_mock : MockEvidenceProvider :=
  get_ok (Build_MockEvidenceProvider "" [] [] None None) (@NewMockEvidenceProvider toy_sm2 (zeros 128)).1.

Lemma mock_provider_binds_witness :
  (exists e, @mock_GetEvidence toy_sm2 (zeros 32) ([], toy_mock) =
     (Err (wrapf "initialize mock attestation authority: %w" e), ([], toy_mock))) \/
  (forall oev rnd3 m', @mock_GetEvidence toy_sm2 (zeros 32) ([], toy_mock) = (Ok oev, (rnd3, m')) ->
     m' = toy_mock /\ exists ev, oev = Some ev /\
       @binds toy_sm2 (zeros 32) ev (mock_TrustedHRKCert toy_mock) (mp_HSKCekCert toy_mock)
         (mock_measurement (mp_MeasurementHex toy_mock))).
Proof.
  apply (@mock_provider_binds toy_sm2 toy_sm2_laws (zeros 128) toy_mock
           (@NewMockEvidenceProvider toy_sm2 (zeros 128)).2 (zeros 32) []); [|done].
  apply run_ok. vm_compute. reflexivity.
Defined.

(** The mock of the witnesses is ready, under this root and bundle. *)
Definition toy_hrk : bytes := ma_hrkCert toy_authority.
Definition toy_bundle : bytes := ma_hskCekCert toy_authority.
Definition toy_meas : bytes := mock_measurement DefaultMockMeasurementHex.

Lemma toy_authority_ok : @authority_ok toy_sm2 toy_sm2_laws toy_authority.
Proof.
  apply (@NewMockAttestationAuthority_ok toy_sm2 toy_sm2_laws (zeros 128) _ toy_new.2).
  apply (run_ok (@NewMockAttestationAuthority toy_sm2) (zeros 128) toy_no_authority).
  vm_compute. reflexivity.
Qed.

Lemma toy_mock_eq :
  toy_mock = Build_MockEvidenceProvider DefaultMockMeasurementHex toy_hrk toy_bundle (Some toy_authority) None.
Proof. vm_compute. reflexivity. Qed.

Lemma toy_mock_ready : @mock_ready toy_sm2 toy_sm2_laws toy_hrk toy_bundle toy_meas toy_mock.
Proof.
  rewrite toy_mock_eq. unfold toy_hrk, toy_bundle, toy_meas. split; [|reflexivity..].
  exists toy_authority. exact (conj eq_refl (conj toy_authority_ok (conj eq_refl eq_refl))).
Qed.
