(* ===== verification/Cert.v ===== *)
(** * Certificate generation (cert.go) *)

From S2P Require Import Prelude Gcm Gmsm Toy NetIO GoLib CsvReport CsvVerify CsvMock.
From S2P Require Import Asn1 Evidence KeySchedule Gx509 Provider.

Section cert.
Context `{SM3, SM2, X509}.

Definition ComputePublicKeySM3 (pubKeyDER : bytes) : bytes := gcopy (zeros 32) (sm3_Sm3Sum pubKeyDER).

Definition ParseCertificatePEM (certPEM : bytes) : result Certificate :=
  gx_ReadCertificateFromPem certPEM <?> "read certificate from pem: %w".

Section provider.
Context {W : Type}.

(** The goroutine of the last case runs to its end whoever wins the [select]. *)
Definition getEvidenceWithContext (ctx : Context_) (provider : EvidenceProvider W) (pubDigest : bytes)
  : stM (bytes * W) (option CSVEvidenceExtension) :=
  match ep_GetEvidenceContext provider with
  | Some f => f ctx pubDigest
  | None => fun s =>
      let '(r, s') := ep_GetEvidence provider pubDigest s in
      match ctx_Err ctx with
      | Some e => if ctx_first ctx then (Err e, s') else (r, s')
      | None => (r, s')
      end
  end.

Definition cert_template (serialNumber now : Z) (ext : Extension) : Template := {|
  t_SerialNumber := serialNumber;
  t_CommonName := "TEE-TLS Ephemeral SM2 Certificate";
  t_NotBefore := now - hour;
  t_NotAfter := now + 24 * hour;
  t_KeyUsage := ["DigitalSignature"; "KeyEncipherment"];
  t_ExtKeyUsage := ["ServerAuth"; "ClientAuth"];
  t_BasicConstraintsValid := true;
  t_IsCA := false;
  t_ExtraExtensions := [ext]
|}.

(** [now] is what [time.Now] returns; a nil provider is [None]. *)
Definition GenerateSM2CertificateWithEvidenceContext (ctx : Context_)
    (provider : option (EvidenceProvider W)) (now : Z) : stM (bytes * W) (bytes * bytes) :=
  match provider with
  | None => throw (ErrNew "nil evidence provider")
  | Some provider =>
      priv ← on_fst (sm2_GenerateKey : stM bytes PrivateKey) <?> "generate sm2 key: %w";
      pubDER ← lift (gx_MarshalPKIXPublicKey (priv_Pub priv)) <?> "marshal sm2 public key: %w";
      let pubDigest := ComputePublicKeySM3 pubDER in
      evidence ← getEvidenceWithContext ctx provider pubDigest <?> "get attestation evidence: %w";
      ext ← lift (EncodeCSVEvidence evidence) <?> "encode csv evidence extension: %w";
      serialNumber ← on_fst rand_Int128 <?> "generate serial number: %w";
      let template := cert_template serialNumber now ext in
      certPEM ← on_fst (gx_CreateCertificateToPem template (priv_Pub priv) priv : stM bytes bytes)
                  <?> "create certificate pem: %w";
      keyPEM ← lift (gx_WritePrivateKeyToPem priv) <?> "marshal sm2 private key pem: %w";
      mret (certPEM, keyPEM)
  end.

Definition GenerateSM2CertificateWithEvidence (provider : option (EvidenceProvider W)) (now : Z)
  : stM (bytes * W) (bytes * bytes) := GenerateSM2CertificateWithEvidenceContext Background provider now.
End provider.

(** The loop over [cert.Extensions] in verifier.go: the first evidence. *)
Fixpoint find_evidence_ext (exts : list Extension) : option bytes :=
  match exts with
  | [] => None
  | e :: exts' => if bool_decide (ext_Id e = OIDCSVEvidence) then Some (ext_Value e)
                  else find_evidence_ext exts'
  end.

Lemma find_evidence_ext_skip pre exts :
  Forall (fun e => take 3 (ext_Id e) = [2; 5; 29]) pre ->
  find_evidence_ext (pre ++ exts) = find_evidence_ext exts.
Proof.
  induction pre as [|e pre IH]; [done|]. intros [He Hp]%Forall_cons. cbn [app find_evidence_ext].
  rewrite bool_decide_eq_false_2; [by apply IH|]. intros E. by rewrite E in He.
Qed.
End cert.

Lemma ComputePublicKeySM3_eq `{SM3Laws} der : ComputePublicKeySM3 der = sm3_Sm3Sum der.
Proof. unfold ComputePublicKeySM3. apply gcopy_all. rewrite sm3_len, zlen_zeros. done. Qed.

(** ** What is generated *)

Section generated.
Context `{SM3Laws, Hlaws : X509Laws}.

(** A certificate and key for the key pair [k], with evidence [ev] that binds
    its public key. *)
Record cert_for (now : Z) (certPEM keyPEM : bytes) (k : PrivateKey) (cert : Certificate)
    (ev : CSVEvidenceExtension) (hrk bundle meas : bytes) : Prop := {
  cf_key : sm2_key k;
  cf_nonempty : 0 < zlen certPEM /\ 0 < zlen keyPEM;
  cf_cert : gx_ReadCertificateFromPem certPEM = Ok cert;
  cf_priv : gx_ReadPrivateKeyFromPem keyPEM = Ok k;
  cf_pub : extractSM2PublicKey (c_PublicKey cert) = Ok (priv_Pub k);
  cf_before : c_NotBefore cert <= now - hour;
  cf_after : now + 24 * hour - second < c_NotAfter cert;
  cf_ext : find_evidence_ext (c_Extensions cert) = Some (marshal_evidence (normalise_version ev));
  cf_binds : binds (sm3_Sm3Sum (c_RawSubjectPublicKeyInfo cert)) ev hrk bundle meas
}.

Context {W : Type} (ep : EvidenceProvider W) (hrk bundle meas : bytes)
  `{Hep : !EvidenceProviderLaws ep hrk bundle meas}.

Lemma getEvidence_law ctx digest rnd w oev rnd' w' :
  ep_inv w -> zlen digest = 32 ->
  getEvidenceWithContext ctx ep digest (rnd, w) = (Ok oev, (rnd', w')) ->
  ep_inv w' /\ exists ev, oev = Some ev /\ binds digest ev hrk bundle meas.
Proof.
  intros Hw Hd. unfold getEvidenceWithContext.
  destruct (ep_GetEvidenceContext ep) as [f|] eqn:Ef.
  - by eapply ep_get_context_law.
  - destruct (ep_GetEvidence ep digest (rnd, w)) as [r s] eqn:E. destruct (ctx_Err ctx).
    + destruct (ctx_first ctx); [done|]. intros [= -> ->]. by eapply ep_get_law.
    + intros [= -> ->]. by eapply ep_get_law.
Qed.

Lemma Generate_cert ctx now rnd w certPEM keyPEM rnd' w' :
  ep_inv w ->
  GenerateSM2CertificateWithEvidenceContext ctx (Some ep) now (rnd, w) = (Ok (certPEM, keyPEM), (rnd', w')) ->
  ep_inv w' /\ exists k cert ev, cert_for now certPEM keyPEM k cert ev hrk bundle meas.
Proof.
  intros Hw Hg. cbn [GenerateSM2CertificateWithEvidenceContext] in Hg.
  apply stM_bind_Ok in Hg as (k & [r1 w1] & Hk & Hg).
  apply stM_map_err_Ok, on_fst_Ok in Hk as [Hk Ew]. cbn in Hk, Ew. subst w1.
  apply stM_bind_Ok in Hg as (der & s2 & [Hm ->]%stM_map_err_Ok%lift_Ok & Hg).
  apply stM_bind_Ok in Hg as (oev & [r3 w3] & Hev & Hg). apply stM_map_err_Ok in Hev.
  apply sm2_generate_key in Hk.
  apply getEvidence_law in Hev as (Hw3 & ev & -> & Hb);
    [|done|by rewrite ComputePublicKeySM3_eq, sm3_len].
  apply stM_bind_Ok in Hg as (ext & s4 & [He ->]%stM_map_err_Ok%lift_Ok & Hg).
  apply stM_bind_Ok in Hg as (sn & [r5 w5] & Hsn & Hg).
  apply stM_map_err_Ok, on_fst_Ok in Hsn as [_ Ew]. cbn in Ew. subst w5.
  apply stM_bind_Ok in Hg as (pem & [r6 w6] & Hc & Hg).
  apply stM_map_err_Ok, on_fst_Ok in Hc as [Hc Ew]. cbn in Hc, Ew. subst w6.
  apply stM_bind_Ok in Hg as (kpem & s7 & [Hkp ->]%stM_map_err_Ok%lift_Ok & Hg).
  injection Hg as <- <- <- <-. split; [done|].
  apply gx_create_read in Hc as (Hne & cert & pre & Hr & Hm' & Hp & Hx & Hpre & Hnb & Hna); [|done].
  apply gx_key_round_trip in Hkp as (Hkne & Hkr); [|done].
  rewrite Hm' in Hm. injection Hm as <-. rewrite ComputePublicKeySM3_eq in Hb.
  exists k, cert, ev. split; try done.
  - cbn in Hnb. lia.
  - cbn in Hna. lia.
  - rewrite Hx, find_evidence_ext_skip by done. cbn. unfold EncodeCSVEvidence in He.
    apply bind_Ok in He as ([] & _ & He). injection He as <-. cbn. done.
Qed.
End generated.
