(* ===== verification/Config.v ===== *)
(** * Configuration (config.go)

    [Config] with its validation and defaults, and the certificate cache.  The
    cache is a state of its own; the two lock phases of a lookup are kept, each
    with its own readings of the clock.  A call is one step here; SharedCache
    takes it apart. *)

From S2P Require Import Prelude Gcm Gmsm Toy NetIO GoLib CsvReport CsvVerify CsvMock.
From S2P Require Import Asn1 Evidence KeySchedule Gx509 Provider Cert.

Definition defaultTimeout : Z := 10 * second.

Definition AttestationMode : Type := string.
Definition ModeStrict : AttestationMode := "strict".
Definition ModePermissive : AttestationMode := "permissive".

Record Config (W : Type) := {
  cfg_Mode : AttestationMode;
  cfg_EvidenceProvider : option (EvidenceProvider W);
  cfg_ExpectedMeasurements : list string;
  cfg_VerifyMutualAttestation : bool;
  cfg_Timeout : Z;
  cfg_InsecureSkipAttestationVerify : bool;
  cfg_CertPEM : bytes;
  cfg_KeyPEM : bytes;
  cfg_HRKCertPath : string;
  cfg_HSKCekCertPath : string;
  cfg_TrustedHRKCert : bytes;
  cfg_CertDir : string;
  cfg_CertCacheTTL : Z
}.
Arguments cfg_Mode {W} _.
Arguments cfg_EvidenceProvider {W} _.
Arguments cfg_ExpectedMeasurements {W} _.
Arguments cfg_VerifyMutualAttestation {W} _.
Arguments cfg_Timeout {W} _.
Arguments cfg_InsecureSkipAttestationVerify {W} _.
Arguments cfg_CertPEM {W} _.
Arguments cfg_KeyPEM {W} _.
Arguments cfg_HRKCertPath {W} _.
Arguments cfg_HSKCekCertPath {W} _.
Arguments cfg_TrustedHRKCert {W} _.
Arguments cfg_CertDir {W} _.
Arguments cfg_CertCacheTTL {W} _.
Arguments Build_Config {W} _ _ _ _ _ _ _ _ _ _ _ _ _.

(** [&Config{}] *)
Definition zero_Config {W} : Config W :=
  Build_Config EmptyString None [] false 0 false [] [] EmptyString EmptyString [] EmptyString 0.

Definition is_empty (s : string) : bool := bool_decide (s = EmptyString).
Definition no_bytes (b : bytes) : bool := zlen b =? 0.

(** ** Validation *)

Fixpoint validate_from (i : Z) (measurements : list string) : result unit :=
  let wantLen := HashSize * 2 in
  match measurements with
  | [] => Ok tt
  | m :: measurements' =>
      reject_if negb (slen m =? wantLen)
        with Errorf "teetls: ExpectedMeasurements[%d] is %d characters, want %d hex characters (a 32-byte SM3 digest): %q"
               [FInt i; FInt (slen m); FInt wantLen; FStr m];
      match hex_DecodeString m with
      | Err e => Err (Errorf "teetls: ExpectedMeasurements[%d] is not valid hex: %q: %w" [FInt i; FStr m; FWrap e])
      | Panic => Panic
      | Ok _ => validate_from (i + 1) measurements'
      end
  end.
Definition validateExpectedMeasurements (measurements : list string) : result unit :=
  validate_from 0 measurements.

Section config.
Context {W : Type}.
Implicit Types c : Config W.

Definition Validate c : result unit :=
  reject_if negb (is_empty (cfg_Mode c)) && negb (bool_decide (cfg_Mode c = ModeStrict))
            && negb (bool_decide (cfg_Mode c = ModePermissive))
    with Errorf "invalid attestation mode: %q (must be %q or %q)"
           [FStr (cfg_Mode c); FStr ModeStrict; FStr ModePermissive];
  reject_if negb (Bool.eqb (no_bytes (cfg_CertPEM c)) (no_bytes (cfg_KeyPEM c)))
    with ErrNew "teetls: CertPEM and KeyPEM must be configured together";
  reject_if negb (Bool.eqb (is_empty (cfg_HRKCertPath c)) (is_empty (cfg_HSKCekCertPath c)))
    with ErrNew "teetls: HRKCertPath and HSKCekCertPath must be configured together";
  validateExpectedMeasurements (cfg_ExpectedMeasurements c).

(** [c.mode()] and [c.timeout()] *)
Definition mode c : AttestationMode := if is_empty (cfg_Mode c) then ModeStrict else cfg_Mode c.
Definition timeout c : Z := if cfg_Timeout c <=? 0 then defaultTimeout else cfg_Timeout c.

(** ** The certificate cache *)

Record CertCache := {
  cachedCertPEM : bytes;
  cachedKeyPEM : bytes;
  cachedAt : Z;
  cachedNotAfter : Z
}.
Definition empty_cache : CertCache := Build_CertCache [] [] 0 0.

(** [since] and [now] are the clock readings of [time.Since] and [time.Now]. *)
Definition cachedCertificateValidLocked (k : CertCache) (ttl since now : Z) : bool :=
  if no_bytes (cachedCertPEM k) || no_bytes (cachedKeyPEM k) then false
  else if ttl <=? since - cachedAt k then false
  else if cachedNotAfter k =? 0 then false
  else now + minute <? cachedNotAfter k.

Definition cache_ttl c : Z := if cfg_CertCacheTTL c <=? 0 then hour else cfg_CertCacheTTL c.

Section generate.
Context `{SM3, SM2, X509}.

(** [clock i] is the i-th reading of the clock during the call. *)
Definition GetOrGenerateCertificateContext c (ctx : Context_) (clock : nat -> Z)
  : stM (CertCache * (bytes * W)) (bytes * bytes) :=
  if negb (no_bytes (cfg_CertPEM c)) && negb (no_bytes (cfg_KeyPEM c))
  then mret (cfg_CertPEM c, cfg_KeyPEM c)
  else match cfg_EvidenceProvider c with
  | None => throw (ErrNew "teetls: requires either CertPEM/KeyPEM or EvidenceProvider")
  | Some provider =>
      let ttl := cache_ttl c in
      k ← (fun s => (Ok s.1, s));
      if cachedCertificateValidLocked k ttl (clock 0%nat) (clock 1%nat)
      then mret (cachedCertPEM k, cachedKeyPEM k)
      else
        k ← (fun s => (Ok s.1, s));
        if cachedCertificateValidLocked k ttl (clock 2%nat) (clock 3%nat)
        then mret (cachedCertPEM k, cachedKeyPEM k)
        else
          '(certPEM, keyPEM) ← on_snd (GenerateSM2CertificateWithEvidenceContext ctx (Some provider) (clock 4%nat))
            <?> "generate certificate: %w";
          cert ← lift (ParseCertificatePEM certPEM) <?> "parse generated certificate: %w";
          _ ← on_fst (put_st (Build_CertCache certPEM keyPEM (clock 5%nat) (c_NotAfter cert)));
          mret (certPEM, keyPEM)
  end.

Definition GetOrGenerateCertificate c (clock : nat -> Z)
  : stM (CertCache * (bytes * W)) (bytes * bytes) :=
  GetOrGenerateCertificateContext c Background clock.
End generate.

(** ** Validation: facts *)

(** A whitelist entry: the hex form of a 32-byte digest, in any letter case. *)
Definition measurement_ok (m : string) : Prop :=
  slen m = HashSize * 2 /\ is_ok (hex_DecodeString m) = true.

Lemma validate_from_rdecides i ms :
  rdecides (validate_from i ms) (Forall measurement_ok ms) tt.
Proof.
  revert i. induction ms as [|m ms IH]; intros i; cbn [validate_from].
  - by left.
  - eapply rdecides_iff; [symmetry; apply Forall_cons|].
    destruct (Z.eqb_spec (slen m) (HashSize * 2)) as [Hl|Hl]; cbn [negb].
    2: { right. split; [by intros [[? _] _]|by eexists]. }
    pose proof (hex_decode_no_panic (of_string m)) as Hp. unfold hex_DecodeString.
    destruct (hex_decode (of_string m)) as [d|e|] eqn:E; [| |done].
    + destruct (IH (i + 1)) as [[HF ->]|[HF [e ->]]]; [left|right].
      * split; [split; [split; [done|by unfold hex_DecodeString; rewrite E]|done]|done].
      * split; [by intros [_ ?]|by exists e].
    + right. split; [|by eexists]. intros [[_ Hm] _]. unfold hex_DecodeString in Hm. by rewrite E in Hm.
Qed.

Record config_ok c : Prop := {
  co_mode : cfg_Mode c = EmptyString \/ cfg_Mode c = ModeStrict \/ cfg_Mode c = ModePermissive;
  co_pem : cfg_CertPEM c = [] <-> cfg_KeyPEM c = [];
  co_paths : cfg_HRKCertPath c = EmptyString <-> cfg_HSKCekCertPath c = EmptyString;
  co_meas : Forall measurement_ok (cfg_ExpectedMeasurements c)
}.

Lemma no_bytes_iff b : no_bytes b = true <-> b = [].
Proof.
  unfold no_bytes. rewrite Z.eqb_eq. split; [apply zlen_nil_inv|by intros ->].
Qed.

Lemma is_empty_iff s : is_empty s = true <-> s = EmptyString.
Proof. unfold is_empty. apply bool_decide_eq_true. Qed.

Lemma eqb_iff_false a b (P Q : Prop) :
  (a = true <-> P) -> (b = true <-> Q) -> (negb (Bool.eqb a b) = false <-> (P <-> Q)).
Proof.
  intros Ha Hb. rewrite negb_false_iff, Bool.eqb_true_iff, <-Ha, <-Hb.
  destruct a, b; split; try done; intros [H1 H2]; [symmetry|]; auto.
Qed.

Lemma Validate_rdecides c : rdecides (Validate c) (config_ok c) tt.
Proof.
  eapply rdecides_iff; [|unfold Validate;
    apply rdecides_throw_if; [reflexivity|intros _];
    apply rdecides_throw_if; [apply eqb_iff_false; apply no_bytes_iff|intros _];
    apply rdecides_throw_if; [apply eqb_iff_false; apply is_empty_iff|intros _];
    apply validate_from_rdecides].
  assert (negb (is_empty (cfg_Mode c)) && negb (bool_decide (cfg_Mode c = ModeStrict))
    && negb (bool_decide (cfg_Mode c = ModePermissive)) = false <->
    cfg_Mode c = EmptyString \/ cfg_Mode c = ModeStrict \/ cfg_Mode c = ModePermissive) as Hm.
  { unfold is_empty. repeat case_bool_decide; cbn; split; try done; auto. intros [?|[?|?]]; done. }
  rewrite Hm. split; [intros (? & ? & ? & ?); by split|intros [? ? ? ?]; by split_and!].
Qed.

End config.

(** Hex strings of either case decode to the digest they spell. *)
Lemma hex_value_lower ch : hex_value (to_lower ch) = hex_value ch.
Proof.
  unfold to_lower. destruct ((65 <=? byte_to_Z ch) && (byte_to_Z ch <=? 90)) eqn:E; [|done].
  zbool. unfold hex_value. rewrite byte_to_of_Z, Z.mod_small by lia.
  repeat match goal with |- context [?a <=? ?b] => destruct (Z.leb_spec a b); try lia end; cbn;
    try done; f_equal; lia.
Qed.

Lemma hex_digit_value ch v : hex_value ch = Some v -> hex_digit v = to_lower ch.
Proof.
  pose proof (byte_to_Z_range ch). unfold hex_value, hex_digit, to_lower.
  repeat match goal with |- context [?a <=? ?b] => destruct (Z.leb_spec a b); try lia end; cbn;
    intros Hv; simplify_eq; apply byte_to_Z_inj; rewrite ?byte_to_of_Z;
    repeat match goal with |- context [?a <? ?b] => destruct (Z.ltb_spec a b); try lia end;
    rewrite ?Z.mod_small by lia; lia.
Qed.

Lemma hex_value_range ch v : hex_value ch = Some v -> 0 <= v < 16.
Proof.
  unfold hex_value.
  repeat match goal with |- context [?a <=? ?b] => destruct (Z.leb_spec a b) end; cbn;
    intros; simplify_eq; lia.
Qed.

Lemma hex_decode_spells l d : hex_decode l = Ok d -> hex_encode d = to_lower <$> l.
Proof.
  enough (forall n l d, (length l < n)%nat -> hex_decode l = Ok d -> hex_encode d = to_lower <$> l) as Hn
    by eauto. clear.
  induction n as [|n IH]; intros [|a [|b l]] d Hn; [cbn in Hn; lia..| | |]; cbn [hex_decode]; intros Hd.
  - by inv_ok.
  - by destruct (hex_value a).
  - destruct (hex_value a) as [x|] eqn:Ea; [|done]. destruct (hex_value b) as [y|] eqn:Eb; [|done].
    inv_ok. pose proof (hex_value_range _ _ Ea). pose proof (hex_value_range _ _ Eb).
    cbn [hex_encode fmap list_fmap]. rewrite byte_to_of_Z, Z.mod_small by lia.
    replace ((16 * x + y) / 16) with x by (Z.to_euclidean_division_equations; lia).
    replace ((16 * x + y) mod 16) with y by (Z.to_euclidean_division_equations; lia).
    rewrite (hex_digit_value _ _ Ea), (hex_digit_value _ _ Eb). do 2 f_equal.
    apply IH; [cbn in Hn; lia|done].
Qed.

Lemma hex_decode_lower l : is_ok (hex_decode (to_lower <$> l)) = is_ok (hex_decode l).
Proof.
  enough (forall n l, (length l < n)%nat ->
    is_ok (hex_decode (to_lower <$> l)) = is_ok (hex_decode l)) as Hn by eauto. clear.
  induction n as [|n IH]; intros [|a [|b l]] Hn; [cbn in Hn; lia..|done| |].
  - cbn. rewrite hex_value_lower. by destruct (hex_value a).
  - cbn [fmap list_fmap hex_decode]. rewrite !hex_value_lower.
    destruct (hex_value a); [|done]. destruct (hex_value b); [|done].
    specialize (IH l). change (list_fmap _ _ to_lower l) with (to_lower <$> l).
    destruct (hex_decode (to_lower <$> l)), (hex_decode l); cbn in *; auto with lia.
Qed.

(** A whitelist entry against the digest of a report, as the verifier compares. *)
Definition measurement_matches (entry : string) (digest : bytes) : bool :=
  strings_EqualFold entry (strings_ToLower (hex_EncodeToString digest)).

Lemma measurement_matches_iff m d :
  measurement_matches m d = true <-> to_lower <$> of_string m = hex_encode d.
Proof.
  unfold measurement_matches, strings_EqualFold, strings_ToLower, hex_EncodeToString.
  rewrite !of_to_string, !to_lower_hex_encode. apply bool_decide_eq_true.
Qed.

(** A whitelist entry is accepted exactly when it can match: the validator
    refuses the entries that no report digest equals and no others, whatever
    their letter case, and the digest an entry matches is the one it spells. *)
Theorem whitelist_entry_reachable m :
  (is_ok (validateExpectedMeasurements [m]) = true <->
     exists digest, zlen digest = HashSize /\ measurement_matches m digest = true) /\
  (forall digest, measurement_matches m digest = true -> hex_DecodeString m = Ok digest).
Proof.
  assert (forall d, measurement_matches m d = true -> is_ok (hex_DecodeString m) = true) as Hok.
  { intros d Hm%measurement_matches_iff. unfold hex_DecodeString.
    by rewrite <-hex_decode_lower, Hm, hex_decode_encode. }
  split.
  - unfold validateExpectedMeasurements. transitivity (measurement_ok m).
    { destruct (validate_from_rdecides 0 [m]) as [[HF ->]|[HF [e ->]]]; split; try done.
      - intros _. by inversion_clear HF.
      - intros Hm. destruct HF. constructor; [done|constructor]. }
    split.
    + intros [Hl Hd]. unfold hex_DecodeString in Hd.
      destruct (hex_decode (of_string m)) as [d| |] eqn:E; [|done..].
      exists d. split; [unfold slen in Hl; apply hex_decode_Ok_len in E; lia|].
      apply measurement_matches_iff. symmetry. by apply hex_decode_spells.
    + intros (d & Hl & Hm). split; [|by eapply Hok].
      apply measurement_matches_iff in Hm. unfold slen.
      rewrite <-(zlen_fmap to_lower), Hm, zlen_hex_encode. lia.
  - intros d Hm. pose proof (Hok d Hm) as Hd. unfold hex_DecodeString in *.
    destruct (hex_decode (of_string m)) as [d'| |] eqn:E; [|done..].
    f_equal. apply hex_decode_spells in E. apply measurement_matches_iff in Hm.
    rewrite <-E in Hm. apply (f_equal hex_decode) in Hm. rewrite !hex_decode_encode in Hm.
    by injection Hm.
Qed.

(** [Validate] accepts exactly the configurations with a known (or unset)
    mode, a certificate and key given together, HRK and HSK/CEK paths given
    together and a whitelist of well-formed digests; it panics on none. *)
Theorem Validate_outcome {W} (c : Config W) :
  no_panic (Validate c) /\ (Validate c = Ok tt <-> config_ok c).
Proof.
  pose proof (Validate_rdecides c) as Hd. split; [by eapply rdecides_no_panic|].
  rewrite (rdecides_Ok _ _ _ _ Hd). tauto.
Qed.

(** ** The cache *)

Section cache.
Context `{SM3Laws, Hlaws : X509Laws} {W : Type} (c : Config W) (provider : EvidenceProvider W).
Context (Hpem : cfg_CertPEM c = []) (Hprov : cfg_EvidenceProvider c = Some provider).

Lemma GetOrGenerate_cases ctx clock k st cert key k' st' :
  GetOrGenerateCertificateContext c ctx clock (k, st) = (Ok (cert, key), (k', st')) ->
  (k' = k /\ st' = st /\ cert = cachedCertPEM k /\ key = cachedKeyPEM k /\
   (cachedCertificateValidLocked k (cache_ttl c) (clock 0%nat) (clock 1%nat) = true \/
    cachedCertificateValidLocked k (cache_ttl c) (clock 2%nat) (clock 3%nat) = true)) \/
  (exists x, GenerateSM2CertificateWithEvidenceContext ctx (Some provider) (clock 4%nat) st
               = (Ok (cert, key), st') /\
   ParseCertificatePEM cert = Ok x /\ k' = Build_CertCache cert key (clock 5%nat) (c_NotAfter x)).
Proof.
  unfold GetOrGenerateCertificateContext. rewrite Hpem, Hprov. cbn [negb no_bytes].
  change (no_bytes []) with true. cbn [negb andb]. intros Hg.
  apply stM_bind_Ok in Hg as (k0 & s1 & [= <- <-] & Hg). cbn [fst] in Hg.
  destruct (cachedCertificateValidLocked k _ (clock 0%nat) _) eqn:E1.
  { injection Hg as <- <- <- <-. left. split_and!; auto. }
  apply stM_bind_Ok in Hg as (k0 & s1 & [= <- <-] & Hg). cbn [fst] in Hg.
  destruct (cachedCertificateValidLocked k _ (clock 2%nat) _) eqn:E2.
  { injection Hg as <- <- <- <-. left. split_and!; auto. }
  apply stM_bind_Ok in Hg as ([cp kp] & [k2 st2] & Hgen & Hg).
  apply stM_map_err_Ok, on_snd_Ok in Hgen as [Hgen Ek]. cbn in Hgen, Ek. subst k2.
  apply stM_bind_Ok in Hg as (x & s3 & [Hx ->]%stM_map_err_Ok%lift_Ok & Hg).
  injection Hg as <- <- <- <-. right. by exists x.
Qed.

Lemma cache_valid_iff k ttl since now :
  cachedCertificateValidLocked k ttl since now = true <->
  cachedCertPEM k <> [] /\ cachedKeyPEM k <> [] /\ since - cachedAt k < ttl /\
  cachedNotAfter k <> 0 /\ now + minute < cachedNotAfter k.
Proof.
  unfold cachedCertificateValidLocked.
  pose proof (no_bytes_iff (cachedCertPEM k)) as Hb1. pose proof (no_bytes_iff (cachedKeyPEM k)) as Hb2.
  destruct (no_bytes (cachedCertPEM k)); cbn [orb].
  { split; [done|]. intros (Hn & _). by destruct Hn; apply Hb1. }
  destruct (no_bytes (cachedKeyPEM k)).
  { split; [done|]. intros (_ & Hn & _). by destruct Hn; apply Hb2. }
  assert (cachedCertPEM k <> []) by (intros E; by apply Hb1 in E).
  assert (cachedKeyPEM k <> []) by (intros E; by apply Hb2 in E).
  destruct (Z.leb_spec ttl (since - cachedAt k)); [split; [done|lia]|].
  destruct (Z.eqb_spec (cachedNotAfter k) 0); [split; [done|lia]|].
  rewrite Z.ltb_lt. split; [intros; split_and!; done|by intros (_ & _ & _ & _ & ?)].
Qed.

Lemma cache_ttl_pos : 0 < cache_ttl c.
Proof. unfold cache_ttl. destruct (Z.leb_spec (cfg_CertCacheTTL c) 0); [done|lia]. Qed.

Context (hrk bundle meas : bytes) `{Hep : !EvidenceProviderLaws provider hrk bundle meas}.

End cache.

(** A configuration whose certificates come from the mock. *)
Definition toy_config : Config MockEvidenceProvider :=
  Build_Config EmptyString (Some (@MockProvider toy_sm2)) [DefaultMockMeasurementHex] false 0 false
    [] [] EmptyString EmptyString [] EmptyString 0.
Definition toy_time : Z := 1000 * hour.
Definition toy_entropy : bytes := zeros 200.

Abbreviation toy_generate_at ctx clock s :=
  (@GetOrGenerateCertificateContext MockEvidenceProvider toy_sm3 toy_sm2 toy_x509 toy_config ctx clock s).

