(* ===== verification/SharedCache.v ===== *)
(** * One configuration for many connections (config.go)

    A [Config] is shared by the connections of a listener, each of which asks it
    for a certificate from its own goroutine.  Here a call of
    [GetOrGenerateCertificateContext] is a sequence of small steps over the
    [RWMutex], the four fields of the cache and the provider; a step reads the
    clock at the times [t1] and [t2].  The definition in Config is the
    specification: the goroutines behave as if every call were made at one
    moment, with clock readings from the time of the call, and the provider is
    asked again only when the cached certificate is of no more use. *)

From Stdlib Require Import Sorting.Sorted.
From stdpp Require Import functions.
From S2P Require Import Prelude Gcm Gmsm Toy NetIO GoLib CsvReport CsvVerify CsvMock.
From S2P Require Import Asn1 Evidence KeySchedule Gx509 Provider Cert Config.

#[local] Set Warnings "-clear-no-such-hyp".

(** ** Steps *)

Abbreviation pair_result := (result (bytes * bytes)).

Inductive CachePC :=
| CaIdle
| CaStart (ctx : Context_)                      (* a configured pair, a nil provider *)
| CaRLock (ctx : Context_)                      (* certMu.RLock() *)
| CaLook (ctx : Context_)
| CaMiss (ctx : Context_)                       (* certMu.RUnlock(), nothing found *)
| CaLock (ctx : Context_)                       (* certMu.Lock() *)
| CaCheck (ctx : Context_)                      (* the second look *)
| CaCopyCert (w : bool)                         (* for a holder of RLock or Lock *)
| CaCopyKey (w : bool) (certPEM : bytes)
| CaRUnlock (r : pair_result)
| CaGenerate (ctx : Context_)
| CaParse (certPEM keyPEM : bytes)
| CaSetCert (certPEM keyPEM : bytes) (notAfter : Z)
| CaSetKey (certPEM keyPEM : bytes) (notAfter : Z)
| CaSetAt (certPEM keyPEM : bytes) (notAfter : Z)
| CaSetNotAfter (certPEM keyPEM : bytes) (notAfter : Z)
| CaUnlock (r : pair_result)                    (* the deferred Unlock *)
| CaFinished (r : pair_result).

Record RWMutex := { rw_readers : gset nat; rw_writer : option nat }.

(** What the goroutines share: the cache, the entropy and the provider's state,
    the mutex, and the caches that have been stored (which the program does not
    record), the last first. *)
Record SharedCache (W : Type) := {
  sc_cache : CertCache;
  sc_src : bytes * W;
  sc_mu : RWMutex;
  sc_stores : list CertCache
}.
Arguments sc_cache {W} _.
Arguments sc_src {W} _.
Arguments sc_mu {W} _.
Arguments sc_stores {W} _.
Arguments Build_SharedCache {W} _ _ _ _.

Section steps.
Context `{SM3, SM2, X509} {W : Type} (c : Config W).
Implicit Types m : SharedCache W.

Definition set_cache m (k : CertCache) : SharedCache W := Build_SharedCache k (sc_src m) (sc_mu m) (sc_stores m).
Definition set_src m (src : bytes * W) : SharedCache W := Build_SharedCache (sc_cache m) src (sc_mu m) (sc_stores m).
Definition set_mu m (readers : gset nat) (writer : option nat) : SharedCache W :=
  Build_SharedCache (sc_cache m) (sc_src m) (Build_RWMutex readers writer) (sc_stores m).
Definition count_store m : SharedCache W :=
  Build_SharedCache (sc_cache m) (sc_src m) (sc_mu m) (sc_cache m :: sc_stores m).

(** [None]: the goroutine is between calls or blocked. *)
Definition cache_advance (i : nat) (t1 t2 : Z) (pc : CachePC) m : option (CachePC * SharedCache W) :=
  let k := sc_cache m in
  let mu := sc_mu m in
  let ttl := cache_ttl c in
  match pc with
  | CaIdle | CaFinished _ => None
  | CaStart ctx =>
      if negb (no_bytes (cfg_CertPEM c)) && negb (no_bytes (cfg_KeyPEM c))
      then Some (CaFinished (Ok (cfg_CertPEM c, cfg_KeyPEM c)), m)
      else match cfg_EvidenceProvider c with
      | None => Some (CaFinished (Err (ErrNew "teetls: requires either CertPEM/KeyPEM or EvidenceProvider")), m)
      | Some _ => Some (CaRLock ctx, m)
      end
  | CaRLock ctx =>
      match rw_writer mu with
      | None => Some (CaLook ctx, set_mu m ({[i]} ∪ rw_readers mu) None)
      | Some _ => None
      end
  | CaLook ctx =>
      Some (if cachedCertificateValidLocked k ttl t1 t2 then CaCopyCert false else CaMiss ctx, m)
  | CaMiss ctx => Some (CaLock ctx, set_mu m (rw_readers mu ∖ {[i]}) (rw_writer mu))
  | CaLock ctx =>
      match rw_writer mu with
      | None => if decide (rw_readers mu = ∅) then Some (CaCheck ctx, set_mu m ∅ (Some i)) else None
      | Some _ => None
      end
  | CaCheck ctx =>
      Some (if cachedCertificateValidLocked k ttl t1 t2 then CaCopyCert true else CaGenerate ctx, m)
  | CaCopyCert w => Some (CaCopyKey w (cachedCertPEM k), m)
  | CaCopyKey w certPEM =>
      let r := Ok (certPEM, cachedKeyPEM k) in
      Some (if w then CaUnlock r else CaRUnlock r, m)
  | CaRUnlock r => Some (CaFinished r, set_mu m (rw_readers mu ∖ {[i]}) (rw_writer mu))
  | CaGenerate ctx =>
      let '(r, src) := GenerateSM2CertificateWithEvidenceContext ctx (cfg_EvidenceProvider c) t1 (sc_src m) in
      Some (match r with
            | Ok (certPEM, keyPEM) => CaParse certPEM keyPEM
            | Err e => CaUnlock (Err (wrapf "generate certificate: %w" e))
            | Panic => CaUnlock Panic
            end, set_src m src)
  | CaParse certPEM keyPEM =>
      Some (match ParseCertificatePEM certPEM with
            | Ok cert => CaSetCert certPEM keyPEM (c_NotAfter cert)
            | Err e => CaUnlock (Err (wrapf "parse generated certificate: %w" e))
            | Panic => CaUnlock Panic
            end, m)
  | CaSetCert certPEM keyPEM na =>
      Some (CaSetKey certPEM keyPEM na,
            set_cache m (Build_CertCache certPEM (cachedKeyPEM k) (cachedAt k) (cachedNotAfter k)))
  | CaSetKey certPEM keyPEM na =>
      Some (CaSetAt certPEM keyPEM na,
            set_cache m (Build_CertCache (cachedCertPEM k) keyPEM (cachedAt k) (cachedNotAfter k)))
  | CaSetAt certPEM keyPEM na =>
      Some (CaSetNotAfter certPEM keyPEM na,
            set_cache m (Build_CertCache (cachedCertPEM k) (cachedKeyPEM k) t1 (cachedNotAfter k)))
  | CaSetNotAfter certPEM keyPEM na =>
      Some (CaUnlock (Ok (certPEM, keyPEM)),
            count_store (set_cache m (Build_CertCache (cachedCertPEM k) (cachedKeyPEM k) (cachedAt k) na)))
  | CaUnlock r => Some (CaFinished r, set_mu m (rw_readers mu) None)
  end.
End steps.

(** ** Runs *)

Inductive CacheEvent := CacheInvoke (i : nat) (ctx : Context_) | CacheReturn (i : nat) (r : pair_result).

Record CacheSystem (W : Type) := {
  cs_ths : nat -> CachePC;
  cs_shared : SharedCache W;
  cs_now : Z;
  cs_hist : list CacheEvent
}.
Arguments cs_ths {W} _.
Arguments cs_shared {W} _.
Arguments cs_now {W} _.
Arguments cs_hist {W} _.
Arguments Build_CacheSystem {W} _ _ _ _.

Section runs.
Context `{SM3, SM2, X509} {W : Type} (c : Config W).
Implicit Types s : CacheSystem W.

Definition cache_at_rest (k : CertCache) (src : bytes * W) (now : Z) : CacheSystem W :=
  Build_CacheSystem (fun _ => CaIdle) (Build_SharedCache k src (Build_RWMutex ∅ None) []) now [].

(** The clock goes on with the steps and never back. *)
Inductive cache_step s : CacheSystem W -> Prop :=
| cache_invoke i ctx :
    cs_ths s i = CaIdle ->
    cache_step s (Build_CacheSystem (<[i:=CaStart ctx]> (cs_ths s)) (cs_shared s) (cs_now s)
                    (cs_hist s ++ [CacheInvoke i ctx]))
| cache_adv i t1 t2 pc m :
    cs_now s <= t1 -> t1 <= t2 -> cache_advance c i t1 t2 (cs_ths s i) (cs_shared s) = Some (pc, m) ->
    cache_step s (Build_CacheSystem (<[i:=pc]> (cs_ths s)) m t2 (cs_hist s))
| cache_return i r :
    cs_ths s i = CaFinished r ->
    cache_step s (Build_CacheSystem (<[i:=CaIdle]> (cs_ths s)) (cs_shared s) (cs_now s)
                    (cs_hist s ++ [CacheReturn i r])).

(** A schedule, to run the system on. *)
Inductive CacheAction := DoAsk (i : nat) (ctx : Context_) | DoStep (i : nat) (t : Z) | DoAnswer (i : nat).

Definition cache_act (x : CacheAction) s : option (CacheSystem W) :=
  match x with
  | DoAsk i ctx =>
      match cs_ths s i with
      | CaIdle => Some (Build_CacheSystem (<[i:=CaStart ctx]> (cs_ths s)) (cs_shared s) (cs_now s)
                          (cs_hist s ++ [CacheInvoke i ctx]))
      | _ => None
      end
  | DoStep i t =>
      if decide (cs_now s <= t) then
        match cache_advance c i t t (cs_ths s i) (cs_shared s) with
        | Some (pc, m) => Some (Build_CacheSystem (<[i:=pc]> (cs_ths s)) m t (cs_hist s))
        | None => None
        end
      else None
  | DoAnswer i =>
      match cs_ths s i with
      | CaFinished r => Some (Build_CacheSystem (<[i:=CaIdle]> (cs_ths s)) (cs_shared s) (cs_now s)
                                (cs_hist s ++ [CacheReturn i r]))
      | _ => None
      end
  end.
Definition cache_acts (l : list CacheAction) s : option (CacheSystem W) :=
  foldl (fun o x => o ≫= cache_act x) (Some s) l.

Lemma cache_acts_steps l s s' : cache_acts l s = Some s' -> rtc cache_step s s'.
Proof.
  revert s s'. induction l as [|x l IH] using rev_ind; intros s s'; unfold cache_acts.
  - intros [= ->]. apply rtc_refl.
  - rewrite foldl_snoc. destruct (foldl _ _ l) as [s1|] eqn:E; [|done]. intros Hx.
    eapply rtc_r; [by apply IH|]. destruct x as [i ctx|i t|i]; cbn in Hx.
    + destruct (cs_ths s1 i) eqn:Ei; simplify_eq. by constructor.
    + destruct (decide _); [|done]. destruct (cache_advance _ _ _ _ _ _) as [[pc m]|] eqn:Ea; simplify_eq.
      by apply cache_adv with t.
    + destruct (cs_ths s1 i) eqn:Ei; simplify_eq. by constructor.
Qed.
End runs.

(** ** The specification *)

Inductive CacheCall := CallIdle | CallPending (ctx : Context_) (since : Z) | CallDone (r : pair_result).

Record AtomicCache (W : Type) := {
  ac_ths : nat -> CacheCall;
  ac_state : CertCache * (bytes * W);
  ac_now : Z;
  ac_hist : list CacheEvent
}.
Arguments ac_ths {W} _.
Arguments ac_state {W} _.
Arguments ac_now {W} _.
Arguments ac_hist {W} _.
Arguments Build_AtomicCache {W} _ _ _ _.

(** Readings of the clock, in order, between two times. *)
Definition readings (clock : nat -> Z) (since now : Z) : Prop :=
  forall n, since <= clock n /\ clock n <= clock (S n) <= now.

Section spec.
Context `{SM3, SM2, X509} {W : Type} (c : Config W).
Implicit Types a : AtomicCache W.

Inductive atomic_cache_step a : AtomicCache W -> Prop :=
| atomic_cache_invoke i ctx :
    ac_ths a i = CallIdle ->
    atomic_cache_step a (Build_AtomicCache (<[i:=CallPending ctx (ac_now a)]> (ac_ths a)) (ac_state a) (ac_now a)
                           (ac_hist a ++ [CacheInvoke i ctx]))
| atomic_cache_call i ctx since clock r st :
    ac_ths a i = CallPending ctx since -> readings clock since (ac_now a) ->
    GetOrGenerateCertificateContext c ctx clock (ac_state a) = (r, st) ->
    atomic_cache_step a (Build_AtomicCache (<[i:=CallDone r]> (ac_ths a)) st (ac_now a) (ac_hist a))
| atomic_cache_return i r :
    ac_ths a i = CallDone r ->
    atomic_cache_step a (Build_AtomicCache (<[i:=CallIdle]> (ac_ths a)) (ac_state a) (ac_now a)
                           (ac_hist a ++ [CacheReturn i r]))
| atomic_cache_tick now :
    ac_now a <= now ->
    atomic_cache_step a (Build_AtomicCache (ac_ths a) (ac_state a) now (ac_hist a)).

Definition atomic_cache_at_rest (k : CertCache) (src : bytes * W) (now : Z) : AtomicCache W :=
  Build_AtomicCache (fun _ => CallIdle) (k, src) now [].
End spec.

(** ** The mutex *)

Definition holds_read (pc : CachePC) : bool :=
  match pc with
  | CaLook _ | CaMiss _ | CaCopyCert false | CaCopyKey false _ | CaRUnlock _ => true
  | _ => false
  end.
Definition holds_write (pc : CachePC) : bool :=
  match pc with
  | CaCheck _ | CaCopyCert true | CaCopyKey true _ | CaGenerate _ | CaParse _ _ | CaSetCert _ _ _ | CaSetKey _ _ _
  | CaSetAt _ _ _ | CaSetNotAfter _ _ _ | CaUnlock _ => true
  | _ => false
  end.

Record mutex_inv (ths : nat -> CachePC) (mu : RWMutex) : Prop := {
  mx_read i : holds_read (ths i) = true <-> i ∈ rw_readers mu;
  mx_write i : holds_write (ths i) = true <-> rw_writer mu = Some i;
  mx_exclusive i : rw_writer mu = Some i -> rw_readers mu = ∅
}.

(** A writer has the cache to itself. *)
Lemma mutex_excludes ths mu i j :
  mutex_inv ths mu -> holds_write (ths i) = true -> i <> j ->
  holds_read (ths j) = false /\ holds_write (ths j) = false.
Proof.
  intros [Hr Hw Hx] Hi Hne. apply Hw in Hi. split; apply not_true_is_false.
  - intros Hj%Hr. rewrite (Hx i Hi) in Hj. set_solver.
  - intros Hj%Hw. congruence.
Qed.

Section mutex.
Context `{SM3, SM2, X509} {W : Type} (c : Config W).
Implicit Types m : SharedCache W.

Lemma mutex_move ths mu i pc' mu' :
  mutex_inv ths mu ->
  (forall j, j <> i -> (j ∈ rw_readers mu' <-> j ∈ rw_readers mu) /\ (rw_writer mu' = Some j <-> rw_writer mu = Some j)) ->
  (holds_read pc' = true <-> i ∈ rw_readers mu') -> (holds_write pc' = true <-> rw_writer mu' = Some i) ->
  (forall j, rw_writer mu' = Some j -> rw_readers mu' = ∅) -> mutex_inv (<[i:=pc']> ths) mu'.
Proof.
  intros [Hr Hw Hx] Ho Hri Hwi Hx'. split; [| |exact Hx']; intros j;
    (destruct (decide (j = i)) as [->|Hne]; [by rewrite fn_lookup_insert|rewrite fn_lookup_insert_ne by done]).
  - rewrite Hr. symmetry. by apply Ho.
  - rewrite Hw. symmetry. by apply Ho.
Qed.

Lemma mutex_same ths mu i pc' :
  mutex_inv ths mu -> holds_read pc' = holds_read (ths i) -> holds_write pc' = holds_write (ths i) ->
  mutex_inv (<[i:=pc']> ths) mu.
Proof.
  intros Hm Er Ew. pose proof Hm as [Hr Hw Hx]. apply (mutex_move ths mu); [done|done|by rewrite Er|by rewrite Ew|done].
Qed.

Lemma mutex_step i t1 t2 ths m pc' m' :
  cache_advance c i t1 t2 (ths i) m = Some (pc', m') -> mutex_inv ths (sc_mu m) ->
  mutex_inv (<[i:=pc']> ths) (sc_mu m').
Proof.
  intros Ha Hm. pose proof Hm as [Hr Hw Hx]. specialize (Hr i). specialize (Hw i).
  destruct (ths i) as [| | | | | | |w|w cert|r|ctx|cert key| | | | |r|] eqn:E; cbn [cache_advance] in Ha; try done.
  all: try (injection Ha as <- <-; apply mutex_same; [exact Hm|by rewrite E..]).
  - destruct (_ && _); [|destruct (cfg_EvidenceProvider c)]; injection Ha as <- <-;
      apply mutex_same; try exact Hm; by rewrite E.
  - destruct (rw_writer (sc_mu m)) eqn:Ew; [done|]. injection Ha as <- <-.
    apply (mutex_move ths (sc_mu m)); cbn; [exact Hm|intros j Hj; rewrite Ew; set_solver +Hj|set_solver +|done|done].
  - injection Ha as <- <-. apply mutex_same; [exact Hm|rewrite E; by destruct (cachedCertificateValidLocked _ _ _ _)..].
  - injection Ha as <- <-.
    apply (mutex_move ths (sc_mu m)); cbn; [exact Hm|set_solver +|set_solver +|exact Hw|].
    intros j Hj. rewrite (Hx j Hj). set_solver +.
  - destruct (rw_writer (sc_mu m)) eqn:Ew; [done|]. destruct (decide _) as [He|]; [|done]. injection Ha as <- <-.
    apply (mutex_move ths (sc_mu m)); cbn; [exact Hm|intros j Hj; rewrite Ew, He; split; [done|naive_solver]|set_solver +|done|done].
  - injection Ha as <- <-. apply mutex_same; [exact Hm|rewrite E; by destruct (cachedCertificateValidLocked _ _ _ _)..].
  - injection Ha as <- <-. apply mutex_same; [exact Hm|rewrite E; by destruct w..].
  - injection Ha as <- <-.
    apply (mutex_move ths (sc_mu m)); cbn; [exact Hm|set_solver +|set_solver +|exact Hw|].
    intros j Hj. rewrite (Hx j Hj). set_solver +.
  - destruct (GenerateSM2CertificateWithEvidenceContext _ _ _ _) as [[[]|e|] src]; injection Ha as <- <-;
      apply mutex_same; try exact Hm; by rewrite E.
  - injection Ha as <- <-. apply mutex_same; [exact Hm|rewrite E; by destruct (ParseCertificatePEM _)..].
  - injection Ha as <- <-. destruct Hw as [Hw _]. specialize (Hw eq_refl).
    apply (mutex_move ths (sc_mu m)); cbn; [exact Hm| |rewrite (Hx i Hw); set_solver +|done|done].
    intros j Hj. split; [done|]. rewrite Hw. naive_solver.
Qed.
End mutex.

(** ** The whole call, evaluated *)

Section call.
Context `{SM3, SM2, X509} {W : Type} (c : Config W).

(** The cache is asked at all. *)
Definition generates : Prop :=
  negb (no_bytes (cfg_CertPEM c)) && negb (no_bytes (cfg_KeyPEM c)) = false /\ is_Some (cfg_EvidenceProvider c).

Lemma call_hit ctx clock k st :
  generates -> cachedCertificateValidLocked k (cache_ttl c) (clock 0%nat) (clock 1%nat) = true ->
  GetOrGenerateCertificateContext c ctx clock (k, st) = (Ok (cachedCertPEM k, cachedKeyPEM k), (k, st)).
Proof.
  intros [Hp [p Ep]] Hv. unfold GetOrGenerateCertificateContext. rewrite Hp, Ep.
  unfold mbind, stM_bind. cbn [fst]. by rewrite Hv.
Qed.

Lemma call_miss ctx clock k st :
  generates -> cachedCertificateValidLocked k (cache_ttl c) (clock 0%nat) (clock 1%nat) = false ->
  cachedCertificateValidLocked k (cache_ttl c) (clock 2%nat) (clock 3%nat) = false ->
  GetOrGenerateCertificateContext c ctx clock (k, st) =
    match GenerateSM2CertificateWithEvidenceContext ctx (cfg_EvidenceProvider c) (clock 4%nat) st with
    | (Ok (certPEM, keyPEM), st') =>
        match ParseCertificatePEM certPEM with
        | Ok cert => (Ok (certPEM, keyPEM), (Build_CertCache certPEM keyPEM (clock 5%nat) (c_NotAfter cert), st'))
        | Err e => (Err (wrapf "parse generated certificate: %w" e), (k, st'))
        | Panic => (Panic, (k, st'))
        end
    | (Err e, st') => (Err (wrapf "generate certificate: %w" e), (k, st'))
    | (Panic, st') => (Panic, (k, st'))
    end.
Proof.
  intros [Hp [p Ep]] Hv1 Hv2. unfold GetOrGenerateCertificateContext. rewrite Hp, Ep.
  unfold mbind, stM_bind. cbn [fst]. rewrite Hv1. cbn [fst]. rewrite Hv2. unfold map_err, stM_map_err, on_snd.
  destruct (GenerateSM2CertificateWithEvidenceContext _ _ _ st) as [[[cert key]|e|] st']; [|done..].
  cbn. unfold lift. by destruct (ParseCertificatePEM cert).
Qed.

(** A cache that is of no use stays so. *)
Lemma stale_later k ttl t1 t2 t1' t2' :
  cachedCertificateValidLocked k ttl t1 t2 = false -> t1 <= t1' -> t2 <= t2' ->
  cachedCertificateValidLocked k ttl t1' t2' = false.
Proof.
  intros Hv H1' H2'. apply not_true_is_false. intros (? & ? & ? & ? & ?)%cache_valid_iff.
  apply not_true_iff_false in Hv. apply Hv. apply cache_valid_iff. split_and!; [done..|lia|done|lia].
Qed.

(** Readings of the clock for a call. *)
Definition clock_of (look check gen store : Z) (n : nat) : Z :=
  match n with 0 => look | 1 | 2 | 3 => check | 4 => gen | _ => store end%nat.

Lemma clock_of_readings look check gen store since now :
  since <= look -> look <= check -> check <= gen -> gen <= store -> store <= now ->
  readings (clock_of look check gen store) since now.
Proof. intros. intros n. do 6 (destruct n as [|n]; [cbn; lia|]). cbn. lia. Qed.
End call.

(** ** The simulation *)

Section simulation.
Context `{SM3, SM2, X509} {W : Type} (c : Config W).
Implicit Types (m : SharedCache W) (s : CacheSystem W) (a : AtomicCache W) (st : CertCache * (bytes * W)).

Definition pending_since (ctx : Context_) (apc : CacheCall) (now : Z) : Prop :=
  exists t, apc = CallPending ctx t /\ t <= now.

(** The cache was looked at and is of no use; then a pair was generated. *)
Definition stale_since (ctx : Context_) (apc : CacheCall) st (now : Z) : Prop :=
  generates c /\ exists t t2, apc = CallPending ctx t /\ t <= t2 <= now /\
    cachedCertificateValidLocked st.1 (cache_ttl c) t2 t2 = false.
Definition generated (certPEM keyPEM : bytes) (apc : CacheCall) m st (now : Z) : Prop :=
  exists ctx t4, stale_since ctx apc st t4 /\ t4 <= now /\
    GenerateSM2CertificateWithEvidenceContext ctx (cfg_EvidenceProvider c) t4 st.2
      = (Ok (certPEM, keyPEM), sc_src m).
Definition parsed (certPEM : bytes) (na : Z) : Prop :=
  exists cert, ParseCertificatePEM certPEM = Ok cert /\ c_NotAfter cert = na.

(** A goroutine of the program and its counterpart of the specification, whose
    state is [st]. *)
Definition cache_link (pc : CachePC) (apc : CacheCall) m st (now : Z) : Prop :=
  match pc with
  | CaIdle => apc = CallIdle
  | CaStart ctx => pending_since ctx apc now
  | CaRLock ctx | CaLook ctx | CaMiss ctx | CaLock ctx | CaCheck ctx => generates c /\ pending_since ctx apc now
  | CaCopyCert _ => apc = CallDone (Ok (cachedCertPEM (sc_cache m), cachedKeyPEM (sc_cache m)))
  | CaCopyKey _ certPEM => apc = CallDone (Ok (certPEM, cachedKeyPEM (sc_cache m)))
  | CaGenerate ctx => stale_since ctx apc st now
  | CaParse certPEM keyPEM => generated certPEM keyPEM apc m st now /\ sc_cache m = st.1
  | CaSetCert certPEM keyPEM na => generated certPEM keyPEM apc m st now /\ parsed certPEM na
  | CaSetKey certPEM keyPEM na =>
      generated certPEM keyPEM apc m st now /\ parsed certPEM na /\ cachedCertPEM (sc_cache m) = certPEM
  | CaSetAt certPEM keyPEM na =>
      generated certPEM keyPEM apc m st now /\ parsed certPEM na /\
      cachedCertPEM (sc_cache m) = certPEM /\ cachedKeyPEM (sc_cache m) = keyPEM
  | CaSetNotAfter certPEM keyPEM na =>
      apc = CallDone (Ok (certPEM, keyPEM)) /\
      st = (Build_CertCache (cachedCertPEM (sc_cache m)) (cachedKeyPEM (sc_cache m)) (cachedAt (sc_cache m)) na, sc_src m)
  | CaRUnlock r | CaUnlock r | CaFinished r => apc = CallDone r
  end.

(** The state is ahead of the specification's, or behind it. *)
Definition storing (pc : CachePC) : bool :=
  match pc with CaParse _ _ | CaSetCert _ _ _ | CaSetKey _ _ _ | CaSetAt _ _ _ | CaSetNotAfter _ _ _ => true | _ => false end.

Lemma storing_holds pc : storing pc = true -> holds_write pc = true.
Proof. by destruct pc. Qed.

Record cache_linked s a : Prop := {
  cl_hist : ac_hist a = cs_hist s;
  cl_now : ac_now a = cs_now s;
  cl_ths i : cache_link (cs_ths s i) (ac_ths a i) (cs_shared s) (ac_state a) (cs_now s);
  cl_same : (forall i, storing (cs_ths s i) = false) -> (sc_cache (cs_shared s), sc_src (cs_shared s)) = ac_state a
}.

Lemma stale_since_later ctx apc st now now' : stale_since ctx apc st now -> now <= now' -> stale_since ctx apc st now'.
Proof. intros [? (t & t2 & ? & ? & ?)] ?. split; [done|]. exists t, t2. split_and!; [done|lia|lia|done]. Qed.

Lemma generated_later cert key apc m m' st now now' :
  generated cert key apc m st now -> now <= now' -> sc_src m' = sc_src m -> generated cert key apc m' st now'.
Proof. intros (ctx & t4 & ? & ? & ?) ? E. exists ctx, t4. rewrite E. split_and!; [done|lia|done]. Qed.

(** What a goroutine's link asks of the others. *)
Lemma cache_link_stable pc apc m st now m' st' now' :
  now <= now' -> (holds_read pc = true \/ holds_write pc = true -> sc_cache m' = sc_cache m) ->
  (holds_write pc = true -> sc_src m' = sc_src m /\ st' = st) ->
  cache_link pc apc m st now -> cache_link pc apc m' st' now'.
Proof.
  intros Hnow Hc Hw.
  assert (forall ctx, pending_since ctx apc now -> pending_since ctx apc now') as Hp
    by (intros ctx (t & ? & ?); exists t; split; [done|lia]).
  destruct pc as [| | | | | | |[]|[]| | | | | | | | |]; cbn in *; try done; try (by auto); try (by intros [? ?]; auto);
    try (by rewrite Hc by auto); (destruct Hw as [Es ->]; [done|]); try (rewrite Hc by auto).
  - intros Hs. by eapply stale_since_later.
  - intros [? ?]. split; [by eapply generated_later|done].
  - intros [? ?]. split; [by eapply generated_later|done].
  - intros [? ?]. split; [by eapply generated_later|done].
  - intros [? ?]. split; [by eapply generated_later|done].
  - by rewrite Es.
Qed.

(** One goroutine moves, on both sides. *)
Lemma cache_linked_update s a i pc' m' now' a' :
  cache_linked s a -> mutex_inv (cs_ths s) (sc_mu (cs_shared s)) -> cs_now s <= now' ->
  (forall j, j <> i -> ac_ths a' j = ac_ths a j) -> ac_hist a' = ac_hist a -> ac_now a' = now' ->
  (holds_write (cs_ths s i) = false ->
     sc_cache m' = sc_cache (cs_shared s) /\ sc_src m' = sc_src (cs_shared s) /\ ac_state a' = ac_state a) ->
  cache_link pc' (ac_ths a' i) m' (ac_state a') now' ->
  (holds_write (cs_ths s i) = true -> storing pc' = false -> (sc_cache m', sc_src m') = ac_state a') ->
  cache_linked (Build_CacheSystem (<[i:=pc']> (cs_ths s)) m' now' (cs_hist s)) a'.
Proof.
  intros [Hh Hn Ht Hs] Hmu Hnow Hths Hhist Hnow' Hkeep Hlink Hsame. split; cbn.
  - by rewrite Hhist.
  - done.
  - intros j. destruct (decide (j = i)) as [->|Hne]; [by rewrite fn_lookup_insert|].
    rewrite fn_lookup_insert_ne, Hths by done. eapply cache_link_stable; [exact Hnow| | |apply Ht].
    + intros Hj. apply Hkeep, not_true_is_false. intros Hi.
      destruct (mutex_excludes _ _ i j Hmu Hi (not_eq_sym Hne)) as [? ?]. destruct Hj; congruence.
    + intros Hj. apply Hkeep, not_true_is_false. intros Hi.
      destruct (mutex_excludes _ _ i j Hmu Hi (not_eq_sym Hne)) as [? ?]. congruence.
  - intros Hst. pose proof (Hst i) as Hi. rewrite fn_lookup_insert in Hi.
    destruct (holds_write (cs_ths s i)) eqn:E; [by apply Hsame|]. destruct (Hkeep eq_refl) as (-> & -> & ->).
    apply Hs. intros j. destruct (decide (j = i)) as [->|Hne].
    + apply not_true_is_false. intros Hx%storing_holds. congruence.
    + pose proof (Hst j) as Hj. by rewrite fn_lookup_insert_ne in Hj.
Qed.

Section step.
Context (s : CacheSystem W) (a : AtomicCache W) (i : nat).
Context (Hlinked : cache_linked s a) (Hmu : mutex_inv (cs_ths s) (sc_mu (cs_shared s))).

Definition cache_simulated (pc' : CachePC) m' (now' : Z) : Prop :=
  exists a', rtc (atomic_cache_step c) a a' /\
    cache_linked (Build_CacheSystem (<[i:=pc']> (cs_ths s)) m' now' (cs_hist s)) a'.

(** The specification lets the time pass. *)
Lemma cache_sim_wait pc' m' now' :
  cs_now s <= now' ->
  (holds_write (cs_ths s i) = false -> sc_cache m' = sc_cache (cs_shared s) /\ sc_src m' = sc_src (cs_shared s)) ->
  cache_link pc' (ac_ths a i) m' (ac_state a) now' ->
  (holds_write (cs_ths s i) = true -> storing pc' = false -> (sc_cache m', sc_src m') = ac_state a) ->
  cache_simulated pc' m' now'.
Proof.
  intros Hnow Hk Hl Hs. exists (Build_AtomicCache (ac_ths a) (ac_state a) now' (ac_hist a)). split.
  - apply rtc_once, atomic_cache_tick. by rewrite (cl_now _ _ Hlinked).
  - apply cache_linked_update with a; try done. intros Hw. destruct (Hk Hw) as [-> ->]. done.
Qed.

(** The specification makes the call. *)
Lemma cache_sim_call pc' m' now' ctx since clock r st' :
  cs_now s <= now' -> ac_ths a i = CallPending ctx since -> readings clock since now' ->
  GetOrGenerateCertificateContext c ctx clock (ac_state a) = (r, st') ->
  (holds_write (cs_ths s i) = false ->
     sc_cache m' = sc_cache (cs_shared s) /\ sc_src m' = sc_src (cs_shared s) /\ st' = ac_state a) ->
  cache_link pc' (CallDone r) m' st' now' ->
  (holds_write (cs_ths s i) = true -> storing pc' = false -> (sc_cache m', sc_src m') = st') ->
  cache_simulated pc' m' now'.
Proof.
  intros Hnow Hp Hr Hg Hk Hl Hs.
  exists (Build_AtomicCache (<[i:=CallDone r]> (ac_ths a)) st' now' (ac_hist a)). split.
  - eapply rtc_l; [apply (atomic_cache_tick c a now'); by rewrite (cl_now _ _ Hlinked)|].
    apply rtc_once. by eapply (atomic_cache_call c (Build_AtomicCache (ac_ths a) (ac_state a) now' (ac_hist a))).
  - apply cache_linked_update with a; try done; cbn; [|by rewrite fn_lookup_insert].
    intros j Hj. by rewrite fn_lookup_insert_ne.
Qed.

(** A writer that stores nothing sees the state of the specification. *)
Lemma writer_same : holds_write (cs_ths s i) = true -> storing (cs_ths s i) = false ->
  (sc_cache (cs_shared s), sc_src (cs_shared s)) = ac_state a.
Proof.
  intros Hi Hst. apply (cl_same _ _ Hlinked). intros j. destruct (decide (i = j)) as [<-|Hne]; [done|].
  apply not_true_is_false. intros Hx%storing_holds.
  destruct (mutex_excludes _ _ i j Hmu Hi Hne). congruence.
Qed.

Lemma reader_same : holds_read (cs_ths s i) = true ->
  (sc_cache (cs_shared s), sc_src (cs_shared s)) = ac_state a.
Proof.
  intros Hi. apply (cl_same _ _ Hlinked). intros j. destruct (decide (i = j)) as [<-|Hne].
  - by destruct (cs_ths s i).
  - apply not_true_is_false. intros Hx%storing_holds.
    destruct (mutex_excludes _ _ j i Hmu Hx (not_eq_sym Hne)). congruence.
Qed.

(** The call of the generator, and what becomes of its result. *)
Lemma cache_sim_generated ctx t4 r st' pc' m' t2 :
  stale_since ctx (ac_ths a i) (ac_state a) t4 -> t4 <= t2 -> cs_now s <= t2 ->
  (forall clock since, readings clock since t2 ->
     cachedCertificateValidLocked (ac_state a).1 (cache_ttl c) (clock 0%nat) (clock 1%nat) = false ->
     cachedCertificateValidLocked (ac_state a).1 (cache_ttl c) (clock 2%nat) (clock 3%nat) = false ->
     clock 4%nat = t4 -> clock 5%nat = t2 -> GetOrGenerateCertificateContext c ctx clock (ac_state a) = (r, st')) ->
  holds_write (cs_ths s i) = true -> cache_link pc' (CallDone r) m' st' t2 ->
  (storing pc' = false -> (sc_cache m', sc_src m') = st') -> cache_simulated pc' m' t2.
Proof.
  intros (Hg & t & t3 & Hp & Ht & Hv) Ht4 Hnow Hcall Hw Hl Hs.
  eapply cache_sim_call; [done|exact Hp|apply (clock_of_readings t3 t3 t4 t2 t t2); lia| | |exact Hl|by intros _].
  - apply (Hcall _ t); [apply clock_of_readings; lia|exact Hv|exact Hv|done|done].
  - by rewrite Hw.
Qed.

Section advance.
Context (t1 t2 : Z) (pc' : CachePC) (m' : SharedCache W).
Context (Ht1 : cs_now s <= t1) (Ht2 : t1 <= t2).
Context (Ha : cache_advance c i t1 t2 (cs_ths s i) (cs_shared s) = Some (pc', m')).

(** Before either lock. *)
Lemma cache_sim_start ctx : cs_ths s i = CaStart ctx -> cache_simulated pc' m' t2.
Proof.
  intros E. pose proof (cl_ths _ _ Hlinked i) as Ht. rewrite E in Ht, Ha. cbn [cache_advance cache_link] in Ht, Ha.
  destruct Ht as (t & Hp & Ht). pose proof (clock_of_readings t t t t t t2) as Hr.
  destruct (negb _ && negb _) eqn:Ep.
  - injection Ha as <- <-. eapply cache_sim_call; [lia|exact Hp|by apply Hr; lia|
      unfold GetOrGenerateCertificateContext; rewrite Ep; reflexivity|done|done|by rewrite E].
  - destruct (cfg_EvidenceProvider c) eqn:Ev; injection Ha as <- <-.
    + apply cache_sim_wait; [lia|done| |by rewrite E]. split; [split; [done|by rewrite Ev; eexists]|].
      exists t. split; [done|lia].
    + eapply cache_sim_call; [lia|exact Hp|by apply Hr; lia|
        unfold GetOrGenerateCertificateContext; rewrite Ep, Ev; reflexivity|done|done|by rewrite E].
Qed.

(** The two looks at the cache. *)
Lemma cache_sim_hit ctx w :
  (sc_cache (cs_shared s), sc_src (cs_shared s)) = ac_state a -> generates c -> pending_since ctx (ac_ths a i) (cs_now s) ->
  cachedCertificateValidLocked (sc_cache (cs_shared s)) (cache_ttl c) t1 t2 = true ->
  cache_simulated (CaCopyCert w) (cs_shared s) t2.
Proof using Hlinked Hmu Ht1 Ht2.
  intros Hs Hg (t & Hp & Ht) Hv. eapply cache_sim_call; [lia|exact Hp|
    apply (clock_of_readings t1 t2 t2 t2 t t2); lia|rewrite <-Hs; by apply call_hit| | |].
  - intros _. by rewrite Hs.
  - done.
  - done.
Qed.

Lemma cache_sim_look ctx : cs_ths s i = CaLook ctx -> cache_simulated pc' m' t2.
Proof.
  intros E. pose proof (cl_ths _ _ Hlinked i) as Ht. rewrite E in Ht, Ha. cbn [cache_advance cache_link] in Ht, Ha.
  destruct Ht as [Hg Hp]. pose proof (reader_same) as Hs. rewrite E in Hs. specialize (Hs eq_refl).
  destruct (cachedCertificateValidLocked _ _ _ _) eqn:Ev; injection Ha as <- <-.
  - by eapply (cache_sim_hit ctx false).
  - apply cache_sim_wait; [lia|done| |by rewrite E]. split; [done|]. destruct Hp as (t & ? & ?).
    exists t. split; [done|lia].
Qed.

Lemma cache_sim_check ctx : cs_ths s i = CaCheck ctx -> cache_simulated pc' m' t2.
Proof.
  intros E. pose proof (cl_ths _ _ Hlinked i) as Ht. rewrite E in Ht, Ha. cbn [cache_advance cache_link] in Ht, Ha.
  destruct Ht as [Hg Hp]. pose proof writer_same as Hs. rewrite E in Hs. specialize (Hs eq_refl eq_refl).
  destruct (cachedCertificateValidLocked _ _ _ _) eqn:Ev; injection Ha as <- <-.
  - by eapply (cache_sim_hit ctx true).
  - apply cache_sim_wait; [lia|done| |done]. split; [done|]. destruct Hp as (t & ? & ?).
    exists t, t2. split_and!; [done|lia|lia|]. rewrite <-Hs. by eapply stale_later; [exact Ev|lia..].
Qed.

Lemma cache_sim_generate ctx : cs_ths s i = CaGenerate ctx -> cache_simulated pc' m' t2.
Proof.
  intros E. pose proof (cl_ths _ _ Hlinked i) as Ht. pose proof writer_same as Hs. rewrite E in Ht, Hs, Ha.
  cbn [cache_advance cache_link] in Ht, Ha. specialize (Hs eq_refl eq_refl).
  destruct (GenerateSM2CertificateWithEvidenceContext _ _ _ _) as [r src] eqn:Eg.
  destruct (ac_state a) as [k0 src0] eqn:Est. injection Hs as Ek Esrc. rewrite Esrc in Eg.
  pose proof (stale_since_later _ _ _ _ _ Ht Ht1) as Ht'.
  assert (holds_write (cs_ths s i) = true) as Hw by (by rewrite E).
  destruct r as [[cert key]|e|]; injection Ha as <- <-.
  - apply cache_sim_wait; [lia|by rewrite E| |done]. rewrite Est. split; [|done].
    exists ctx, t1. split_and!; [done|lia|exact Eg].
  - eapply (cache_sim_generated ctx t1); [by rewrite Est|lia|lia| |done|done|intros _; cbn; by rewrite Ek].
    intros clock since _ Hv1 Hv2 E4 _. rewrite Est in *. rewrite call_miss, E4, Eg by (done || apply Ht). reflexivity.
  - eapply (cache_sim_generated ctx t1); [by rewrite Est|lia|lia| |done|done|intros _; cbn; by rewrite Ek].
    intros clock since _ Hv1 Hv2 E4 _. rewrite Est in *. rewrite call_miss, E4, Eg by (done || apply Ht). reflexivity.
Qed.

Lemma cache_sim_parse cert key : cs_ths s i = CaParse cert key -> cache_simulated pc' m' t2.
Proof.
  intros E. pose proof (cl_ths _ _ Hlinked i) as Ht. rewrite E in Ht, Ha.
  cbn [cache_advance cache_link] in Ht, Ha. destruct Ht as [Hgen Ek].
  assert (holds_write (cs_ths s i) = true) as Hw by (by rewrite E).
  pose proof Hgen as (ctx & t4 & Hst & Ht4 & Hg).
  destruct (ac_state a) as [k0 src0] eqn:Est. cbn in Hg, Ek.
  destruct (ParseCertificatePEM cert) as [x|e|] eqn:Ep; injection Ha as <- <-.
  - apply cache_sim_wait; [lia|by rewrite E| |done]. rewrite Est. split; [|by exists x].
    eapply generated_later; [exact Hgen|lia|done].
  - eapply (cache_sim_generated ctx t4); [by rewrite Est|lia|lia| |done|done|intros _; by rewrite Ek].
    intros clock since _ Hv1 Hv2 E4 _. rewrite Est in *. rewrite call_miss, E4, Hg, Ep by (done || apply Hst). reflexivity.
  - eapply (cache_sim_generated ctx t4); [by rewrite Est|lia|lia| |done|done|intros _; by rewrite Ek].
    intros clock since _ Hv1 Hv2 E4 _. rewrite Est in *. rewrite call_miss, E4, Hg, Ep by (done || apply Hst). reflexivity.
Qed.

(** The stores: the call takes effect with the third, which reads the clock. *)
Lemma cache_sim_store cert key na :
  cs_ths s i = CaSetCert cert key na \/ cs_ths s i = CaSetKey cert key na \/ cs_ths s i = CaSetAt cert key na ->
  cache_simulated pc' m' t2.
Proof.
  intros E. pose proof (cl_ths _ _ Hlinked i) as Ht.
  destruct E as [E|[E|E]]; rewrite E in Ht, Ha; cbn [cache_advance cache_link] in Ht, Ha;
    pose proof Ha as [= Epc Em].
  - destruct Ht as [Hgen Hpa]. rewrite <-Epc, <-Em. apply cache_sim_wait; [lia|by rewrite E| |done].
    split_and!; [|done|done]. eapply generated_later; [exact Hgen|lia|done].
  - destruct Ht as (Hgen & Hpa & Hc). rewrite <-Epc, <-Em. apply cache_sim_wait; [lia|by rewrite E| |done].
    split_and!; [|done|done|done]. eapply generated_later; [exact Hgen|lia|done].
  - destruct Ht as (Hgen & (x & Hx & Hna) & Hc & Hk). rewrite <-Epc, <-Em. pose proof Hgen as (ctx & t4 & Hst & Ht4 & Hg).
    destruct Hst as (Hgs & t & t3 & Hp & Ht & Hv). destruct (ac_state a) as [k0 src0] eqn:Est. cbn in Hg, Hv.
    eapply cache_sim_call; [lia|exact Hp|apply (clock_of_readings t3 t3 t4 t1 t t2); lia| |by rewrite E| |].
    + rewrite Est, call_miss; cbn [clock_of]; [|done..]. rewrite Hg, Hx. reflexivity.
    + cbn. by rewrite Hc, Hk, Hna.
    + done.
Qed.

Lemma cache_sim_advance : cache_simulated pc' m' t2.
Proof.
  pose proof (cl_ths _ _ Hlinked i) as Ht. pose proof writer_same as Hs. pose proof Ha as Ha0.
  assert (forall ctx, pending_since ctx (ac_ths a i) (cs_now s) -> pending_since ctx (ac_ths a i) t2) as Hp
    by (intros ctx (t & ? & ?); exists t; split; [done|lia]).
  assert (exists pc, cs_ths s i = pc) as [pc E] by eauto. rewrite E in Ht, Hs, Ha0.
  destruct pc as [|ctx|ctx|ctx|ctx|ctx|ctx|w|w cert|r|ctx|cert key|cert key na|cert key na|cert key na
    |cert key na|r|r]; cbn [cache_advance cache_link] in Ht, Ha0; try done.
  - by eapply cache_sim_start.
  - destruct (rw_writer _); [done|]. injection Ha0 as <- <-. apply cache_sim_wait; [lia|done| |by rewrite E].
    destruct Ht. split; auto.
  - by eapply cache_sim_look.
  - injection Ha0 as <- <-. apply cache_sim_wait; [lia|done| |by rewrite E]. destruct Ht. split; auto.
  - destruct (rw_writer _); [done|]. destruct (decide _); [|done]. injection Ha0 as <- <-.
    apply cache_sim_wait; [lia|done| |by rewrite E]. destruct Ht. split; auto.
  - by eapply cache_sim_check.
  - injection Ha0 as <- <-. apply cache_sim_wait; [lia|done|by rewrite Ht|].
    rewrite E. intros Hw _. destruct w; [by apply Hs|done].
  - injection Ha0 as <- <-. apply cache_sim_wait; [lia|by destruct w|rewrite Ht; by destruct w|].
    rewrite E. intros Hw _. destruct w; [by apply Hs|done].
  - injection Ha0 as <- <-. apply cache_sim_wait; [lia|done|exact Ht|by rewrite E].
  - by eapply cache_sim_generate.
  - by eapply cache_sim_parse.
  - eapply cache_sim_store; eauto.
  - eapply cache_sim_store; eauto.
  - eapply cache_sim_store; eauto.
  - injection Ha0 as <- <-. destruct Ht as [Ht Hst]. apply cache_sim_wait; [lia|by rewrite E|exact Ht|].
    intros _ _. by rewrite Hst.
  - injection Ha0 as <- <-. apply cache_sim_wait; [lia|by rewrite E|exact Ht|]. intros _ _. by apply Hs.
Qed.
End advance.
End step.

(** A goroutine enters a call or leaves it, on both sides. *)
Lemma cache_linked_hop s a i pc' apc' e :
  cache_linked s a -> storing (cs_ths s i) = false ->
  cache_link pc' apc' (cs_shared s) (ac_state a) (cs_now s) ->
  cache_linked
    (Build_CacheSystem (<[i:=pc']> (cs_ths s)) (cs_shared s) (cs_now s) (cs_hist s ++ [e]))
    (Build_AtomicCache (<[i:=apc']> (ac_ths a)) (ac_state a) (ac_now a) (ac_hist a ++ [e])).
Proof.
  intros [Hh Hn Ht Hs] Hst Hl. split; cbn; [by rewrite Hh|done| |].
  - intros j. by destruct (decide (j = i)) as [->|Hne];
      [rewrite !fn_lookup_insert|rewrite !fn_lookup_insert_ne by done].
  - intros Hall. apply Hs. intros j. destruct (decide (j = i)) as [->|Hne]; [done|].
    pose proof (Hall j) as Hj. by rewrite fn_lookup_insert_ne in Hj.
Qed.

Lemma cache_step_mutex s s' :
  cache_step c s s' -> mutex_inv (cs_ths s) (sc_mu (cs_shared s)) -> mutex_inv (cs_ths s') (sc_mu (cs_shared s')).
Proof.
  intros [i ctx E|i t1 t2 pc m _ _ Ha|i r E] Hmu; cbn.
  - apply mutex_same; [done|by rewrite E..].
  - by eapply mutex_step.
  - apply mutex_same; [done|by rewrite E..].
Qed.

Lemma cache_sim_step s a s' :
  cache_linked s a -> mutex_inv (cs_ths s) (sc_mu (cs_shared s)) -> cache_step c s s' ->
  exists a', rtc (atomic_cache_step c) a a' /\ cache_linked s' a'.
Proof.
  intros Hl Hmu [i ctx E|i t1 t2 pc m Ht1 Ht2 Ha|i r E].
  - pose proof (cl_ths _ _ Hl i) as Ht. rewrite E in Ht. eexists.
    split; [by apply rtc_once, (atomic_cache_invoke c a i ctx)|].
    apply cache_linked_hop; [done|by rewrite E|]. exists (ac_now a). split; [done|by rewrite (cl_now _ _ Hl)].
  - by eapply cache_sim_advance.
  - pose proof (cl_ths _ _ Hl i) as Ht. rewrite E in Ht. eexists.
    split; [by apply rtc_once, (atomic_cache_return c a i r)|].
    apply cache_linked_hop; [done|by rewrite E|done].
Qed.

Lemma mutex_at_rest (k : CertCache) (src : bytes * W) now :
  mutex_inv (cs_ths (cache_at_rest k src now)) (sc_mu (cs_shared (cache_at_rest k src now))).
Proof. by split. Qed.

Lemma cache_reachable_mutex k src now s :
  rtc (cache_step c) (cache_at_rest k src now) s -> mutex_inv (cs_ths s) (sc_mu (cs_shared s)).
Proof.
  revert s. refine (rtc_ind_r _ _ _ _); [apply mutex_at_rest|]. intros s1 s2 _ Hs. by apply cache_step_mutex.
Qed.

(** C33. The certificate cache under concurrent use: whatever the goroutines do
    that share a configuration, what they are returned, and the cache and the
    provider's state whenever no call is under way, are those of a run in which
    every call of [GetOrGenerateCertificateContext] is made at one moment
    between its invocation and its return, with readings of the clock from that
    time.  So no goroutine gets one certificate with the key of another. *)
Theorem cache_linearizable k src now s :
  rtc (cache_step c) (cache_at_rest k src now) s ->
  exists a, rtc (atomic_cache_step c) (atomic_cache_at_rest k src now) a /\
    ac_hist a = cs_hist s /\ ac_now a = cs_now s /\
    ((forall i, storing (cs_ths s i) = false) ->
       ac_state a = (sc_cache (cs_shared s), sc_src (cs_shared s))).
Proof.
  intros Hs. enough (exists a, rtc (atomic_cache_step c) (atomic_cache_at_rest k src now) a /\ cache_linked s a)
    as (a & Ha & [Hh Hn _ Hsame]) by (exists a; split_and!; [done..|by intros Hq; rewrite Hsame]).
  revert s Hs. refine (rtc_ind_r _ _ _ _).
  - eexists. split; [apply rtc_refl|]. by split.
  - intros s1 s2 Hs1 Hs2 (a & Ha & Hl). apply cache_reachable_mutex in Hs1.
    destruct (cache_sim_step _ _ _ Hl Hs1 Hs2) as (a' & Ha' & Hl'). exists a'. split; [by etrans|done].
Qed.

(** ** The provider is asked when it must be *)

(** The cache [newer] was stored when [older] was of no more use. *)
Definition replaces (newer older : CertCache) : Prop :=
  cachedCertificateValidLocked older (cache_ttl c) (cachedAt newer) (cachedAt newer) = false.

Definition last_store (k : CertCache) m : CertCache := hd k (sc_stores m).

(** Between the first store and the last. *)
Definition torn (pc : CachePC) : bool :=
  match pc with CaSetKey _ _ _ | CaSetAt _ _ _ | CaSetNotAfter _ _ _ => true | _ => false end.

Definition replacing (pc : CachePC) (k : CertCache) m (now : Z) : Prop :=
  match pc with
  | CaGenerate _ | CaParse _ _ | CaSetCert _ _ _ | CaSetKey _ _ _ | CaSetAt _ _ _ =>
      cachedCertificateValidLocked (last_store k m) (cache_ttl c) now now = false
  | CaSetNotAfter _ _ _ => replaces (sc_cache m) (last_store k m)
  | _ => True
  end.

Record stores_inv (k : CertCache) s : Prop := {
  so_sorted : Sorted replaces (sc_stores (cs_shared s) ++ [k]);
  so_last : (forall i, torn (cs_ths s i) = false) -> sc_cache (cs_shared s) = last_store k (cs_shared s);
  so_ths i : replacing (cs_ths s i) k (cs_shared s) (cs_now s)
}.

Lemma stores_inv_move k s i pc' m' now' e :
  stores_inv k s -> mutex_inv (cs_ths s) (sc_mu (cs_shared s)) -> cs_now s <= now' ->
  (holds_write (cs_ths s i) = false -> sc_cache m' = sc_cache (cs_shared s)) ->
  (torn (cs_ths s i) = false -> torn pc' = false -> sc_cache m' = sc_cache (cs_shared s)) ->
  torn (cs_ths s i) = torn pc' \/ torn pc' = true ->
  sc_stores m' = sc_stores (cs_shared s) -> replacing pc' k m' now' ->
  stores_inv k (Build_CacheSystem (<[i:=pc']> (cs_ths s)) m' now' e).
Proof.
  intros [Hso Hl Ht] Hmu Hnow Hc Htorn Htt Est Hp. split; cbn.
  - by rewrite Est.
  - intros Hall. pose proof (Hall i) as Hi. rewrite fn_lookup_insert in Hi.
    assert (torn (cs_ths s i) = false) as Hi' by (destruct Htt; congruence).
    unfold last_store in *. rewrite Est, Htorn by done. apply Hl. intros j.
    destruct (decide (j = i)) as [->|Hne]; [done|]. pose proof (Hall j) as Hj. by rewrite fn_lookup_insert_ne in Hj.
  - intros j. destruct (decide (j = i)) as [->|Hne]; [by rewrite fn_lookup_insert|].
    rewrite fn_lookup_insert_ne by done. specialize (Ht j).
    assert (holds_write (cs_ths s j) = true -> sc_cache m' = sc_cache (cs_shared s)) as Hcj.
    { intros Hj. apply Hc. by apply (mutex_excludes _ _ j i Hmu). }
    unfold replacing, last_store in *. destruct (cs_ths s j); cbn in *; try done; rewrite Est;
      try (by eapply stale_later; [exact Ht|lia..]). by rewrite Hcj.
Qed.

(** A step that ends in no store, from the point that [E] gives. *)
Ltac stores_move E :=
  match goal with Hs : stores_inv ?k ?s |- _ => apply (stores_inv_move k s) end;
  [assumption|assumption|lia|rewrite E; done|rewrite E; done|rewrite E; first [by left|by right]|done|].

Lemma cache_step_stores k s s' :
  cache_step c s s' -> mutex_inv (cs_ths s) (sc_mu (cs_shared s)) -> stores_inv k s -> stores_inv k s'.
Proof.
  intros [i ctx E|i t1 t2 pc m Ht1 Ht2 Ha|i r E] Hmu Hs.
  - apply (stores_inv_move k s); try done; rewrite ?E; try done. by left.
  - pose proof Hs as [Hso Hl Ht]. pose proof (Ht i) as Hti.
    assert (exists pc0, cs_ths s i = pc0) as [pc0 E] by eauto. rewrite E in Ha, Hti.
    assert (holds_write (cs_ths s i) = true -> torn (cs_ths s i) = false ->
      sc_cache (cs_shared s) = last_store k (cs_shared s)) as Hlast.
    { intros Hw Hto. apply Hl. intros j. destruct (decide (i = j)) as [<-|Hne]; [done|].
      destruct (mutex_excludes _ _ i j Hmu Hw Hne) as [_ Hj]. by destruct (cs_ths s j). }
    destruct pc0 as [|ctx|ctx|ctx|ctx|ctx|ctx|w|w cert|r|ctx|cert key|cert key na|cert key na|cert key na
      |cert key na|r|r]; cbn [cache_advance] in Ha; try done.
    + destruct (_ && _); [|destruct (cfg_EvidenceProvider c)]; injection Ha as <- <-; by stores_move E.
    + destruct (rw_writer _); [done|]. injection Ha as <- <-. by stores_move E.
    + injection Ha as <- <-. by destruct (cachedCertificateValidLocked _ _ _ _); stores_move E.
    + injection Ha as <- <-. by stores_move E.
    + destruct (rw_writer _); [done|]. destruct (decide _); [|done]. injection Ha as <- <-. by stores_move E.
    + injection Ha as <- <-. destruct (cachedCertificateValidLocked _ _ _ _) eqn:Ev; stores_move E; [done|].
      cbn. rewrite <-Hlast by (by rewrite E). by eapply stale_later; [exact Ev|lia..].
    + injection Ha as <- <-. by stores_move E.
    + injection Ha as <- <-. by destruct w; stores_move E.
    + injection Ha as <- <-. by stores_move E.
    + destruct (GenerateSM2CertificateWithEvidenceContext _ _ _ _) as [[[]|e|] src]; injection Ha as <- <-;
        stores_move E; try done; by eapply stale_later; [exact Hti|lia..].
    + injection Ha as <- <-. destruct (ParseCertificatePEM cert); stores_move E; try done.
      by eapply stale_later; [exact Hti|lia..].
    + injection Ha as <- <-. stores_move E. by eapply stale_later; [exact Hti|lia..].
    + injection Ha as <- <-. stores_move E. by eapply stale_later; [exact Hti|lia..].
    + injection Ha as <- <-. stores_move E. by eapply stale_later; [exact Hti|cbn; lia..].
    + injection Ha as <- <-. split; cbn.
      * constructor; [done|]. destruct (sc_stores (cs_shared s)) as [|k1 ks] eqn:Ek; cbn in *; constructor;
          unfold last_store in Hti; by rewrite Ek in Hti.
      * done.
      * intros j. destruct (decide (i = j)) as [<-|Hne]; [by rewrite fn_lookup_insert|].
        rewrite fn_lookup_insert_ne by done. destruct (mutex_excludes _ _ i j Hmu) as [_ Hj]; [by rewrite E|done|].
        by destruct (cs_ths s j).
    + injection Ha as <- <-. by stores_move E.
  - apply (stores_inv_move k s); try done; rewrite ?E; try done. by left.
Qed.

End simulation.

(** ** Instances *)

Abbreviation toy_cache_acts := (@cache_acts toy_sm3 toy_sm2 toy_x509 MockEvidenceProvider toy_config).
Abbreviation toy_cache_step := (@cache_step toy_sm3 toy_sm2 toy_x509 MockEvidenceProvider toy_config).
Definition toy_cache_rest : CacheSystem MockEvidenceProvider :=
  cache_at_rest empty_cache (toy_entropy, toy_mock) toy_time.

(** Two goroutines find nothing in the cache; one generates while the other
    waits for the mutex and then finds what was generated. *)
Definition toy_two_ask : list CacheAction :=
  let t := toy_time in
  [DoAsk 0 Background; DoAsk 1 Background; DoStep 0 t; DoStep 1 t; DoStep 0 t; DoStep 1 t; DoStep 0 t; DoStep 1 t;
   DoStep 1 t; DoStep 0 t] ++ repeat (DoStep 1 (t + second)) 8 ++ [DoStep 1 (t + second); DoAnswer 1] ++
  repeat (DoStep 0 (t + second)) 5 ++ [DoAnswer 0].

(** What was returned, if all calls returned the same pair. *)
Definition same_pairs (h : list CacheEvent) : option (list nat) :=
  let rs := omap (fun e => match e with CacheReturn i (Ok p) => Some (i, p) | _ => None end) h in
  match rs with
  | (_, p) :: _ => if forallb (fun x : nat * (bytes * bytes) => bool_decide (x.2 = p)) rs then Some rs.*1 else None
  | [] => None
  end.

Lemma toy_cache_run {A} (f : CacheSystem MockEvidenceProvider -> A) l s0 x :
  (f <$> toy_cache_acts l s0) = Some x -> exists s, rtc toy_cache_step s0 s /\ f s = x.
Proof.
  destruct (toy_cache_acts l s0) as [s|] eqn:E; [|done]. intros [= <-]. exists s.
  split; [by eapply cache_acts_steps|done].
Qed.

Lemma cache_linearizable_witness :
  exists s a, rtc toy_cache_step toy_cache_rest s /\ same_pairs (cs_hist s) = Some [1%nat; 0%nat] /\
    rtc (@atomic_cache_step toy_sm3 toy_sm2 toy_x509 _ toy_config)
      (atomic_cache_at_rest empty_cache (toy_entropy, toy_mock) toy_time) a /\ ac_hist a = cs_hist s.
Proof.
  destruct (toy_cache_run (fun s => same_pairs (cs_hist s)) toy_two_ask toy_cache_rest (Some [1%nat; 0%nat]))
    as (s & Hs & Hr); [vm_compute; reflexivity|].
  destruct (@cache_linearizable toy_sm3 toy_sm2 toy_x509 MockEvidenceProvider toy_config _ _ _ _ Hs)
    as (a & Ha & Hh & _).
  exists s, a. by split_and!.
Defined.

(** And one that asks when the first certificate's hour is over. *)
Definition toy_ask_again : list CacheAction :=
  toy_two_ask ++ [DoAsk 1 Background] ++ repeat (DoStep 1 (toy_time + 2 * hour)) 13 ++ [DoAnswer 1].

