(* ===== verification/Verifier.v ===== *)
(** * The verification of a peer (verifier.go)

    [VerifyPeerCertificateAndEvidence] with the configuration it normalises, the
    choice of the local chain material, the binding of the report to the peer's
    public key and the measurement policy.  The state of the verification is the
    log it writes; the filesystem, the clock and the provider's state are read. *)

From S2P Require Import Prelude Gcm Gmsm Toy NetIO GoLib CsvReport CsvVerify CsvMock.
From S2P Require Import Asn1 Evidence KeySchedule Gx509 Provider Cert Config.

Definition ErrMissingCSVEvidence : error :=
  ErrNew "certificate missing CSV attestation evidence extension".
Definition ErrPublicKeyBindingMismatch : error :=
  ErrNew "peer public key does not match attestation report USER_DATA".
Definition ErrMeasurementMismatch : error :=
  ErrNew "peer measurement hash does not match expected measurements".
Definition ErrInvalidEvidenceReport : error :=
  ErrNew "invalid or corrupted CSV attestation report".
Definition ErrCertificateExpired : error := ErrNew "peer certificate has expired".
Definition ErrCertificateNotYetValid : error := ErrNew "peer certificate is not yet valid".

(** [fmt.Errorf("%w: %v", ErrInvalidEvidenceReport, err)] *)
Definition invalid_report (e : error) : error :=
  Errorf "%w: %v" [FWrap ErrInvalidEvidenceReport; FErr e].

(** nil is [None]. *)
Definition normalizeHRKCert (cert : bytes) : option bytes :=
  if zlen cert <? HrkCertSize then None else Some (take_z HrkCertSize cert).

(** The lines written with [log.Printf], as format and arguments. *)
Definition log_Printf (line : error) : stM (list error) unit := fun l => (Ok tt, l ++ [line]).

Definition in_memory : string := "in-memory trusted HRK and HSK/CEK bytes".

Section verifier.
Context `{SM3, SM2, X509} {W : Type} (fs : FS).
Implicit Types c : Config W.

(** What the type assertion to [TrustedHRKProvider] gives. *)
Definition provider_hrk (w : W) c : bytes :=
  match cfg_EvidenceProvider c with
  | Some p => match ep_TrustedHRKCert p with Some f => f w | None => [] end
  | None => []
  end.

Definition set_mode_anchor c (m : AttestationMode) (hrk : bytes) : Config W :=
  Build_Config m (cfg_EvidenceProvider c) (cfg_ExpectedMeasurements c)
    (cfg_VerifyMutualAttestation c) (cfg_Timeout c) (cfg_InsecureSkipAttestationVerify c)
    (cfg_CertPEM c) (cfg_KeyPEM c) (cfg_HRKCertPath c) (cfg_HSKCekCertPath c) hrk
    (cfg_CertDir c) (cfg_CertCacheTTL c).

(** A nil configuration is [None]. *)
Definition normalizedVerifyConfig (w : W) (cfg : option (Config W)) : result (Config W) :=
  let cfg := match cfg with None => zero_Config | Some c => c end in
  let m := if is_empty (cfg_Mode cfg) then ModeStrict else cfg_Mode cfg in
  reject_if negb (bool_decide (m = ModeStrict)) && negb (bool_decide (m = ModePermissive))
    with Errorf "invalid attestation mode: %q" [FStr m];
  reject_if negb (Bool.eqb (is_empty (cfg_HRKCertPath cfg)) (is_empty (cfg_HSKCekCertPath cfg)))
    with ErrNew "teetls: HRKCertPath and HSKCekCertPath must be configured together";
  _ ← validateExpectedMeasurements (cfg_ExpectedMeasurements cfg);
  Ok (set_mode_anchor cfg m
        (if zlen (cfg_TrustedHRKCert cfg) =? 0 then provider_hrk w cfg else cfg_TrustedHRKCert cfg)).

(** [opts.TrustedHRKCertBytes] from the in-memory anchor; empty without one. *)
Definition anchor_bytes c (evidence : CSVEvidenceExtension) : result bytes :=
  if 0 <? zlen (cfg_TrustedHRKCert c) then
    match normalizeHRKCert (cfg_TrustedHRKCert c) with
    | None => Err (Errorf "%w: trusted HRK anchor is shorter than %d bytes"
                     [FWrap ErrInvalidEvidenceReport; FInt HrkCertSize])
    | Some trusted =>
        reject_if (0 <? zlen (ev_HRKCert evidence)) && negb (bool_decide (ev_HRKCert evidence = trusted))
          with invalid_report ErrUntrustedHRK;
        Ok trusted
    end
  else Ok [].

(** The options that the chain material is resolved into, local material first. *)
Definition chain_options c (evidence : CSVEvidenceExtension) (anchor : bytes) : result VerifyOptions :=
  let opts hrk hrkPath bundle bundlePath :=
    {| vo_VerifyChain := true; vo_TrustedHRKCertBytes := hrk; vo_TrustedHRKCertPath := hrkPath;
       vo_HSKCekCertBytes := bundle; vo_HSKCekCertPath := bundlePath; vo_CertDir := cfg_CertDir c;
       vo_HRKCertBytes := []; vo_HRKCertPath := "" |} in
  if negb (is_empty (cfg_HRKCertPath c)) && negb (is_empty (cfg_HSKCekCertPath c)) then
    Ok (opts anchor (cfg_HRKCertPath c) [] (cfg_HSKCekCertPath c))
  else if negb (is_empty (cfg_CertDir c)) then
    chain ← map_err invalid_report (LoadLocalCertChain fs (cfg_CertDir c));
    Ok (opts (if zlen anchor =? 0 then ci_HRK chain else anchor) EmptyString (ci_HSKCEK chain) EmptyString)
  else if 0 <? zlen (ev_HSKCekCert evidence) then
    Ok (opts anchor EmptyString (ev_HSKCekCert evidence) EmptyString)
  else Ok (opts anchor EmptyString [] EmptyString).

(** [csvattest.VerifyReportWithOptions]; using the result of a nil pointer panics. *)
Definition verify_report (report : bytes) (opts : VerifyOptions) : result VerificationResult :=
  match VerifyReportWithOptions fs report opts None with
  | (Ok _, Some res) => Ok res
  | (Ok _, None) => Panic
  | (Err e, _) => Err (invalid_report e)
  | (Panic, _) => Panic
  end.

Definition check_measurement c (digest : bytes) : stM (list error) unit :=
  let strict := bool_decide (cfg_Mode c = ModeStrict) in
  reject_if strict && (zlen (cfg_ExpectedMeasurements c) =? 0)
    with Errorf "%w: strict mode requires non-empty ExpectedMeasurements" [FWrap ErrMeasurementMismatch];
  if 0 <? zlen (cfg_ExpectedMeasurements c) then
    let hexMeas := strings_ToLower (hex_EncodeToString digest) in
    let measMatched := existsb (fun exp => strings_EqualFold exp hexMeas) (cfg_ExpectedMeasurements c) in
    if negb measMatched then
      reject_if strict
        with Errorf "%w: got %s, expected one of %v"
               [FWrap ErrMeasurementMismatch; FStr hexMeas; FStrs (cfg_ExpectedMeasurements c)];
      log_Printf (Errorf "[WARN] [teetls] Enclave measurement mismatch in permissive mode: got %s, expected one of %v"
                    [FStr hexMeas; FStrs (cfg_ExpectedMeasurements c)])
    else mret tt
  else mret tt.

(** [now] is the clock, [w] the provider's state; a nil evidence is [None]. *)
Definition VerifyPeerCertificateAndEvidence (w : W) (now : Z) (peerCertPEM : bytes)
    (cfg : option (Config W)) : stM (list error) (option CSVEvidenceExtension) :=
  cfg ← lift (normalizedVerifyConfig w cfg);
  cert ← lift (ParseCertificatePEM peerCertPEM) <?> "parse peer certificate: %w";
  reject_if now <? c_NotBefore cert
    with Errorf "%w: not valid before %s (current time %s)"
           [FWrap ErrCertificateNotYetValid; FInt (c_NotBefore cert); FInt now];
  reject_if c_NotAfter cert <? now
    with Errorf "%w: expired at %s (current time %s)"
           [FWrap ErrCertificateExpired; FInt (c_NotAfter cert); FInt now];
  match find_evidence_ext (c_Extensions cert) with
  | None => if cfg_InsecureSkipAttestationVerify cfg then mret None else throw ErrMissingCSVEvidence
  | Some evidenceExtBytes =>
      evidence ← lift (map_err invalid_report (DecodeCSVEvidence evidenceExtBytes));
      if cfg_InsecureSkipAttestationVerify cfg then mret (Some evidence)
      else
        anchor ← lift (anchor_bytes cfg evidence);
        opts ← lift (chain_options cfg evidence anchor);
        res ← lift (verify_report (ev_Report evidence) opts);
        let pubDigest := ComputePublicKeySM3 (c_RawSubjectPublicKeyInfo cert) in
        reject_if (zlen (vr_UserData (vr_fields res)) <? 32)
                  || negb (bool_decide (take_z 32 (vr_UserData (vr_fields res)) = pubDigest))
          with Errorf "%w: expected %x" [FWrap ErrPublicKeyBindingMismatch; FBytes pubDigest];
        _ ← check_measurement cfg (vr_Digest (vr_fields res));
        mret (Some evidence)
  end.

(** ** What is accepted *)

(** The configuration checks that the verifier repeats. *)
Record verify_config_ok c : Prop := {
  vc_mode : cfg_Mode c = EmptyString \/ cfg_Mode c = ModeStrict \/ cfg_Mode c = ModePermissive;
  vc_paths : cfg_HRKCertPath c = EmptyString <-> cfg_HSKCekCertPath c = EmptyString;
  vc_meas : Forall measurement_ok (cfg_ExpectedMeasurements c)
}.

(** The in-memory root: the configured one, or else the local provider's. *)
Definition trusted_root (w : W) c : bytes :=
  if zlen (cfg_TrustedHRKCert c) =? 0 then provider_hrk w c else cfg_TrustedHRKCert c.

(** An in-memory root that is usable with a peer's evidence. *)
Definition anchor_for (w : W) c (ev : CSVEvidenceExtension) (hrk : bytes) : Prop :=
  HrkCertSize <= zlen (trusted_root w c) /\ hrk = take_z HrkCertSize (trusted_root w c) /\
  (ev_HRKCert ev = [] \/ ev_HRKCert ev = hrk).

(** Where the chain comes from.  The root is always local; only the
    intermediates may be the peer's, and only under an in-memory root. *)
Inductive chain_source (w : W) c (ev : CSVEvidenceExtension) : CertChainInput -> Prop :=
| chain_anchor_dir hrk dir :
    anchor_for w c ev hrk -> cfg_HRKCertPath c = EmptyString -> cfg_CertDir c <> EmptyString ->
    LoadLocalCertChain fs (cfg_CertDir c) = Ok dir ->
    chain_source w c ev (Build_CertChainInput hrk (ci_HSKCEK dir) in_memory)
| chain_anchor_peer hrk :
    anchor_for w c ev hrk -> cfg_HRKCertPath c = EmptyString -> cfg_CertDir c = EmptyString ->
    ev_HSKCekCert ev <> [] ->
    chain_source w c ev (Build_CertChainInput hrk (ev_HSKCekCert ev) in_memory)
| chain_paths files :
    trusted_root w c = [] -> strings_TrimSpace (cfg_HRKCertPath c) <> EmptyString ->
    strings_TrimSpace (cfg_HSKCekCertPath c) <> EmptyString ->
    LoadCertChainFromFiles fs (strings_TrimSpace (cfg_HRKCertPath c))
      (strings_TrimSpace (cfg_HSKCekCertPath c)) = Ok files ->
    chain_source w c ev files
| chain_blank_paths dir :
    trusted_root w c = [] -> cfg_HRKCertPath c <> EmptyString ->
    strings_TrimSpace (cfg_HRKCertPath c) = EmptyString ->
    strings_TrimSpace (cfg_HSKCekCertPath c) = EmptyString ->
    strings_TrimSpace (cfg_CertDir c) <> EmptyString ->
    LoadLocalCertChain fs (cfg_CertDir c) = Ok dir -> chain_source w c ev dir
| chain_dir dir :
    trusted_root w c = [] -> cfg_HRKCertPath c = EmptyString -> cfg_CertDir c <> EmptyString ->
    LoadLocalCertChain fs (cfg_CertDir c) = Ok dir ->
    chain_source w c ev (Build_CertChainInput (ci_HRK dir) (ci_HSKCEK dir) in_memory).

(** The measurement policy: strict mode wants a whitelist with the digest in
    it, permissive mode wants nothing. *)
Definition measurement_policy c (digest : bytes) : Prop :=
  cfg_Mode c <> ModePermissive ->
  exists m, m ∈ cfg_ExpectedMeasurements c /\ measurement_matches m digest = true.

(** A report that parses and that its own PEK signed. *)
Definition report_signed (f : ReportFields) : Prop :=
  is_ok (ChipIDASCII (vr_ChipID f)) = true /\ is_ok (ParseCSVCertDetails (vr_PEKCert f)) = true /\
  pek_signed f.

Record peer_valid (w : W) (now : Z) (pem : bytes) c (ev : CSVEvidenceExtension) : Prop := {
  pv_config : verify_config_ok c;
  pv_cert : exists cert, gx_ReadCertificateFromPem pem = Ok cert /\
    c_NotBefore cert <= now <= c_NotAfter cert /\
    (exists v, find_evidence_ext (c_Extensions cert) = Some v /\ DecodeCSVEvidence v = Ok ev) /\
    take_z 32 (vr_UserData (report_fields (ev_Report ev))) = sm3_Sm3Sum (c_RawSubjectPublicKeyInfo cert);
  pv_report : report_signed (report_fields (ev_Report ev));
  pv_chain : exists chain, chain_source w c ev chain /\
    chain_valid chain (vr_PEKCert (report_fields (ev_Report ev)));
  pv_measurement : measurement_policy c (vr_Digest (report_fields (ev_Report ev)))
}.

(** ** The steps of the verification *)

(** The configuration the verifier works with. *)
Definition verify_config (w : W) c : Config W := set_mode_anchor c (mode c) (trusted_root w c).

Lemma mode_check c :
  negb (bool_decide (mode c = ModeStrict)) && negb (bool_decide (mode c = ModePermissive)) = false <->
  cfg_Mode c = EmptyString \/ cfg_Mode c = ModeStrict \/ cfg_Mode c = ModePermissive.
Proof.
  unfold mode. destruct (is_empty (cfg_Mode c)) eqn:E.
  - apply is_empty_iff in E. rewrite bool_decide_eq_true_2 by done. split; [by left|done].
  - assert (cfg_Mode c <> EmptyString) by (intros Hm; apply is_empty_iff in Hm; congruence).
    repeat case_bool_decide; cbn; split; try done; auto. intros [?|[?|?]]; done.
Qed.

Lemma mode_strict c :
  (cfg_Mode c = EmptyString \/ cfg_Mode c = ModeStrict \/ cfg_Mode c = ModePermissive) ->
  mode c = ModeStrict <-> cfg_Mode c <> ModePermissive.
Proof.
  unfold mode. intros [E|[E|E]]; rewrite E; unfold is_empty; try (by rewrite bool_decide_eq_true_2);
    rewrite bool_decide_eq_false_2 by done; done.
Qed.

Lemma normalizedVerifyConfig_rdecides w cfg c :
  c = match cfg with None => zero_Config | Some c => c end ->
  rdecides (normalizedVerifyConfig w cfg) (verify_config_ok c) (verify_config w c).
Proof.
  intros ->. set (c := match cfg with None => zero_Config | Some c => c end).
  eapply rdecides_iff; [|unfold normalizedVerifyConfig; fold c;
    apply rdecides_throw_if; [apply mode_check|intros _];
    apply rdecides_throw_if; [apply eqb_iff_false; apply is_empty_iff|intros _];
    eapply rdecides_bind; [apply validate_from_rdecides|intros _]; apply rdecides_ok].
  split; [intros (? & ? & ? & _); by split|intros [? ? ?]; by split_and!].
Qed.

Lemma trusted_root_nil w c : trusted_root w c = [] <-> zlen (trusted_root w c) = 0.
Proof. split; [by intros ->|apply zlen_nil_inv]. Qed.

(** The anchor: what there is to say about [anchor_bytes]. *)
Lemma anchor_bytes_Ok w c ev a :
  anchor_bytes (verify_config w c) ev = Ok a <->
  (trusted_root w c = [] /\ a = []) \/ anchor_for w c ev a.
Proof.
  unfold anchor_bytes, anchor_for. change (cfg_TrustedHRKCert (verify_config w c)) with (trusted_root w c).
  set (t := trusted_root w c). clearbody t. pose proof (zlen_nonneg t).
  destruct (Z.ltb_spec 0 (zlen t)) as [Ht|Ht].
  2: { assert (t = []) as -> by (apply zlen_nil_inv; lia). split; [intros Ha; inv_ok; by left|].
       intros [[_ ->]|[Hl _]]; [done|]. csv_consts. rewrite zlen_nil in Hl. lia. }
  assert (t <> []) as Hn by (by intros ->).
  unfold normalizeHRKCert. destruct (Z.ltb_spec (zlen t) HrkCertSize) as [Hl|Hl].
  { split; [done|]. intros [[? _]|[? _]]; [done|lia]. }
  pose proof (zlen_nonneg (ev_HRKCert ev)).
  destruct (Z.ltb_spec 0 (zlen (ev_HRKCert ev))) as [He|He]; cbn [andb].
  - case_bool_decide as Hd; cbn [negb].
    + split; [intros Ha; inv_ok; right; split_and!; auto|]. intros [[? _]|(_ & -> & _)]; done.
    + split; [done|]. intros [[? _]|(_ & -> & [E|?])]; [done| |done]. by rewrite E in He.
  - assert (ev_HRKCert ev = []) by (apply zlen_nil_inv; lia).
    split; [intros Ha; inv_ok; right; split_and!; auto|]. intros [[? _]|(_ & -> & _)]; done.
Qed.

Lemma anchor_bytes_no_panic c ev : no_panic (anchor_bytes c ev).
Proof. unfold anchor_bytes. repeat case_match; done. Qed.

Lemma chain_options_no_panic c ev a : no_panic (chain_options c ev a).
Proof.
  unfold chain_options. destruct (_ && _); [done|]. destruct (negb _); [|by destruct (0 <? _)].
  apply bind_no_panic; [apply map_err_no_panic, LoadCertChainFromFiles_no_panic|done].
Qed.

Lemma LoadCertChainFromFiles_sizes a b ch :
  LoadCertChainFromFiles fs a b = Ok ch ->
  zlen (ci_HRK ch) = HrkCertSize /\ zlen (ci_HSKCEK ch) = HskCekSize.
Proof.
  assert (forall p n l, 0 <= n -> readFixedFile fs p n = Ok l -> zlen l = n) as Hf.
  { intros p n l Hn Hr. unfold readFixedFile in Hr. apply bind_Ok in Hr as (d & _ & Hr).
    destruct (Z.ltb_spec (zlen d) n); [done|]. rewrite gslice_ok in Hr by lia. inv_ok. zlia. }
  unfold LoadCertChainFromFiles. intros Hl.
  apply bind_Ok in Hl as (h & Hh%map_err_Ok & Hl). apply bind_Ok in Hl as (b' & Hb%map_err_Ok & Hl).
  inv_ok. by split; eapply Hf.
Qed.

(** [loadChainFromOptions] with everything in memory. *)
Lemma loadChain_memory o chip ch :
  vo_HRKCertBytes o = [] -> vo_HSKCekCertBytes o <> [] ->
  loadChainFromOptions fs o chip = Ok ch <->
  vo_TrustedHRKCertBytes o <> [] /\
  ch = Build_CertChainInput (vo_TrustedHRKCertBytes o) (vo_HSKCekCertBytes o) in_memory.
Proof.
  intros Eh Hb. unfold loadChainFromOptions. rewrite Eh.
  assert (0 < zlen (vo_HSKCekCertBytes o)) as Hl.
  { pose proof (zlen_nonneg (vo_HSKCekCertBytes o)). destruct (Z.eq_dec (zlen (vo_HSKCekCertBytes o)) 0);
      [by apply zlen_nil_inv in e|lia]. }
  rewrite (proj2 (Z.ltb_lt _ _) Hl), orb_true_r, (proj2 (Z.eqb_neq (zlen (vo_HSKCekCertBytes o)) 0)) by lia.
  rewrite orb_false_r. destruct (Z.eqb_spec (zlen (vo_TrustedHRKCertBytes o)) 0) as [E|E].
  - apply zlen_nil_inv in E as ->. split; [done|by intros []].
  - rewrite (proj2 (Z.eqb_neq _ _) E). split; [intros; inv_ok; split; [|done]; by intros Hn; rewrite Hn in E|].
    by intros [_ ->].
Qed.

(** ... and without a bundle in memory. *)
Lemma loadChain_files o chip ch :
  vo_HRKCertBytes o = [] -> vo_HSKCekCertBytes o = [] -> vo_HRKCertPath o = EmptyString ->
  let hrkPath := strings_TrimSpace (vo_TrustedHRKCertPath o) in
  let bundlePath := strings_TrimSpace (vo_HSKCekCertPath o) in
  loadChainFromOptions fs o chip = Ok ch <->
  vo_TrustedHRKCertBytes o = [] /\
  ((hrkPath <> EmptyString /\ bundlePath <> EmptyString /\
    LoadCertChainFromFiles fs hrkPath bundlePath = Ok ch) \/
   (hrkPath = EmptyString /\ bundlePath = EmptyString /\
    strings_TrimSpace (vo_CertDir o) <> EmptyString /\ LoadLocalCertChain fs (vo_CertDir o) = Ok ch)).
Proof.
  intros Eh Eb Ep hp bp. unfold loadChainFromOptions. rewrite Eh, Eb, Ep. fold hp bp.
  change (strings_TrimSpace EmptyString) with EmptyString. change (0 <? zlen []) with false.
  rewrite orb_false_r. pose proof (zlen_nonneg (vo_TrustedHRKCertBytes o)).
  destruct (Z.eqb_spec (zlen (vo_TrustedHRKCertBytes o)) 0) as [E|E].
  2: { rewrite (proj2 (Z.ltb_lt 0 _)) by lia. rewrite orb_true_r. split; [done|].
       intros [Hn _]. by rewrite Hn in E. }
  apply zlen_nil_inv in E. rewrite E. change (0 <? zlen []) with false. cbn iota.
  assert ((if bool_decide (hp = EmptyString) then EmptyString else hp) = hp) as Ehp
    by (case_bool_decide; by subst). rewrite Ehp.
  destruct (bool_decide_reflect (hp = EmptyString)), (bool_decide_reflect (bp = EmptyString));
    cbn [negb orb].
  - case_bool_decide; cbn [negb]; [split; [done|]; intros (_ & [(? & _)|(_ & _ & ? & _)]); done|].
    unfold LoadCertChain. rewrite map_err_Ok. split; [intros; split; [done|]; by right|].
    intros (_ & [(? & _)|(_ & _ & _ & ?)]); done.
  - split; [done|]. intros (_ & [(? & _)|(_ & ? & _)]); done.
  - split; [done|]. intros (_ & [(_ & ? & _)|(? & _)]); done.
  - split; [intros; split; [done|]; by left|]. intros (_ & [(_ & _ & ?)|(? & _)]); done.
Qed.

Lemma anchor_for_nonempty w c ev a : anchor_for w c ev a -> a <> [].
Proof.
  intros (Hl & -> & _) E. apply (f_equal zlen) in E. rewrite zlen_take_z in E.
  change (zlen []) with 0 in E. csv_consts. lia.
Qed.

Lemma is_empty_eq c :
  (cfg_HRKCertPath c = EmptyString <-> cfg_HSKCekCertPath c = EmptyString) ->
  is_empty (cfg_HRKCertPath c) = is_empty (cfg_HSKCekCertPath c).
Proof. intros Hp. apply eq_true_iff_eq. by rewrite !is_empty_iff. Qed.

Lemma is_empty_false s : s <> EmptyString -> is_empty s = false.
Proof. intros Hn. apply not_true_iff_false. by rewrite is_empty_iff. Qed.

Lemma chain_source_sound w c ev chip a o ch :
  (cfg_HRKCertPath c = EmptyString <-> cfg_HSKCekCertPath c = EmptyString) ->
  anchor_bytes (verify_config w c) ev = Ok a -> chain_options (verify_config w c) ev a = Ok o ->
  loadChainFromOptions fs o chip = Ok ch -> chain_source w c ev ch.
Proof.
  intros Ep%is_empty_eq Ha%anchor_bytes_Ok Ho Hl.
  unfold chain_options in Ho. cbn in Ho.
  rewrite <-Ep, andb_diag in Ho. destruct (is_empty (cfg_HRKCertPath c)) eqn:E; cbn [negb] in Ho.
  - apply is_empty_iff in E. destruct (is_empty (cfg_CertDir c)) eqn:Ed; cbn [negb] in Ho.
    * apply is_empty_iff in Ed. pose proof (zlen_nonneg (ev_HSKCekCert ev)).
      destruct (Z.ltb_spec 0 (zlen (ev_HSKCekCert ev))) as [He|He]; inv_ok.
      -- assert (ev_HSKCekCert ev <> []) by (intros Hn; by rewrite Hn in He).
         apply loadChain_memory in Hl as [Hn ->]; [|done..]. cbn in *.
         destruct Ha as [[_ ->]|Ha]; [done|]. by apply chain_anchor_peer.
      -- apply loadChain_files in Hl as (_ & [(? & _)|(_ & _ & Hd & _)]); cbn in *; try done.
         by rewrite Ed in Hd.
    * assert (cfg_CertDir c <> EmptyString) by (intros Hd; by rewrite Hd in Ed).
      apply bind_Ok in Ho as (dir & Hdir%map_err_Ok & Ho). inv_ok.
      pose proof (LoadCertChainFromFiles_sizes _ _ _ Hdir) as [Lh Lb].
      apply loadChain_memory in Hl as [_ ->]; [|done|intros Hn; cbn in Hn; by rewrite Hn in Lb].
      cbn. destruct Ha as [[Ht ->]|Ha]; [by apply chain_dir|].
      destruct (Z.eqb_spec (zlen a) 0) as [Ez|_]; [|by apply chain_anchor_dir].
      by apply zlen_nil_inv, (anchor_for_nonempty _ _ _ _ Ha) in Ez.
  - inv_ok. apply loadChain_files in Hl as (Ea & Hl); [|done..]. cbn in Ea, Hl. subst a.
    destruct Ha as [[Ht _]|Ha]; [|by apply anchor_for_nonempty in Ha].
    assert (cfg_HRKCertPath c <> EmptyString) by (intros Hn; by rewrite Hn in E).
    destruct Hl as [(? & ? & ?)|(? & ? & ? & ?)]; [by apply chain_paths|by apply chain_blank_paths].
Qed.

Lemma chain_source_complete w c ev chip ch :
  (cfg_HRKCertPath c = EmptyString <-> cfg_HSKCekCertPath c = EmptyString) ->
  chain_source w c ev ch ->
  exists a o, anchor_bytes (verify_config w c) ev = Ok a /\
    chain_options (verify_config w c) ev a = Ok o /\ loadChainFromOptions fs o chip = Ok ch.
Proof.
  intros Ep%is_empty_eq.
  assert (forall d, LoadLocalCertChain fs (cfg_CertDir c) = Ok d -> ci_HSKCEK d <> [] /\ ci_HRK d <> []) as Hne.
  { intros d Hd. pose proof (LoadCertChainFromFiles_sizes _ _ _ Hd) as [Lh Lb].
    split; intros Hn; [by rewrite Hn in Lb|by rewrite Hn in Lh]. }
  intros Hs. unfold chain_options. cbn. rewrite <-Ep, andb_diag.
  destruct Hs as [hrk dir Ha E Ed Hd|hrk Ha E Ed Hb|files Ht P1 P2 Hl|dir Ht E P1 P2 P3 Hl|dir Ht E Ed Hd].
  - pose proof (anchor_for_nonempty _ _ _ _ Ha) as Hn.
    exists hrk. eexists. split; [apply anchor_bytes_Ok; by right|].
    rewrite E, (is_empty_false (cfg_CertDir c)), Hd by done. split; [reflexivity|]. cbn.
    destruct (Z.eqb_spec (zlen hrk) 0) as [Ez|_]; [by apply zlen_nil_inv in Ez|].
    apply loadChain_memory; [done|by eapply Hne|by split].
  - exists hrk. eexists. split; [apply anchor_bytes_Ok; by right|].
    rewrite E, Ed. cbn. pose proof (zlen_nonneg (ev_HSKCekCert ev)).
    destruct (Z.ltb_spec 0 (zlen (ev_HSKCekCert ev))) as [_|He].
    2: { destruct Hb. apply zlen_nil_inv. lia. }
    split; [reflexivity|]. apply loadChain_memory; [done..|].
    split; [by eapply anchor_for_nonempty|done].
  - exists []. eexists. split; [apply anchor_bytes_Ok; by left|].
    rewrite is_empty_false by (intros Hn; by rewrite Hn in P1). split; [reflexivity|].
    apply loadChain_files; [done..|]. split; [done|by left].
  - exists []. eexists. split; [apply anchor_bytes_Ok; by left|].
    rewrite is_empty_false by done. split; [reflexivity|].
    apply loadChain_files; [done..|]. split; [done|by right].
  - exists []. eexists. split; [apply anchor_bytes_Ok; by left|].
    rewrite E, (is_empty_false (cfg_CertDir c)), Hd by done. split; [reflexivity|]. apply loadChain_memory; [done|by eapply Hne|].
    split; [by eapply Hne|done].
Qed.

Lemma verified_result_fields data o :
  vr_fields (verified_result fs data o) = report_fields (take_z ReportSize data).
Proof.
  destruct (parsed_state_fields data) as (Hf & _). unfold verified_result. by repeat case_match.
Qed.

Lemma verify_report_rdecides data o :
  rdecides (verify_report data o) (report_valid fs data o) (verified_result fs data o).
Proof.
  unfold verify_report.
  destruct (VerifyReportWithOptions_decides fs data o) as [[Hv ->]|[Hv (e & s & ->)]]; [by left|].
  right. split; [done|by eexists].
Qed.

(** The line a report with that digest leaves in the log. *)
Definition warning c (digest : bytes) : list error :=
  if (0 <? zlen (cfg_ExpectedMeasurements c))
     && negb (existsb (fun m => measurement_matches m digest) (cfg_ExpectedMeasurements c))
  then [Errorf "[WARN] [teetls] Enclave measurement mismatch in permissive mode: got %s, expected one of %v"
          [FStr (strings_ToLower (hex_EncodeToString digest)); FStrs (cfg_ExpectedMeasurements c)]]
  else [].

Lemma whitelisted_iff c digest :
  existsb (fun m => measurement_matches m digest) (cfg_ExpectedMeasurements c) = true <->
  exists m, m ∈ cfg_ExpectedMeasurements c /\ measurement_matches m digest = true.
Proof.
  rewrite existsb_exists. split; intros (m & Hm & ?); exists m; (split; [|done]);
    by apply list_elem_of_In.
Qed.

Lemma check_measurement_decides w c digest l :
  (cfg_Mode c = EmptyString \/ cfg_Mode c = ModeStrict \/ cfg_Mode c = ModePermissive) ->
  decides (check_measurement (verify_config w c) digest) l (measurement_policy c digest) tt
    (l ++ warning c digest).
Proof.
  intros Hm. pose proof (mode_strict c Hm) as Hs. pose proof (whitelisted_iff c digest) as Hw.
  unfold check_measurement, measurement_policy, warning.
  change (cfg_Mode (verify_config w c)) with (mode c).
  change (cfg_ExpectedMeasurements (verify_config w c)) with (cfg_ExpectedMeasurements c).
  change (existsb (fun exp => strings_EqualFold exp (strings_ToLower (hex_EncodeToString digest))) ?ms)
    with (existsb (fun m => measurement_matches m digest) ms).
  destruct (bool_decide_reflect (mode c = ModeStrict)) as [Es|Es]; cbn [andb].
  - apply Hs in Es. destruct (Z.eqb_spec (zlen (cfg_ExpectedMeasurements c)) 0) as [Ez|Ez].
    + apply zlen_nil_inv in Ez. right. split; [|by eexists _, _].
      intros Hp. destruct (Hp Es) as (m & Hi & _). rewrite Ez in Hi. by apply not_elem_of_nil in Hi.
    + rewrite (proj2 (Z.ltb_lt 0 _)) by zlia. cbn [andb].
      destruct (existsb _ _); cbn [negb].
      * left. rewrite app_nil_r. split; [|done]. intros _. by apply Hw.
      * right. split; [|by eexists _, _]. intros Hp. by apply Hp, Hw in Es.
  - left. split; [intros Hp; by apply Hs in Hp|].
    destruct (0 <? _); cbn [andb]; [|by rewrite app_nil_r].
    destruct (existsb _ _); cbn [negb]; [by rewrite app_nil_r|done].
Qed.

Lemma rdecides_is_ok {A} (d : A) (r : result A) : no_panic r -> rdecides r (is_ok r = true) (get_ok d r).
Proof. destruct r; [by left|right; eauto|done]. Qed.

Definition no_options : VerifyOptions := dir_options EmptyString false.

(** The conditions of the run, in the order they are checked, for a certificate
    that parses and carries decodable evidence. *)
Lemma verify_steps_decide w now pem cfg c cert v ev l :
  c = match cfg with None => zero_Config | Some c => c end ->
  cfg_InsecureSkipAttestationVerify c = false ->
  gx_ReadCertificateFromPem pem = Ok cert ->
  find_evidence_ext (c_Extensions cert) = Some v -> DecodeCSVEvidence v = Ok ev ->
  let a := get_ok [] (anchor_bytes (verify_config w c) ev) in
  let o := get_ok no_options (chain_options (verify_config w c) ev a) in
  let f := report_fields (take_z ReportSize (ev_Report ev)) in
  decides (VerifyPeerCertificateAndEvidence w now pem cfg) l
    (verify_config_ok c /\ c_NotBefore cert <= now /\ now <= c_NotAfter cert /\
     is_ok (anchor_bytes (verify_config w c) ev) = true /\
     is_ok (chain_options (verify_config w c) ev a) = true /\
     report_valid fs (ev_Report ev) o /\
     (32 <= zlen (vr_UserData f) /\
      take_z 32 (vr_UserData f) = ComputePublicKeySM3 (c_RawSubjectPublicKeyInfo cert)) /\
     measurement_policy c (vr_Digest f)) (Some ev) (l ++ warning c (vr_Digest f)).
Proof.
  intros Hc Hskip Hcert Hv Hev a o f.
  eapply decides_iff; [|unfold VerifyPeerCertificateAndEvidence;
    eapply decides_bind; [by apply decides_lift, normalizedVerifyConfig_rdecides|intros Hok];
    unfold ParseCertificatePEM; rewrite Hcert; cbn [map_err result_map_err];
    eapply decides_bind; [apply decides_map_err, decides_lift, rdecides_ok|intros _];
    apply decides_throw_if; [apply Z.ltb_ge|intros _];
    apply decides_throw_if; [apply Z.ltb_ge|intros _];
    change (cfg_InsecureSkipAttestationVerify (verify_config w c))
      with (cfg_InsecureSkipAttestationVerify c); rewrite Hv, Hev, Hskip;
    eapply decides_bind; [apply decides_lift, rdecides_ok|intros _];
    eapply decides_bind; [apply decides_lift, (rdecides_is_ok []), anchor_bytes_no_panic|intros _];
    eapply decides_bind; [apply decides_lift, (rdecides_is_ok no_options), chain_options_no_panic|intros _];
    eapply decides_bind; [apply decides_lift, verify_report_rdecides|intros _];
    rewrite verified_result_fields; fold f;
    apply decides_throw_if; [reflexivity|intros _];
    eapply decides_bind; [apply check_measurement_decides, Hok|intros _]; apply decides_ret].
  fold a o. rewrite orb_false_iff, Z.ltb_ge, negb_false_iff, bool_decide_eq_true. tauto.
Qed.

Lemma verify_Ok_inv w now pem cfg c l r l' :
  c = match cfg with None => zero_Config | Some c => c end ->
  cfg_InsecureSkipAttestationVerify c = false ->
  VerifyPeerCertificateAndEvidence w now pem cfg l = (Ok r, l') ->
  exists cert v ev, gx_ReadCertificateFromPem pem = Ok cert /\
    find_evidence_ext (c_Extensions cert) = Some v /\ DecodeCSVEvidence v = Ok ev.
Proof.
  intros Hc Hskip Hv. unfold VerifyPeerCertificateAndEvidence in Hv.
  apply stM_bind_Ok in Hv as (c' & l1 & [Hn ->]%lift_Ok & Hv).
  destruct (normalizedVerifyConfig_rdecides w cfg c Hc) as [[_ E]|[_ [e E]]];
    rewrite E in Hn; [injection Hn as <-|done].
  apply stM_bind_Ok in Hv as (cert & l1 & [Hp ->]%stM_map_err_Ok%lift_Ok & Hv).
  apply map_err_Ok in Hp.
  apply stM_if_throw in Hv as [_ Hv]. apply stM_if_throw in Hv as [_ Hv].
  change (cfg_InsecureSkipAttestationVerify (verify_config w c))
    with (cfg_InsecureSkipAttestationVerify c) in Hv. rewrite Hskip in Hv.
  destruct (find_evidence_ext (c_Extensions cert)) as [v|] eqn:Ev; [|done].
  apply stM_bind_Ok in Hv as (ev & l1 & [Hd ->]%lift_Ok & Hv). apply map_err_Ok in Hd.
  by exists cert, v, ev.
Qed.

Lemma get_ok_Ok {A} (d a : A) r : r = Ok a -> get_ok d r = a.
Proof. by intros ->. Qed.

Lemma is_ok_get {A} (d : A) r : is_ok r = true -> r = Ok (get_ok d r).
Proof. by destruct r. Qed.
End verifier.

(** ** Acceptance *)

Section accept.
Context `{SM3Laws, SM2, X509} {W : Type} (fs : FS).
Implicit Types c : Config W.

Lemma report_valid_iff data o :
  zlen data = ReportSize -> vo_VerifyChain o = true ->
  report_valid fs data o <->
  report_signed (report_fields data) /\ exists ch,
    loadChainFromOptions fs o (vr_ChipIDASCII (parsed_state data)) = Ok ch /\
    chain_valid ch (vr_PEKCert (report_fields data)).
Proof.
  intros Hl Ho. assert (take_z ReportSize data = data) as E by (apply take_z_all; lia).
  split.
  - intros [? ? ? ? Hch]. rewrite E in *. split; [done|auto].
  - intros ((? & ? & ?) & Hch). split; rewrite ?E; try done; lia.
Qed.

Lemma chain_options_verify c ev a o : chain_options fs c ev a = Ok o -> vo_VerifyChain o = true.
Proof. unfold chain_options. repeat case_match; intros Ho; simplify_eq/=; inv_ok; done. Qed.

(** The steps and the specification say the same. *)
Lemma conditions_iff w now pem c cert v ev :
  gx_ReadCertificateFromPem pem = Ok cert ->
  find_evidence_ext (c_Extensions cert) = Some v -> DecodeCSVEvidence v = Ok ev ->
  let a := get_ok [] (anchor_bytes (verify_config w c) ev) in
  let o := get_ok no_options (chain_options fs (verify_config w c) ev a) in
  let f := report_fields (take_z ReportSize (ev_Report ev)) in
  (verify_config_ok c /\ c_NotBefore cert <= now /\ now <= c_NotAfter cert /\
   is_ok (anchor_bytes (verify_config w c) ev) = true /\
   is_ok (chain_options fs (verify_config w c) ev a) = true /\
   report_valid fs (ev_Report ev) o /\
   (32 <= zlen (vr_UserData f) /\
    take_z 32 (vr_UserData f) = ComputePublicKeySM3 (c_RawSubjectPublicKeyInfo cert)) /\
   measurement_policy c (vr_Digest f)) <-> peer_valid fs w now pem c ev.
Proof.
  intros Hp He Hd a o f. pose proof (DecodeCSVEvidence_ok _ _ Hd) as [_ Hl _ _].
  assert (f = report_fields (ev_Report ev)) as Ef by (unfold f; rewrite take_z_all by lia; done).
  rewrite Ef, ComputePublicKeySM3_eq. split.
  - intros (Hok & Hnb & Hna & Ha & Ho & Hr & [_ Hb] & Hm).
    apply (is_ok_get []) in Ha. apply (is_ok_get no_options) in Ho.
    apply report_valid_iff in Hr as (Hs & ch & Hch & Hcv);
      [|done|by eapply chain_options_verify].
    split; [done| |done| |done].
    + exists cert. split_and!; [done..| |done]. by exists v.
    + exists ch. split; [|done]. by eapply chain_source_sound, Hch; [apply vc_paths| |].
  - intros [Hok (cert' & Hp' & [Hnb Hna] & (v' & He' & Hd') & Hb) Hs (ch & Hsrc & Hcv) Hm].
    assert (cert' = cert) as -> by congruence. clear v' He' Hd' Hp'.
    destruct (chain_source_complete fs w c ev (vr_ChipIDASCII (parsed_state (ev_Report ev))) ch)
      as (a' & o' & Ea & Eo & Hch); [by apply vc_paths|done|].
    assert (a = a') as -> by (by apply get_ok_Ok). assert (o = o') as -> by (by apply get_ok_Ok).
    split_and!; try done.
    + by rewrite Ea.
    + by rewrite Eo.
    + apply report_valid_iff; [done|by eapply chain_options_verify|eauto].
    + assert (zlen (vr_UserData (report_fields (ev_Report ev))) = 64) as ->; [|done].
      unfold report_fields, unmasked. cbn [vr_UserData]. rewrite zlen_UnmaskWords. in_range.
Qed.

Lemma verify_Ok_iff w now pem cfg c l r l' :
  c = match cfg with None => zero_Config | Some c => c end ->
  cfg_InsecureSkipAttestationVerify c = false ->
  VerifyPeerCertificateAndEvidence fs w now pem cfg l = (Ok r, l') <->
  exists ev, r = Some ev /\ peer_valid fs w now pem c ev /\
    l' = l ++ warning c (vr_Digest (report_fields (ev_Report ev))).
Proof.
  intros Hc Hskip.
  enough (forall cert v ev, gx_ReadCertificateFromPem pem = Ok cert ->
    find_evidence_ext (c_Extensions cert) = Some v -> DecodeCSVEvidence v = Ok ev ->
    VerifyPeerCertificateAndEvidence fs w now pem cfg l = (Ok r, l') <->
    peer_valid fs w now pem c ev /\ r = Some ev /\
    l' = l ++ warning c (vr_Digest (report_fields (ev_Report ev)))) as Hall.
  { split.
    - intros Hv. destruct (verify_Ok_inv _ _ _ _ _ _ _ _ _ Hc Hskip Hv) as (cert & v & ev & Hp & He & Hd).
      apply (Hall cert v ev) in Hv as (? & ? & ?); [|done..]. by exists ev.
    - intros (ev & -> & Hv & ->). pose proof Hv as [_ (cert & Hp & _ & (v & He & Hd) & _) _ _ _].
      by apply (Hall cert v ev). }
  intros cert v ev Hp He Hd.
  pose proof (verify_steps_decide fs w now pem cfg c cert v ev l Hc Hskip Hp He Hd) as Hs. cbv zeta in Hs.
  rewrite (decides_Ok _ _ _ _ _ _ _ Hs), (conditions_iff w now pem c cert v ev Hp He Hd).
  pose proof (DecodeCSVEvidence_ok _ _ Hd) as [_ Hl _ _]. by rewrite take_z_all by lia.
Qed.

Lemma verify_no_panic (w : W) now pem cfg l :
  no_panic (gx_ReadCertificateFromPem pem) ->
  no_panic (VerifyPeerCertificateAndEvidence fs w now pem cfg l).1.
Proof.
  intros Hp. unfold VerifyPeerCertificateAndEvidence.
  set (c := match cfg with None => zero_Config | Some c => c end).
  pose proof (normalizedVerifyConfig_rdecides w cfg c eq_refl) as Hcfg.
  apply stM_bind_no_panic; [by eapply rdecides_no_panic|]. intros c' l1 [Hn ->]%lift_Ok.
  apply (rdecides_Ok _ _ _ _ Hcfg) in Hn as [Hok ->].
  apply stM_bind_no_panic; [unfold ParseCertificatePEM; by destruct (gx_ReadCertificateFromPem pem)|].
  intros cert l1 _. repeat (case_match; [done|]).
  destruct (find_evidence_ext _); [|by case_match].
  apply stM_bind_no_panic; [apply map_err_no_panic, DecodeCSVEvidence_no_panic|].
  intros ev l2 _. case_match; [done|].
  apply stM_bind_no_panic; [apply anchor_bytes_no_panic|]. intros a l3 _.
  apply stM_bind_no_panic; [apply chain_options_no_panic|]. intros o l4 _.
  apply stM_bind_no_panic; [eapply rdecides_no_panic, verify_report_rdecides|]. intros res l5 _.
  case_match; [done|]. apply stM_bind_no_panic; [|done].
  eapply decides_no_panic, check_measurement_decides, Hok.
Qed.

(** C1. The verifier accepts a peer (attestation not switched off) exactly when
    the configuration is sound, the certificate parses and is within its
    validity, it carries decodable evidence whose report's USER_DATA begins with
    the SM3 digest of the certificate's own public key, the report is signed by
    its PEK, that PEK has a valid chain from a root chosen by local
    configuration only, and the measurement meets the policy of the mode.  What
    it returns is that evidence, and what it logs is the mismatch that
    permissive mode tolerates.  It panics on no certificate the X.509 package
    survives. *)
Theorem verify_sound_complete w now pem cfg c l r l' :
  c = match cfg with None => zero_Config | Some c => c end ->
  cfg_InsecureSkipAttestationVerify c = false ->
  (no_panic (gx_ReadCertificateFromPem pem) ->
     no_panic (VerifyPeerCertificateAndEvidence fs w now pem cfg l).1) /\
  (VerifyPeerCertificateAndEvidence fs w now pem cfg l = (Ok r, l') <->
   exists ev, r = Some ev /\ peer_valid fs w now pem c ev /\
     l' = l ++ warning c (vr_Digest (report_fields (ev_Report ev)))).
Proof. intros Hc Hskip. split; [apply verify_no_panic|by apply verify_Ok_iff]. Qed.

(** Without a local root (none configured, none from the provider, no
    paths, no directory) no peer is accepted, whatever chain it brings along. *)
Theorem no_local_root_no_accept w now pem c l :
  cfg_InsecureSkipAttestationVerify c = false ->
  trusted_root w c = [] -> cfg_HRKCertPath c = EmptyString -> cfg_CertDir c = EmptyString ->
  is_ok (VerifyPeerCertificateAndEvidence fs w now pem (Some c) l).1 = false.
Proof.
  intros Hskip Ht Hp Hd.
  destruct (VerifyPeerCertificateAndEvidence fs w now pem (Some c) l) as [[r|e|] l'] eqn:E; [|done..].
  apply (verify_Ok_iff w now pem (Some c) c) in E as (ev & _ & [_ _ _ (ch & Hs & _) _] & _); [|done..].
  exfalso. destruct Hs as [hrk dir (Hl & _) ? ?|hrk (Hl & _) ? ?|? ? Hn|? ? Hn|? ? ? Hn]; try done.
  - rewrite Ht in Hl. done.
  - by rewrite Hp in Hn.
Qed.


Definition with_mode (m : AttestationMode) c : Config W := set_mode_anchor c m (cfg_TrustedHRKCert c).

(** Strict mode is permissive mode plus the measurement: it accepts exactly
    the peers that permissive mode accepts with the same evidence when the
    whitelist has the report's digest, and then nothing is logged. *)
Theorem strict_iff_permissive_measured w now pem c l ev l' :
  cfg_InsecureSkipAttestationVerify c = false ->
  VerifyPeerCertificateAndEvidence fs w now pem (Some (with_mode ModeStrict c)) l = (Ok (Some ev), l') <->
  VerifyPeerCertificateAndEvidence fs w now pem (Some (with_mode ModePermissive c)) l = (Ok (Some ev), l') /\
  l' = l /\ exists m, m ∈ cfg_ExpectedMeasurements c /\
    measurement_matches m (vr_Digest (report_fields (ev_Report ev))) = true.
Proof.
  intros Hskip. set (d := vr_Digest (report_fields (ev_Report ev))).
  assert (forall m, m = ModeStrict \/ m = ModePermissive ->
    VerifyPeerCertificateAndEvidence fs w now pem (Some (with_mode m c)) l = (Ok (Some ev), l') <->
    peer_valid fs w now pem (with_mode ModePermissive c) ev /\
    measurement_policy (with_mode m c) d /\ l' = l ++ warning c d) as Hm.
  { intros m Hm. rewrite (verify_Ok_iff w now pem _ (with_mode m c)) by done. split.
    - intros (ev' & [= <-] & [[Hc1 Hc2 Hc3] Hcert Hr Hch Hp] & Hl). split; [|done].
      split; [split; [by right; right|done..]|done|done| |by intros []].
      destruct Hch as (ch & Hs & Hv). exists ch. split; [|done]. by destruct Hs; econstructor.
    - intros ([[Hc1 Hc2 Hc3] Hcert Hr Hch _] & Hp & Hl). exists ev. split; [done|]. split; [|done].
      split; [split; [right; done|done..]|done|done| |done].
      destruct Hch as (ch & Hs & Hv). exists ch. split; [|done]. by destruct Hs; econstructor. }
  rewrite !Hm by auto. pose proof (whitelisted_iff c d) as Hw. unfold warning.
  split.
  - intros (Hv & Hp & ->). assert (exists m, m ∈ cfg_ExpectedMeasurements c /\ measurement_matches m d = true)
      as He by (by apply Hp). apply Hw in He. rewrite He, andb_false_r, app_nil_r.
    split_and!; [done|by intros []|done|done|by apply Hw].
  - intros ((Hv & _ & El) & -> & He). split_and!; [done|by intros _|done].
Qed.

(** With attestation switched off the verifier still wants a sound
    configuration and a certificate that parses and is within its validity;
    evidence may be missing, but evidence that is there must decode. *)
Theorem insecure_skip_outcome w now pem c l r l' :
  cfg_InsecureSkipAttestationVerify c = true ->
  VerifyPeerCertificateAndEvidence fs w now pem (Some c) l = (Ok r, l') <->
  l' = l /\ verify_config_ok c /\ exists cert, gx_ReadCertificateFromPem pem = Ok cert /\
    c_NotBefore cert <= now <= c_NotAfter cert /\
    match find_evidence_ext (c_Extensions cert) with
    | None => r = None
    | Some v => exists ev, DecodeCSVEvidence v = Ok ev /\ r = Some ev
    end.
Proof.
  intros Hskip. unfold VerifyPeerCertificateAndEvidence.
  unfold mbind at 1, stM_bind at 1, lift at 1.
  destruct (normalizedVerifyConfig_rdecides w (Some c) c eq_refl) as [[Hok ->]|[Hok [e ->]]].
  2: { split; [done|]. by intros (_ & ? & _). }
  change (cfg_InsecureSkipAttestationVerify (verify_config w c))
    with (cfg_InsecureSkipAttestationVerify c). rewrite Hskip.
  stm. unfold ParseCertificatePEM. stm.
  destruct (gx_ReadCertificateFromPem pem) as [cert|e|] eqn:Ep;
    [|by split; [|intros (_ & _ & ? & ? & _)]..].
  assert ((exists cert', Ok cert = Ok cert' /\ c_NotBefore cert' <= now <= c_NotAfter cert' /\
    match find_evidence_ext (c_Extensions cert') with
    | None => r = None
    | Some v => exists ev, DecodeCSVEvidence v = Ok ev /\ r = Some ev
    end) <-> (c_NotBefore cert <= now <= c_NotAfter cert /\
    match find_evidence_ext (c_Extensions cert) with
    | None => r = None
    | Some v => exists ev, DecodeCSVEvidence v = Ok ev /\ r = Some ev
    end)) as Hc.
  { split; [by intros (? & [= <-] & ?)|]. by exists cert. }
  rewrite Hc. clear Hc.
  destruct (Z.ltb_spec now (c_NotBefore cert)); [split; [done|lia]|].
  destruct (Z.ltb_spec (c_NotAfter cert) now); [split; [done|lia]|].
  destruct (find_evidence_ext (c_Extensions cert)) as [v|].
  - destruct (DecodeCSVEvidence v) as [ev|e|].
    + split; [intros [= <- <-]; split_and!; eauto|]. by intros (-> & _ & _ & ev' & [= ->] & ->).
    + split; [done|]. by intros (_ & _ & _ & ? & ? & _).
    + split; [done|]. by intros (_ & _ & _ & ? & ? & _).
  - split; [intros [= <- <-]; split_and!; done|]. by intros (-> & _ & _ & ->).
Qed.
End accept.

(** ** A generated certificate is accepted *)

Section end_to_end.
Context `{SM3Laws, Hlaws : X509Laws} {W W' : Type} (fs : FS) (ep : EvidenceProvider W)
  (hrk bundle meas : bytes) `{Hep : !EvidenceProviderLaws ep hrk bundle meas}.

(** Evidence that binds its key verifies under its own root. *)
Lemma binds_chain digest ev :
  binds digest ev hrk bundle meas ->
  let f := report_fields (ev_Report ev) in
  zlen (ev_Report ev) = ReportSize /\ report_signed f /\ HrkCertSize <= zlen hrk /\ bundle <> [] /\
  chain_valid (Build_CertChainInput hrk bundle in_memory) (vr_PEKCert f) /\
  take_z 32 (vr_UserData f) = digest /\ vr_Digest f = meas.
Proof.
  intros [Ho Hv Hu Hm _ Hb] f.
  assert (zlen (ev_Report ev) = ReportSize) as Hl.
  { destruct Ho as [_ Hl _ _]. unfold normalise_version in Hl. by destruct (ev_Version ev =? 0). }
  rewrite (take_z_all ReportSize) in Hu, Hm by lia. fold f in Hu, Hm.
  specialize (Hv fs). apply report_valid_iff in Hv as (Hs & ch & Hch & Hcv); [|done..].
  assert (bundle <> []) as Hne.
  { intros E. apply loadChain_files in Hch as (_ & [(? & _)|(_ & _ & ? & _)]); done. }
  apply loadChain_memory in Hch as [_ ->]; [|done..].
  split_and!; try done. apply (cv_hrk_len _ _ Hcv).
Qed.

Lemma normalise_fields ev :
  ev_Report (normalise_version ev) = ev_Report ev /\ ev_HRKCert (normalise_version ev) = ev_HRKCert ev /\
  ev_HSKCekCert (normalise_version ev) = ev_HSKCekCert ev.
Proof. unfold normalise_version. by destruct (_ =? 0). Qed.

(** What a certificate needs of the peer's configuration. *)
Record trusts (w : W') (c : Config W') : Prop := {
  tr_config : verify_config_ok c;
  tr_verify : cfg_InsecureSkipAttestationVerify c = false;
  tr_root : take_z HrkCertSize (trusted_root w c) = hrk;
  tr_paths : cfg_HRKCertPath c = EmptyString;
  tr_dir : cfg_CertDir c = EmptyString;
  tr_measurement : measurement_policy c meas
}.

Lemma cert_for_valid w c now now' certPEM keyPEM k cert ev :
  cert_for now certPEM keyPEM k cert ev hrk bundle meas -> trusts w c ->
  now - hour <= now' <= now + 24 * hour - second ->
  peer_valid fs w now' certPEM c (normalise_version ev).
Proof.
  intros [_ _ Hr _ _ Hnb Hna Hx Hb] [Hok _ Ht Hp Hd Hm] Hnow.
  destruct (normalise_fields ev) as (E1 & E2 & E3).
  pose proof (bi_ok _ _ _ _ _ Hb) as Ho. pose proof (bi_hrk _ _ _ _ _ Hb) as Eh.
  pose proof (bi_bundle _ _ _ _ _ Hb) as Eb.
  destruct (binds_chain _ _ Hb) as (Hl & Hs & Hlh & Hne & Hcv & Hu & Hmeas).
  split; rewrite ?E1; [done| |done| |by rewrite Hmeas].
  - exists cert. split_and!; [done|lia|lia| |done].
    eexists. split; [exact Hx|]. by apply decode_encoded.
  - eexists. split; [|exact Hcv].
    rewrite <-Eb, <-E3. apply chain_anchor_peer; [|done|done|by rewrite E3, Eb].
    split; [|split; [done|right; by rewrite E2]].
    rewrite <-Ht in Hlh. rewrite zlen_take_z in Hlh. lia.
Qed.

(** C22. The two halves fit: a certificate generated with a lawful evidence
    provider is accepted by every peer that trusts the provider's root and
    tolerates its measurement, from an hour before until a second less than a
    day after it was made (the certificate's times are whole seconds), and the
    evidence that the peer gets carries the measurement. *)
Theorem generated_certificate_accepted ctx now rnd w certPEM keyPEM st c w' now' l :
  ep_inv w ->
  GenerateSM2CertificateWithEvidenceContext ctx (Some ep) now (rnd, w) = (Ok (certPEM, keyPEM), st) ->
  trusts w' c -> now - hour <= now' <= now + 24 * hour - second ->
  exists ev, VerifyPeerCertificateAndEvidence fs w' now' certPEM (Some c) l
               = (Ok (Some ev), l ++ warning c meas) /\
    vr_Digest (report_fields (ev_Report ev)) = meas.
Proof.
  intros Hw Hg Ht Hnow. destruct st as [rnd' w1].
  destruct (Generate_cert ep hrk bundle meas ctx now rnd w certPEM keyPEM rnd' w1 Hw Hg)
    as (_ & k & cert & ev & Hc).
  exists (normalise_version ev).
  destruct (binds_chain _ _ (cf_binds _ _ _ _ _ _ _ _ _ Hc)) as (_ & _ & _ & _ & _ & _ & Em).
  destruct (normalise_fields ev) as (E1 & _). rewrite E1, Em. split; [|done].
  apply (verify_Ok_iff fs w' now' certPEM (Some c) c); [done|apply Ht|].
  exists (normalise_version ev). rewrite E1, Em. split; [done|]. split; [|done].
  by eapply cert_for_valid.
Qed.
End end_to_end.

(** ** Instances *)

(** [toy_config] with other settings. *)
Definition toy_verify_config (provider skip : bool) (hrk : bytes) (hrkPath bundlePath dir : string)
  : Config MockEvidenceProvider :=
  Build_Config EmptyString (if provider then Some (@MockProvider toy_sm2) else None)
    [DefaultMockMeasurementHex] false 0 skip [] [] hrkPath bundlePath hrk dir 0.
Definition toy_fs : FS := fs_of ∅.

Abbreviation toy_verify now pem c l :=
  (@VerifyPeerCertificateAndEvidence toy_sm3 toy_sm2 toy_x509 MockEvidenceProvider toy_fs toy_mock now pem c l).

Lemma toy_trusts : trusts toy_hrk toy_meas toy_mock toy_config.
Proof.
  split; [split| | | | |].
  - by left.
  - done.
  - constructor; [|constructor]. split; vm_compute; reflexivity.
  - reflexivity.
  - vm_compute. reflexivity.
  - reflexivity.
  - reflexivity.
  - intros _. exists DefaultMockMeasurementHex. split; [left|vm_compute; reflexivity].
Qed.

Lemma verify_sound_complete_witness :
  toy_verify 5 [] (Some toy_config) [] = (Ok None, []) <->
  exists ev, None = Some ev /\
    @peer_valid toy_sm3 toy_sm2 toy_x509 MockEvidenceProvider toy_fs toy_mock 5 [] toy_config ev /\
    [] = [] ++ @warning MockEvidenceProvider toy_config (vr_Digest (report_fields (ev_Report ev))).
Proof.
  apply (@verify_sound_complete toy_sm3 toy_sm3_laws toy_sm2 toy_x509 MockEvidenceProvider toy_fs
           toy_mock 5 [] (Some toy_config) toy_config []); reflexivity.
Defined.

Lemma no_local_root_no_accept_witness :
  is_ok (toy_verify 5 [] (Some (toy_verify_config false false [] "" "" "")) []).1 = false.
Proof.
  apply (@no_local_root_no_accept toy_sm3 toy_sm3_laws toy_sm2 toy_x509 MockEvidenceProvider toy_fs);
    reflexivity.
Defined.


Lemma strict_iff_permissive_measured_witness :
  toy_verify 5 [] (Some (with_mode ModeStrict toy_config)) [] = (Ok (Some toy_evidence), []) <->
  toy_verify 5 [] (Some (with_mode ModePermissive toy_config)) [] = (Ok (Some toy_evidence), []) /\
  @nil error = [] /\ exists m, m ∈ cfg_ExpectedMeasurements toy_config /\
    measurement_matches m (vr_Digest (report_fields (ev_Report toy_evidence))) = true.
Proof.
  apply (@strict_iff_permissive_measured toy_sm3 toy_sm3_laws toy_sm2 toy_x509 MockEvidenceProvider toy_fs).
  reflexivity.
Defined.

Lemma insecure_skip_outcome_witness :
  toy_verify 5 [] (Some (toy_verify_config true true [] "" "" "")) [] = (Ok None, []) <->
  @nil error = [] /\ verify_config_ok (toy_verify_config true true [] "" "" "") /\
  exists cert, @gx_ReadCertificateFromPem toy_x509 [] = Ok cert /\
    c_NotBefore cert <= 5 <= c_NotAfter cert /\
    match find_evidence_ext (c_Extensions cert) with
    | None => @None CSVEvidenceExtension = None
    | Some v => exists ev, DecodeCSVEvidence v = Ok ev /\ None = Some ev
    end.
Proof.
  apply (@insecure_skip_outcome toy_sm3 toy_sm2 toy_x509 MockEvidenceProvider toy_fs).
  reflexivity.
Defined.

Abbreviation toy_generation :=
  (@GenerateSM2CertificateWithEvidenceContext toy_sm3 toy_sm2 toy_x509 MockEvidenceProvider Background
     (Some (@MockProvider toy_sm2)) toy_time (toy_entropy, toy_mock)).

Lemma generated_certificate_accepted_witness :
  exists certPEM keyPEM ev, toy_generation.1 = Ok (certPEM, keyPEM) /\
    toy_verify (toy_time + minute) certPEM (Some toy_config) []
    = (Ok (Some ev), [] ++ @warning MockEvidenceProvider toy_config toy_meas) /\
    vr_Digest (report_fields (ev_Report ev)) = toy_meas.
Proof.
  enough (forall r', toy_generation = r' -> is_ok r'.1 = true ->
    exists certPEM keyPEM ev, r'.1 = Ok (certPEM, keyPEM) /\
    toy_verify (toy_time + minute) certPEM (Some toy_config) []
    = (Ok (Some ev), [] ++ @warning MockEvidenceProvider toy_config toy_meas) /\
    vr_Digest (report_fields (ev_Report ev)) = toy_meas) as Hall.
  { apply Hall; [reflexivity|]. vm_compute. reflexivity. }
  intros [[[cert key]|e|] st] Hr Hok; [|discriminate Hok..].
  destruct (@generated_certificate_accepted toy_sm3 toy_sm3_laws toy_x509 toy_sm2 toy_sm2_laws toy_x509_laws
    MockEvidenceProvider MockEvidenceProvider toy_fs (@MockProvider toy_sm2) toy_hrk toy_bundle toy_meas
    (@MockProvider_laws toy_sm2 toy_sm2_laws toy_hrk toy_bundle toy_meas)
    Background toy_time toy_entropy toy_mock cert key st toy_config toy_mock (toy_time + minute) []
    toy_mock_ready Hr toy_trusts) as (ev & Hv & Hd).
  - split; vm_compute; discriminate.
  - exists cert, key, ev. split; [reflexivity|]. split; [exact Hv|exact Hd].
Defined.
