(* ===== verification/Handshake.v ===== *)
(** * The handshake (handshake.go)

    [ClientHandshakeContext] and [ServerHandshakeContext], statement by
    statement: the state is the raw connection, the certificate cache, the
    entropy, the provider's state and the log; the ciphers, the reader and the
    transcript are the local variables of the Go functions. *)

From S2P Require Import Prelude Gcm Gmsm Toy NetIO Record Framing KeySchedule GoLib.
From S2P Require Import CsvReport CsvVerify CsvMock CsvClient Asn1 Evidence Gx509 Provider Cert.
From S2P Require Import Config Verifier.

Definition ErrMutualAttestationRequired : error := ErrNew "teetls: mutual attestation required".
Definition ErrMutualAttestationNotConfirmed : error :=
  ErrNew "teetls: mutual attestation not confirmed by server".

Record HandshakeResult := {
  hr_InCipher : RecordCipher;
  hr_OutCipher : RecordCipher;
  hr_PeerCertPEM : bytes;
  hr_PeerEvidence : option CSVEvidenceExtension;
  hr_PeerCertificate : option Certificate
}.

(** What a handshake reads of its surroundings: the filesystem, the time at
    which the peer is verified and the clock of the certificate cache. *)
Record Surroundings := {
  su_fs : FS;
  su_now : Z;
  su_clock : nat -> Z
}.

Definition World (W : Type) : Type := RawConn * ((CertCache * (bytes * W)) * list error).
Definition hsM (W : Type) : Type -> Type := stM (World W).

Section handshake.
Context `{SM3, SM4, HKDF, SM2, X509} {W : Type}.
Implicit Types c : Config W.

(** ** Access to the parts of the state *)

Definition on_conn {A} (m : stM RawConn A) : hsM W A := on_fst m.
Definition on_cert {A} (m : stM (CertCache * (bytes * W)) A) : hsM W A := on_snd (on_fst m).
Definition on_rand {A} (m : stM bytes A) : hsM W A := on_cert (on_snd (on_fst m)).
Definition on_log {A} (m : stM (list error) A) : hsM W A := on_snd (on_snd m).
Definition provider_state : hsM W W := fun s => (Ok s.2.1.2.2, s).

(** A sealed message out: the cipher afterwards. *)
Definition write_hs (cipher : RecordCipher) (msgType : Byte.byte) (body : bytes) : hsM W RecordCipher :=
  fun '(conn, rest) =>
    let '(r, (conn', cipher')) := writeEncryptedHandshakeMsg msgType body (conn, cipher) in
    (r ≫= (fun _ => Ok cipher'), (conn', rest)).

(** [hsReader.ReadMsg()] and the check of the type it returns. *)
Definition read_hs (hr : encryptedHandshakeReader)
  : hsM W (Byte.byte * bytes * encryptedHandshakeReader) :=
  fun '(conn, rest) =>
    let '(r, (conn', hr')) := ReadMsg (conn, hr) in
    (r ≫= (fun m => Ok (m, hr')), (conn', rest)).

Definition expect_hs (hr : encryptedHandshakeReader) (want : Byte.byte) (readErr typeErr : string)
  : hsM W (bytes * encryptedHandshakeReader) :=
  '(msgType, body, hr) ← read_hs hr <?> readErr;
  reject_if negb (bool_decide (msgType = want)) with Errorf typeErr [FInt (byte_to_Z msgType)];
  mret (body, hr).

(** A hello in a plaintext record, and the check of its type and length. *)
Definition expect_hello (want : Byte.byte) (readErr typeErr shortErr : string) : hsM W bytes :=
  '(msgType, body, _) ← on_conn readPlaintextHandshakeMsg <?> readErr;
  reject_if negb (bool_decide (msgType = want)) with Errorf typeErr [FInt (byte_to_Z msgType)];
  reject_if zlen body <? RandomBytesLen + SM2UncompressedPubKeyLen with ErrNew shortErr;
  mret body.

(** The fields of a hello of at least 97 bytes. *)
Definition hello_random (body : bytes) : bytes := take_z RandomBytesLen body.
Definition hello_key (body : bytes) : bytes :=
  slice body RandomBytesLen (RandomBytesLen + SM2UncompressedPubKeyLen).

Definition verify_peer (su : Surroundings) (pem : bytes) c : hsM W (option CSVEvidenceExtension) :=
  w ← provider_state;
  on_log (VerifyPeerCertificateAndEvidence (su_fs su) w (su_now su) pem (Some c)).

Definition prepareCertificate (ctx : Context_) (clock : nat -> Z) c
  : stM (CertCache * (bytes * W)) (bytes * PrivateKey) :=
  '(certPEM, keyPEM) ← GetOrGenerateCertificateContext c ctx clock
    <?> "get or generate certificate: %w";
  priv ← lift (gx_ReadPrivateKeyFromPem keyPEM) <?> "read private key: %w";
  mret (certPEM, priv).

(** ** Shared steps *)

(** The shared secret, the handshake keys, the server's and the client's
    handshake cipher. *)
Definition handshake_secrets (peerPub : PublicKey) (priv : PrivateKey) (clientRandom serverRandom : bytes)
  : result (bytes * HandshakeTrafficKeys * RecordCipher * RecordCipher) :=
  sharedSecret ← computeECDHESharedSecret peerPub priv <?> "teetls: compute shared secret: %w";
  keys ← deriveHandshakeTrafficKeys sharedSecret clientRandom serverRandom
    <?> "teetls: derive handshake traffic keys: %w";
  serverCipher ← NewRecordCipher (hk_ServerWriteKey keys) (hk_ServerWriteIV keys)
    <?> "teetls: server handshake record cipher: %w";
  clientCipher ← NewRecordCipher (hk_ClientWriteKey keys) (hk_ClientWriteIV keys)
    <?> "teetls: client handshake record cipher: %w";
  Ok (sharedSecret, keys, serverCipher, clientCipher).

Definition app_server_cipher (keys : ApplicationTrafficKeys) : result RecordCipher :=
  NewRecordCipher (ak_ServerWriteKey keys) (ak_ServerWriteIV keys)
    <?> "teetls: create server application cipher: %w".
Definition app_client_cipher (keys : ApplicationTrafficKeys) : result RecordCipher :=
  NewRecordCipher (ak_ClientWriteKey keys) (ak_ClientWriteIV keys)
    <?> "teetls: create client application cipher: %w".

(** An ephemeral key and a random, and the encoded public key. *)
Definition ephemeral (keyErr randErr : string) : hsM W (PrivateKey * bytes * bytes) :=
  priv ← on_rand (sm2_GenerateKey : stM bytes PrivateKey) <?> keyErr;
  pub ← lift (encodePublicKeySM2 (priv_Pub priv));
  random ← on_rand (fun rnd => read_full_from RandomBytesLen rnd io_EOF) <?> randErr;
  mret (priv, pub, random).

(** ** The client *)

Definition client_hello_body (mutual : bool) (random pub : bytes) : bytes :=
  let body := zeros (RandomBytesLen + SM2UncompressedPubKeyLen + 1) in
  let body := copy_at body 0 RandomBytesLen random in
  let body := copy_at body RandomBytesLen (RandomBytesLen + SM2UncompressedPubKeyLen) pub in
  <[Z.to_nat (RandomBytesLen + SM2UncompressedPubKeyLen) := if mutual then x01 else x00]> body.

Definition has_no_credentials c : bool :=
  (match cfg_EvidenceProvider c with None => true | Some _ => false end)
  && (no_bytes (cfg_CertPEM c) || no_bytes (cfg_KeyPEM c)).

(** Step 8: the client's own certificate and signature. *)
Definition client_flight (ctx : Context_) (su : Surroundings) c (cipher : RecordCipher)
    (transcript : handshakeTranscript) : hsM W (RecordCipher * handshakeTranscript) :=
  '(clientCertPEM, clientPriv) ← on_cert (prepareCertificate ctx (su_clock su) c)
    <?> "teetls: prepare client certificate: %w";
  cipher ← write_hs cipher HandshakeTypeCertificate clientCertPEM
    <?> "teetls: send client Certificate: %w";
  let transcript := transcript_Write transcript HandshakeTypeCertificate clientCertPEM in
  clientSig ← on_rand (sm2_Sign clientPriv (transcript_Bytes transcript) : stM bytes bytes)
    <?> "teetls: sign client transcript: %w";
  cipher ← write_hs cipher HandshakeTypeCertificateVerify clientSig
    <?> "teetls: send client CertificateVerify: %w";
  let transcript := transcript_Write transcript HandshakeTypeCertificateVerify clientSig in
  mret (cipher, transcript).

Definition ClientHandshakeContext (ctx : Context_) (su : Surroundings) (cfg : option (Config W))
  : hsM W HandshakeResult :=
  let c := match cfg with None => zero_Config | Some c => c end in
  _ ← lift (Validate c) <?> "teetls: invalid client config: %w";
  '(priv, pub, clientRandom) ← ephemeral "teetls: generate client ephemeral key: %w"
                                 "teetls: generate client random: %w";
  let clientHelloBody := client_hello_body (cfg_VerifyMutualAttestation c) clientRandom pub in
  _ ← on_conn (writePlaintextHandshakeMsg HandshakeTypeClientHello clientHelloBody)
    <?> "teetls: send ClientHello: %w";
  let transcript := transcript_Write [] HandshakeTypeClientHello clientHelloBody in
  serverHelloBody ← expect_hello HandshakeTypeServerHello "teetls: read ServerHello: %w"
    "teetls: expected ServerHello (2), got %d" "teetls: ServerHello message too short";
  serverEphemeralPub ← lift (decodePublicKeySM2 (hello_key serverHelloBody))
    <?> "teetls: decode server ephemeral public key: %w";
  let transcript := transcript_Write transcript HandshakeTypeServerHello serverHelloBody in
  '(sharedSecret, handshakeKeys, serverCipher, clientCipher) ←
    lift (handshake_secrets serverEphemeralPub priv clientRandom (hello_random serverHelloBody));
  '(encExtensionsBody, hr) ← expect_hs (newEncryptedHandshakeReader serverCipher)
    HandshakeTypeEncryptedExtensions "teetls: read EncryptedExtensions: %w"
    "teetls: expected EncryptedExtensions (8), got %d";
  let transcript := transcript_Write transcript HandshakeTypeEncryptedExtensions encExtensionsBody in
  let mutualRequired := (0 <? zlen encExtensionsBody) && bool_decide (byte_at encExtensionsBody 0 = x01) in
  reject_if cfg_VerifyMutualAttestation c && negb mutualRequired with ErrMutualAttestationNotConfirmed;
  reject_if mutualRequired && negb (cfg_VerifyMutualAttestation c) && has_no_credentials c
    with ErrMutualAttestationRequired;
  '(serverCertPEM, hr) ← expect_hs hr HandshakeTypeCertificate "teetls: read server Certificate: %w"
    "teetls: expected Certificate (11), got %d";
  let transcript := transcript_Write transcript HandshakeTypeCertificate serverCertPEM in
  evidence ← verify_peer su serverCertPEM c <?> "teetls: verify server attestation: %w";
  serverGCert ← lift (gx_ReadCertificateFromPem serverCertPEM) <?> "teetls: parse server certificate: %w";
  serverPub ← lift (extractSM2PublicKey (c_PublicKey serverGCert))
    <?> "teetls: server certificate public key error: %w";
  let transcriptForVerify := transcript_Bytes transcript in
  '(sigBody, hr) ← expect_hs hr HandshakeTypeCertificateVerify "teetls: read CertificateVerify: %w"
    "teetls: expected CertificateVerify (15), got %d";
  reject_if negb (sm2_Verify serverPub transcriptForVerify sigBody)
    with ErrNew "teetls: server CertificateVerify signature verification failed";
  let transcript := transcript_Write transcript HandshakeTypeCertificateVerify sigBody in
  let transcriptForServerFinished := transcript_Bytes transcript in
  '(finishedBody, hr) ← expect_hs hr HandshakeTypeFinished "teetls: read Server Finished: %w"
    "teetls: expected Finished (20), got %d";
  let expectedServerTag := computeHMACSM3 (hk_ServerFinishedKey handshakeKeys) transcriptForServerFinished in
  reject_if negb (hmac_Equal finishedBody expectedServerTag)
    with ErrNew "teetls: server finished HMAC verification failed";
  let transcript := transcript_Write transcript HandshakeTypeFinished finishedBody in
  reject_if HasRemaining hr
    with ErrNew "teetls: unexpected trailing handshake data after server Finished";
  '(clientCipher, transcript) ←
    (if mutualRequired then client_flight ctx su c clientCipher transcript
     else mret (clientCipher, transcript));
  let clientFinishedTag := computeHMACSM3 (hk_ClientFinishedKey handshakeKeys) (transcript_Bytes transcript) in
  _ ← write_hs clientCipher HandshakeTypeFinished clientFinishedTag
    <?> "teetls: send Client Finished: %w";
  let transcript := transcript_Write transcript HandshakeTypeFinished clientFinishedTag in
  appKeys ← lift (deriveApplicationTrafficKeys sharedSecret (transcript_Hash transcript))
    <?> "teetls: derive application traffic keys: %w";
  appServerCipher ← lift (app_server_cipher appKeys);
  appClientCipher ← lift (app_client_cipher appKeys);
  mret {| hr_InCipher := appServerCipher; hr_OutCipher := appClientCipher;
          hr_PeerCertPEM := serverCertPEM; hr_PeerEvidence := evidence;
          hr_PeerCertificate := Some serverGCert |}.

Definition ClientHandshake (su : Surroundings) (cfg : option (Config W)) : hsM W HandshakeResult :=
  ClientHandshakeContext Background su cfg.

(** ** The server *)

Definition server_hello_body (random pub : bytes) : bytes :=
  let body := zeros (RandomBytesLen + SM2UncompressedPubKeyLen) in
  let body := copy_at body 0 RandomBytesLen random in
  copy_at body RandomBytesLen (RandomBytesLen + SM2UncompressedPubKeyLen) pub.

(** Step 8: the client's certificate and signature. *)
Definition server_read_flight (su : Surroundings) c (hr : encryptedHandshakeReader)
    (transcript : handshakeTranscript)
  : hsM W (bytes * option CSVEvidenceExtension * Certificate * encryptedHandshakeReader * handshakeTranscript) :=
  '(clientCertBody, hr) ← expect_hs hr HandshakeTypeCertificate "teetls: read client Certificate: %w"
    "teetls: expected client Certificate (11), got %d";
  let transcript := transcript_Write transcript HandshakeTypeCertificate clientCertBody in
  evidence ← verify_peer su clientCertBody c <?> "teetls: verify client attestation: %w";
  clientGCert ← lift (gx_ReadCertificateFromPem clientCertBody) <?> "teetls: parse client certificate: %w";
  clientPub ← lift (extractSM2PublicKey (c_PublicKey clientGCert))
    <?> "teetls: client certificate public key error: %w";
  let clientTranscriptForVerify := transcript_Bytes transcript in
  '(clientSigBody, hr) ← expect_hs hr HandshakeTypeCertificateVerify
    "teetls: read client CertificateVerify: %w" "teetls: expected client CertificateVerify (15), got %d";
  reject_if negb (sm2_Verify clientPub clientTranscriptForVerify clientSigBody)
    with ErrNew "teetls: client CertificateVerify signature verification failed";
  let transcript := transcript_Write transcript HandshakeTypeCertificateVerify clientSigBody in
  mret (clientCertBody, evidence, clientGCert, hr, transcript).

(** Everything after the deadline is set. *)
Definition server_handshake_body (ctx : Context_) (su : Surroundings) c : hsM W HandshakeResult :=
  '(serverCertPEM, serverPriv) ← on_cert (prepareCertificate ctx (su_clock su) c)
    <?> "teetls: prepare server certificate: %w";
  clientHelloBody ← expect_hello HandshakeTypeClientHello "teetls: read ClientHello: %w"
    "teetls: expected ClientHello (1), got %d" "teetls: ClientHello message too short";
  clientEphemeralPub ← lift (decodePublicKeySM2 (hello_key clientHelloBody))
    <?> "teetls: decode client ephemeral public key: %w";
  let clientRequestedMutual :=
    (RandomBytesLen + SM2UncompressedPubKeyLen <? zlen clientHelloBody)
    && bool_decide (byte_at clientHelloBody (RandomBytesLen + SM2UncompressedPubKeyLen) = x01) in
  let transcript := transcript_Write [] HandshakeTypeClientHello clientHelloBody in
  '(priv, pub, serverRandom) ← ephemeral "teetls: generate server ephemeral key: %w"
                                 "teetls: generate server random: %w";
  let serverHelloBody := server_hello_body serverRandom pub in
  _ ← on_conn (writePlaintextHandshakeMsg HandshakeTypeServerHello serverHelloBody)
    <?> "teetls: send ServerHello: %w";
  let transcript := transcript_Write transcript HandshakeTypeServerHello serverHelloBody in
  '(sharedSecret, handshakeKeys, serverCipher, clientCipher) ←
    lift (handshake_secrets clientEphemeralPub priv (hello_random clientHelloBody) serverRandom);
  let mutual := cfg_VerifyMutualAttestation c || clientRequestedMutual in
  let encExtBody := if mutual then [x01] else [x00] in
  serverCipher ← write_hs serverCipher HandshakeTypeEncryptedExtensions encExtBody
    <?> "teetls: send EncryptedExtensions: %w";
  let transcript := transcript_Write transcript HandshakeTypeEncryptedExtensions encExtBody in
  serverCipher ← write_hs serverCipher HandshakeTypeCertificate serverCertPEM
    <?> "teetls: send server Certificate: %w";
  let transcript := transcript_Write transcript HandshakeTypeCertificate serverCertPEM in
  serverSig ← on_rand (sm2_Sign serverPriv (transcript_Bytes transcript) : stM bytes bytes)
    <?> "teetls: sign server transcript: %w";
  serverCipher ← write_hs serverCipher HandshakeTypeCertificateVerify serverSig
    <?> "teetls: send server CertificateVerify: %w";
  let transcript := transcript_Write transcript HandshakeTypeCertificateVerify serverSig in
  let serverFinishedTag := computeHMACSM3 (hk_ServerFinishedKey handshakeKeys) (transcript_Bytes transcript) in
  _ ← write_hs serverCipher HandshakeTypeFinished serverFinishedTag
    <?> "teetls: send Server Finished: %w";
  let transcript := transcript_Write transcript HandshakeTypeFinished serverFinishedTag in
  let hr := newEncryptedHandshakeReader clientCipher in
  '(peerCertPEM, peerEvidence, peerGCert, hr, transcript) ←
    (if mutual then
       '(pem, ev, cert, hr, transcript) ← server_read_flight su c hr transcript;
       mret (pem, ev, Some cert, hr, transcript)
     else mret ([], None, None, hr, transcript));
  let expectedClientTag := computeHMACSM3 (hk_ClientFinishedKey handshakeKeys) (transcript_Bytes transcript) in
  '(clientFinishedBody, hr) ← expect_hs hr HandshakeTypeFinished "teetls: read Client Finished: %w"
    "teetls: expected Finished (20), got %d";
  reject_if negb (hmac_Equal clientFinishedBody expectedClientTag)
    with ErrNew "teetls: client finished HMAC verification failed";
  let transcript := transcript_Write transcript HandshakeTypeFinished clientFinishedBody in
  reject_if HasRemaining hr
    with ErrNew "teetls: unexpected trailing handshake data after client Finished";
  appKeys ← lift (deriveApplicationTrafficKeys sharedSecret (transcript_Hash transcript))
    <?> "teetls: derive application traffic keys: %w";
  appClientCipher ← lift (app_client_cipher appKeys);
  appServerCipher ← lift (app_server_cipher appKeys);
  mret {| hr_InCipher := appClientCipher; hr_OutCipher := appServerCipher;
          hr_PeerCertPEM := peerCertPEM; hr_PeerEvidence := peerEvidence;
          hr_PeerCertificate := peerGCert |}.

Definition ServerHandshakeContext (ctx : Context_) (su : Surroundings) (cfg : option (Config W))
  : hsM W HandshakeResult :=
  let c := match cfg with None => zero_Config | Some c => c end in
  _ ← lift (Validate c) <?> "teetls: invalid server config: %w";
  _ ← on_conn (conn_set_deadline true) <?> "teetls: set handshake deadline: %w";
  with_defer (fun s => (on_conn (conn_set_deadline false) s).2) (server_handshake_body ctx su c).

Definition ServerHandshake (su : Surroundings) (cfg : option (Config W)) : hsM W HandshakeResult :=
  ServerHandshakeContext Background su cfg.
End handshake.

#[global] Arguments ReadMsg : simpl never.
#[global] Arguments readPlaintextHandshakeMsg : simpl never.
#[global] Arguments writePlaintextHandshakeMsg : simpl never.
#[global] Arguments writeEncryptedHandshakeMsg : simpl never.
