(* ===== verification/Session.v ===== *)
(** * What a completed handshake promises

    [Session] is the list of messages of one handshake as one side saw it.
    [client_accepts] and [server_accepts] are the contracts of the two sides,
    and the theorems show that the functions of Handshake.v keep them and that two
    sides that agree on the messages hold the same keys. *)

From S2P Require Import Prelude Gcm Gmsm Toy NetIO Record Framing KeySchedule GoLib.
From S2P Require Import CsvReport CsvVerify CsvMock CsvClient Asn1 Evidence Gx509 Provider Cert.
From S2P Require Import Config Verifier Handshake.

Record Session := {
  se_ClientHello : bytes;
  se_ServerHello : bytes;
  se_EncryptedExtensions : bytes;
  se_ServerCertificate : bytes;
  se_ServerVerify : bytes;
  se_ServerFinished : bytes;
  se_ClientAuth : option (bytes * bytes);      (* certificate and signature *)
  se_ClientFinished : bytes
}.

(** What each signature and each Finished tag is over. *)
Definition server_signed (s : Session) : list (Byte.byte * bytes) :=
  [(HandshakeTypeClientHello, se_ClientHello s); (HandshakeTypeServerHello, se_ServerHello s);
   (HandshakeTypeEncryptedExtensions, se_EncryptedExtensions s);
   (HandshakeTypeCertificate, se_ServerCertificate s)].
Definition server_finished_over (s : Session) : list (Byte.byte * bytes) :=
  server_signed s ++ [(HandshakeTypeCertificateVerify, se_ServerVerify s)].
Definition client_signed (s : Session) (pem : bytes) : list (Byte.byte * bytes) :=
  server_finished_over s
  ++ [(HandshakeTypeFinished, se_ServerFinished s); (HandshakeTypeCertificate, pem)].
Definition client_finished_over (s : Session) : list (Byte.byte * bytes) :=
  match se_ClientAuth s with
  | None => server_finished_over s ++ [(HandshakeTypeFinished, se_ServerFinished s)]
  | Some (pem, sig) => client_signed s pem ++ [(HandshakeTypeCertificateVerify, sig)]
  end.
Definition session_msgs (s : Session) : list (Byte.byte * bytes) :=
  client_finished_over s ++ [(HandshakeTypeFinished, se_ClientFinished s)].

(** The server's answer to whether both sides attest. *)
Definition mutual_ext (ee : bytes) : bool := (0 <? zlen ee) && bool_decide (byte_at ee 0 = x01).
(** The client's wish. *)
Definition requested_mutual (ch : bytes) : bool :=
  (RandomBytesLen + SM2UncompressedPubKeyLen <? zlen ch)
  && bool_decide (byte_at ch (RandomBytesLen + SM2UncompressedPubKeyLen) = x01).

Section session.
Context `{SM3, SM4, HKDF, SM2, X509} {W : Type}.

Definition session_handshake_keys (z : bytes) (s : Session) : HandshakeTrafficKeys :=
  hs_keys_of (hkdf_New z (hello_random (se_ClientHello s) ++ hello_random (se_ServerHello s))
                handshake_info).
Definition session_app_keys (z : bytes) (s : Session) : ApplicationTrafficKeys :=
  app_keys_of (hkdf_New z (sm3_Sm3Sum (transcript_of (session_msgs s))) application_info).

(** Both Finished tags are right for the shared secret [z], and the
    application ciphers are those of the whole session, unused. *)
Record established (z : bytes) (s : Session) (clientOut serverOut : RecordCipher) : Prop := {
  es_server : se_ServerFinished s
    = computeHMACSM3 (hk_ServerFinishedKey (session_handshake_keys z s)) (transcript_of (server_finished_over s));
  es_client : se_ClientFinished s
    = computeHMACSM3 (hk_ClientFinishedKey (session_handshake_keys z s)) (transcript_of (client_finished_over s));
  es_client_out : NewRecordCipher (ak_ClientWriteKey (session_app_keys z s))
    (ak_ClientWriteIV (session_app_keys z s)) = Ok clientOut;
  es_server_out : NewRecordCipher (ak_ServerWriteKey (session_app_keys z s))
    (ak_ServerWriteIV (session_app_keys z s)) = Ok serverOut
}.

(** The peer's certificate is attested, and the key it certifies signed the
    messages. *)
Record authenticated (fs : FS) (now : Z) (w : W) (c : Config W) (pem : bytes)
    (msgs : list (Byte.byte * bytes)) (sig : bytes) (r : HandshakeResult) : Prop := {
  au_evidence : exists ev, hr_PeerEvidence r = Some ev /\ peer_valid fs w now pem c ev;
  au_signature : exists cert pub, gx_ReadCertificateFromPem pem = Ok cert /\
    hr_PeerCertificate r = Some cert /\ extractSM2PublicKey (c_PublicKey cert) = Ok pub /\
    sm2_Verify pub (transcript_of msgs) sig = true;
  au_pem : hr_PeerCertPEM r = pem
}.

(** An ephemeral key pair and a random, as a hello carries them. *)
Definition hello_fields `{SM2Laws} (k : PrivateKey) (random pub : bytes) : Prop :=
  sm2_key k /\ encodePublicKeySM2 (priv_Pub k) = Ok pub /\ zlen random = RandomBytesLen.
Definition secret_from (hello : bytes) (k : PrivateKey) (z : bytes) : Prop :=
  exists pub, decodePublicKeySM2 (hello_key hello) = Ok pub /\ computeECDHESharedSecret pub k = Ok z.
End session.

(** The certificate [pem] is the side's own, and its key signed the messages;
    making the certificate took the provider from [w] to [w']. *)
Definition signs `{SM3, SM2, X509} {W : Type} (ctx : Context_) (su : Surroundings) (c : Config W) (w w' : W)
    (pem : bytes) (msgs : list (Byte.byte * bytes)) (sig : bytes) : Prop :=
  exists key s s' rnd rnd', s.2.2 = w /\ s'.2.2 = w' /\
    prepareCertificate ctx (su_clock su) c s = (Ok (pem, key), s') /\
    sm2_Sign key (transcript_of msgs) rnd = (Ok sig, rnd').

(** The client's side: its own configuration [c], ephemeral key [k], shared
    secret [z], and the state [w] of its provider. *)
Record client_accepts `{SM3, SM4, HKDF, X509, SM2Laws} {W : Type} (ctx : Context_) (su : Surroundings) (w : W)
    (c : Config W) (k : PrivateKey) (z : bytes) (s : Session) (r : HandshakeResult) : Prop := {
  cl_config : config_ok c;
  cl_hello : exists random pub, hello_fields k random pub /\
    se_ClientHello s = client_hello_body (cfg_VerifyMutualAttestation c) random pub;
  cl_secret : secret_from (se_ServerHello s) k z;
  cl_server : authenticated (su_fs su) (su_now su) w c (se_ServerCertificate s) (server_signed s)
    (se_ServerVerify s) r;
  cl_mutual : cfg_VerifyMutualAttestation c = true -> mutual_ext (se_EncryptedExtensions s) = true;
  cl_auth :
    if mutual_ext (se_EncryptedExtensions s) then
      exists pem sig w', se_ClientAuth s = Some (pem, sig) /\
        signs ctx su c w w' pem (client_signed s pem) sig
    else se_ClientAuth s = None;
  cl_established : established z s (hr_OutCipher r) (hr_InCipher r)
}.

(** The server's side; [w'] is its provider's state after it made its own
    certificate. *)
Record server_accepts `{SM3, SM4, HKDF, X509, SM2Laws} {W : Type} (ctx : Context_) (su : Surroundings)
    (w w' : W) (c : Config W) (k : PrivateKey) (z : bytes) (s : Session) (r : HandshakeResult) : Prop := {
  sv_config : config_ok c;
  sv_hello : exists random pub, hello_fields k random pub /\
    se_ServerHello s = server_hello_body random pub;
  sv_secret : secret_from (se_ClientHello s) k z;
  sv_mutual : se_EncryptedExtensions s
    = if cfg_VerifyMutualAttestation c || requested_mutual (se_ClientHello s) then [x01] else [x00];
  sv_signature : signs ctx su c w w' (se_ServerCertificate s) (server_signed s) (se_ServerVerify s);
  sv_client :
    match se_ClientAuth s with
    | Some (pem, sig) => mutual_ext (se_EncryptedExtensions s) = true /\
        authenticated (su_fs su) (su_now su) w' c pem (client_signed s pem) sig r
    | None => mutual_ext (se_EncryptedExtensions s) = false /\
        hr_PeerCertPEM r = [] /\ hr_PeerEvidence r = None /\ hr_PeerCertificate r = None
    end;
  sv_established : established z s (hr_InCipher r) (hr_OutCipher r)
}.

(** ** The steps *)

Definition provider_of {W} (s : World W) : W := s.2.1.2.2.

Section steps.
Context `{SM3Laws, SM4, HKDFLaws, X509, SM2Laws} {W : Type}.
Implicit Types (st : World W) (c : Config W).

Lemma on_conn_Ok {A} (m : stM RawConn A) st a st' :
  on_conn m st = (Ok a, st') -> m st.1 = (Ok a, st'.1) /\ st'.2 = st.2.
Proof. destruct st. by intros Hm%on_fst_Ok. Qed.

Lemma on_cert_Ok {A} (m : stM (CertCache * (bytes * W)) A) st a st' :
  on_cert m st = (Ok a, st') -> m st.2.1 = (Ok a, st'.2.1) /\ st'.1 = st.1 /\ st'.2.2 = st.2.2.
Proof.
  destruct st as [conn [ce lg]]. intros [Hm Hc]%on_snd_Ok. apply on_fst_Ok in Hm as [Hm Hl]. done.
Qed.

Lemma on_rand_Ok {A} (m : stM bytes A) st a st' :
  on_rand m st = (Ok a, st') -> m st.2.1.2.1 = (Ok a, st'.2.1.2.1) /\ provider_of st' = provider_of st /\
    st'.1 = st.1.
Proof.
  intros (Hm & Hc & _)%on_cert_Ok. destruct st as [conn [[k [rnd w]] lg]].
  apply on_snd_Ok in Hm as [Hm Hk]. apply on_fst_Ok in Hm as [Hm Hw]. done.
Qed.

Lemma write_hs_Ok cipher t body st cipher' st' :
  write_hs cipher t body st = (Ok cipher', st') ->
  writeEncryptedHandshakeMsg t body (st.1, cipher) = (Ok tt, (st'.1, cipher')) /\ st'.2 = st.2.
Proof.
  destruct st as [conn rest]. unfold write_hs.
  destruct (writeEncryptedHandshakeMsg t body (conn, cipher)) as [[[]|e|] [conn' cipher'']] eqn:E;
    cbn; intros [= <- <-]. done.
Qed.

Lemma expect_hs_Ok hr want e1 e2 st body hr' st' :
  expect_hs hr want e1 e2 st = (Ok (body, hr'), st') ->
  ReadMsg (st.1, hr) = (Ok (want, body), (st'.1, hr')) /\ st'.2 = st.2.
Proof.
  unfold expect_hs. intros Hm. inv_stm. destruct v as [[t b] hr'']. inv_stm. zbool. subst.
  destruct st as [conn rest]. unfold read_hs in Hv.
  destruct (ReadMsg (conn, hr)) as [[m|e|] [conn' hr2]] eqn:E; cbn in Hv; [|done..]. simplify_eq.
  split; [exact E|done].
Qed.

Lemma expect_hello_Ok want e1 e2 e3 st body st' :
  expect_hello want e1 e2 e3 st = (Ok body, st') ->
  RandomBytesLen + SM2UncompressedPubKeyLen <= zlen body /\ st'.2 = st.2.
Proof.
  unfold expect_hello. intros Hm. inv_stm. apply on_conn_Ok in Hv as [_ Hr].
  destruct v as [[t b] raw]. inv_stm. by zbool.
Qed.

Lemma ephemeral_Ok e1 e2 st k random pub st' :
  ephemeral e1 e2 st = (Ok (k, pub, random), st') ->
  hello_fields k random pub /\ provider_of st' = provider_of st /\ st'.1 = st.1.
Proof.
  unfold ephemeral, hello_fields. intros Hm. inv_stm.
  apply on_rand_Ok in Hv as (Hk & Ew & Ec). apply on_rand_Ok in Hv1 as (Hr & Ew' & Ec').
  apply sm2_generate_key in Hk. split; [|by rewrite Ew', Ew, Ec', Ec].
  split; [done|]. split; [done|].
  unfold read_full_from in Hr. destruct (Z.leb_spec RandomBytesLen 0); [done|].
  destruct (Z.leb_spec RandomBytesLen (zlen st0.2.1.2.1)); [|by destruct (_ =? 0)].
  apply (f_equal fst) in Hr. cbn in Hr. injection Hr as <-. rewrite zlen_take_z. lia.
Qed.

Lemma verify_peer_Ok su pem c st ev st' :
  cfg_InsecureSkipAttestationVerify c = false ->
  verify_peer su pem c st = (Ok ev, st') ->
  (exists e, ev = Some e /\ peer_valid (su_fs su) (provider_of st) (su_now su) pem c e) /\
  st'.2.1 = st.2.1.
Proof.
  intros Hskip Hv. unfold verify_peer in Hv. apply stM_bind_Ok in Hv as (w & st1 & [= <- <-] & Hv).
  destruct st as [conn [ce lg]]. apply on_snd_Ok in Hv as [Hv _].
  change (on_snd (VerifyPeerCertificateAndEvidence (su_fs su) (provider_of (conn, (ce, lg))) (su_now su)
    pem (Some c)) (ce, lg) = (Ok ev, st'.2)) in Hv.
  apply on_snd_Ok in Hv as [Hv Hc].
  apply (verify_Ok_iff (su_fs su) _ _ _ _ c) in Hv as (e & -> & Hp & _); [|done..].
  split; [by exists e|done].
Qed.

(** The secrets of the handshake phase. *)
Lemma handshake_secrets_Ok pub k cr sr z keys sc cc :
  handshake_secrets pub k cr sr = Ok (z, keys, sc, cc) ->
  computeECDHESharedSecret pub k = Ok z /\ keys = hs_keys_of (hkdf_New z (cr ++ sr) handshake_info) /\
  NewRecordCipher (hk_ServerWriteKey keys) (hk_ServerWriteIV keys) = Ok sc /\
  NewRecordCipher (hk_ClientWriteKey keys) (hk_ClientWriteIV keys) = Ok cc.
Proof.
  unfold handshake_secrets. intros Hs. inv_ok.
  rewrite deriveHandshakeTrafficKeys_ok in Hv0. inv_ok. by simplify_eq.
Qed.

Lemma app_server_cipher_Ok keys rc :
  app_server_cipher keys = Ok rc -> NewRecordCipher (ak_ServerWriteKey keys) (ak_ServerWriteIV keys) = Ok rc.
Proof. by intros Hr%map_err_Ok. Qed.

Lemma app_client_cipher_Ok keys rc :
  app_client_cipher keys = Ok rc -> NewRecordCipher (ak_ClientWriteKey keys) (ak_ClientWriteIV keys) = Ok rc.
Proof. by intros Hr%map_err_Ok. Qed.

Lemma client_flight_Ok ctx su c cc t st cc' t' st' :
  client_flight ctx su c cc t st = (Ok (cc', t'), st') ->
  exists pem sig key s s' rnd rnd', s.2.2 = provider_of st /\
    prepareCertificate ctx (su_clock su) c s = (Ok (pem, key), s') /\
    sm2_Sign key (transcript_Write t HandshakeTypeCertificate pem) rnd = (Ok sig, rnd') /\
    t' = transcript_Write (transcript_Write t HandshakeTypeCertificate pem)
           HandshakeTypeCertificateVerify sig.
Proof.
  unfold client_flight. intros Hf. inv_stm. destruct v as [pem key]. inv_stm.
  apply on_cert_Ok in Hv as (Hp & _). apply on_rand_Ok in Hv1 as (Hs & _).
  exists pem, v0, key. eexists _, _, _, _. split; [|split; [exact Hp|split; [exact Hs|done]]]. done.
Qed.

(** A hello is the two fields it was made of. *)
Lemma hello_fields_pub k random pub :
  hello_fields k random pub -> zlen pub = SM2UncompressedPubKeyLen /\ decodePublicKeySM2 pub = Ok (priv_Pub k).
Proof.
  intros (Hk & He & _). destruct (encode_decode_key k Hk) as (raw & He' & Hl & Hd).
  rewrite He in He'. by apply Ok_inj in He' as <-.
Qed.

Lemma hello_prefix (random pub rest : bytes) :
  zlen random = RandomBytesLen -> zlen pub = SM2UncompressedPubKeyLen ->
  hello_random (random ++ pub ++ rest) = random /\ hello_key (random ++ pub ++ rest) = pub.
Proof.
  intros Hr Hp. unfold hello_random, hello_key.
  split; [by apply take_z_app|]. apply slice_app; [done|]. rewrite Hp. lia.
Qed.

Lemma hello_body_eq (random pub rest : bytes) :
  zlen random = RandomBytesLen -> zlen pub = SM2UncompressedPubKeyLen ->
  copy_at (copy_at (zeros (RandomBytesLen + SM2UncompressedPubKeyLen) ++ rest) 0 RandomBytesLen random)
    RandomBytesLen (RandomBytesLen + SM2UncompressedPubKeyLen) pub = random ++ pub ++ rest.
Proof.
  intros Hr Hp.
  change (zeros (RandomBytesLen + SM2UncompressedPubKeyLen))
    with (zeros RandomBytesLen ++ zeros SM2UncompressedPubKeyLen).
  rewrite <-app_assoc.
  pose proof (copy_at_app [] (zeros RandomBytesLen) (zeros SM2UncompressedPubKeyLen ++ rest) random
    0 RandomBytesLen) as E. cbn [app] in E. rewrite E; [|done|done|by rewrite Hr].
  apply copy_at_app; [done|done|by rewrite Hp].
Qed.

Lemma server_hello_body_eq random pub :
  zlen random = RandomBytesLen -> zlen pub = SM2UncompressedPubKeyLen ->
  server_hello_body random pub = random ++ pub ++ [].
Proof.
  intros Hr Hp. unfold server_hello_body.
  rewrite <-(app_nil_r (zeros (RandomBytesLen + SM2UncompressedPubKeyLen))). by apply hello_body_eq.
Qed.

Lemma client_hello_body_eq (m : bool) random pub :
  zlen random = RandomBytesLen -> zlen pub = SM2UncompressedPubKeyLen ->
  client_hello_body m random pub = random ++ pub ++ [if m then x01 else x00].
Proof.
  intros Hr Hp. unfold client_hello_body.
  change (zeros (RandomBytesLen + SM2UncompressedPubKeyLen + 1))
    with (zeros (RandomBytesLen + SM2UncompressedPubKeyLen) ++ [x00]).
  rewrite (hello_body_eq random pub [x00]) by done.
  rewrite !(app_assoc random). unfold zlen in *.
  rewrite insert_app_r_alt by (rewrite length_app; lia).
  f_equal. rewrite length_app. replace (Z.to_nat _ - _)%nat with 0%nat by lia. done.
Qed.

Lemma requested_mutual_hello m random pub :
  zlen random = RandomBytesLen -> zlen pub = SM2UncompressedPubKeyLen ->
  requested_mutual (client_hello_body m random pub) = m.
Proof.
  intros Hr Hp. rewrite client_hello_body_eq by done. unfold requested_mutual.
  rewrite app_assoc, (proj2 (Z.ltb_lt _ _)) by zlia. cbn [andb].
  unfold byte_at. unfold zlen in *. rewrite lookup_app_r by (rewrite length_app; lia).
  rewrite length_app. replace (Z.to_nat _ - _)%nat with 0%nat by lia.
  by destruct m.
Qed.
End steps.

Lemma transcript_of_snoc l m : transcript_of (l ++ [m]) = transcript_Write (transcript_of l) m.1 m.2.
Proof. unfold transcript_of. by rewrite foldl_snoc. Qed.

Lemma hmac_Equal_true a b : hmac_Equal a b = true -> a = b.
Proof. by intros Hab%bool_decide_eq_true. Qed.

Lemma Validate_Ok_config {W} (c : Config W) u : Validate c = Ok u -> config_ok c.
Proof.
  intros Hv. pose proof (Validate_rdecides c) as Hd. by apply (rdecides_Ok _ _ _ _ Hd) in Hv as [? _].
Qed.

(** Split a successful handshake into its steps; keep what each step says. *)
Ltac hs_step :=
  match goal with
  | H : (let '(_, _) := ?v in _) _ = (Ok _, _) |- _ => destruct v
  | H : expect_hs _ _ _ _ _ = (Ok _, _) |- _ => apply expect_hs_Ok in H as [_ H]
  | H : expect_hello _ _ _ _ _ = (Ok _, _) |- _ =>
      let Hl := fresh "Hl" in apply expect_hello_Ok in H as [Hl H]
  | H : write_hs _ _ _ _ = (Ok _, _) |- _ => apply write_hs_Ok in H as [_ H]
  | H : on_conn _ _ = (Ok _, _) |- _ => apply on_conn_Ok in H as [_ H]
  | H : ephemeral _ _ _ = (Ok _, _) |- _ =>
      let Hf := fresh "Hf" in apply ephemeral_Ok in H as (Hf & H & _)
  | H : handshake_secrets _ _ _ _ = Ok _ |- _ =>
      apply handshake_secrets_Ok in H as (? & -> & ? & ?)
  | H : deriveApplicationTrafficKeys _ _ = Ok _ |- _ =>
      rewrite deriveApplicationTrafficKeys_ok in H; apply Ok_inj in H; subst
  | H : app_server_cipher _ = Ok _ |- _ => apply app_server_cipher_Ok in H
  | H : app_client_cipher _ = Ok _ |- _ => apply app_client_cipher_Ok in H
  | H : verify_peer _ _ _ _ = (Ok _, _), Hskip : cfg_InsecureSkipAttestationVerify _ = false |- _ =>
      let Hp := fresh "Hp" in apply (verify_peer_Ok _ _ _ _ _ _ Hskip) in H as [Hp H]
  | _ => inv_stm_step
  | _ => inv_ok_step
  end.
Ltac inv_hs := repeat hs_step.

(** The server's messages with the client's answer. *)
Definition with_client (s : Session) (auth : option (bytes * bytes)) (fin : bytes) : Session :=
  Build_Session (se_ClientHello s) (se_ServerHello s) (se_EncryptedExtensions s) (se_ServerCertificate s)
    (se_ServerVerify s) (se_ServerFinished s) auth fin.

Section client.
Context `{SM3Laws, SM4, HKDFLaws, X509, SM2Laws} {W : Type}.
Implicit Types (st : World W) (c : Config W).

Lemma client_auth_step ctx su c cc s st cc' t st' :
  (if mutual_ext (se_EncryptedExtensions s)
   then client_flight ctx su c cc
          (transcript_of (server_finished_over s ++ [(HandshakeTypeFinished, se_ServerFinished s)]))
   else mret (cc, transcript_of (server_finished_over s ++ [(HandshakeTypeFinished, se_ServerFinished s)])))
    st = (Ok (cc', t), st') ->
  exists auth, (forall fin, t = transcript_of (client_finished_over (with_client s auth fin))) /\
    if mutual_ext (se_EncryptedExtensions s) then
      exists pem sig w', auth = Some (pem, sig) /\
        signs ctx su c (provider_of st) w' pem (client_signed s pem) sig
    else auth = None.
Proof.
  destruct (mutual_ext _); intros Hf.
  - apply client_flight_Ok in Hf as (pem & sig & key & s1 & s2 & rnd & rnd' & Ew & Hp & Hs & ->).
    exists (Some (pem, sig)). split; [done|]. exists pem, sig, s2.2.2. split; [done|].
    exists key, s1, s2, rnd, rnd'. done.
  - apply Ok_pair_inj in Hf as [[= <- <-] _]. by exists None.
Qed.

Lemma client_sound ctx su cfg c st r st' :
  c = match cfg with None => zero_Config | Some c => c end ->
  cfg_InsecureSkipAttestationVerify c = false ->
  ClientHandshakeContext ctx su cfg st = (Ok r, st') ->
  exists k z s, client_accepts ctx su (provider_of st) c k z s r.
Proof.
  intros Hc Hskip Hr. unfold ClientHandshakeContext in Hr. rewrite <-Hc in Hr. clear Hc.
  inv_hs. rename l into random, l0 into pub, v1 into sh, l2 into ee, l3 into pem, l4 into sig, l5 into fin,
    l1 into z.
  pose proof Hf as Hf'. apply hello_fields_pub in Hf' as [Hpub _].
  set (ch := client_hello_body _ random pub) in *.
  assert (hello_random ch = random) as Ecr.
  { unfold ch. rewrite client_hello_body_eq by (done || apply Hf). by apply hello_prefix; [apply Hf|]. }
  apply (client_auth_step _ _ _ _ (Build_Session ch sh ee pem sig fin None [])) in Hv12
    as (auth & Et & Ha).
  set (s := Build_Session ch sh ee pem sig fin None []) in *.
  assert (provider_of st7 = provider_of st /\ provider_of st12 = provider_of st) as [Ew1 Ew2]
    by (unfold provider_of in *; split; congruence).
  rewrite <-Ecr in *. zbool. apply hmac_Equal_true in Hc2.
  exists p, z, (with_client s auth (computeHMACSM3
    (hk_ClientFinishedKey (session_handshake_keys z s)) h0)). split.
  - by apply Validate_Ok_config in Hv.
  - rewrite Ecr in Hf. by exists random, pub.
  - by exists v2.
  - split; [by rewrite Ew1 in Hp|by exists v4, v5|done].
  - intros Hm. rewrite Hm in Hc. by apply negb_false_iff in Hc.
  - by rewrite Ew2 in Ha.
  - split; [exact Hc2|by cbn; rewrite <-Et| |];
      unfold session_app_keys, session_msgs; rewrite transcript_of_snoc, <-Et; assumption.
Qed.
End client.

Section server.
Context `{SM3Laws, SM4, HKDFLaws, X509, SM2Laws} {W : Type}.
Implicit Types (st : World W) (c : Config W).

Lemma server_read_flight_Ok su c hr s st pem ev cert hr' t st' :
  cfg_InsecureSkipAttestationVerify c = false ->
  server_read_flight su c hr
    (transcript_of (server_finished_over s ++ [(HandshakeTypeFinished, se_ServerFinished s)])) st
    = (Ok (pem, ev, cert, hr', t), st') ->
  exists sig, t = transcript_of (client_signed s pem ++ [(HandshakeTypeCertificateVerify, sig)]) /\
    forall r, hr_PeerEvidence r = ev -> hr_PeerCertificate r = Some cert -> hr_PeerCertPEM r = pem ->
      authenticated (su_fs su) (su_now su) (provider_of st) c pem (client_signed s pem) sig r.
Proof.
  unfold server_read_flight. intros Hskip Hf. inv_hs. exists l0. zbool. split; [done|].
  intros r <- Hcr Hpr. split; [|by exists cert, v1|done].
  assert (provider_of st0 = provider_of st) as Ew by (unfold provider_of; congruence).
  by rewrite <-Ew.
Qed.

Lemma mutual_ext_server (m : bool) : mutual_ext (if m then [x01] else [x00]) = m.
Proof. by destruct m. Qed.

Lemma server_auth_step su c (m : bool) hr s st pem ev cert hr' t st' :
  cfg_InsecureSkipAttestationVerify c = false ->
  se_EncryptedExtensions s = (if m then [x01] else [x00]) ->
  let t0 := transcript_of (server_finished_over s ++ [(HandshakeTypeFinished, se_ServerFinished s)]) in
  (if m then
     '(pem, ev, cert, hr, transcript) ← server_read_flight su c hr t0;
     mret (pem, ev, Some cert, hr, transcript)
   else mret ([], None, None, hr, t0)) st = (Ok (pem, ev, cert, hr', t), st') ->
  exists auth, (forall fin, t = transcript_of (client_finished_over (with_client s auth fin))) /\
    forall r, hr_PeerEvidence r = ev -> hr_PeerCertificate r = cert -> hr_PeerCertPEM r = pem ->
    match auth with
    | Some (pem, sig) => mutual_ext (se_EncryptedExtensions s) = true /\
        authenticated (su_fs su) (su_now su) (provider_of st) c pem (client_signed s pem) sig r
    | None => mutual_ext (se_EncryptedExtensions s) = false /\
        hr_PeerCertPEM r = [] /\ hr_PeerEvidence r = None /\ hr_PeerCertificate r = None
    end.
Proof.
  intros Hskip -> t0. rewrite mutual_ext_server. destruct m; intros Hf.
  - apply stM_bind_Ok in Hf as ([[[[pem' ev'] cert'] hr1] t1] & st1 & Hf & Hr).
    apply Ok_pair_inj in Hr as [[= <- <- <- <- <-] _].
    apply server_read_flight_Ok in Hf as (sig & Ht & Ha); [|done].
    exists (Some (pem', sig)). split; [done|]. intros r H1' H2' H3'. split; [done|]. by apply Ha.
  - apply Ok_pair_inj in Hf as [[= <- <- <- <- <-] _]. by exists None.
Qed.

Lemma server_sound ctx su cfg c st r st' :
  c = match cfg with None => zero_Config | Some c => c end ->
  cfg_InsecureSkipAttestationVerify c = false ->
  ServerHandshakeContext ctx su cfg st = (Ok r, st') ->
  exists w' k z s, server_accepts ctx su (provider_of st) w' c k z s r.
Proof.
  intros Hc Hskip Hr. unfold ServerHandshakeContext in Hr. rewrite <-Hc in Hr. clear Hc.
  inv_hs. apply with_defer_Ok in Hr as (st2 & Hr & ->). unfold server_handshake_body in Hr. inv_hs.
  rename l into cert, p into key, v1 into ch, p0 into k, l0 into random, l1 into pub, l2 into z, v6 into sig,
    l4 into fin, h0 into t.
  apply on_cert_Ok in Hv1 as (Hprep & _ & _). apply on_rand_Ok in Hv9 as (Hsig & Ewr & _).
  set (sh := server_hello_body random pub) in *.
  pose proof Hf as Hf'. apply hello_fields_pub in Hf' as [Hpub _].
  assert (hello_random sh = random) as Esr.
  { unfold sh. rewrite server_hello_body_eq by (done || apply Hf). by apply hello_prefix; [apply Hf|]. }
  rewrite <-Esr in Hv12, Hc. fold (requested_mutual ch) in *.
  set (m := cfg_VerifyMutualAttestation c || requested_mutual ch) in *.
  set (s0 := Build_Session ch sh (if m then [x01] else [x00]) cert sig [] None []).
  set (s := Build_Session ch sh (if m then [x01] else [x00]) cert sig (computeHMACSM3
    (hk_ServerFinishedKey (session_handshake_keys z s0)) (transcript_of (server_finished_over s0))) None []).
  apply (server_auth_step su c m _ s) in Hv12 as (auth & Et & Ha); [|done|done].
  assert (provider_of st12 = provider_of st0) as Ew1 by (unfold provider_of in *; congruence).
  rewrite Ew1 in Ha. zbool. apply hmac_Equal_true in Hc.
  exists (provider_of st0), k, z, (with_client s auth fin). split.
  - by apply Validate_Ok_config in Hv.
  - by exists random, pub.
  - by exists v2.
  - done.
  - exists key. eexists _, _, _, _. split; [|split; [|split; [exact Hprep|exact Hsig]]]; [|done].
    unfold provider_of. by rewrite Hv0.
  - by apply Ha.
  - split; [done|by cbn; rewrite <-Et| |];
      unfold session_app_keys, session_msgs; rewrite transcript_of_snoc, <-Et; assumption.
Qed.
End server.

(** ** The contracts *)

Section contracts.
Context `{SM3Laws, SM4, HKDFLaws, X509, SM2Laws} {W W' : Type}.

(** C2. A client's handshake that succeeds has done everything it promises: the
    server's certificate is attested under the client's policy, the certified
    key signed the client's own hello and the server's messages, both Finished
    tags are right for the ECDHE secret of the two hellos, a client that wants
    mutual attestation got it confirmed and sent a certificate and signature of
    its own, and the record ciphers are fresh ones for this whole session. *)
Theorem client_handshake_sound ctx su (cfg : option (Config W)) c st r st' :
  c = match cfg with None => zero_Config | Some c => c end ->
  cfg_InsecureSkipAttestationVerify c = false ->
  ClientHandshakeContext ctx su cfg st = (Ok r, st') ->
  exists k z s, client_accepts ctx su (provider_of st) c k z s r.
Proof. apply client_sound. Qed.

(** C3. The same for the server: with mutual attestation, wanted by either side,
    it returns only if the client's certificate is attested under the server's
    policy and the certified key signed all messages up to it; without, it
    reports no peer.  Both Finished tags are right for the ECDHE secret of the
    two hellos and the record ciphers are fresh ones for this whole session. *)
Theorem server_handshake_sound ctx su (cfg : option (Config W)) c st r st' :
  c = match cfg with None => zero_Config | Some c => c end ->
  cfg_InsecureSkipAttestationVerify c = false ->
  ServerHandshakeContext ctx su cfg st = (Ok r, st') ->
  exists w' k z s, server_accepts ctx su (provider_of st) w' c k z s r.
Proof. apply server_sound. Qed.

(** Two sides that hold the same messages are in the same session. *)
Lemma session_msgs_inj s s' : session_msgs s = session_msgs s' -> s = s'.
Proof.
  destruct s as [a1 a2 a3 a4 a5 a6 [[p g]|] a8], s' as [b1 b2 b3 b4 b5 b6 [[p' g']|] b8];
    unfold session_msgs, client_finished_over, client_signed, server_finished_over, server_signed;
    cbn; intros [=]; by subst.
Qed.

Definition messages_fit (s : Session) : Prop := Forall (fun m => zlen m.2 < 2 ^ 24) (session_msgs s).

Lemma secrets_agree ctx su w (c : Config W) k z s r ctx' su' w1 w2 (c' : Config W') k' z' r' :
  client_accepts ctx su w c k z s r -> server_accepts ctx' su' w1 w2 c' k' z' s r' -> z = z'.
Proof.
  intros [_ (rnd & pub & Hh & Ech) (P & HP & Hz) _ _ _ _] [_ (rnd' & pub' & Hh' & Esh) (P' & HP' & Hz') _ _ _ _].
  destruct (hello_fields_pub _ _ _ Hh) as [Hl Hd]. destruct (hello_fields_pub _ _ _ Hh') as [Hl' Hd'].
  rewrite Ech, client_hello_body_eq in HP' by (done || apply Hh).
  rewrite Esh, server_hello_body_eq in HP by (done || apply Hh').
  rewrite (proj2 (hello_prefix _ _ _ (proj2 (proj2 Hh)) Hl)), Hd in HP'. apply Ok_inj in HP' as <-.
  rewrite (proj2 (hello_prefix _ _ _ (proj2 (proj2 Hh')) Hl')), Hd' in HP. apply Ok_inj in HP as <-.
  destruct (ecdh_agree k k' (proj1 Hh) (proj1 Hh')) as (z0 & _ & E1 & E2). congruence.
Qed.

Lemma ciphers_agree z s a b a' b' : established z s a b -> established z s a' b' -> a = a' /\ b = b'.
Proof. intros [_ _ Ea Eb] [_ _ Ea' Eb']. split; congruence. Qed.

End contracts.

(** ** A session of two honest sides, to compute with *)

Definition toy_surroundings : Surroundings :=
  {| su_fs := toy_fs; su_now := toy_time + minute; su_clock := fun _ => toy_time |}.

(** A side that reads [rx], with the mock as its provider. *)
Definition toy_world (entropy rx : bytes) : World MockEvidenceProvider :=
  (toy_conn rx, ((empty_cache, (entropy, toy_mock)), [])).

Definition toy_client_world (rx : bytes) := toy_world (replicate 500 x05) rx.
Definition toy_server_world (rx : bytes) := toy_world (replicate 500 x09) rx.

(** The sides' settings: [toy_config], with mutual attestation or without. *)
Definition toy_side (mutual : bool) : Config MockEvidenceProvider :=
  Build_Config EmptyString (Some (@MockProvider toy_sm2)) [DefaultMockMeasurementHex] mutual 0 false
    [] [] EmptyString EmptyString [] EmptyString 0.

Abbreviation toy_client mutual rx :=
  (@ClientHandshakeContext toy_sm3 toy_sm4 toy_hkdf toy_sm2 toy_x509 MockEvidenceProvider Background
     toy_surroundings (Some (toy_side mutual)) (toy_client_world rx)).
Abbreviation toy_server rx :=
  (@ServerHandshakeContext toy_sm3 toy_sm4 toy_hkdf toy_sm2 toy_x509 MockEvidenceProvider Background
     toy_surroundings (Some (toy_side false)) (toy_server_world rx)).

(** What each side sends, given what it has received: the wires of a session
    without client authentication and of one with it. *)
Definition toy_server_wire : bytes :=
  Eval vm_compute in conn_tx (toy_server (conn_tx (toy_client false []).2.1)).2.1.
Definition toy_client_wire : bytes := Eval vm_compute in conn_tx (toy_client false toy_server_wire).2.1.
Definition toy_mutual_wire : bytes :=
  Eval vm_compute in
    conn_tx (toy_client true (conn_tx (toy_server (conn_tx (toy_client true []).2.1)).2.1)).2.1.

Lemma toy_run_ok {A} (r' : result A * World MockEvidenceProvider) :
  is_ok r'.1 = true -> exists r st, r' = (Ok r, st).
Proof. destruct r' as [[r|e|] st]; intros; [by exists r, st|done..]. Qed.

Abbreviation toy_client_accepts w k z s r :=
  (@client_accepts toy_sm3 toy_sm4 toy_hkdf toy_x509 toy_sm2 toy_sm2_laws MockEvidenceProvider Background
     toy_surroundings (provider_of w) (toy_side false) k z s r).
Abbreviation toy_server_accepts w w' k z s r :=
  (@server_accepts toy_sm3 toy_sm4 toy_hkdf toy_x509 toy_sm2 toy_sm2_laws MockEvidenceProvider Background
     toy_surroundings (provider_of w) w' (toy_side false) k z s r).

Lemma client_handshake_sound_witness :
  exists r k z s, (toy_client false toy_server_wire).1 = Ok r /\
    toy_client_accepts (toy_client_world toy_server_wire) k z s r.
Proof.
  enough (forall r', toy_client false toy_server_wire = r' -> is_ok r'.1 = true ->
    exists r k z s, r'.1 = Ok r /\ toy_client_accepts (toy_client_world toy_server_wire) k z s r) as Hall.
  { apply Hall; [reflexivity|]. vm_compute. reflexivity. }
  intros r' Hr Hok. destruct (toy_run_ok r' Hok) as (r & st & ->). exists r.
  destruct (@client_handshake_sound toy_sm3 toy_sm3_laws toy_sm4 toy_hkdf toy_hkdf_laws toy_x509
    toy_sm2 toy_sm2_laws MockEvidenceProvider Background toy_surroundings (Some (toy_side false)) (toy_side false)
    _ r st eq_refl eq_refl Hr) as (k & z & s & Hs).
  exists k, z, s. split; [reflexivity|exact Hs].
Defined.

Lemma server_handshake_sound_witness :
  exists r w' k z s, (toy_server toy_mutual_wire).1 = Ok r /\
    toy_server_accepts (toy_server_world toy_mutual_wire) w' k z s r.
Proof.
  enough (forall r', toy_server toy_mutual_wire = r' -> is_ok r'.1 = true ->
    exists r w' k z s, r'.1 = Ok r /\ toy_server_accepts (toy_server_world toy_mutual_wire) w' k z s r) as Hall.
  { apply Hall; [reflexivity|]. vm_compute. reflexivity. }
  intros r' Hr Hok. destruct (toy_run_ok r' Hok) as (r & st & ->). exists r.
  destruct (@server_handshake_sound toy_sm3 toy_sm3_laws toy_sm4 toy_hkdf toy_hkdf_laws toy_x509
    toy_sm2 toy_sm2_laws MockEvidenceProvider Background toy_surroundings (Some (toy_side false)) (toy_side false)
    _ r st eq_refl eq_refl Hr) as (w' & k & z & s & Hs).
  exists w', k, z, s. split; [reflexivity|exact Hs].
Defined.

