(* ===== verification/Effects.v ===== *)
(** * What a handshake does to its connection

    Whatever the peer sends and however the handshake ends: it does not panic,
    it takes bytes off the front of what was received and adds bytes to what was
    sent, it does not close the connection, and the server leaves no deadline
    behind.  [runs] is the program logic for that: a relation that every run
    respects and a property of the value that a successful run returns. *)

From S2P Require Import Prelude Gcm Gmsm Toy NetIO Record Framing KeySchedule GoLib.
From S2P Require Import CsvReport CsvVerify CsvMock CsvClient Asn1 Evidence Gx509 Provider Cert.
From S2P Require Import Config Verifier Handshake Session.

(** ** The logic *)

Section runs.
Context {S : Type} (I : S -> Prop) (R : S -> S -> Prop) `{!PreOrder R}.

(** From a state in the invariant [I]: no panic, a final state in [I] related to
    the first by [R], and a value in [Q]. *)
Definition runs {A} (Q : A -> Prop) (m : stM S A) : Prop := forall s, I s ->
  I (m s).2 /\ R s (m s).2 /\ match (m s).1 with Ok a => Q a | Err _ => True | Panic => False end.

Lemma runs_bind {A B} (Q : A -> Prop) (Q' : B -> Prop) m k :
  runs Q m -> (forall a, Q a -> runs Q' (k a)) -> runs Q' (a ← m; k a).
Proof.
  intros Hm Hk s Hs. unfold mbind, stM_bind. specialize (Hm s Hs).
  destruct (m s) as [[a|e|] s1]; cbn in *; [|done|by destruct Hm as (_ & _ & ?)].
  destruct Hm as (Hs1 & Hr & Hq). destruct (Hk a Hq s1 Hs1) as (Hs2 & Hr' & Hq').
  split; [done|]. split; [by etrans|done].
Qed.

Lemma runs_ret {A} (Q : A -> Prop) a : Q a -> runs Q (mret a).
Proof. by split; cbn. Qed.

Lemma runs_throw {A} (Q : A -> Prop) e : runs Q (throw e).
Proof. by split; cbn. Qed.

Lemma runs_map_err {A} (Q : A -> Prop) f m : runs Q m -> runs Q (map_err f m).
Proof.
  intros Hm s Hs. unfold map_err, stM_map_err. specialize (Hm s Hs). by destruct (m s) as [[a|e|] s1].
Qed.

Lemma runs_throw_if {A} (Q : A -> Prop) (c : bool) e k :
  (c = false -> runs Q k) -> runs Q (if c then throw e else k).
Proof. destruct c; [intros _; apply runs_throw|by intros Hk; apply Hk]. Qed.

Lemma runs_lift {A} (Q : A -> Prop) r :
  no_panic r -> (forall a, r = Ok a -> Q a) -> runs Q (lift r).
Proof. intros Hp Hq s Hs. split; [done|]. split; [done|]. cbn. destruct r; [by apply Hq|done|done]. Qed.

Lemma runs_weaken {A} (Q Q' : A -> Prop) m : runs Q m -> (forall a, Q a -> Q' a) -> runs Q' m.
Proof.
  intros Hm Hq s Hs. destruct (Hm s Hs) as (Hi & Hr & Ha). split; [done|]. split; [done|].
  destruct ((m s).1); auto.
Qed.

Lemma runs_safe {A} (Q : A -> Prop) m s : runs Q m -> I s -> no_panic (m s).1 /\ R s (m s).2.
Proof. intros Hm Hs. destruct (Hm s Hs) as (_ & Hr & Hp). split; [by destruct ((m s).1)|done]. Qed.

(** A successful run may say more of its value than its logic did. *)
Lemma runs_and {A} (Q Q' : A -> Prop) (m : stM S A) :
  runs Q m -> (forall s a s', m s = (Ok a, s') -> Q' a) -> runs (fun a => Q a /\ Q' a) m.
Proof.
  intros Hm Hq s Hs. destruct (Hm s Hs) as (Hi & Hr & Ha). split; [done|]. split; [done|].
  destruct (m s) as [[a|e|] s'] eqn:E; cbn in *; [split; [done|by eapply Hq]|done|done].
Qed.
End runs.

Definition anything {A} (_ : A) : Prop := True.
Definition any_state {S} (_ : S) : Prop := True.
Definition everywhere {S} (_ _ : S) : Prop := True.

#[global] Instance everywhere_preorder {S} : PreOrder (@everywhere S).
Proof. by split. Qed.

(** A state of two parts, with the invariant on the second and the relation on
    the first. *)
Section parts.
Context {S T : Type} (I : T -> Prop) (R : S -> S -> Prop) `{!PreOrder R}.

Definition on_second (s : S * T) : Prop := I s.2.
Definition by_first (s s' : S * T) : Prop := R s.1 s'.1.

#[global] Instance by_first_preorder : PreOrder by_first.
Proof.
  unfold by_first. split; [intros [s t]; reflexivity|].
  intros [s1 t1] [s2 t2] [s3 t3] H1 H2. by etrans.
Qed.

Lemma runs_on_fst {A} (Q : A -> Prop) (m : stM S A) :
  runs any_state R Q m -> runs on_second by_first Q (on_fst m).
Proof.
  intros Hm [s t] Hs. unfold on_fst, on_second, by_first in *. specialize (Hm s Logic.I).
  destruct (m s). by destruct Hm as (_ & ? & ?).
Qed.

Lemma runs_on_snd {A} (Q : A -> Prop) (m : stM T A) :
  runs I everywhere Q m -> runs on_second by_first Q (on_snd m).
Proof.
  intros Hm [s t] Ht. unfold on_snd, on_second, by_first in *. specialize (Hm t Ht).
  destruct (m t) as [r t']. cbn in *. by destruct Hm as (? & _ & ?).
Qed.
End parts.

(** ** The connection *)

(** Between two states of a connection: bytes were read off the front, bytes
    were written, and nothing else happened to it. *)
Record conn_step (c c' : RawConn) : Prop := {
  cs_rx : exists got, conn_rx c = got ++ conn_rx c';
  cs_tx : exists sent, conn_tx c' = conn_tx c ++ sent;
  cs_rx_err : conn_rx_err c' = conn_rx_err c;
  cs_deadline : conn_deadline_set c' = conn_deadline_set c;
  cs_deadline_err : conn_deadline_err c' = conn_deadline_err c;
  cs_close_err : conn_close_err c' = conn_close_err c;
  cs_closed : conn_closed c' = conn_closed c
}.

#[global] Instance conn_step_preorder : PreOrder conn_step.
Proof.
  split.
  - intros c. split; try done; [by exists []|exists []; by rewrite app_nil_r].
  - intros c1 c2 c3 [[g1 H1] [t1 H2] ? ? ? ? ?] [[g2 H3] [t2 H4] ? ? ? ? ?].
    split; try congruence; [exists (g1 ++ g2)|exists (t1 ++ t2)].
    + by rewrite H1, H3, app_assoc.
    + by rewrite H4, H2, app_assoc.
Qed.

Lemma runs_read_full n :
  runs any_state conn_step (fun l => 0 <= n -> zlen l = n) (read_full n).
Proof.
  intros c _. split; [done|].
  assert (match (read_full n c).1 with Ok a => 0 <= n -> zlen a = n | Err _ => True | Panic => False end).
  { pose proof (read_full_no_panic n c). destruct (read_full n c) as [[l|e|] c'] eqn:E; [|done..].
    intros Hn. by apply read_full_Ok in E as [? _]. }
  split; [|done]. unfold read_full, read_full_from. destruct (n <=? 0).
  { split; try done; [by exists []|exists []; by rewrite app_nil_r]. }
  destruct (n <=? zlen (conn_rx c)).
  - split; cbn; try done; [exists (take_z n (conn_rx c)); by rewrite take_drop_z|exists []; by rewrite app_nil_r].
  - destruct (_ =? 0); (split; cbn; try done; [exists (conn_rx c)|exists []]; by rewrite app_nil_r).
Qed.

Lemma runs_writeFull p : runs any_state conn_step anything (writeFull p).
Proof.
  intros c _. split; [done|]. unfold writeFull, conn_write. destruct (conn_wscript c) as [|o script].
  - rewrite Z.eqb_refl. cbn. split; [|done]. split; try done; [by exists []|by exists p].
  - destruct (wo_err o); [|destruct (negb _)]; cbn; (split; [|done]);
      (split; try done; [by exists []|by eexists]).
Qed.

(** ** Records and messages *)

Lemma runs_Seal t p : runs cipher_ok everywhere anything (Seal t p).
Proof.
  intros rc Hok. pose proof (SealWithPadding_state t p 0 rc) as Hst. unfold Seal.
  assert (no_panic (SealWithPadding t p 0 rc).1) as Hp.
  { destruct (SealWithPadding_cases rc t p 0 Hok) as (c & -> & _); [lia|]. zlen_pos.
    destruct (Z.ltb_spec MaxPlaintextLength (zlen p)); [done|].
    unfold MaxPlaintextLength, GCMTagSize in *. rewrite (proj2 (Z.leb_gt (2 ^ 63) _)) by lia.
    by repeat case_match. }
  destruct (SealWithPadding t p 0 rc) as [[rec|e|] rc1]; cbn in *; [|by subst|done].
  destruct Hst as [Hn ->]. pose proof (cipher_seq _ Hok). split; [|done]. apply incr_seq_ok; [done|lia].
Qed.

Lemma runs_Unseal rec : runs cipher_ok everywhere anything (Unseal rec).
Proof.
  intros rc Hok. pose proof (Unseal_state rec rc) as Hst.
  assert (no_panic (Unseal rec rc).1) as Hp.
  { destruct Hok as [Ha Hi Hs]. unfold Unseal. stm.
    pose proof (aead_open_no_panic (deriveNonce rc (seqno rc)) (drop_z RecordHeaderLen rec)
      (take_z RecordHeaderLen rec) (deriveNonce_len _ _)) as Ho.
    by repeat (case_match; simplify_eq/=). }
  destruct (Unseal rec rc) as [[m|e|] rc1]; cbn in *; [|by subst|done].
  destruct Hst as [Hn ->]. pose proof (cipher_seq _ Hok). split; [|done]. apply incr_seq_ok; [done|lia].
Qed.

(** One rule per statement; [runs_call] is for the computations that have a
    lemma of their own. *)
Create HintDb runs.
#[export] Hint Resolve runs_on_fst runs_on_snd runs_read_full runs_writeFull runs_Seal runs_Unseal : runs.

Ltac runs_call := solve [eauto 4 with runs typeclass_instances].
Ltac runs_step :=
  lazymatch goal with
  | |- PreOrder _ => tc_solve
  | |- runs _ _ _ (mret _) => eapply runs_ret
  | |- runs _ _ _ (throw _) => eapply runs_throw
  | |- runs _ _ _ (map_err _ _) => eapply runs_map_err
  | |- runs _ _ _ (if _ then throw _ else _) => eapply runs_throw_if; [|intros ?]
  | |- runs _ _ _ (_ ≫= _) =>
      let HQ := fresh "HQ" in eapply runs_bind; [| |intros ? HQ; cbv beta in HQ]
  | |- runs _ _ _ (let '(_, _) := ?v in _) => destruct v
  | |- anything _ => exact Logic.I
  | |- runs _ _ _ _ => runs_call
  end.

Lemma runs_writeEncrypted fuel msg :
  runs (on_second cipher_ok) (by_first conn_step) anything (writeEncrypted_loop fuel msg).
Proof.
  revert msg. induction fuel as [|fuel IH]; intros msg; cbn [writeEncrypted_loop]; [by repeat runs_step|].
  destruct (0 <? zlen msg); repeat runs_step.
Qed.

Definition reader_ok (hr : encryptedHandshakeReader) : Prop := cipher_ok (hr_cipher hr).
Abbreviation reader_runs := (runs (on_second reader_ok) (by_first conn_step)).

Lemma runs_reader_unseal record : reader_runs anything (reader_unseal record).
Proof.
  apply runs_on_snd; [tc_solve|]. intros hr Hok. pose proof (runs_Unseal record (hr_cipher hr) Hok) as Hu.
  by destruct (Unseal record (hr_cipher hr)) as [[m|e|] rc'].
Qed.

Lemma runs_reader_buf : reader_runs anything reader_buf.
Proof. intros s Hs. split; [done|]. split; [reflexivity|done]. Qed.

Lemma runs_reader_set_buf buf : reader_runs anything (reader_set_buf buf).
Proof. intros s Hs. split; [done|]. unfold by_first. split; [reflexivity|done]. Qed.

Lemma reader_take_msg_no_panic buf : no_panic (reader_take_msg buf).
Proof. unfold reader_take_msg. by repeat case_match. Qed.

Lemma plaintext_progress_no_panic a mt ex : no_panic (plaintext_progress a mt ex).
Proof.
  unfold plaintext_progress. apply bind_no_panic; [by repeat case_match|]. intros [mt' ex'] _.
  by repeat case_match.
Qed.

#[export] Hint Resolve runs_reader_unseal runs_reader_buf runs_reader_set_buf runs_writeEncrypted : runs.

Lemma runs_read_encrypted_record : reader_runs anything read_encrypted_record.
Proof. unfold read_encrypted_record. repeat runs_step. Qed.
#[export] Hint Resolve runs_read_encrypted_record : runs.

Lemma runs_ReadMsg_loop fuel : reader_runs anything (ReadMsg_loop fuel).
Proof.
  induction fuel as [|fuel IH]; cbn [ReadMsg_loop]; [repeat runs_step|].
  eapply runs_bind; [tc_solve|runs_call|]. intros buf _.
  eapply (runs_bind _ _ anything).
  { apply runs_lift; [tc_solve|apply reader_take_msg_no_panic|done]. }
  intros [[[t b] rest]|] _; repeat runs_step.
Qed.

Lemma runs_ReadMsg : reader_runs anything ReadMsg.
Proof. intros s. apply runs_ReadMsg_loop. Qed.

Lemma runs_readPlaintext : runs any_state conn_step anything readPlaintextHandshakeMsg.
Proof.
  enough (forall fuel asm mt ex, runs any_state conn_step anything (readPlaintext_loop fuel asm mt ex)) as Hl
    by (intros c; apply Hl).
  induction fuel as [|fuel IH]; intros asm mt ex; cbn [readPlaintext_loop]; [repeat runs_step|].
  eapply (runs_bind _ _ anything).
  { unfold read_plaintext_fragment. repeat runs_step. eapply runs_weaken; [runs_call|done]. }
  intros frag _. eapply runs_throw_if; [tc_solve|]. intros _.
  eapply (runs_bind _ _ anything).
  { apply runs_lift; [tc_solve|apply plaintext_progress_no_panic|done]. }
  intros [[mt' ex'] [r|]] _; repeat runs_step.
Qed.

Lemma runs_writePlaintext t body :
  runs any_state conn_step anything (writePlaintextHandshakeMsg t body).
Proof. unfold writePlaintextHandshakeMsg. repeat runs_step. Qed.
#[export] Hint Resolve runs_readPlaintext runs_writePlaintext : runs.

(** ** The steps of a handshake *)

(** What is asked of the third-party code: no panic. *)
Class NoPanics `{SM2, X509} := {
  np_generate rnd : no_panic (sm2_GenerateKey rnd).1;
  np_sign k msg rnd : no_panic (sm2_Sign k msg rnd).1;
  np_certificate pem : no_panic (gx_ReadCertificateFromPem pem);
  np_private_key pem : no_panic (gx_ReadPrivateKeyFromPem pem);
  np_marshal pub : no_panic (gx_MarshalPKIXPublicKey pub);
  np_create t pub k rnd : no_panic (gx_CreateCertificateToPem t pub k rnd).1;
  np_write_key k : no_panic (gx_WritePrivateKeyToPem k)
}.

(** What is asked of an evidence provider, which a caller may implement: it
    does not panic, in any state. *)
Record provider_safe {W} (p : EvidenceProvider W) : Prop := {
  ps_get digest s : no_panic (ep_GetEvidence p digest s).1;
  ps_get_context f ctx digest s : ep_GetEvidenceContext p = Some f -> no_panic (f ctx digest s).1
}.
Definition config_safe {W} (c : Config W) : Prop :=
  forall p, cfg_EvidenceProvider c = Some p -> provider_safe p.

(** [calm m]: [m] panics in no state. *)
Definition calm {S A} (m : stM S A) : Prop := forall s, no_panic (m s).1.

Section calm.
Context {S : Type}.

Lemma calm_bind {A B} (m : stM S A) (k : A -> stM S B) : calm m -> (forall a, calm (k a)) -> calm (m ≫= k).
Proof. intros Hm Hk s. apply stM_bind_no_panic; [apply Hm|intros; apply Hk]. Qed.

Lemma calm_map_err {A} f (m : stM S A) : calm m -> calm (map_err f m).
Proof. intros Hm s. specialize (Hm s). unfold map_err, stM_map_err. by destruct (m s) as [[]]. Qed.

Lemma calm_lift {A} (r : result A) : no_panic r -> calm (lift r : stM S A).
Proof. by intros Hr s. Qed.

Lemma calm_on_fst {T A} (m : stM S A) : calm m -> calm (on_fst m : stM (S * T) A).
Proof. intros Hm [s t]. specialize (Hm s). unfold on_fst. by destruct (m s). Qed.

Lemma calm_on_snd {T A} (m : stM S A) : calm m -> calm (on_snd m : stM (T * S) A).
Proof. intros Hm [t s]. specialize (Hm s). unfold on_snd. by destruct (m s). Qed.

Lemma calm_ret {A} (a : A) : calm (mret a : stM S A).
Proof. by intros s. Qed.

Lemma calm_if {A} (b : bool) (m m' : stM S A) : calm m -> calm m' -> calm (if b then m else m').
Proof. by destruct b. Qed.
End calm.
Create HintDb calm.
#[export] Hint Resolve calm_bind calm_map_err calm_lift calm_on_fst calm_on_snd calm_ret calm_if : calm.

Lemma calm_read_full_from n e : calm (fun rnd => read_full_from n rnd e).
Proof. intros s. unfold read_full_from. by repeat case_match. Qed.
#[export] Hint Resolve calm_read_full_from : calm.

Lemma optional_cert_no_panic fs path size : 0 <= size -> no_panic (optional_cert fs path size).
Proof.
  intros Hs. unfold optional_cert, readCertFile. case_bool_decide; [done|].
  apply bind_no_panic; [by unfold os_ReadFile; case_match|]. intros data _.
  destruct (Z.ltb_spec (zlen data) size); [done|]. by rewrite gslice_ok by lia.
Qed.

(** The hardware provider is safe, whatever the operating system answers. *)
Lemma HygonProvider_safe `{SM3, PlatformLaws W ops} fs env h : provider_safe (HygonProvider fs ops env h).
Proof.
  assert (forall digest, calm (hygon_GetEvidence fs ops env h digest)) as Hg.
  { intros digest [rnd w]. unfold hygon_GetEvidence.
    match goal with |- no_panic (?m _).1 => enough (calm m) as Hm by apply Hm end.
    apply calm_bind; [auto with calm|intros nonce].
    apply calm_bind; [|intros report; apply calm_bind; [by apply calm_map_err, calm_lift, optional_cert_no_panic|];
      intros hrk; apply calm_bind; [by apply calm_map_err, calm_lift, optional_cert_no_panic|intros; apply calm_ret]].
    apply calm_map_err, calm_on_snd. intros w'.
    match goal with |- context [GetAttestationReportIOCTL ?r _ _ ?c _ ?s] =>
      pose proof (GetAttestationReportIOCTL_no_panic r ops env c nonce s eq_refl) as Hp end.
    by destruct (GetAttestationReportIOCTL _ _ _ _ _ _) as [[] [buf w1]]. }
  split; [exact Hg|].
  intros f ctx digest s [= <-]. unfold hygon_GetEvidenceContext, check_ctx.
  by destruct (ctx_Err ctx); [|apply Hg].
Qed.

Section steps.
Context `{SM3Laws, SM4Laws, HKDFLaws, X509, SM2Laws, !NoPanics} {W : Type}.
Implicit Types c : Config W.
Abbreviation hs_runs := (runs (@on_second RawConn ((CertCache * (bytes * W)) * list error) any_state)
                              (by_first conn_step)).

Lemma runs_on_conn {A} (Q : A -> Prop) m : runs any_state conn_step Q m -> hs_runs Q (on_conn m).
Proof. apply runs_on_fst. Qed.

Lemma runs_elsewhere {A} (m : stM ((CertCache * (bytes * W)) * list error) A) :
  (forall s, no_panic (m s).1) -> hs_runs anything (on_snd m).
Proof.
  intros Hm. apply runs_on_snd; [tc_solve|]. intros s _. split; [done|]. split; [done|].
  specialize (Hm s). by destruct ((m s).1).
Qed.

Lemma runs_on_cert {A} (m : stM (CertCache * (bytes * W)) A) :
  (forall s, no_panic (m s).1) -> hs_runs anything (on_cert m).
Proof.
  intros Hm. apply runs_elsewhere. intros [s l]. unfold on_fst. specialize (Hm s). by destruct (m s).
Qed.

Lemma runs_on_rand {A} (m : stM bytes A) : (forall s, no_panic (m s).1) -> hs_runs anything (on_rand m).
Proof.
  intros Hm. apply runs_on_cert. intros [k [rnd w]]. unfold on_snd, on_fst. specialize (Hm rnd).
  by destruct (m rnd).
Qed.

Lemma runs_on_log {A} (m : stM (list error) A) : (forall s, no_panic (m s).1) -> hs_runs anything (on_log m).
Proof.
  intros Hm. apply runs_elsewhere. intros [s l]. unfold on_snd. specialize (Hm l). by destruct (m l).
Qed.

Lemma runs_write_hs cipher t body : cipher_ok cipher -> hs_runs cipher_ok (write_hs cipher t body).
Proof.
  intros Hok [conn rest] _. unfold write_hs, on_second, by_first.
  destruct (runs_writeEncrypted (S (length (encodeHandshakeMsg t body))) (encodeHandshakeMsg t body)
    (conn, cipher) Hok) as (Hc & Hr & Hp).
  unfold writeEncryptedHandshakeMsg. destruct (writeEncrypted_loop _ _ _) as [[u|e|] [conn' cipher']]; done.
Qed.

Lemma runs_expect_hs hr want e1 e2 :
  reader_ok hr -> hs_runs (fun m => reader_ok m.2) (expect_hs hr want e1 e2).
Proof.
  intros Hok. unfold expect_hs. eapply (runs_bind _ _ (fun m => reader_ok m.2)).
  - apply runs_map_err. intros [conn rest] _. unfold read_hs, on_second, by_first.
    destruct (runs_ReadMsg (conn, hr) Hok) as (Hc & Hr & Hp).
    by destruct (ReadMsg (conn, hr)) as [[m|e|] [conn' hr']].
  - intros [[t b] hr'] Hr. repeat runs_step. done.
Qed.

Lemma runs_expect_hello want e1 e2 e3 : hs_runs anything (expect_hello want e1 e2 e3).
Proof.
  unfold expect_hello. eapply (runs_bind _ _ anything).
  - apply runs_map_err, runs_on_conn. runs_call.
  - intros [[t b] raw] _. repeat runs_step.
Qed.

Lemma runs_ephemeral e1 e2 : hs_runs (fun m => hello_fields m.1.1 m.2 m.1.2) (ephemeral e1 e2).
Proof.
  eapply runs_weaken; [apply (runs_and _ _ anything)|].
  - unfold ephemeral. eapply (runs_bind _ _ sm2_key).
    + apply runs_map_err. eapply runs_weaken; [apply (runs_and _ _ anything)|intros k [_ Hk]; exact Hk].
      * apply runs_on_rand, np_generate.
      * intros s k s' (Hk & _)%on_rand_Ok. by eapply sm2_generate_key.
    + intros k Hk. eapply (runs_bind _ _ anything); [apply runs_lift; [tc_solve| |done]|].
      * destruct (encode_decode_key k Hk) as (raw & -> & _). done.
      * intros pub _. eapply (runs_bind _ _ anything); [|intros; by repeat runs_step].
        apply runs_map_err, runs_on_rand. intros s. unfold read_full_from. by repeat case_match.
  - intros s m s' Hm. instantiate (1 := fun m => hello_fields m.1.1 m.2 m.1.2).
    destruct m as [[k pub] random]. by apply ephemeral_Ok in Hm as [? _].
  - by intros m [_ ?].
Qed.

Lemma runs_verify_peer su pem c : hs_runs anything (verify_peer su pem c).
Proof.
  unfold verify_peer. eapply (runs_bind _ _ anything).
  - intros s Hs. split; [done|]. split; [reflexivity|done].
  - intros w _. apply runs_on_log. intros l. apply verify_no_panic, np_certificate.
Qed.

Lemma getEvidence_calm ctx (p : EvidenceProvider W) digest :
  provider_safe p -> calm (getEvidenceWithContext ctx p digest).
Proof.
  intros [Hg Hc] s. unfold getEvidenceWithContext. destruct (ep_GetEvidenceContext p) as [f|]; [by apply Hc|].
  specialize (Hg digest s). destruct (ep_GetEvidence p digest s) as [r s'].
  by destruct (ctx_Err ctx); [destruct (ctx_first ctx)|].
Qed.

Lemma EncodeCSVEvidence_no_panic ev : no_panic (EncodeCSVEvidence ev).
Proof.
  destruct ev as [ev|]; [|done]. apply bind_no_panic; [|done].
  eapply rdecides_no_panic, validateEvidenceExtension_rdecides.
Qed.

Lemma Generate_calm ctx (p : EvidenceProvider W) now :
  provider_safe p -> calm (GenerateSM2CertificateWithEvidenceContext ctx (Some p) now).
Proof.
  intros Hp. unfold GenerateSM2CertificateWithEvidenceContext.
  apply calm_bind; [apply calm_map_err, calm_on_fst; exact np_generate|intros k].
  apply calm_bind; [apply calm_map_err, calm_lift, np_marshal|intros der].
  apply calm_bind; [by apply calm_map_err, getEvidence_calm|intros ev].
  apply calm_bind; [apply calm_map_err, calm_lift, EncodeCSVEvidence_no_panic|intros ext].
  apply calm_bind; [unfold rand_Int128; auto with calm|intros serial].
  apply calm_bind; [apply calm_map_err, calm_on_fst; intros rnd; apply np_create|intros pem].
  apply calm_bind; [apply calm_map_err, calm_lift, np_write_key|intros key; apply calm_ret].
Qed.

(** Getting a certificate from such a configuration does not panic. *)
Lemma prepareCertificate_no_panic ctx clock c :
  config_safe c -> forall s, no_panic (prepareCertificate ctx clock c s).1.
Proof.
  intros Hc. change (calm (prepareCertificate ctx clock c)). unfold prepareCertificate.
  apply calm_bind; [apply calm_map_err|intros [pem key]; apply calm_bind;
    [apply calm_map_err, calm_lift, np_private_key|done]].
  unfold GetOrGenerateCertificateContext. apply calm_if; [done|].
  destruct (cfg_EvidenceProvider c) as [p|] eqn:Ep; [|done].
  apply calm_bind; [done|intros k]. apply calm_if; [done|].
  apply calm_bind; [done|intros k']. apply calm_if; [done|].
  apply calm_bind; [by apply calm_map_err, calm_on_snd, Generate_calm, Hc|intros [pem key]].
  apply calm_bind; [apply calm_map_err, calm_lift, map_err_no_panic, np_certificate|intros cert].
  apply calm_bind; [by apply calm_on_fst|intros _; apply calm_ret].
Qed.

Lemma decodePublicKeySM2_no_panic raw : no_panic (decodePublicKeySM2 raw).
Proof. unfold decodePublicKeySM2. by repeat case_match. Qed.

Lemma handshake_secrets_runs pub k cr sr :
  hs_runs (fun m => cipher_ok m.1.2 /\ cipher_ok m.2) (lift (handshake_secrets pub k cr sr)).
Proof.
  apply runs_lift; [tc_solve| |].
  - unfold handshake_secrets. apply bind_no_panic; [apply map_err_no_panic|].
    + unfold computeECDHESharedSecret. destruct (P256_ScalarMult _ _ _) as [z|] eqn:Ez; [|done].
      apply sm2_ScalarMult_coord in Ez.
      pose proof (gcopy_at_pad [] [] 0 32 z Ez eq_refl eq_refl) as Hg. cbn [app] in Hg.
      rewrite !app_nil_r in Hg. by rewrite Hg.
    + intros z _. rewrite deriveHandshakeTrafficKeys_ok. cbn [map_err result_map_err mbind result_bind].
      destruct (hs_keys_len z (cr ++ sr)) as (L1 & L2 & L3 & L4 & _).
      destruct (NewRecordCipher_total _ _ L3 L4) as [sc ->]. destruct (NewRecordCipher_total _ _ L1 L2) as [cc ->].
      done.
  - intros [[[z keys] sc] cc] Hs. apply handshake_secrets_Ok in Hs as (_ & _ & Es & Ec).
    by apply NewRecordCipher_Ok in Es as (_ & _ & ? & _); apply NewRecordCipher_Ok in Ec as (_ & _ & ? & _).
Qed.

(** Keys of the lengths that the ciphers need. *)
Definition app_keys_ok (keys : ApplicationTrafficKeys) : Prop :=
  (exists rc, app_server_cipher keys = Ok rc /\ cipher_ok rc) /\
  (exists rc, app_client_cipher keys = Ok rc /\ cipher_ok rc).

Lemma runs_app_keys f z h :
  hs_runs app_keys_ok
    (map_err f (lift (deriveApplicationTrafficKeys z h))).
Proof.
  rewrite deriveApplicationTrafficKeys_ok. apply runs_map_err, runs_lift; [tc_solve|done|].
  intros keys [= <-]. unfold app_keys_ok, app_server_cipher, app_client_cipher.
  destruct (app_keys_len z h) as (L1 & L2 & L3 & L4).
  destruct (NewRecordCipher_fresh _ _ L3 L4) as (sc & -> & ? & _).
  destruct (NewRecordCipher_fresh _ _ L1 L2) as (cc & -> & ? & _).
  split; eexists; (split; [reflexivity|done]).
Qed.

Lemma runs_app_cipher (r : result RecordCipher) :
  (exists rc, r = Ok rc /\ cipher_ok rc) -> hs_runs cipher_ok (lift r).
Proof. intros (rc & -> & Hok). apply runs_lift; [tc_solve|done|]. by intros rc' [= <-]. Qed.

Definition result_ok (r : HandshakeResult) : Prop := cipher_ok (hr_InCipher r) /\ cipher_ok (hr_OutCipher r).

Lemma Validate_no_panic c : no_panic (Validate c).
Proof. eapply rdecides_no_panic, Validate_rdecides. Qed.

Lemma extractSM2PublicKey_no_panic k : no_panic (extractSM2PublicKey k).
Proof. by destruct k. Qed.

Lemma runs_lift_any {A} (r : result A) : no_panic r -> hs_runs anything (lift r).
Proof. intros Hp. by apply runs_lift; [tc_solve| |]. Qed.

Lemma runs_client_flight ctx su c cipher t :
  config_safe c -> cipher_ok cipher ->
  hs_runs (fun m => cipher_ok m.1) (client_flight ctx su c cipher t).
Proof.
  intros Hcert Hok. unfold client_flight. eapply (runs_bind _ _ anything).
  { apply runs_map_err, runs_on_cert. by apply prepareCertificate_no_panic. }
  intros [pem key] _. eapply (runs_bind _ _ cipher_ok); [by apply runs_map_err, runs_write_hs|].
  intros c1 H1'. eapply (runs_bind _ _ anything); [apply runs_map_err, runs_on_rand, np_sign|].
  intros sig _. eapply (runs_bind _ _ cipher_ok); [by apply runs_map_err, runs_write_hs|].
  intros c2 H2'. by apply runs_ret; [tc_solve|].
Qed.

Lemma runs_client_auth ctx su c (m : bool) cipher t :
  config_safe c -> cipher_ok cipher ->
  hs_runs (fun m => cipher_ok m.1) (if m then client_flight ctx su c cipher t else mret (cipher, t)).
Proof. intros Hc Hok. destruct m; [by apply runs_client_flight|]. by apply runs_ret; [tc_solve|]. Qed.

(** One line per statement of the handshakes. *)
Ltac hs_runs_step :=
  lazymatch goal with
  | H : _ /\ _ |- _ => destruct H
  | H : app_keys_ok _ |- _ => destruct H
  | |- no_panic _ => first [ eassumption | done | apply map_err_no_panic | apply Validate_no_panic
      | apply decodePublicKeySM2_no_panic | apply extractSM2PublicKey_no_panic | apply np_certificate ]
  | |- forall _, no_panic _ => first [ apply np_sign | by apply prepareCertificate_no_panic ]
  | |- runs any_state conn_step _ _ => runs_call
  | |- runs _ _ _ (ephemeral _ _) => apply runs_ephemeral
  | |- runs _ _ _ (expect_hello _ _ _ _) => apply runs_expect_hello
  | |- runs _ _ _ (expect_hs _ _ _ _) => apply runs_expect_hs
  | |- runs _ _ _ (write_hs _ _ _) => apply runs_write_hs
  | |- runs _ _ _ (verify_peer _ _ _) => apply runs_verify_peer
  | |- runs _ _ _ (if _ then client_flight _ _ _ _ _ else _) => by apply runs_client_auth
  | |- runs _ _ _ (lift (handshake_secrets _ _ _ _)) => apply handshake_secrets_runs
  | |- runs _ _ _ (map_err _ (lift (deriveApplicationTrafficKeys _ _))) => apply runs_app_keys
  | |- runs _ _ _ (lift (app_server_cipher _)) => apply runs_app_cipher; eassumption
  | |- runs _ _ _ (lift (app_client_cipher _)) => apply runs_app_cipher; eassumption
  | |- runs _ _ _ (lift _) => apply runs_lift_any
  | |- result_ok _ => by split
  | |- runs _ _ _ (on_conn _) => apply runs_on_conn
  | |- runs _ _ _ (on_rand _) => apply runs_on_rand
  | |- runs _ _ _ (on_cert _) => apply runs_on_cert
  | |- cipher_ok _ => eassumption
  | |- reader_ok _ => eassumption
  | |- _ => runs_step
  end.

Lemma runs_client ctx su cfg :
  config_safe (default zero_Config cfg) ->
  hs_runs result_ok (ClientHandshakeContext ctx su cfg).
Proof.
  intros Hc. unfold ClientHandshakeContext.
  change (match cfg with None => zero_Config | Some c => c end) with (default zero_Config cfg).
  generalize dependent (default zero_Config cfg). intros c Hc. repeat hs_runs_step.
Qed.

Lemma runs_server_auth su c (m : bool) hr t :
  reader_ok hr ->
  hs_runs (fun x => reader_ok x.1.2)
    (if m then
       '(pem, ev, cert, hr, transcript) ← server_read_flight su c hr t;
       mret (pem, ev, Some cert, hr, transcript)
     else mret ([], None, None, hr, t)).
Proof.
  intros Hok. destruct m; [|by apply runs_ret; [tc_solve|]].
  eapply (runs_bind _ _ (fun x => reader_ok x.1.2)).
  - unfold server_read_flight. by repeat hs_runs_step.
  - intros [[[[pem ev] cert] hr'] t'] Hr. by apply runs_ret; [tc_solve|].
Qed.

Lemma runs_server_body ctx su c :
  config_safe c -> hs_runs result_ok (server_handshake_body ctx su c).
Proof.
  intros Hc. unfold server_handshake_body.
  repeat lazymatch goal with
  | |- runs _ _ _ (if _ then _ ≫= _ else mret _) => apply runs_server_auth
  | _ => hs_runs_step
  end.
Qed.
End steps.

(** ** Robustness *)

(** The connection with no deadline in force. *)
Definition clear_deadline (c : RawConn) : RawConn :=
  {| conn_rx := conn_rx c; conn_rx_err := conn_rx_err c; conn_tx := conn_tx c;
     conn_wscript := conn_wscript c; conn_deadline_err := conn_deadline_err c;
     conn_deadline_set := false;
     conn_close_err := conn_close_err c; conn_closed := conn_closed c |}.

Lemma conn_step_clear c c' : conn_step c c' -> conn_step (clear_deadline c) (clear_deadline c').
Proof. intros [? ? ? ? ? ? ?]. by split. Qed.

Section robust.
Context `{SM3Laws, SM4Laws, HKDFLaws, X509, SM2Laws, !NoPanics} {W : Type}.

(** What a server's run leaves, its ciphers included. *)
Lemma server_run ctx su (cfg : option (Config W)) st :
  config_safe (default zero_Config cfg) ->
  let out := ServerHandshakeContext ctx su cfg st in
  no_panic out.1 /\ conn_step (clear_deadline st.1) (clear_deadline out.2.1) /\
  (conn_deadline_set out.2.1 = true -> conn_deadline_set st.1 = true /\ is_ok out.1 = false) /\
  (forall r, out.1 = Ok r -> result_ok r).
Proof.
  intros Hc. unfold ServerHandshakeContext.
  change (match cfg with None => zero_Config | Some c => c end) with (default zero_Config cfg).
  generalize dependent (default zero_Config cfg). intros c Hc. cbv zeta.
  unfold mbind, stM_bind, lift, map_err, stM_map_err.
  pose proof (Validate_no_panic c) as Hv. destruct (Validate c) as [u|e|]; [|split_and!; done|done].
  destruct st as [conn rest]. unfold on_conn, on_fst, conn_set_deadline.
  destruct (conn_deadline_err conn) as [e|] eqn:Ed; [split_and!; done|].
  unfold with_defer. match goal with |- context [(?x, rest)] => set (conn1 := x) end.
  destruct (runs_server_body ctx su c Hc (conn1, rest) Logic.I) as (_ & Hr & Hq).
  destruct (server_handshake_body ctx su c (conn1, rest)) as [r [conn2 rest2]]. unfold by_first in Hr.
  cbn in Hr, Hq. cbn. rewrite (cs_deadline_err _ _ Hr). change (conn_deadline_err conn1) with (@None error). cbn.
  split; [by destruct r|]. split; [|split; [done|by intros r' ->]].
  apply conn_step_clear in Hr. destruct Hr. split; cbn in *; congruence || done.
Qed.


End robust.

(** The stand-ins do not panic. *)
Lemma toy_no_panics : @NoPanics toy_sm2 toy_x509.
Proof.
  split.
  - intros rnd. cbn. by destruct (_ <? _).
  - done.
  - intros pem. cbn. by destruct (_ <? _).
  - done.
  - done.
  - intros t pub k rnd. cbn. by destruct (toy_template_ok t).
  - done.
Qed.

(** A side with a certificate of its own instead of a provider. *)
Definition toy_static : Config MockEvidenceProvider :=
  Build_Config EmptyString None [] false 0 false [x01] [x02] EmptyString EmptyString [] EmptyString 0.

Lemma toy_static_safe : config_safe toy_static.
Proof. intros p. done. Qed.

(** A side whose provider is the hardware's, over the stand-in of the kernel. *)
Definition toy_hardware : Config (Z * Z) :=
  Build_Config EmptyString
    (Some (@HygonProvider toy_sm3 toy_fs (Z * Z) toy_ops "" (NewHygonHardwareProvider "" "" "")))
    [DefaultMockMeasurementHex] true 0 false [] [] EmptyString EmptyString [] EmptyString 0.
Definition toy_hardware_world (rx : bytes) : World (Z * Z) :=
  (toy_conn rx, ((empty_cache, (replicate 500 x05, (0, 0))), [])).

Lemma toy_hardware_safe : config_safe toy_hardware.
Proof. intros p [= <-]. apply (HygonProvider_safe (H0 := toy_platform)). Qed.


