(* ===== verification/Honest.v ===== *)
(** * Honest handshakes succeed

    Two sides that are configured for each other, over a network that delivers
    what it is given, complete the handshake, and what either seals the other
    opens.  The lemmas run the functions of Handshake.v forward. *)

From S2P Require Import Prelude Gcm Gmsm Toy NetIO Record Framing KeySchedule GoLib.
From S2P Require Import CsvReport CsvVerify CsvMock CsvClient Asn1 Evidence Gx509 Provider Cert.
From S2P Require Import Config Verifier Handshake Session.

(** ** Running forward *)

Lemma bind_fwd {S A B} (m : stM S A) (k : A -> stM S B) s a s1 :
  m s = (Ok a, s1) -> (m ≫= k) s = k a s1.
Proof. intros E. unfold mbind, stM_bind. by rewrite E. Qed.

Lemma map_err_fwd {S A} f (m : stM S A) s a s1 : m s = (Ok a, s1) -> map_err f m s = (Ok a, s1).
Proof. apply stM_map_err_Ok. Qed.

Lemma throw_if_fwd {S A} (c : bool) e (k : stM S A) s : c = false -> (if c then throw e else k) s = k s.
Proof. by intros ->. Qed.

(** Run the first statement of the goal by [tac]. *)
Ltac fwd tac := eapply eq_trans; [eapply bind_fwd; tac|]; cbv beta iota zeta.
Ltac pass tac := eapply eq_trans; [eapply throw_if_fwd; tac|]; cbv beta iota zeta.

(** A connection with given input and output, on which every write succeeds. *)
Definition conn_at (c : RawConn) (rx tx : bytes) : RawConn := set_rx (set_tx c tx []) rx.

(** ** Messages *)

(** [wire] carries the sealed message from the cipher state [rc] to [rc']. *)
Record carries (t : Byte.byte) (body : bytes) (rc : RecordCipher) (wire : bytes) (rc' : RecordCipher) : Prop := {
  ca_ok : cipher_ok rc';
  ca_seq : seqno rc' <= seqno rc + maxHandshakeBufferSize;
  ca_write w : conn_wscript w = [] ->
    writeEncryptedHandshakeMsg t body (w, rc) = (Ok tt, (set_tx w (conn_tx w ++ wire) [], rc'));
  ca_read r rest : conn_rx r = wire ++ rest ->
    ReadMsg (r, newEncryptedHandshakeReader rc) = (Ok (t, body), (set_rx r rest, newEncryptedHandshakeReader rc'))
}.

Lemma carries_exists t body rc :
  cipher_ok rc -> zlen (encodeHandshakeMsg t body) <= maxHandshakeBufferSize ->
  seqno rc + maxHandshakeBufferSize < max_uint64 ->
  exists wire rc', carries t body rc wire rc'.
Proof.
  intros Hok Hl Hs.
  destruct (writeEncrypted_loop_total (S (length (encodeHandshakeMsg t body))) (encodeHandshakeMsg t body) rc)
    as (wire & rc' & Hok' & Hs' & Hw); [done|lia|lia|].
  exists wire, rc'. split; [done|lia|exact Hw|].
  intros r rest Hr. set (w := toy_conn []).
  destruct (write_then_read t body w rc _ rc' Hok Hl (Hw w eq_refl)) as (_ & wire' & Htx & _ & Hread).
  cbn in Htx. subst wire'. by apply Hread.
Qed.

Lemma plaintext_read t body c rest :
  zlen (encodeHandshakeMsg t body) <= MaxPlaintextLength ->
  conn_rx c = plaintext_record (encodeHandshakeMsg t body) ++ rest ->
  readPlaintextHandshakeMsg c = (Ok (t, body, encodeHandshakeMsg t body), set_rx c rest).
Proof.
  intros Hl Hr. pose proof (zlen_encode t body) as He. pose proof (zlen_nonneg body).
  unfold HandshakeHeaderLen, MaxPlaintextLength in *.
  unfold readPlaintextHandshakeMsg. rewrite plaintext_record_fragment in Hr.
  apply (readPlaintext_loop_complete [([x03; x03], encodeHandshakeMsg t body)]).
  - apply assembling_nil.
  - lia.
  - unfold maxHandshakeBufferSize. lia.
  - constructor; [|constructor]. split; [done|]. cbn. unfold MaxPlaintextLength. lia.
  - cbn. by rewrite app_nil_r.
  - cbn. lia.
  - cbn. rewrite app_nil_r. exact Hr.
Qed.

Section messages.
Context `{SM3Laws, SM4Laws, HKDFLaws, X509, SM2Laws} {W : Type}.
Abbreviation Rest := ((CertCache * (bytes * W)) * list error)%type.
Implicit Types (rest : Rest) (conn : RawConn).

Lemma on_conn_fwd {A} (m : stM RawConn A) conn rest a conn' :
  m conn = (Ok a, conn') -> on_conn m (conn, rest) = (Ok a, (conn', rest)).
Proof. intros Hm. unfold on_conn, on_fst. by rewrite Hm. Qed.

Lemma on_cert_fwd {A} (m : stM (CertCache * (bytes * W)) A) conn ce log a ce' :
  m ce = (Ok a, ce') -> on_cert m (conn, (ce, log)) = (Ok a, (conn, (ce', log))).
Proof. intros Hm. unfold on_cert, on_snd, on_fst. by rewrite Hm. Qed.

Lemma on_rand_fwd {A} (m : stM bytes A) conn cache rnd (w : W) log a rnd' :
  m rnd = (Ok a, rnd') ->
  on_rand m (conn, ((cache, (rnd, w)), log)) = (Ok a, (conn, ((cache, (rnd', w)), log))).
Proof. intros Hm. apply on_cert_fwd. unfold on_snd, on_fst. by rewrite Hm. Qed.

Lemma write_hs_fwd t body rc wire rc' conn rx tx rest :
  carries t body rc wire rc' ->
  write_hs rc t body (conn_at conn rx tx, rest) = (Ok rc', (conn_at conn rx (tx ++ wire), rest)).
Proof. intros Hc. unfold write_hs. by rewrite (ca_write _ _ _ _ _ Hc) by done. Qed.

Lemma expect_hs_fwd t body rc wire rc' e1 e2 conn rx tx rest :
  carries t body rc wire rc' ->
  expect_hs (newEncryptedHandshakeReader rc) t e1 e2 (conn_at conn (wire ++ rx) tx, rest)
  = (Ok (body, newEncryptedHandshakeReader rc'), (conn_at conn rx tx, rest)).
Proof.
  intros Hc. unfold expect_hs.
  fwd ltac:(apply map_err_fwd; unfold read_hs; by rewrite (ca_read _ _ _ _ _ Hc _ rx)).
  by rewrite bool_decide_eq_true_2.
Qed.

Lemma write_hello_fwd f t body conn rx tx rest :
  zlen (encodeHandshakeMsg t body) <= MaxPlaintextLength ->
  map_err f (on_conn (writePlaintextHandshakeMsg t body)) (conn_at conn rx tx, rest)
  = (Ok (encodeHandshakeMsg t body),
     (conn_at conn rx (tx ++ plaintext_record (encodeHandshakeMsg t body)), rest)).
Proof.
  intros Hl. apply map_err_fwd, on_fst_Ok. split; [|done]. unfold writePlaintextHandshakeMsg. cbv zeta.
  pass ltac:(by apply Z.ltb_ge). fwd ltac:(by apply map_err_fwd, writeFull_ok). done.
Qed.

Lemma expect_hello_fwd t body e1 e2 e3 conn rx tx rest :
  RandomBytesLen + SM2UncompressedPubKeyLen <= zlen body ->
  zlen (encodeHandshakeMsg t body) <= MaxPlaintextLength ->
  expect_hello t e1 e2 e3 (conn_at conn (plaintext_record (encodeHandshakeMsg t body) ++ rx) tx, rest)
  = (Ok body, (conn_at conn rx tx, rest)).
Proof.
  intros Hb Hl. unfold expect_hello.
  fwd ltac:(by apply map_err_fwd, on_conn_fwd, (plaintext_read t body _ rx)).
  pass ltac:(by rewrite bool_decide_eq_true_2). by pass ltac:(by apply Z.ltb_ge).
Qed.

Lemma verify_peer_fwd su pem c conn cache rnd (w : W) log ev log' :
  VerifyPeerCertificateAndEvidence (su_fs su) w (su_now su) pem (Some c) log = (Ok ev, log') ->
  verify_peer su pem c (conn, ((cache, (rnd, w)), log)) = (Ok ev, (conn, ((cache, (rnd, w)), log'))).
Proof.
  intros Hv. unfold verify_peer. fwd ltac:(reflexivity). unfold on_log, on_snd. cbn [fst snd]. by rewrite Hv.
Qed.

(** The entropy gives this key pair, its encoding and this random. *)
Definition draws (rnd : bytes) (k : PrivateKey) (random pub rnd' : bytes) : Prop :=
  exists rnd1, sm2_GenerateKey rnd = (Ok k, rnd1) /\ encodePublicKeySM2 (priv_Pub k) = Ok pub /\
    rnd1 = random ++ rnd' /\ zlen random = RandomBytesLen.

Lemma random_fwd random rnd e :
  zlen random = RandomBytesLen -> read_full_from RandomBytesLen (random ++ rnd) e = (Ok random, rnd).
Proof.
  intros Hr. pose proof (kdf_read_ok RandomBytesLen random rnd Hr ltac:(done)) as Hk. unfold kdf_read in Hk.
  unfold read_full_from in *. destruct (RandomBytesLen <=? 0); [done|].
  destruct (RandomBytesLen <=? zlen (random ++ rnd)); [done|]. by destruct (_ =? 0).
Qed.

Lemma ephemeral_fwd e1 e2 rnd k random pub rnd' conn cache (w : W) log :
  draws rnd k random pub rnd' ->
  ephemeral e1 e2 (conn, ((cache, (rnd, w)), log)) = (Ok (k, pub, random), (conn, ((cache, (rnd', w)), log))).
Proof.
  intros (rnd1 & Hk & He & -> & Hr). unfold ephemeral.
  fwd ltac:(by apply map_err_fwd, on_rand_fwd, Hk).
  fwd ltac:(by apply lift_Ok).
  fwd ltac:(by apply map_err_fwd, on_rand_fwd, random_fwd). done.
Qed.
End messages.

(** ** One exchange *)

(** The messages of a session [s] on their way: the ciphers from message to
    message and the bytes that carry each.  [m]: the client authenticates. *)
Record exchange `{SM3, SM4, HKDF} (m : bool) (s : Session) (z : bytes)
    (sc0 sc1 sc2 sc3 sc4 cc0 ccf ccg : RecordCipher) (w1 w2 w3 w4 wa w5 : bytes) : Prop := {
  ex_client_hello : RandomBytesLen + SM2UncompressedPubKeyLen <= zlen (se_ClientHello s) /\
    zlen (encodeHandshakeMsg HandshakeTypeClientHello (se_ClientHello s)) <= MaxPlaintextLength;
  ex_server_hello : RandomBytesLen + SM2UncompressedPubKeyLen <= zlen (se_ServerHello s) /\
    zlen (encodeHandshakeMsg HandshakeTypeServerHello (se_ServerHello s)) <= MaxPlaintextLength;
  ex_ext : se_EncryptedExtensions s = if m then [x01] else [x00];
  ex_w1 : carries HandshakeTypeEncryptedExtensions (se_EncryptedExtensions s) sc0 w1 sc1;
  ex_w2 : carries HandshakeTypeCertificate (se_ServerCertificate s) sc1 w2 sc2;
  ex_w3 : carries HandshakeTypeCertificateVerify (se_ServerVerify s) sc2 w3 sc3;
  ex_w4 : carries HandshakeTypeFinished (se_ServerFinished s) sc3 w4 sc4;
  ex_auth : match se_ClientAuth s with
    | Some (pem, sig) => m = true /\ exists cc1 v1 v2, wa = v1 ++ v2 /\
        carries HandshakeTypeCertificate pem cc0 v1 cc1 /\ carries HandshakeTypeCertificateVerify sig cc1 v2 ccf
    | None => m = false /\ wa = [] /\ ccf = cc0
    end;
  ex_w5 : carries HandshakeTypeFinished (se_ClientFinished s) ccf w5 ccg;
  ex_server_finished : se_ServerFinished s
    = computeHMACSM3 (hk_ServerFinishedKey (session_handshake_keys z s)) (transcript_of (server_finished_over s));
  ex_client_finished : se_ClientFinished s
    = computeHMACSM3 (hk_ClientFinishedKey (session_handshake_keys z s)) (transcript_of (client_finished_over s))
}.

Definition hello_wire_c (s : Session) : bytes :=
  plaintext_record (encodeHandshakeMsg HandshakeTypeClientHello (se_ClientHello s)).
Definition hello_wire_s (s : Session) : bytes :=
  plaintext_record (encodeHandshakeMsg HandshakeTypeServerHello (se_ServerHello s)).

(** Certificate [pem] and signature [sig] check out. *)
Definition cert_verifies `{SM2, X509} (pem : bytes) (msgs : list (Byte.byte * bytes)) (sig : bytes) : Prop :=
  exists cert pub, gx_ReadCertificateFromPem pem = Ok cert /\
    extractSM2PublicKey (c_PublicKey cert) = Ok pub /\ sm2_Verify pub (transcript_of msgs) sig = true.

(** The connection afterwards: what is unread, what was sent, and no obstacles
    that were not there before. *)
Record ran (conn conn' : RawConn) (rx tx : bytes) : Prop := {
  ran_rx : conn_rx conn' = rx;
  ran_tx : conn_tx conn' = tx;
  ran_wscript : conn_wscript conn' = [];
  ran_deadline : conn_deadline_err conn' = conn_deadline_err conn
}.

(** A side over a connection that delivers [wire]: it succeeds, sends [sent] and
    leaves what comes after [wire] unread. *)
Definition client_completes `{SM3, SM4, HKDF, SM2, X509} {W} ctx su (c : Config W) cache rnd w
    (wire sent : bytes) (inC outC : RecordCipher) : Prop :=
  forall conn rest tx log, exists r st,
    ClientHandshakeContext ctx su (Some c) (conn_at conn (wire ++ rest) tx, ((cache, (rnd, w)), log)) = (Ok r, st) /\
    hr_InCipher r = inC /\ hr_OutCipher r = outC /\ ran conn st.1 rest (tx ++ sent).
Definition server_completes `{SM3, SM4, HKDF, SM2, X509} {W} ctx su (c : Config W) cache rnd w
    (wire sent : bytes) (inC outC : RecordCipher) : Prop :=
  forall conn rest tx log, conn_deadline_err conn = None -> exists r st,
    ServerHandshakeContext ctx su (Some c) (conn_at conn (wire ++ rest) tx, ((cache, (rnd, w)), log)) = (Ok r, st) /\
    hr_InCipher r = inC /\ hr_OutCipher r = outC /\ ran conn st.1 rest (tx ++ sent).

Section run.
Context `{SM3Laws, SM4Laws, HKDFLaws, X509, SM2Laws} {W : Type}.
Context (m : bool) (s : Session) (z : bytes) (sc0 sc1 sc2 sc3 sc4 cc0 ccf ccg : RecordCipher)
  (w1 w2 w3 w4 wa w5 : bytes) (Hex : exchange m s z sc0 sc1 sc2 sc3 sc4 cc0 ccf ccg w1 w2 w3 w4 wa w5).
Context (serverOut clientOut : RecordCipher) (Happ : established z s clientOut serverOut).
Context (ctx : Context_) (su : Surroundings) (c : Config W) (w : W) (Hvalid : Validate c = Ok tt).
Context (rnd rnd' : bytes) (k : PrivateKey) (random pub : bytes) (Hdraw : draws rnd k random pub rnd').

Lemma app_keys_fwd :
  let t := transcript_Write (transcript_of (client_finished_over s)) HandshakeTypeFinished (se_ClientFinished s) in
  exists keys, deriveApplicationTrafficKeys z (transcript_Hash t) = Ok keys /\
    app_server_cipher keys = Ok serverOut /\ app_client_cipher keys = Ok clientOut.
Proof.
  intros t. unfold t. rewrite <-(transcript_of_snoc _ (HandshakeTypeFinished, se_ClientFinished s)).
  exists (session_app_keys z s). rewrite deriveApplicationTrafficKeys_ok. split; [done|].
  destruct Happ as [_ _ Ec Es]. unfold app_server_cipher, app_client_cipher. by rewrite Es, Ec.
Qed.

(** *** The client *)

Context (Hhello : se_ClientHello s = client_hello_body (cfg_VerifyMutualAttestation c) random pub).
Context (peerPub : PublicKey) (Hpeer : decodePublicKeySM2 (hello_key (se_ServerHello s)) = Ok peerPub).
Context (Hsec : handshake_secrets peerPub k random (hello_random (se_ServerHello s))
  = Ok (z, session_handshake_keys z s, sc0, cc0)).
Context (Hwant : cfg_VerifyMutualAttestation c = true -> m = true).
Context (Hcred : m = true -> has_no_credentials c = false).
Context (Hserver : cert_verifies (se_ServerCertificate s) (server_signed s) (se_ServerVerify s)).
Context (Haccept : forall log, exists ev log',
  VerifyPeerCertificateAndEvidence (su_fs su) w (su_now su) (se_ServerCertificate s) (Some c) log = (Ok ev, log')).

(** What the client's own certificate needs, when it is asked for. *)
Context (cache cache' : CertCache) (rnd2 : bytes) (w' : W).
Context (Hown : match se_ClientAuth s with
  | None => cache' = cache /\ rnd2 = rnd' /\ w' = w
  | Some (pem, sig) => exists key rnd1, prepareCertificate ctx (su_clock su) c (cache, (rnd', w))
        = (Ok (pem, key), (cache', (rnd1, w'))) /\
      sm2_Sign key (transcript_of (client_signed s pem)) rnd1 = (Ok sig, rnd2)
  end).

Lemma client_auth_fwd conn rx tx log :
  (if m then client_flight ctx su c cc0
     (transcript_of (server_finished_over s ++ [(HandshakeTypeFinished, se_ServerFinished s)]))
   else mret (cc0, transcript_of (server_finished_over s ++ [(HandshakeTypeFinished, se_ServerFinished s)])))
    (conn_at conn rx tx, ((cache, (rnd', w)), log))
  = (Ok (ccf, transcript_of (client_finished_over s)),
     (conn_at conn rx (tx ++ wa), ((cache', (rnd2, w')), log))).
Proof.
  pose proof (ex_auth _ _ _ _ _ _ _ _ _ _ _ _ _ _ _ _ _ Hex) as Ha. unfold client_finished_over.
  destruct (se_ClientAuth s) as [[pem sig]|].
  - destruct Ha as (-> & cc1 & v1 & v2 & -> & C1 & C2). destruct Hown as (key & rnd1 & Hp & Hs).
    unfold client_flight.
    fwd ltac:(by apply map_err_fwd, on_cert_fwd, Hp).
    fwd ltac:(by apply map_err_fwd, write_hs_fwd, C1).
    fwd ltac:(by apply map_err_fwd, on_rand_fwd, Hs).
    fwd ltac:(by apply map_err_fwd, write_hs_fwd, C2). by rewrite <-app_assoc.
  - destruct Ha as (-> & -> & ->). destruct Hown as (-> & -> & ->). by rewrite app_nil_r.
Qed.
Lemma client_fwd conn rx tx log : exists ev cert log',
  ClientHandshakeContext ctx su (Some c)
    (conn_at conn (hello_wire_s s ++ w1 ++ w2 ++ w3 ++ w4 ++ rx) tx, ((cache, (rnd, w)), log))
  = (Ok {| hr_InCipher := serverOut; hr_OutCipher := clientOut; hr_PeerCertPEM := se_ServerCertificate s;
           hr_PeerEvidence := ev; hr_PeerCertificate := Some cert |},
     (conn_at conn rx (((tx ++ hello_wire_c s) ++ wa) ++ w5), ((cache', (rnd2, w')), log'))).
Proof.
  destruct Hserver as (cert & spub & Hrd & Hpk & Hver). destruct (Haccept log) as (ev & log' & Hv).
  destruct app_keys_fwd as (keys & Hk & Hks & Hkc).
  destruct Hex as [[_ Lc] [Ls1 Ls2] Hee C1 C2 C3 C4 _ C5 Hsf Hcf].
  exists ev, cert, log'. unfold ClientHandshakeContext. cbv zeta.
  fwd ltac:(by apply map_err_fwd, lift_Ok).
  fwd ltac:(by eapply ephemeral_fwd).
  rewrite <-Hhello. fwd ltac:(by apply write_hello_fwd).
  fwd ltac:(by apply expect_hello_fwd).
  fwd ltac:(by apply map_err_fwd, lift_Ok).
  fwd ltac:(by apply lift_Ok).
  fwd ltac:(by apply expect_hs_fwd).
  fold (mutual_ext (se_EncryptedExtensions s)).
  assert (mutual_ext (se_EncryptedExtensions s) = m) as -> by (rewrite Hee; apply mutual_ext_server).
  pass ltac:(clear -Hwant; destruct m, (cfg_VerifyMutualAttestation c); naive_solver).
  pass ltac:(clear -Hcred; destruct m, (cfg_VerifyMutualAttestation c), (has_no_credentials c); naive_solver).
  fwd ltac:(by apply expect_hs_fwd).
  fwd ltac:(by apply map_err_fwd, verify_peer_fwd).
  fwd ltac:(by apply map_err_fwd, lift_Ok).
  fwd ltac:(by apply map_err_fwd, lift_Ok).
  fwd ltac:(by apply expect_hs_fwd).
  pass ltac:(by apply negb_false_iff).
  fwd ltac:(by apply expect_hs_fwd).
  pass ltac:(by apply negb_false_iff, bool_decide_eq_true_2).
  pass ltac:(done).
  fwd ltac:(by apply client_auth_fwd).
  unfold transcript_Bytes. rewrite <-Hcf.
  fwd ltac:(by apply map_err_fwd, write_hs_fwd).
  fwd ltac:(by apply map_err_fwd, lift_Ok).
  fwd ltac:(by apply lift_Ok).
  fwd ltac:(by apply lift_Ok).
  done.
Qed.
Lemma client_completes_fwd :
  client_completes ctx su c cache rnd w (hello_wire_s s ++ w1 ++ w2 ++ w3 ++ w4) (hello_wire_c s ++ wa ++ w5)
    serverOut clientOut.
Proof.
  intros conn rest tx log. destruct (client_fwd conn rest tx log) as (ev & cert & log' & Hr).
  eexists _, _. rewrite <-!app_assoc. split; [exact Hr|]. do 2 (split; [done|]). by split; cbn; rewrite <-?app_assoc.
Qed.
End run.

Section serve.
Context `{SM3Laws, SM4Laws, HKDFLaws, X509, SM2Laws} {W : Type}.
Context (m : bool) (s : Session) (z : bytes) (sc0 sc1 sc2 sc3 sc4 cc0 ccf ccg : RecordCipher)
  (w1 w2 w3 w4 wa w5 : bytes) (Hex : exchange m s z sc0 sc1 sc2 sc3 sc4 cc0 ccf ccg w1 w2 w3 w4 wa w5).
Context (serverOut clientOut : RecordCipher) (Happ : established z s clientOut serverOut).
Context (ctx : Context_) (su : Surroundings) (c : Config W) (Hvalid : Validate c = Ok tt).
Context (cache cache' : CertCache) (rnd0 rnd rnd' rnd2 : bytes) (w0 w : W) (key : PrivateKey)
  (Hprep : prepareCertificate ctx (su_clock su) c (cache, (rnd0, w0))
             = (Ok (se_ServerCertificate s, key), (cache', (rnd, w)))).
Context (k : PrivateKey) (random pub : bytes) (Hdraw : draws rnd k random pub rnd')
  (Hhello : se_ServerHello s = server_hello_body random pub).
Context (peerPub : PublicKey) (Hpeer : decodePublicKeySM2 (hello_key (se_ClientHello s)) = Ok peerPub).
Context (Hsec : handshake_secrets peerPub k (hello_random (se_ClientHello s)) random
  = Ok (z, session_handshake_keys z s, sc0, cc0)).
Context (Hm : m = cfg_VerifyMutualAttestation c || requested_mutual (se_ClientHello s)).
Context (Hsign : sm2_Sign key (transcript_of (server_signed s)) rnd' = (Ok (se_ServerVerify s), rnd2)).
Context (Hclient : match se_ClientAuth s with
  | None => True
  | Some (pem, sig) => cert_verifies pem (client_signed s pem) sig /\
      forall log, exists ev log', VerifyPeerCertificateAndEvidence (su_fs su) w (su_now su) pem (Some c) log
        = (Ok ev, log')
  end).

Lemma server_auth_fwd conn rx tx log : exists pem ev cert log',
  (let t := transcript_of (server_finished_over s ++ [(HandshakeTypeFinished, se_ServerFinished s)]) in
   if m then
     '(pem, ev, cert, hr, transcript) ← server_read_flight su c (newEncryptedHandshakeReader cc0) t;
     mret (pem, ev, Some cert, hr, transcript)
   else mret ([], None, None, newEncryptedHandshakeReader cc0, t))
    (conn_at conn (wa ++ rx) tx, ((cache', (rnd2, w)), log))
  = (Ok (pem, ev, cert, newEncryptedHandshakeReader ccf, transcript_of (client_finished_over s)),
     (conn_at conn rx tx, ((cache', (rnd2, w)), log'))).
Proof.
  pose proof (ex_auth _ _ _ _ _ _ _ _ _ _ _ _ _ _ _ _ _ Hex) as Ha. unfold client_finished_over.
  destruct (se_ClientAuth s) as [[pem sig]|].
  - destruct Ha as (-> & cc1 & v1 & v2 & -> & C1 & C2).
    destruct Hclient as ((cert & cpub & Hrd & Hpk & Hver) & Hacc). destruct (Hacc log) as (ev & log' & Hv).
    exists pem, ev, (Some cert), log'. rewrite <-app_assoc. unfold server_read_flight. cbv zeta.
    fwd ltac:(idtac).
    { fwd ltac:(by apply expect_hs_fwd).
      fwd ltac:(by apply map_err_fwd, verify_peer_fwd).
      fwd ltac:(by apply map_err_fwd, lift_Ok).
      fwd ltac:(by apply map_err_fwd, lift_Ok).
      fwd ltac:(by apply expect_hs_fwd).
      pass ltac:(by apply negb_false_iff). reflexivity. }
    done.
  - destruct Ha as (-> & -> & ->). by exists [], None, None, log.
Qed.

Lemma server_body_fwd conn rx tx log : exists r st,
  server_handshake_body ctx su c
    (conn_at conn (hello_wire_c s ++ wa ++ w5 ++ rx) tx, ((cache, (rnd0, w0)), log)) = (Ok r, st) /\
  hr_InCipher r = clientOut /\ hr_OutCipher r = serverOut /\
  st.1 = conn_at conn rx (tx ++ hello_wire_s s ++ w1 ++ w2 ++ w3 ++ w4).
Proof.
  destruct (server_auth_fwd conn (w5 ++ rx) (((((tx ++ hello_wire_s s) ++ w1) ++ w2) ++ w3) ++ w4) log)
    as (pem & ev & cert & log' & Hauth). cbv zeta in Hauth.
  destruct (app_keys_fwd _ _ _ _ Happ) as (keys & Hk & Hks & Hkc).
  destruct Hex as [[Lc1 Lc2] [_ Ls] Hee C1 C2 C3 C4 _ C5 Hsf Hcf].
  eexists {| hr_InCipher := clientOut; hr_OutCipher := serverOut; hr_PeerCertPEM := pem;
             hr_PeerEvidence := ev; hr_PeerCertificate := cert |},
    (conn_at conn rx (((((tx ++ hello_wire_s s) ++ w1) ++ w2) ++ w3) ++ w4), ((cache', (rnd2, w)), log')).
  split; [|split; [done|split; [done|cbn; by rewrite <-!app_assoc]]].
  unfold server_handshake_body. cbv zeta.
  fwd ltac:(by apply map_err_fwd, on_cert_fwd, Hprep).
  fwd ltac:(by apply expect_hello_fwd).
  fwd ltac:(by apply map_err_fwd, lift_Ok).
  fwd ltac:(by eapply ephemeral_fwd).
  rewrite <-Hhello. fwd ltac:(by apply write_hello_fwd).
  fwd ltac:(by apply lift_Ok).
  fold (requested_mutual (se_ClientHello s)). rewrite <-Hm, <-Hee.
  fwd ltac:(by apply map_err_fwd, write_hs_fwd).
  fwd ltac:(by apply map_err_fwd, write_hs_fwd).
  fwd ltac:(by apply map_err_fwd, on_rand_fwd, Hsign).
  fwd ltac:(by apply map_err_fwd, write_hs_fwd).
  match goal with |- context [computeHMACSM3 (hk_ServerFinishedKey _) ?t] =>
    change t with (transcript_of (server_finished_over s)) end.
  rewrite <-Hsf. fwd ltac:(by apply map_err_fwd, write_hs_fwd).
  fwd ltac:(exact Hauth).
  fwd ltac:(by apply expect_hs_fwd).
  pass ltac:(by apply negb_false_iff, bool_decide_eq_true_2).
  pass ltac:(done).
  fwd ltac:(by apply map_err_fwd, lift_Ok).
  fwd ltac:(by apply lift_Ok).
  fwd ltac:(by apply lift_Ok).
  reflexivity.
Qed.

Lemma server_completes_fwd :
  server_completes ctx su c cache rnd0 w0 (hello_wire_c s ++ wa ++ w5) (hello_wire_s s ++ w1 ++ w2 ++ w3 ++ w4)
    clientOut serverOut.
Proof.
  intros conn rx tx log Hd. rewrite <-!app_assoc.
  destruct (server_body_fwd {| conn_rx := conn_rx conn; conn_rx_err := conn_rx_err conn;
    conn_tx := conn_tx conn; conn_wscript := conn_wscript conn; conn_deadline_err := None;
    conn_deadline_set := true; conn_close_err := conn_close_err conn; conn_closed := conn_closed conn |}
    rx tx log) as (r & st & Hr & Hi & Ho & Hst).
  exists r. eexists. unfold ServerHandshakeContext. cbv zeta.
  split; [|split; [exact Hi|split; [exact Ho|]]].
  - fwd ltac:(by apply map_err_fwd, lift_Ok).
    fwd ltac:(apply map_err_fwd, on_conn_fwd; unfold conn_set_deadline; cbn; by rewrite Hd).
    unfold with_defer.
    match goal with |- (let '(_, _) := server_handshake_body _ _ _ ?st0 in _) = _ =>
      match type of Hr with server_handshake_body _ _ _ ?st1 = _ => change st0 with st1 end end.
    rewrite Hr. reflexivity.
  - destruct st as [conn' rest']. cbn in Hst. subst conn'. split; cbn; by rewrite ?Hd.
Qed.
End serve.

(** ** Two sides that fit *)

(** A certificate the side gets, with a key that is its own and signs. *)
Record own_cert `{SM3, X509, SM2Laws} {W} (ctx : Context_) (su : Surroundings) (c : Config W)
    (ce : CertCache * (bytes * W)) (pem : bytes) (key : PrivateKey) (ce' : CertCache * (bytes * W)) : Prop := {
  oc_prepare : prepareCertificate ctx (su_clock su) c ce = (Ok (pem, key), ce');
  oc_key : sm2_key key;
  oc_cert : exists cert, gx_ReadCertificateFromPem pem = Ok cert /\
    extractSM2PublicKey (c_PublicKey cert) = Ok (priv_Pub key);
  oc_size : zlen pem <= 2 ^ 20;
  oc_sign msg rnd : exists sig rnd', sm2_Sign key msg rnd = (Ok sig, rnd') /\ zlen sig <= 2 ^ 20
}.

(** The side, with its provider in state [w], accepts that certificate. *)
Definition accepts `{SM3, SM2, X509} {W} (su : Surroundings) (w : W) (c : Config W) (pem : bytes) : Prop :=
  forall log, exists ev log',
    VerifyPeerCertificateAndEvidence (su_fs su) w (su_now su) pem (Some c) log = (Ok ev, log').

Section honest.
Context `{SM3Laws, SM4Laws, HKDFLaws, X509, SM2Laws} {W W' : Type}.

Lemma handshake_secrets_fwd pub k cr sr z :
  computeECDHESharedSecret pub k = Ok z ->
  exists sc cc, handshake_secrets pub k cr sr
      = Ok (z, hs_keys_of (hkdf_New z (cr ++ sr) handshake_info), sc, cc) /\
    cipher_ok sc /\ cipher_ok cc /\ seqno sc = 0 /\ seqno cc = 0 /\
    forall pub' k', computeECDHESharedSecret pub' k' = Ok z ->
      handshake_secrets pub' k' cr sr = Ok (z, hs_keys_of (hkdf_New z (cr ++ sr) handshake_info), sc, cc).
Proof.
  intros Hz. destruct (hs_keys_len z (cr ++ sr)) as (L1 & L2 & L3 & L4 & _).
  destruct (NewRecordCipher_fresh _ _ L3 L4) as (sc & Es & Ok1 & Q1).
  destruct (NewRecordCipher_fresh _ _ L1 L2) as (cc & Ec & Ok2 & Q2).
  assert (forall pub' k', computeECDHESharedSecret pub' k' = Ok z ->
    handshake_secrets pub' k' cr sr
    = Ok (z, hs_keys_of (hkdf_New z (cr ++ sr) handshake_info), sc, cc)) as Hall.
  { intros pub' k' Hz'. unfold handshake_secrets. rewrite Hz'. cbn [map_err result_map_err mbind result_bind].
    rewrite deriveHandshakeTrafficKeys_ok. cbn [map_err result_map_err mbind result_bind].
    by rewrite Es, Ec. }
  exists sc, cc. split_and!; auto.
Qed.

Lemma encode_small t body : zlen body <= 2 ^ 20 -> zlen (encodeHandshakeMsg t body) <= maxHandshakeBufferSize.
Proof. intros Hb. rewrite zlen_encode. unfold HandshakeHeaderLen, maxHandshakeBufferSize. lia. Qed.

(** The next message of at most a megabyte, with a cipher that is still young. *)
Lemma carry t body rc :
  cipher_ok rc -> zlen body <= 2 ^ 20 -> seqno rc <= 2 ^ 30 ->
  exists wire rc', carries t body rc wire rc' /\ cipher_ok rc' /\ seqno rc' <= seqno rc + 2 ^ 22.
Proof.
  intros Hok Hb Hs. destruct (carries_exists t body rc) as (wire & rc' & Hc); [done|by apply encode_small| |].
  { unfold maxHandshakeBufferSize, max_uint64. lia. }
  exists wire, rc'. split; [done|]. split; [apply Hc|]. pose proof (ca_seq _ _ _ _ _ Hc) as Hq.
  unfold maxHandshakeBufferSize in Hq. lia.
Qed.

Lemma finished_small key data : zlen (computeHMACSM3 key data) <= 2 ^ 20.
Proof. unfold computeHMACSM3. rewrite zlen_hmac. lia. Qed.

Lemma app_ciphers_fresh z s : exists clientOut serverOut,
  NewRecordCipher (ak_ClientWriteKey (session_app_keys z s)) (ak_ClientWriteIV (session_app_keys z s)) = Ok clientOut /\
  NewRecordCipher (ak_ServerWriteKey (session_app_keys z s)) (ak_ServerWriteIV (session_app_keys z s)) = Ok serverOut /\
  cipher_ok clientOut /\ cipher_ok serverOut /\ seqno clientOut = 0 /\ seqno serverOut = 0.
Proof.
  destruct (app_keys_len z (sm3_Sm3Sum (transcript_of (session_msgs s)))) as (L1 & L2 & L3 & L4).
  destruct (NewRecordCipher_fresh _ _ L1 L2) as (cc & Ec & Ok1 & Q1).
  destruct (NewRecordCipher_fresh _ _ L3 L4) as (sc & Es & Ok2 & Q2). exists cc, sc. by split_and!.
Qed.

Lemma own_cert_verifies ctx su (c : Config W) ce pem key ce' msgs rnd sig rnd' :
  own_cert ctx su c ce pem key ce' -> sm2_Sign key (transcript_of msgs) rnd = (Ok sig, rnd') ->
  cert_verifies pem msgs sig.
Proof.
  intros [_ Hk (cert & Hr & Hp) _ _] Hs. exists cert, (priv_Pub key). split; [done|]. split; [done|].
  by eapply sm2_sign_verify.
Qed.

(** The session of two honest sides, from its hellos, certificates and signatures. *)
Definition honest_session (m : bool) (z ch sh pem sig : bytes) (auth : option (bytes * bytes)) : Session :=
  let ext : bytes := if m then [x01] else [x00] in
  let s0 := Build_Session ch sh ext pem sig [] auth [] in
  let keys := session_handshake_keys z s0 in
  let sf := computeHMACSM3 (hk_ServerFinishedKey keys) (transcript_of (server_finished_over s0)) in
  let s1 := Build_Session ch sh ext pem sig sf auth [] in
  Build_Session ch sh ext pem sig sf auth
    (computeHMACSM3 (hk_ClientFinishedKey keys) (transcript_of (client_finished_over s1))).

Definition auth_fits (m : bool) (auth : option (bytes * bytes)) : Prop :=
  match auth with
  | Some (pem, sig) => m = true /\ zlen pem <= 2 ^ 20 /\ zlen sig <= 2 ^ 20
  | None => m = false
  end.

Lemma auth_carried (m : bool) (auth : option (bytes * bytes)) cc0 :
  auth_fits m auth -> cipher_ok cc0 -> seqno cc0 = 0 ->
  exists wa ccf, cipher_ok ccf /\ seqno ccf <= 2 ^ 30 /\
    match auth with
    | Some (pem, sig) => m = true /\ exists cc1 v1 v2, wa = v1 ++ v2 /\
        carries HandshakeTypeCertificate pem cc0 v1 cc1 /\ carries HandshakeTypeCertificateVerify sig cc1 v2 ccf
    | None => m = false /\ wa = [] /\ ccf = cc0
    end.
Proof.
  destruct auth as [[pem sig]|]; cbn [auth_fits].
  - intros (-> & Hp & Hs) Hok Hz.
    destruct (carry HandshakeTypeCertificate pem cc0) as (v1 & cc1 & C1 & Ok1 & Q1); [done|done|lia|].
    destruct (carry HandshakeTypeCertificateVerify sig cc1) as (v2 & ccf & C2 & Ok2 & Q2); [done|done|lia|].
    exists (v1 ++ v2), ccf. split; [done|]. split; [lia|]. split; [done|]. by exists cc1, v1, v2.
  - intros -> Hok Hz. exists [], cc0. split_and!; try done. lia.
Qed.

Lemma exchange_exists m z ch sh pem sig auth sc0 cc0 :
  let s := honest_session m z ch sh pem sig auth in
  RandomBytesLen + SM2UncompressedPubKeyLen <= zlen ch <= 200 ->
  RandomBytesLen + SM2UncompressedPubKeyLen <= zlen sh <= 200 ->
  zlen pem <= 2 ^ 20 -> zlen sig <= 2 ^ 20 -> auth_fits m auth ->
  cipher_ok sc0 -> cipher_ok cc0 -> seqno sc0 = 0 -> seqno cc0 = 0 ->
  exists sc1 sc2 sc3 sc4 ccf ccg w1 w2 w3 w4 wa w5,
    exchange m s z sc0 sc1 sc2 sc3 sc4 cc0 ccf ccg w1 w2 w3 w4 wa w5.
Proof.
  intros s [Hc1 Hc2] [Hs1 Hs2] Hp Hg Ha Ok0 Okc Q0 Qc.
  destruct (carry HandshakeTypeEncryptedExtensions (if m then [x01] else [x00]) sc0)
    as (w1 & sc1 & C1 & Ok1 & Q1); [done|by destruct m|lia|].
  destruct (carry HandshakeTypeCertificate pem sc1) as (w2 & sc2 & C2 & Ok2 & Q2); [done|done|lia|].
  destruct (carry HandshakeTypeCertificateVerify sig sc2) as (w3 & sc3 & C3 & Ok3 & Q3); [done|done|lia|].
  destruct (carry HandshakeTypeFinished (se_ServerFinished s) sc3) as (w4 & sc4 & C4 & _ & _);
    [done|apply finished_small|lia|].
  destruct (auth_carried m auth cc0) as (wa & ccf & Okf & Qf & Ca); [done..|].
  destruct (carry HandshakeTypeFinished (se_ClientFinished s) ccf) as (w5 & ccg & C5 & _ & _);
    [done|apply finished_small|lia|].
  exists sc1, sc2, sc3, sc4, ccf, ccg, w1, w2, w3, w4, wa, w5.
  split; try done; rewrite zlen_encode; unfold HandshakeHeaderLen, MaxPlaintextLength; split; cbn; lia.
Qed.
End honest.

Section theorem.
Context `{SM3Laws, SM4Laws, HKDFLaws, X509, SM2Laws} {W W' : Type}.

(** The client's own certificate, when it is asked for one. *)
Definition client_auth_ready (m : bool) ctx su (c : Config W) ce (accepted : bytes -> Prop) : Prop :=
  m = true -> has_no_credentials c = false /\
    exists pem key ce', own_cert ctx su c ce pem key ce' /\ accepted pem.

Lemma auth_choice m ctx su (c : Config W) cache rnd w s (accepted : bytes -> Prop) :
  client_auth_ready m ctx su c (cache, (rnd, w)) accepted ->
  exists auth cache' rnd2 w', auth_fits m auth /\ (m = true -> has_no_credentials c = false) /\
    match auth with
    | None => cache' = cache /\ rnd2 = rnd /\ w' = w
    | Some (pem, sig) => (exists key rnd1, prepareCertificate ctx (su_clock su) c (cache, (rnd, w))
          = (Ok (pem, key), (cache', (rnd1, w'))) /\
        sm2_Sign key (transcript_of (client_signed s pem)) rnd1 = (Ok sig, rnd2))
    end /\
    match auth with
    | None => True
    | Some (pem, sig) => cert_verifies pem (client_signed s pem) sig /\ accepted pem
    end.
Proof.
  destruct m; [|intros _; exists None, cache, rnd, w; by split_and!].
  intros Ha. destruct (Ha eq_refl) as (Hcr & pem & key & [cache' [rnd1 w']] & Hown & Hacc).
  destruct (oc_sign _ _ _ _ _ _ _ Hown (transcript_of (client_signed s pem)) rnd1) as (sig & rnd2 & Hs & Hl).
  exists (Some (pem, sig)), cache', rnd2, w'. split; [|split; [done|split]].
  - split; [done|]. split; [apply Hown|done].
  - exists key, rnd1. split; [apply Hown|done].
  - split; [by eapply own_cert_verifies|done].
Qed.

Lemma draws_hello rnd k random pub rnd' : draws rnd k random pub rnd' -> hello_fields k random pub.
Proof. intros (rnd1 & Hk & He & _ & Hr). split; [by eapply sm2_generate_key|done]. Qed.

Lemma Validate_config_ok {V} (c : Config V) : config_ok c -> Validate c = Ok tt.
Proof.
  intros Hc. pose proof (Validate_rdecides c) as Hd. by apply (rdecides_Ok _ _ _ _ Hd).
Qed.

(** The two hellos give both sides the same secrets. *)
Lemma hellos_agree (want : bool) rnd k random pub rnd' rnd1 k' random' pub' rnd1' :
  draws rnd k random pub rnd' -> draws rnd1 k' random' pub' rnd1' ->
  let ch := client_hello_body want random pub in
  let sh := server_hello_body random' pub' in
  RandomBytesLen + SM2UncompressedPubKeyLen <= zlen ch <= 200 /\
  RandomBytesLen + SM2UncompressedPubKeyLen <= zlen sh <= 200 /\
  requested_mutual ch = want /\ decodePublicKeySM2 (hello_key ch) = Ok (priv_Pub k) /\
  decodePublicKeySM2 (hello_key sh) = Ok (priv_Pub k') /\
  exists z sc cc, cipher_ok sc /\ cipher_ok cc /\ seqno sc = 0 /\ seqno cc = 0 /\
    forall s, se_ClientHello s = ch -> se_ServerHello s = sh ->
      handshake_secrets (priv_Pub k') k random (hello_random sh) = Ok (z, session_handshake_keys z s, sc, cc) /\
      handshake_secrets (priv_Pub k) k' (hello_random ch) random' = Ok (z, session_handshake_keys z s, sc, cc).
Proof.
  intros Hd Hd' ch sh.
  pose proof (draws_hello _ _ _ _ _ Hd) as Hf. pose proof (draws_hello _ _ _ _ _ Hd') as Hf'.
  destruct (hello_fields_pub _ _ _ Hf) as [Lp Dp]. destruct (hello_fields_pub _ _ _ Hf') as [Lp' Dp'].
  destruct Hf as (Hk & _ & Hr), Hf' as (Hk' & _ & Hr').
  assert (ch = random ++ pub ++ [if want then x01 else x00]) as Ech by by apply client_hello_body_eq.
  assert (sh = random' ++ pub' ++ []) as Esh by by apply server_hello_body_eq.
  destruct (hello_prefix random pub [if want then x01 else x00] Hr Lp) as [Rc Kc]. rewrite <-Ech in Rc, Kc.
  destruct (hello_prefix random' pub' [] Hr' Lp') as [Rs Ks]. rewrite <-Esh in Rs, Ks.
  destruct (ecdh_agree k k' Hk Hk') as (z & _ & Ez' & Ez).
  destruct (handshake_secrets_fwd _ _ random random' z Ez) as (sc & cc & Es & O1 & O2 & Q1 & Q2 & Eall).
  unfold RandomBytesLen, SM2UncompressedPubKeyLen in *.
  split; [rewrite Ech; zlia|]. split; [rewrite Esh; zlia|].
  split; [by apply requested_mutual_hello|]. split; [by rewrite Kc|]. split; [by rewrite Ks|].
  exists z, sc, cc. split_and!; try done. intros s Ec Es'. unfold session_handshake_keys.
  rewrite Ec, Es', Rc, Rs. split; [done|by apply Eall].
Qed.

Lemma honest_run (c : Config W) (c' : Config W') ctx su cache rnd w k random pub rnd'
    ctx' su' cache0 rnd0 w0 pem key cache1 rnd1 w1 k' random' pub' rnd1' :
  let m := cfg_VerifyMutualAttestation c' || cfg_VerifyMutualAttestation c in
  config_ok c -> config_ok c' ->
  draws rnd k random pub rnd' ->
  own_cert ctx' su' c' (cache0, (rnd0, w0)) pem key (cache1, (rnd1, w1)) ->
  draws rnd1 k' random' pub' rnd1' ->
  accepts su w c pem ->
  client_auth_ready m ctx su c (cache, (rnd', w)) (accepts su' w1 c') ->
  exists toServer toClient clientOut serverOut,
    client_completes ctx su c cache rnd w toClient toServer serverOut clientOut /\
    server_completes ctx' su' c' cache0 rnd0 w0 toServer toClient clientOut serverOut /\
    cipher_ok clientOut /\ cipher_ok serverOut /\ seqno clientOut = 0 /\ seqno serverOut = 0.
Proof.
  intros m Hc Hc' Hd Hown Hd' Hacc Hauth.
  destruct (hellos_agree (cfg_VerifyMutualAttestation c) _ _ _ _ _ _ _ _ _ _ Hd Hd')
    as (Lc & Ls & Em & Dc & Ds & z & sc0 & cc0 & O1 & O2 & Q1 & Q2 & Hsec).
  set (ch := client_hello_body (cfg_VerifyMutualAttestation c) random pub) in *.
  set (sh := server_hello_body random' pub') in *.
  destruct (oc_sign _ _ _ _ _ _ _ Hown
    (transcript_of (server_signed (honest_session m z ch sh pem [] None))) rnd1') as (sig & rnd2' & Hsig & Lsig).
  destruct (auth_choice m ctx su c cache rnd' w (honest_session m z ch sh pem sig None) _ Hauth)
    as (auth & cache' & rnd2 & w' & Hfit & Hcred & Hcown & Hcver).
  set (s := honest_session m z ch sh pem sig auth).
  destruct (exchange_exists m z ch sh pem sig auth sc0 cc0)
    as (sc1 & sc2 & sc3 & sc4 & ccf & ccg & w1' & w2' & w3' & w4' & wa & w5 & Hex);
    [done|done|apply Hown|done..|]. fold s in Hex.
  destruct (app_ciphers_fresh z s) as (clientOut & serverOut & Eco & Eso & Oc & Os & Qc & Qs).
  assert (established z s clientOut serverOut) as Hest by (split; [apply Hex|apply Hex|done|done]).
  destruct (Hsec s eq_refl eq_refl) as [Hsec1 Hsec2].
  exists (hello_wire_c s ++ wa ++ w5), (hello_wire_s s ++ w1' ++ w2' ++ w3' ++ w4'), clientOut, serverOut.
  split; [|split; [|by split_and!]].
  - apply (client_completes_fwd m s z sc0 sc1 sc2 sc3 sc4 cc0 ccf ccg) with (rnd' := rnd') (k := k)
      (random := random) (pub := pub) (peerPub := priv_Pub k') (cache' := cache') (rnd2 := rnd2) (w' := w'); try done.
    + by apply Validate_config_ok.
    + intros Hw. unfold m. rewrite Hw. apply orb_true_r.
    + by eapply (own_cert_verifies ctx' su' c').
  - apply (server_completes_fwd m s z sc0 sc1 sc2 sc3 sc4 cc0 ccf ccg) with (cache' := cache1) (rnd := rnd1)
      (rnd' := rnd1') (rnd2 := rnd2') (w := w1) (key := key) (k := k') (random := random') (pub := pub')
      (peerPub := priv_Pub k); try done.
    + by apply Validate_config_ok.
    + apply Hown.
    + unfold m. by rewrite <-Em at 1.
Qed.

(** C12. Honest sides succeed: a client and a server with sound configurations,
    enough entropy, certificates they own and accept from each other (the
    client's only when either side wants mutual attestation) have byte streams
    that carry the handshake.  Each side, given the other's stream and whatever
    follows it, completes, sends exactly its own stream and leaves what follows
    unread, and each side's sending cipher is the other's receiving cipher, at
    sequence number 0. *)
Theorem honest_handshake (c : Config W) (c' : Config W') ctx su cache rnd w k random pub rnd'
    ctx' su' cache0 rnd0 w0 pem key cache1 rnd1 w1 k' random' pub' rnd1' :
  let m := cfg_VerifyMutualAttestation c' || cfg_VerifyMutualAttestation c in
  config_ok c -> config_ok c' ->
  draws rnd k random pub rnd' ->
  own_cert ctx' su' c' (cache0, (rnd0, w0)) pem key (cache1, (rnd1, w1)) ->
  draws rnd1 k' random' pub' rnd1' ->
  accepts su w c pem ->
  client_auth_ready m ctx su c (cache, (rnd', w)) (accepts su' w1 c') ->
  exists toServer toClient clientOut serverOut,
    client_completes ctx su c cache rnd w toClient toServer serverOut clientOut /\
    server_completes ctx' su' c' cache0 rnd0 w0 toServer toClient clientOut serverOut /\
    cipher_ok clientOut /\ cipher_ok serverOut /\ seqno clientOut = 0 /\ seqno serverOut = 0.
Proof. apply honest_run. Qed.
End theorem.

(** ** Attested sides *)

Section attested.
Context `{SM3Laws, Hlaws : X509Laws}.

(** A side whose certificate comes, by way of an empty cache, from a lawful
    evidence provider. *)
Record attested_side {W} (ctx : Context_) (su : Surroundings) (c : Config W) (ep : EvidenceProvider W)
    (hrk bundle meas : bytes) `{!EvidenceProviderLaws ep hrk bundle meas} (rnd : bytes) (w : W) (pem : bytes)
    (key : PrivateKey) (ce' : CertCache * (bytes * W)) : Prop := {
  as_pem : cfg_CertPEM c = [];
  as_provider : cfg_EvidenceProvider c = Some ep;
  as_inv : ep_inv w;
  as_made : prepareCertificate ctx (su_clock su) c (empty_cache, (rnd, w)) = (Ok (pem, key), ce');
  as_size : zlen pem <= 2 ^ 20;
  as_sign msg rnd : exists sig rnd', sm2_Sign key msg rnd = (Ok sig, rnd') /\ zlen sig <= 2 ^ 20
}.

Context {W W' : Type} (ep : EvidenceProvider W) (hrk bundle meas : bytes)
  `{Hep : !EvidenceProviderLaws ep hrk bundle meas}.

Lemma attested_cert ctx su (c : Config W) rnd w pem key ce' :
  attested_side ctx su c ep hrk bundle meas rnd w pem key ce' ->
  own_cert ctx su c (empty_cache, (rnd, w)) pem key ce' /\
  forall su' w' (c' : Config W'), trusts hrk meas w' c' ->
    su_clock su 4%nat - hour <= su_now su' <= su_clock su 4%nat + 24 * hour - second -> accepts su' w' c' pem.
Proof.
  intros [Hp Hprov Hw Hm Hl Hs]. pose proof Hm as Hm'. unfold prepareCertificate in Hm'.
  apply stM_bind_Ok in Hm' as ([pem' kpem] & [cache1 [rnd1 w1]] & Hg%stM_map_err_Ok & Hr).
  apply stM_bind_Ok in Hr as (k' & s1 & [Hk _]%stM_map_err_Ok%lift_Ok & Hr).
  apply Ok_pair_inj in Hr as [[= -> ->] _].
  eapply (GetOrGenerate_cases c ep) in Hg as [(_ & _ & _ & _ & [Hv|Hv])|(x & Hg & _)]; [done|done| |done|done].
  apply (Generate_cert ep hrk bundle meas) in Hg as (_ & k & cert & ev & Hc); [|done].
  rewrite (cf_priv _ _ _ _ _ _ _ _ _ Hc) in Hk. apply Ok_inj in Hk as <-. split.
  - split; try done; [apply Hc|]. exists cert. split; apply Hc.
  - intros su' w' c' Ht Hnow log.
    pose proof (cert_for_valid (su_fs su') hrk bundle meas w' c' _ _ _ _ _ _ _ Hc Ht Hnow) as Hv.
    eexists _, _. apply (verify_Ok_iff (su_fs su') w' (su_now su') pem (Some c') c' log); [done|apply Ht|].
    eexists. split; [reflexivity|]. by split.
Qed.
End attested.

Section attested_theorem.
Context `{SM3Laws, SM4Laws, HKDFLaws, Hlaws : X509Laws} {W W' : Type}.
Context (ep : EvidenceProvider W) (hrk bundle meas : bytes) `{Hep : !EvidenceProviderLaws ep hrk bundle meas}.
Context (ep' : EvidenceProvider W') (hrk' bundle' meas' : bytes)
  `{Hep' : !EvidenceProviderLaws ep' hrk' bundle' meas'}.

Lemma attested_run (c : Config W) (c' : Config W') ctx su rnd w k random pub rnd' pem key ce
    ctx' su' rnd0 w0 pem' key' cache1 rnd1 w1 k' random' pub' rnd1' :
  config_ok c -> config_ok c' ->
  draws rnd k random pub rnd' -> draws rnd1 k' random' pub' rnd1' ->
  attested_side ctx su c ep hrk bundle meas rnd' w pem key ce ->
  attested_side ctx' su' c' ep' hrk' bundle' meas' rnd0 w0 pem' key' (cache1, (rnd1, w1)) ->
  trusts hrk' meas' w c -> trusts hrk meas w1 c' ->
  su_clock su' 4%nat - hour <= su_now su <= su_clock su' 4%nat + 24 * hour - second ->
  su_clock su 4%nat - hour <= su_now su' <= su_clock su 4%nat + 24 * hour - second ->
  exists toServer toClient clientOut serverOut,
    client_completes ctx su c empty_cache rnd w toClient toServer serverOut clientOut /\
    server_completes ctx' su' c' empty_cache rnd0 w0 toServer toClient clientOut serverOut /\
    cipher_ok clientOut /\ cipher_ok serverOut /\ seqno clientOut = 0 /\ seqno serverOut = 0.
Proof.
  intros Hc Hc' Hd Hd' Ha Ha' Ht Ht' Hn Hn'.
  destruct (attested_cert ep hrk bundle meas (W' := W') _ _ _ _ _ _ _ _ Ha) as [Ho Hacc].
  destruct (attested_cert ep' hrk' bundle' meas' (W' := W) _ _ _ _ _ _ _ _ Ha') as [Ho' Hacc'].
  eapply honest_run; [done|done|exact Hd|exact Ho'|exact Hd'|by apply Hacc'|].
  intros _. split; [unfold has_no_credentials; by rewrite (as_provider _ _ _ _ _ _ _ _ _ _ _ _ Ha)|].
  exists pem, key, ce. split; [done|by apply Hacc].
Qed.

(** End to end: two sides whose certificates come from lawful evidence
    providers, each of which trusts the root and tolerates the measurement of
    the other's provider, with clocks within the certificates' day, complete
    the handshake over any network that delivers their bytes, with mutual
    attestation or without, and end with matching ciphers. *)
Theorem attested_handshake (c : Config W) (c' : Config W') ctx su rnd w k random pub rnd' pem key ce
    ctx' su' rnd0 w0 pem' key' cache1 rnd1 w1 k' random' pub' rnd1' :
  config_ok c -> config_ok c' ->
  draws rnd k random pub rnd' -> draws rnd1 k' random' pub' rnd1' ->
  attested_side ctx su c ep hrk bundle meas rnd' w pem key ce ->
  attested_side ctx' su' c' ep' hrk' bundle' meas' rnd0 w0 pem' key' (cache1, (rnd1, w1)) ->
  trusts hrk' meas' w c -> trusts hrk meas w1 c' ->
  su_clock su' 4%nat - hour <= su_now su <= su_clock su' 4%nat + 24 * hour - second ->
  su_clock su 4%nat - hour <= su_now su' <= su_clock su 4%nat + 24 * hour - second ->
  exists toServer toClient clientOut serverOut,
    client_completes ctx su c empty_cache rnd w toClient toServer serverOut clientOut /\
    server_completes ctx' su' c' empty_cache rnd0 w0 toServer toClient clientOut serverOut /\
    cipher_ok clientOut /\ cipher_ok serverOut /\ seqno clientOut = 0 /\ seqno serverOut = 0.
Proof. apply attested_run. Qed.
End attested_theorem.

(** ** Instances *)

Abbreviation toy_prepared mutual rnd :=
  (@prepareCertificate toy_sm3 toy_sm2 toy_x509 MockEvidenceProvider Background (su_clock toy_surroundings)
     (toy_side mutual) (empty_cache, (rnd, toy_mock))).

(** Entropy is a run of one byte; a certificate takes 64 bytes of it. *)
Definition prepared_good (left_ : bytes)
    (r : result (bytes * PrivateKey) * (CertCache * (bytes * MockEvidenceProvider))) : bool :=
  match r with
  | (Ok (pem, _), (_, (rnd, w))) =>
      (zlen pem <=? 2 ^ 20) && bool_decide (rnd = left_) && bool_decide (mp_HRKCert w = toy_hrk)
  | _ => false
  end.

Lemma prepared_good_Ok left_ r : prepared_good left_ r = true ->
  exists pem key cache w, r = (Ok (pem, key), (cache, (left_, w))) /\ zlen pem <= 2 ^ 20 /\
    mp_HRKCert w = toy_hrk.
Proof.
  destruct r as [[[pem key]|e|] [cache [rnd w]]]; cbn [prepared_good]; [|discriminate..]. intros Hg.
  apply andb_true_iff in Hg as [[Hl%Z.leb_le Hr%bool_decide_eq_true]%andb_true_iff Hw%bool_decide_eq_true].
  exists pem, key, cache, w. split; [by rewrite Hr|]. split; [exact Hl|exact Hw].
Qed.

Lemma toy_side_trusts mutual w :
  mp_HRKCert w = toy_hrk -> trusts toy_hrk toy_meas w (toy_side mutual).
Proof.
  intros Hw. split; [split| | | | |].
  - by left.
  - done.
  - constructor; [|constructor]. split; vm_compute; reflexivity.
  - reflexivity.
  - change (take_z HrkCertSize (mp_HRKCert w) = toy_hrk). rewrite Hw. vm_compute. reflexivity.
  - reflexivity.
  - reflexivity.
  - intros _. exists DefaultMockMeasurementHex. split; [left|vm_compute; reflexivity].
Qed.

Lemma toy_attested_side mutual rnd pem key ce' :
  toy_prepared mutual rnd = (Ok (pem, key), ce') -> zlen pem <= 2 ^ 20 ->
  @attested_side toy_sm3 toy_x509 toy_sm2 MockEvidenceProvider Background toy_surroundings
    (toy_side mutual) (@MockProvider toy_sm2) toy_hrk toy_bundle toy_meas
    (@MockProvider_laws toy_sm2 toy_sm2_laws toy_hrk toy_bundle toy_meas) rnd toy_mock pem key ce'.
Proof.
  intros Hp Hl. split; [reflexivity|reflexivity|exact toy_mock_ready|exact Hp|exact Hl|].
  intros msg rnd1. eexists _, rnd1. split; [reflexivity|]. unfold toy_sig. rewrite zlen_app, zlen_be_bytes.
  pose proof (toy_sm3_laws msg) as Hm. unfold sm3_Sm3Sum in Hm. rewrite Hm. lia.
Qed.

Lemma toy_draws b n :
  @draws toy_sm2 (replicate (64 + n) b)
    (toy_key (be_uint (replicate 32 b))) (replicate 32 b)
    (get_ok [] (encodePublicKeySM2 (toy_pub (be_uint (replicate 32 b))))) (replicate n b).
Proof.
  exists (replicate 32 b ++ replicate n b). split; [|split; [|split; [done|done]]].
  - cbn [sm2_GenerateKey toy_sm2]. unfold zlen. rewrite length_replicate. rewrite (proj2 (Z.ltb_ge _ _)) by lia.
    unfold take_z, drop_z. rewrite take_replicate, drop_replicate, <-replicate_add.
    replace ((64 + n) `min` Z.to_nat 32)%nat with 32%nat by lia.
    by replace (64 + n - Z.to_nat 32)%nat with (32 + n)%nat by lia.
  - destruct (@encode_decode_key toy_sm2 toy_sm2_laws (toy_key (be_uint (replicate 32 b))))
      as (raw & E & _). 
    { apply toy_key_ok. pose proof (be_uint_range (replicate 32 b)) as Hr. exact Hr. }
    cbn [toy_key priv_Pub] in *. by rewrite E.
Qed.

Abbreviation toy_client_completes mutual rnd wire sent inC outC :=
  (@client_completes toy_sm3 toy_sm4 toy_hkdf toy_sm2 toy_x509 MockEvidenceProvider Background toy_surroundings
     (toy_side mutual) empty_cache rnd toy_mock wire sent inC outC).
Abbreviation toy_server_completes mutual rnd wire sent inC outC :=
  (@server_completes toy_sm3 toy_sm4 toy_hkdf toy_sm2 toy_x509 MockEvidenceProvider Background toy_surroundings
     (toy_side mutual) empty_cache rnd toy_mock wire sent inC outC).

Lemma toy_side_ok mutual : config_ok (toy_side mutual).
Proof.
  split; [by left|done|done|]. constructor; [|constructor]. split; vm_compute; reflexivity.
Qed.

Lemma toy_clocks :
  su_clock toy_surroundings 4%nat - hour <= su_now toy_surroundings <= su_clock toy_surroundings 4%nat + 24 * hour - second.
Proof. split; vm_compute; discriminate. Qed.

Lemma attested_handshake_witness :
  exists toServer toClient clientOut serverOut,
    toy_client_completes true (replicate 500 x05) toClient toServer serverOut clientOut /\
    toy_server_completes true (replicate 500 x09) toServer toClient clientOut serverOut.
Proof.
  enough (forall a b, toy_prepared true (replicate 436 x05) = a -> toy_prepared true (replicate 500 x09) = b ->
    prepared_good (replicate 388 x05) a = true -> prepared_good (replicate (64 + 388) x09) b = true ->
    exists toServer toClient clientOut serverOut,
      toy_client_completes true (replicate 500 x05) toClient toServer serverOut clientOut /\
      toy_server_completes true (replicate 500 x09) toServer toClient clientOut serverOut) as Hall.
  { eapply Hall; [reflexivity|reflexivity|vm_compute; reflexivity..]. }
  intros a b Ea Eb Ga Gb.
  destruct (prepared_good_Ok _ _ Ga) as (pem & key & cache & w & -> & Hl & _).
  destruct (prepared_good_Ok _ _ Gb) as (pem' & key' & cache' & w' & -> & Hl' & Hw').
  destruct (@attested_handshake toy_sm3 toy_sm3_laws toy_sm4 toy_sm4_laws toy_hkdf toy_hkdf_laws toy_x509 toy_sm2
    toy_sm2_laws toy_x509_laws MockEvidenceProvider MockEvidenceProvider
    (@MockProvider toy_sm2) toy_hrk toy_bundle toy_meas (@MockProvider_laws toy_sm2 toy_sm2_laws toy_hrk toy_bundle toy_meas)
    (@MockProvider toy_sm2) toy_hrk toy_bundle toy_meas (@MockProvider_laws toy_sm2 toy_sm2_laws toy_hrk toy_bundle toy_meas)
    (toy_side true) (toy_side true) Background toy_surroundings _ _ _ _ _ _ _ _ _
    Background toy_surroundings _ _ _ _ _ _ _ _ _ _ _
    (toy_side_ok true) (toy_side_ok true) (toy_draws x05 436) (toy_draws x09 388)
    (toy_attested_side _ _ _ _ _ Ea Hl) (toy_attested_side _ _ _ _ _ Eb Hl')
    (toy_side_trusts true toy_mock eq_refl) (toy_side_trusts true w' Hw') toy_clocks toy_clocks)
    as (ts & tc & co & so & Hc & Hs & _).
  exists ts, tc, co, so. split; [exact Hc|exact Hs].
Defined.

Lemma honest_handshake_witness :
  exists toServer toClient clientOut serverOut,
    toy_client_completes false (replicate 500 x05) toClient toServer serverOut clientOut /\
    toy_server_completes false (replicate 500 x09) toServer toClient clientOut serverOut.
Proof.
  enough (forall b, toy_prepared false (replicate 500 x09) = b ->
    prepared_good (replicate (64 + 388) x09) b = true ->
    exists toServer toClient clientOut serverOut,
      toy_client_completes false (replicate 500 x05) toClient toServer serverOut clientOut /\
      toy_server_completes false (replicate 500 x09) toServer toClient clientOut serverOut) as Hall.
  { eapply Hall; [reflexivity|vm_compute; reflexivity]. }
  intros b Eb Gb. destruct (prepared_good_Ok _ _ Gb) as (pem & key & cache & w & -> & Hl & _).
  destruct (@attested_cert toy_sm3 toy_sm3_laws toy_x509 toy_sm2 toy_sm2_laws toy_x509_laws MockEvidenceProvider
    MockEvidenceProvider (@MockProvider toy_sm2) toy_hrk toy_bundle toy_meas
    (@MockProvider_laws toy_sm2 toy_sm2_laws toy_hrk toy_bundle toy_meas) _ _ _ _ _ _ _ _
    (toy_attested_side _ _ _ _ _ Eb Hl)) as [Hown Hacc].
  destruct (@honest_handshake toy_sm3 toy_sm3_laws toy_sm4 toy_sm4_laws toy_hkdf toy_hkdf_laws toy_x509 toy_sm2
    toy_sm2_laws MockEvidenceProvider MockEvidenceProvider (toy_side false) (toy_side false)
    Background toy_surroundings empty_cache _ toy_mock _ _ _ _
    Background toy_surroundings _ _ _ _ _ _ _ _ _ _ _ _
    (toy_side_ok false) (toy_side_ok false) (toy_draws x05 436) Hown (toy_draws x09 388)
    (Hacc toy_surroundings toy_mock (toy_side false) (toy_side_trusts false toy_mock eq_refl) toy_clocks))
    as (ts & tc & co & so & Hc & Hs & _); [discriminate|].
  exists ts, tc, co, so. split; [exact Hc|exact Hs].
Defined.
