(* ===== verification/Conn.v ===== *)
(** * The connection (conn.go)

    [Conn] with its one handshake, the reading and writing of application data,
    the alerts and [Close].  The state of an operation is the connection; the
    raw connection and the rest of what a handshake uses are part of it.  Each
    operation is one step here; Goroutines takes them apart and Linear shows
    that, for goroutines that call them at once, it comes to the same. *)

From S2P Require Import Prelude Gcm Gmsm Toy NetIO Record Framing KeySchedule GoLib.
From S2P Require Import CsvReport CsvVerify CsvMock CsvClient Asn1 Evidence Gx509 Provider Cert.
From S2P Require Import Config Verifier Handshake.

Record Conn (W : Type) := {
  cn_world : World W;                     (* rawConn, and what its handshake uses *)
  cn_cfg : option (Config W);
  cn_isServer : bool;
  cn_handshakeDone : bool;
  cn_handshakeErr : option error;
  cn_inCipher : option RecordCipher;      (* nil is None *)
  cn_outCipher : option RecordCipher;
  cn_peerCertPEM : bytes;
  cn_peerEvidence : option CSVEvidenceExtension;
  cn_peerCertificate : option Certificate;
  cn_readBuf : bytes;
  cn_closeNotifyReceived : bool;
  cn_closeOnce : bool;                    (* Close has run *)
  cn_closeErr : option error
}.
Arguments cn_world {W} _.
Arguments cn_cfg {W} _.
Arguments cn_isServer {W} _.
Arguments cn_handshakeDone {W} _.
Arguments cn_handshakeErr {W} _.
Arguments cn_inCipher {W} _.
Arguments cn_outCipher {W} _.
Arguments cn_peerCertPEM {W} _.
Arguments cn_peerEvidence {W} _.
Arguments cn_peerCertificate {W} _.
Arguments cn_readBuf {W} _.
Arguments cn_closeNotifyReceived {W} _.
Arguments cn_closeOnce {W} _.
Arguments cn_closeErr {W} _.
Arguments Build_Conn {W} _ _ _ _ _ _ _ _ _ _ _ _ _ _.

(** Deep copies of a value are the value. *)
Definition cloneEvidence (ev : option CSVEvidenceExtension) : option CSVEvidenceExtension :=
  match ev with
  | None => None
  | Some ev => Some (Build_CSVEvidenceExtension (ev_Version ev) (ev_Report ev) (ev_HRKCert ev) (ev_HSKCekCert ev))
  end.

Section conn.
Context {W : Type}.
Implicit Types c : Conn W.

Definition cn_raw c : RawConn := (cn_world c).1.

(** ** Updates of the fields *)

Definition set_world c (w : World W) : Conn W :=
  Build_Conn w (cn_cfg c) (cn_isServer c) (cn_handshakeDone c) (cn_handshakeErr c) (cn_inCipher c) (cn_outCipher c)
    (cn_peerCertPEM c) (cn_peerEvidence c) (cn_peerCertificate c) (cn_readBuf c) (cn_closeNotifyReceived c)
    (cn_closeOnce c) (cn_closeErr c).
Definition set_handshakeErr c (e : error) : Conn W :=
  Build_Conn (cn_world c) (cn_cfg c) (cn_isServer c) (cn_handshakeDone c) (Some e) (cn_inCipher c) (cn_outCipher c)
    (cn_peerCertPEM c) (cn_peerEvidence c) (cn_peerCertificate c) (cn_readBuf c) (cn_closeNotifyReceived c)
    (cn_closeOnce c) (cn_closeErr c).
Definition set_established c (res : HandshakeResult) : Conn W :=
  Build_Conn (cn_world c) (cn_cfg c) (cn_isServer c) true (cn_handshakeErr c)
    (Some (hr_InCipher res)) (Some (hr_OutCipher res)) (hr_PeerCertPEM res)
    (cloneEvidence (hr_PeerEvidence res))
    (match hr_PeerCertificate res with Some x => Some x | None => cn_peerCertificate c end)
    (cn_readBuf c) (cn_closeNotifyReceived c) (cn_closeOnce c) (cn_closeErr c).
Definition set_reader c (rx : bytes) (cipher : RecordCipher) (buf : bytes) (notified : bool) : Conn W :=
  Build_Conn (set_rx (cn_raw c) rx, (cn_world c).2) (cn_cfg c) (cn_isServer c) (cn_handshakeDone c) (cn_handshakeErr c)
    (Some cipher) (cn_outCipher c) (cn_peerCertPEM c) (cn_peerEvidence c) (cn_peerCertificate c) buf notified
    (cn_closeOnce c) (cn_closeErr c).
Definition set_writer c (raw : RawConn) (cipher : RecordCipher) : Conn W :=
  Build_Conn (raw, (cn_world c).2) (cn_cfg c) (cn_isServer c) (cn_handshakeDone c) (cn_handshakeErr c)
    (cn_inCipher c) (Some cipher) (cn_peerCertPEM c) (cn_peerEvidence c) (cn_peerCertificate c) (cn_readBuf c)
    (cn_closeNotifyReceived c) (cn_closeOnce c) (cn_closeErr c).
Definition set_closed c (raw : RawConn) (e : option error) : Conn W :=
  Build_Conn (raw, (cn_world c).2) (cn_cfg c) (cn_isServer c) (cn_handshakeDone c) (cn_handshakeErr c)
    (cn_inCipher c) (cn_outCipher c) (cn_peerCertPEM c) (cn_peerEvidence c) (cn_peerCertificate c) (cn_readBuf c)
    (cn_closeNotifyReceived c) true e.

(** ** Construction *)

Definition new_conn (isServer : bool) (world : World W) (cfg : option (Config W)) : Conn W :=
  Build_Conn world cfg isServer false None None None [] None None [] false false None.
Definition NewClientConn : World W -> option (Config W) -> Conn W := new_conn false.
Definition NewServerConn : World W -> option (Config W) -> Conn W := new_conn true.

(** ** The handshake *)

Section handshake.
Context `{SM3, SM4, HKDF, SM2, X509} (su : Surroundings).

Definition handshake (ctx : Context_) : stM (Conn W) unit := fun c =>
  if cn_handshakeDone c then (Ok tt, c)
  else match cn_handshakeErr c with
  | Some e => (Err e, c)
  | None =>
      let '(res, world) :=
        if cn_isServer c then ServerHandshakeContext ctx su (cn_cfg c) (cn_world c)
        else ClientHandshakeContext ctx su (cn_cfg c) (cn_world c) in
      let c := set_world c world in
      match res with
      | Err e => (Err e, set_handshakeErr c e)
      | Panic => (Panic, c)
      | Ok res => (Ok tt, set_established c res)
      end
  end.

Definition conn_Handshake : stM (Conn W) unit := handshake Background.

(** ** Reading *)

Definition is_eof (e : error) : bool := errors_is e io_EOF || errors_is e io_ErrUnexpectedEOF.

Definition ErrNoCloseNotify : error :=
  wrapf "teetls: connection closed without close_notify: %w" io_ErrUnexpectedEOF.
Definition ErrTruncatedRecord : error :=
  wrapf "teetls: truncated TLS record without close_notify: %w" io_ErrUnexpectedEOF.

(** The raw connection's part of a computation of a [Conn]. *)
Definition on_raw {A} (m : stM RawConn A) : stM (Conn W) A := fun c =>
  let '(r, raw) := m (cn_raw c) in (r, set_world c (raw, (cn_world c).2)).
(** [c.inCipher.Unseal]; a nil cipher is dereferenced. *)
Definition in_Unseal (record : bytes) : stM (Conn W) (RecordType * bytes) := fun c =>
  match cn_inCipher c with
  | None => (Panic, c)
  | Some rc => let '(r, rc') := Unseal record rc in
      (r, set_reader c (conn_rx (cn_raw c)) rc' (cn_readBuf c) (cn_closeNotifyReceived c))
  end.
Definition set_notified : stM (Conn W) unit := fun c =>
  (Ok tt, Build_Conn (cn_world c) (cn_cfg c) (cn_isServer c) (cn_handshakeDone c) (cn_handshakeErr c)
    (cn_inCipher c) (cn_outCipher c) (cn_peerCertPEM c) (cn_peerEvidence c) (cn_peerCertificate c) (cn_readBuf c) true
    (cn_closeOnce c) (cn_closeErr c)).
Definition set_readBuf (buf : bytes) : stM (Conn W) unit := fun c =>
  (Ok tt, Build_Conn (cn_world c) (cn_cfg c) (cn_isServer c) (cn_handshakeDone c) (cn_handshakeErr c)
    (cn_inCipher c) (cn_outCipher c) (cn_peerCertPEM c) (cn_peerEvidence c) (cn_peerCertificate c) buf
    (cn_closeNotifyReceived c) (cn_closeOnce c) (cn_closeErr c)).

(** [io.ReadFull] with the errors of the loop body: [eof] is what an end of the
    stream becomes. *)
Definition read_or (n : Z) (eof : bool -> error) : stM (Conn W) bytes := fun c =>
  match on_raw (read_full n) c with
  | (Err e, c') => (Err (if is_eof e then eof (cn_closeNotifyReceived c) else e), c')
  | r => r
  end.

(** One round of the loop: [None] is [continue]. *)
Definition read_round (n : Z) : stM (Conn W) (option bytes) :=
  header ← read_or RecordHeaderLen (fun notified => if notified then io_EOF else ErrNoCloseNotify);
  reject_if negb (bool_decide (byte_at header 0 = RecordTypeApplicationData)) with ErrInvalidRecordHeader;
  let payloadLen := be_uint (slice header 3 5) in
  reject_if (payloadLen <=? 0) || (MaxCiphertextLength <? payloadLen) with ErrCiphertextTooLarge;
  payload ← read_or payloadLen (fun _ => ErrTruncatedRecord);
  '(recType, plaintext) ← in_Unseal (header ++ payload) <?> "teetls: unseal record: %w";
  if bool_decide (recType = RecordTypeAlert) then
    reject_if negb (zlen plaintext =? 2) with Errorf "teetls: malformed alert length %d" [FInt (zlen plaintext)];
    let level := byte_at plaintext 0 in
    let desc := byte_at plaintext 1 in
    if bool_decide (level = x01) && bool_decide (desc = x00)
    then _ ← set_notified; throw io_EOF
    else throw (Errorf "teetls: received alert (level %d, desc %d)"
                  [FInt (byte_to_Z level); FInt (byte_to_Z desc)])
  else
    reject_if negb (bool_decide (recType = RecordTypeApplicationData))
      with Errorf "teetls: unexpected post-handshake record type %d" [FInt (byte_to_Z recType)];
    if zlen plaintext =? 0 then mret None
    else
      _ ← (if n <? zlen plaintext then set_readBuf (drop_z n plaintext) else mret tt);
      mret (Some (take_z n plaintext)).

Fixpoint read_loop (fuel : nat) (n : Z) : stM (Conn W) bytes :=
  match fuel with
  | O => throw ErrOutOfFuel
  | S fuel' =>
      r ← read_round n;
      match r with
      | Some data => mret data
      | None => read_loop fuel' n
      end
  end.

(** [Read(b)] with [len(b) = n]: the bytes copied to the front of [b]; their
    number is what the function returns.  Every round takes a record header at
    least, so the bytes received bound the rounds. *)
Definition conn_Read (n : Z) : stM (Conn W) bytes :=
  _ ← conn_Handshake;
  if n =? 0 then mret []
  else fun c =>
    if 0 <? zlen (cn_readBuf c)
    then (_ ← set_readBuf (drop_z n (cn_readBuf c)); mret (take_z n (cn_readBuf c))) c
    else read_loop (S (length (conn_rx (cn_raw c)))) n c.

(** ** Writing *)

Definition out_Seal (t : RecordType) (p : bytes) : stM (Conn W) bytes := fun c =>
  match cn_outCipher c with
  | None => (Panic, c)
  | Some rc => let '(r, rc') := Seal t p rc in (r, set_writer c (cn_raw c) rc')
  end.

(** The loop [for len(b) > 0]: what is returned, [totalSent] and the error. *)
Fixpoint write_loop (fuel : nat) (totalSent : Z) (b : bytes) : stM (Conn W) (Z * option error) :=
  match fuel with
  | O => throw ErrOutOfFuel
  | S fuel' =>
      if 0 <? zlen b then
        let chunkSize := if MaxPlaintextLength <? zlen b then MaxPlaintextLength else zlen b in
        fun c =>
        match out_Seal RecordTypeApplicationData (take_z chunkSize b) c with
        | (Err e, c) => (Ok (totalSent, Some (wrapf "teetls: seal record: %w" e)), c)
        | (Panic, c) => (Panic, c)
        | (Ok record, c) =>
            match on_raw (writeFull record) c with
            | (Err e, c) => (Ok (totalSent, Some e), c)
            | (Panic, c) => (Panic, c)
            | (Ok _, c) => write_loop fuel' (totalSent + chunkSize) (drop_z chunkSize b) c
            end
        end
      else mret (totalSent, None)
  end.

Definition conn_Write (b : bytes) : stM (Conn W) (Z * option error) := fun c =>
  match conn_Handshake c with
  | (Err e, c) => (Ok (0, Some e), c)
  | (Panic, c) => (Panic, c)
  | (Ok _, c) => write_loop (S (length b)) 0 b c
  end.

(** ** Closing *)

Definition close_notify : bytes := [x01; x00].

(** The alert: its error, nil is [None]. *)
Definition send_close_notify : stM (Conn W) (option error) := fun c =>
  match out_Seal RecordTypeAlert close_notify c with
  | (Err e, c) => (Ok (Some (wrapf "teetls: seal close_notify: %w" e)), c)
  | (Panic, c) => (Panic, c)
  | (Ok record, c) =>
      match on_raw (conn_set_deadline true) c with
      | (Err e, c) => (Ok (Some (wrapf "teetls: set close_notify deadline: %w" e)), c)
      | (Panic, c) => (Panic, c)
      | (Ok _, c) =>
          match on_raw (writeFull record) c with
          | (Err e, c) => (Ok (Some (wrapf "teetls: write close_notify: %w" e)), c)
          | (Panic, c) => (Panic, c)
          | (Ok _, c) => (Ok None, c)
          end
      end
  end.

(** The error it returns, nil is [None]. *)
Definition Close : stM (Conn W) (option error) := fun c =>
  if cn_closeOnce c then (Ok (cn_closeErr c), c)
  else
    let '(alert, c) :=
      (if cn_handshakeDone c && (match cn_outCipher c with Some _ => true | None => false end)
       then send_close_notify c else (Ok None, c)) in
    match alert with
    | Err e => (Err e, c)
    | Panic => (Panic, c)
    | Ok alertErr =>
        let '(rawErr, raw) := conn_close (cn_raw c) in
        let closeErr := errors_join [alertErr; rawErr] in
        (Ok closeErr, set_closed c raw closeErr)
    end.
End handshake.

(** ** Accessors *)

Definition conn_SetDeadline (on : bool) : stM (Conn W) unit := on_raw (conn_set_deadline on).
Definition conn_SetReadDeadline (on : bool) : stM (Conn W) unit := on_raw (conn_set_deadline on).
Definition conn_SetWriteDeadline (on : bool) : stM (Conn W) unit := on_raw (conn_set_deadline on).
Definition PeerEvidence c : option CSVEvidenceExtension := cloneEvidence (cn_peerEvidence c).
Definition PeerCertificate c : option Certificate := cn_peerCertificate c.
Definition PeerCertPEM c : bytes := cn_peerCertPEM c.
End conn.
