(* ===== verification/ConnState.v ===== *)
(** * The states of a connection

    What holds of a [Conn] in every state its operations and its surroundings
    can bring it to, and what they can never undo. *)

From S2P Require Import Prelude Gcm Gmsm Toy NetIO Record Framing KeySchedule GoLib.
From S2P Require Import CsvReport CsvVerify CsvMock CsvClient Asn1 Evidence Gx509 Provider Cert.
From S2P Require Import Config Verifier Handshake Session Effects Conn.

(** ** The relation between two states *)

Record raw_evolves (r r' : RawConn) : Prop := {
  re_tx : exists sent, conn_tx r' = conn_tx r ++ sent;
  re_closed : conn_closed r = true -> conn_closed r' = true
}.

#[global] Instance raw_evolves_preorder : PreOrder raw_evolves.
Proof.
  split.
  - intros r. split; [exists []; by rewrite app_nil_r|done].
  - intros r1 r2 r3 [[a Ha] ?] [[b Hb] ?]. split; [exists (a ++ b); by rewrite Hb, Ha, app_assoc|auto].
Qed.

Lemma conn_step_evolves r r' : conn_step r r' -> raw_evolves r r'.
Proof. intros [_ ? _ _ _ _ Hc]. split; [done|by rewrite Hc]. Qed.

(** The same keys, further on. *)
Definition cipher_evolves (rc rc' : RecordCipher) : Prop :=
  aead rc' = aead rc /\ baseIV rc' = baseIV rc /\ seqno rc <= seqno rc'.

(** A cipher that is set stays the same cipher. *)
Definition slot_evolves (o o' : option RecordCipher) : Prop :=
  forall rc, o = Some rc -> exists rc', o' = Some rc' /\ cipher_evolves rc rc'.

#[global] Instance slot_evolves_preorder : PreOrder slot_evolves.
Proof.
  split.
  - intros o rc ->. eexists. split; [done|]. by split_and!.
  - intros o1 o2 o3 H1 H2 rc E. destruct (H1 rc E) as (rc1 & E1 & A1 & B1 & C1).
    destruct (H2 rc1 E1) as (rc2 & E2 & A2 & B2 & C2).
    exists rc2. split; [done|]. split_and!; [congruence..|lia].
Qed.

(** What no operation undoes. *)
Record conn_evolves {W} (c c' : Conn W) : Prop := {
  ce_cfg : cn_cfg c' = cn_cfg c;
  ce_role : cn_isServer c' = cn_isServer c;
  ce_done : cn_handshakeDone c = true -> cn_handshakeDone c' = true;
  ce_peer : cn_handshakeDone c = true ->
    cn_peerCertPEM c' = cn_peerCertPEM c /\ cn_peerEvidence c' = cn_peerEvidence c /\
    cn_peerCertificate c' = cn_peerCertificate c;
  ce_err : forall e, cn_handshakeErr c = Some e -> cn_handshakeErr c' = Some e;
  ce_in : slot_evolves (cn_inCipher c) (cn_inCipher c');
  ce_out : slot_evolves (cn_outCipher c) (cn_outCipher c');
  ce_notified : cn_closeNotifyReceived c = true -> cn_closeNotifyReceived c' = true;
  ce_close : cn_closeOnce c = true -> cn_closeOnce c' = true /\ cn_closeErr c' = cn_closeErr c;
  ce_raw : raw_evolves (cn_raw c) (cn_raw c')
}.

#[global] Instance conn_evolves_preorder {W} : PreOrder (@conn_evolves W).
Proof.
  split.
  - intros c. by split.
  - intros c1 c2 c3 [] []. split; try congruence; try (by auto); try (by etrans).
    + intros Hd. destruct (ce_peer0 Hd) as (? & ? & ?).
      destruct (ce_peer1 (ce_done0 Hd)) as (? & ? & ?). split_and!; congruence.
    + intros Hc. destruct (ce_close0 Hc) as [Hc' ?]. destruct (ce_close1 Hc'). split; congruence.
Qed.

(** ** The invariant *)

Definition cfg_of {W} (c : Conn W) : Config W := default zero_Config (cn_cfg c).

(** The peer that a finished handshake leaves. *)
Definition peer_ok `{SM3, SM2, X509} {W} (c : Conn W) : Prop :=
  match cn_peerEvidence c with
  | Some ev =>
      (exists fs now w, peer_valid fs now w (cn_peerCertPEM c) (cfg_of c) ev) /\
      exists cert, gx_ReadCertificateFromPem (cn_peerCertPEM c) = Ok cert /\ cn_peerCertificate c = Some cert
  | None =>
      cn_isServer c = true /\ cfg_VerifyMutualAttestation (cfg_of c) = false /\
      cn_peerCertPEM c = [] /\ cn_peerCertificate c = None
  end.

Record conn_fresh {W} (c : Conn W) : Prop := {
  fr_in : cn_inCipher c = None;
  fr_out : cn_outCipher c = None;
  fr_pem : cn_peerCertPEM c = [];
  fr_evidence : cn_peerEvidence c = None;
  fr_cert : cn_peerCertificate c = None;
  fr_buf : cn_readBuf c = [];
  fr_notified : cn_closeNotifyReceived c = false
}.

Record conn_ready {W} (c : Conn W) : Prop := {
  rd_in : exists rc, cn_inCipher c = Some rc /\ cipher_ok rc;
  rd_out : exists rc, cn_outCipher c = Some rc /\ cipher_ok rc;
  rd_err : cn_handshakeErr c = None
}.

Record conn_inv `{SM3, SM2, X509} {W} (c : Conn W) : Prop := {
  ci_phase : if cn_handshakeDone c then conn_ready c else conn_fresh c;
  ci_buf : zlen (cn_readBuf c) <= MaxPlaintextLength;
  ci_closed : cn_closeOnce c = true -> conn_closed (cn_raw c) = true;
  ci_peer : cn_handshakeDone c = true -> cfg_InsecureSkipAttestationVerify (cfg_of c) = false -> peer_ok c
}.

Lemma new_conn_inv `{SM3, SM2, X509} {W} role world (cfg : option (Config W)) :
  conn_inv (new_conn role world cfg).
Proof. split; [by split|by vm_compute|done..]. Qed.

(** ** The handshake *)

Section handshake.
Context `{SM3Laws, SM4Laws, HKDFLaws, X509, SM2Laws, !NoPanics} {W : Type}.
Implicit Types c : Conn W.

(** The configured provider does not panic. *)
Definition provider_ok c : Prop := config_safe (cfg_of c).

(** What one call of a handshake function leaves of the raw connection. *)
Lemma handshake_run ctx su c :
  provider_ok c ->
  let out := (if cn_isServer c then ServerHandshakeContext ctx su (cn_cfg c) (cn_world c)
              else ClientHandshakeContext ctx su (cn_cfg c) (cn_world c)) in
  no_panic out.1 /\ raw_evolves (cn_raw c) out.2.1 /\ (forall r, out.1 = Ok r -> result_ok r).
Proof.
  intros Hc. unfold cn_raw. destruct (cn_isServer c); cbv zeta.
  - destruct (server_run ctx su (cn_cfg c) (cn_world c) Hc) as (Hp & Hs & _ & Hr).
    split; [done|]. split; [|done]. by apply conn_step_evolves in Hs as [? ?].
  - destruct (runs_client ctx su (cn_cfg c) Hc (cn_world c) Logic.I) as (_ & Hs & Hr).
    unfold by_first in Hs. destruct (ClientHandshakeContext ctx su (cn_cfg c) (cn_world c)) as [res out].
    cbn in *. split; [by destruct res|]. split; [by apply conn_step_evolves|]. by intros r ->.
Qed.

Lemma client_peer su ctx c r st' :
  cfg_InsecureSkipAttestationVerify (cfg_of c) = false ->
  ClientHandshakeContext ctx su (cn_cfg c) (cn_world c) = (Ok r, st') ->
  exists ev cert, hr_PeerEvidence r = Some ev /\ hr_PeerCertificate r = Some cert /\
    gx_ReadCertificateFromPem (hr_PeerCertPEM r) = Ok cert /\
    exists fs now w, peer_valid fs now w (hr_PeerCertPEM r) (cfg_of c) ev.
Proof.
  intros Hs Hr. eapply client_sound in Hr as (k & z & s & [_ _ _ [(ev & He & Hv) (cert & pub & Hp & Hc & _) E] _ _ _]);
    [|reflexivity|exact Hs].
  rewrite E. exists ev, cert. split_and!; [done..|]. by eexists _, _, _.
Qed.

Lemma server_peer su ctx c r st' :
  cfg_InsecureSkipAttestationVerify (cfg_of c) = false ->
  ServerHandshakeContext ctx su (cn_cfg c) (cn_world c) = (Ok r, st') ->
  (exists ev cert, hr_PeerEvidence r = Some ev /\ hr_PeerCertificate r = Some cert /\
    gx_ReadCertificateFromPem (hr_PeerCertPEM r) = Ok cert /\
    exists fs now w, peer_valid fs now w (hr_PeerCertPEM r) (cfg_of c) ev) \/
  (cfg_VerifyMutualAttestation (cfg_of c) = false /\ hr_PeerCertPEM r = [] /\ hr_PeerEvidence r = None /\
   hr_PeerCertificate r = None).
Proof.
  intros Hs Hr. eapply server_sound in Hr as (w' & k & z & s & [_ _ _ Hm _ Hc _]); [|reflexivity|exact Hs].
  destruct (se_ClientAuth s) as [[pem sig]|].
  - destruct Hc as (_ & [(ev & He & Hv) (cert & pub & Hp & Hc & _) E]). left.
    rewrite E. exists ev, cert. split_and!; [done..|]. by eexists _, _, _.
  - destruct Hc as (Hf & Hr'). right. split; [|exact Hr']. rewrite Hm in Hf.
    change (match cn_cfg c with None => zero_Config | Some x => x end) with (cfg_of c) in Hf.
    destruct (cfg_VerifyMutualAttestation (cfg_of c)); [|reflexivity].
    exfalso. change (mutual_ext [x01] = false) in Hf. vm_compute in Hf. discriminate Hf.
Qed.

Lemma cloneEvidence_id ev : cloneEvidence ev = ev.
Proof. by destruct ev as [[]|]. Qed.

(** A handshake that returned makes the connection ready. *)
Lemma set_established_inv ctx su c r world :
  conn_inv c -> cn_handshakeDone c = false -> cn_handshakeErr c = None -> result_ok r ->
  raw_evolves (cn_raw c) world.1 ->
  (if cn_isServer c then ServerHandshakeContext ctx su (cn_cfg c) (cn_world c)
   else ClientHandshakeContext ctx su (cn_cfg c) (cn_world c)) = (Ok r, world) ->
  conn_inv (set_established (set_world c world) r).
Proof.
  intros [Hf Hb Hcl _] Hd He [Hi Ho] [_ Hraw] Hrun. rewrite Hd in Hf. destruct Hf. split.
  - by split; [eexists|eexists|].
  - done.
  - intros Hc. by apply Hraw, Hcl.
  - intros _ Hs. change (cfg_InsecureSkipAttestationVerify (cfg_of c) = false) in Hs.
    unfold peer_ok, set_established, cfg_of. cbn. rewrite cloneEvidence_id, fr_cert0. fold (cfg_of c).
    destruct (cn_isServer c).
    + apply server_peer in Hrun as [(ev & cert & -> & -> & Hg & Hv)|(Hm & -> & -> & ->)]; [|done..].
      split; [done|eauto].
    + apply client_peer in Hrun as (ev & cert & -> & -> & Hg & Hv); [|done]. split; [done|eauto].
Qed.

Lemma handshake_spec ctx su c :
  conn_inv c -> provider_ok c ->
  let '(r, c') := handshake su ctx c in
  no_panic r /\ conn_inv c' /\ conn_evolves c c' /\
  match r with Ok _ => cn_handshakeDone c' = true | Err e => cn_handshakeErr c' = Some e | Panic => False end.
Proof.
  intros Hi Hc. unfold handshake. destruct (cn_handshakeDone c) eqn:Ed; [by split_and!|].
  destruct (cn_handshakeErr c) as [e|] eqn:Ee; [by split_and!|].
  pose proof (handshake_run ctx su c Hc) as (Hp & Hr & Hok). destruct (if cn_isServer c then _ else _) as [res world] eqn:Er.
  cbn [fst snd] in *. pose proof Hi as [Hf Hb Hcl _]. rewrite Ed in Hf.
  destruct res as [res|e|]; [|split; [done|]; split; [|split; [|done]]|done].
  - split; [done|]. split; [by eapply set_established_inv; eauto|]. destruct Hf. split; [|done].
    split; cbn; try done; intros; congruence.
  - split; cbn; rewrite ?Ed; try done; [by destruct Hf; split|]. intros Hx. by apply Hr, Hcl.
  - split; cbn; try done; intros; congruence.
Qed.
End handshake.

(** ** Application data *)

Section operations.
Context `{SM3Laws, SM4Laws, HKDFLaws, X509, SM2Laws, !NoPanics} {W : Type}.
Implicit Types c : Conn W.

(** Past its handshake. *)
Definition live c : Prop := conn_inv c /\ cn_handshakeDone c = true.

Abbreviation io_runs := (runs live (@conn_evolves W)).

Lemma live_ready c : live c -> conn_ready c.
Proof. intros [Hi Hd]. pose proof (ci_phase _ Hi) as Hp. by rewrite Hd in Hp. Qed.

(** The updates that reading and writing make. *)
Lemma set_reader_live c rx rc buf notified rc0 :
  live c -> cn_inCipher c = Some rc0 -> cipher_evolves rc0 rc -> cipher_ok rc ->
  zlen buf <= MaxPlaintextLength -> (cn_closeNotifyReceived c = true -> notified = true) ->
  live (set_reader c rx rc buf notified) /\ conn_evolves c (set_reader c rx rc buf notified).
Proof.
  intros Hl Hin Hev Hok Hb Hn. pose proof (live_ready _ Hl) as [_ Ho He]. destruct Hl as [[_ _ Hcl Hp] Hd].
  split; [split; [split; [|done..]|done]|].
  - cbn. rewrite Hd. split; [by exists rc|exact Ho|exact He].
  - split; try done; [|split; [exists []; by rewrite app_nil_r|done]].
    intros rc1 E. rewrite Hin in E. injection E as <-. by exists rc.
Qed.

Lemma set_writer_live c raw rc rc0 :
  live c -> cn_outCipher c = Some rc0 -> cipher_evolves rc0 rc -> cipher_ok rc -> raw_evolves (cn_raw c) raw ->
  live (set_writer c raw rc) /\ conn_evolves c (set_writer c raw rc).
Proof.
  intros Hl Hout Hev Hok Hraw. pose proof (live_ready _ Hl) as [Hi _ He]. destruct Hl as [[_ Hb Hcl Hp] Hd].
  split; [split; [split; [|done| |done]|done]|].
  - cbn. rewrite Hd. split; [exact Hi|by exists rc|exact He].
  - intros Hc. by apply Hraw, Hcl.
  - split; try done. intros rc1 E. rewrite Hout in E. injection E as <-. by exists rc.
Qed.

Lemma set_raw_inv c raw rest :
  conn_inv c -> raw_evolves (cn_raw c) raw ->
  conn_inv (set_world c (raw, rest)) /\ conn_evolves c (set_world c (raw, rest)).
Proof.
  intros [Hf Hb Hcl Hp] Hraw. split; [|by split].
  split; [|done| |done].
  - cbn. destruct (cn_handshakeDone c); destruct Hf; by split.
  - intros Hc. by apply Hraw, Hcl.
Qed.

Lemma runs_on_raw {A} (Q : A -> Prop) (m : stM RawConn A) :
  runs any_state raw_evolves Q m -> io_runs Q (on_raw m).
Proof.
  intros Hm c [Hi Hd]. unfold on_raw. destruct (Hm (cn_raw c) Logic.I) as (_ & Hr & Hq).
  destruct (m (cn_raw c)) as [r raw]. cbn in *.
  destruct (set_raw_inv c raw (cn_world c).2 Hi Hr). by split_and!.
Qed.

Lemma runs_raw {A} (Q : A -> Prop) (m : stM RawConn A) :
  runs any_state conn_step Q m -> runs any_state raw_evolves Q m.
Proof.
  intros Hm r Hr. destruct (Hm r Hr) as (? & ? & ?). split_and!; [done|by apply conn_step_evolves|done].
Qed.

Lemma runs_deadline on : runs any_state raw_evolves anything (conn_set_deadline on).
Proof.
  intros r _. split; [done|]. unfold conn_set_deadline. destruct (conn_deadline_err r); [done|].
  split; [|done]. split; [exists []; by rewrite app_nil_r|done].
Qed.

(** [Unseal] and [Seal] advance a cipher at most. *)
Lemma cipher_evolves_refl rc : cipher_evolves rc rc.
Proof. by split_and!. Qed.

Lemma incr_seq_evolves rc : cipher_ok rc -> seqno rc <> max_uint64 -> cipher_evolves rc (incr_seq rc).
Proof.
  intros Hok Hn. destruct (cipher_seq _ Hok). split_and!; [done..|]. rewrite incr_seq_seqno; lia.
Qed.

Lemma Unseal_evolves rec rc :
  cipher_ok rc ->
  let '(r, rc') := Unseal rec rc in
  no_panic r /\ cipher_ok rc' /\ cipher_evolves rc rc' /\
  (forall t p, r = Ok (t, p) -> zlen p <= MaxPlaintextLength).
Proof.
  intros Hok. destruct (runs_Unseal rec rc Hok) as (Ho & _ & Hp).
  pose proof (Unseal_state rec rc) as Hs. destruct (Unseal rec rc) as [r rc'] eqn:Eu. cbn in *.
  split; [by destruct r|]. split; [done|].
  split.
  - destruct (is_ok r); [destruct Hs as [? ->]; by apply incr_seq_evolves|rewrite Hs; apply cipher_evolves_refl].
  - intros t p ->. by apply Unseal_Ok_shape in Eu as (L & ct & _ & _ & _ & ?).
Qed.

Lemma Seal_evolves t p rc :
  cipher_ok rc ->
  let '(r, rc') := Seal t p rc in no_panic r /\ cipher_ok rc' /\ cipher_evolves rc rc'.
Proof.
  intros Hok. destruct (runs_Seal t p rc Hok) as (Ho & _ & Hp).
  pose proof (SealWithPadding_state t p 0 rc) as Hs. unfold Seal in *.
  destruct (SealWithPadding t p 0 rc) as [r rc'] eqn:Eu. cbn in *.
  split; [by destruct r|]. split; [done|].
  destruct (is_ok r); [destruct Hs as [? ->]; by apply incr_seq_evolves|rewrite Hs; apply cipher_evolves_refl].
Qed.

Lemma set_reader_same c rc : cn_inCipher c = Some rc ->
  set_reader c (conn_rx (cn_raw c)) rc (cn_readBuf c) (cn_closeNotifyReceived c) = c.
Proof. intros E. unfold set_reader, set_rx, cn_raw. destruct c as [[[] ?] ? ? ? ? ? ? ? ? ? ? ? ? ?]. cbn in *. by subst. Qed.

Lemma runs_in_Unseal rec : io_runs (fun m => zlen m.2 <= MaxPlaintextLength) (in_Unseal rec).
Proof.
  intros c Hl. unfold in_Unseal. destruct (rd_in _ (live_ready _ Hl)) as (rc & Hin & Hok). rewrite Hin.
  pose proof (Unseal_evolves rec rc Hok) as Hu. destruct (Unseal rec rc) as [r rc'].
  destruct Hu as (Hp & Hok' & Hev & Hlen).
  destruct (set_reader_live c (conn_rx (cn_raw c)) rc' (cn_readBuf c) (cn_closeNotifyReceived c) rc)
    as [Hl' He]; [done|done|done|done|apply Hl|done|].
  split; [done|]. split; [done|]. cbn. destruct r as [[t p]|e|]; [by eapply Hlen|done|done].
Qed.

Lemma runs_out_Seal t p : io_runs anything (out_Seal t p).
Proof.
  intros c Hl. unfold out_Seal. destruct (rd_out _ (live_ready _ Hl)) as (rc & Hout & Hok). rewrite Hout.
  pose proof (Seal_evolves t p rc Hok) as Hu. destruct (Seal t p rc) as [r rc'].
  destruct Hu as (Hp & Hok' & Hev).
  destruct (set_writer_live c (cn_raw c) rc' rc) as [Hl' He]; [done|done|done|done|reflexivity|].
  split; [done|]. split; [done|]. by destruct r.
Qed.

(** The two updates of the reading side. *)
Lemma runs_reader_update buf notified (f : Conn W -> Conn W) :
  (forall c rc, cn_inCipher c = Some rc ->
    f c = set_reader c (conn_rx (cn_raw c)) rc (default (cn_readBuf c) buf) (cn_closeNotifyReceived c || notified)) ->
  (forall b, buf = Some b -> zlen b <= MaxPlaintextLength) ->
  io_runs anything (fun c => (Ok tt, f c)).
Proof.
  intros Hf Hb c Hl. destruct (rd_in _ (live_ready _ Hl)) as (rc & Hin & Hok). cbn [fst snd].
  rewrite (Hf c rc Hin).
  destruct (set_reader_live c (conn_rx (cn_raw c)) rc (default (cn_readBuf c) buf)
    (cn_closeNotifyReceived c || notified) rc) as [Hl' He]; [done|done|apply cipher_evolves_refl|done| | |done].
  - destruct buf as [b|]; [by apply Hb|apply Hl].
  - by intros ->.
Qed.

Lemma runs_set_notified : io_runs anything set_notified.
Proof.
  apply (runs_reader_update None true); [|done]. intros c rc Hin.
  unfold set_reader, set_rx, cn_raw. destruct c as [[[] ?] ? ? ? ? ? ? ? ? ? ? ? ? ?]. cbn in *. subst.
  by rewrite orb_true_r.
Qed.

Lemma runs_set_readBuf buf : zlen buf <= MaxPlaintextLength -> io_runs anything (set_readBuf buf).
Proof.
  intros Hb. apply (runs_reader_update (Some buf) false); [|by intros b [= <-]]. intros c rc Hin.
  unfold set_reader, set_rx, cn_raw. destruct c as [[[] ?] ? ? ? ? ? ? ? ? ? ? ? ? ?]. cbn in *. subst.
  by rewrite orb_false_r.
Qed.

Lemma runs_read_or n eof : io_runs anything (read_or n eof).
Proof.
  intros c Hl. unfold read_or.
  destruct (runs_on_raw _ _ (runs_raw _ _ (runs_read_full n)) c Hl) as (Hl' & He & Hr).
  by destruct (on_raw (read_full n) c) as [[a|e|] c'].
Qed.

#[local] Hint Resolve runs_read_or runs_in_Unseal runs_set_notified : runs.

Lemma runs_read_round n :
  0 < n -> io_runs (fun r => forall d, r = Some d -> 0 < zlen d <= n) (read_round n).
Proof.
  intros Hn. unfold read_round. repeat runs_step.
  rename b into recType, l into plaintext. cbn in HQ1.
  destruct (bool_decide (recType = RecordTypeAlert)).
  - repeat runs_step. destruct (_ && _); repeat runs_step.
  - repeat runs_step. zlen_pos. destruct (Z.eqb_spec (zlen plaintext) 0); [by apply runs_ret; [tc_solve|]|].
    eapply (runs_bind _ _ anything).
    + destruct (n <? zlen plaintext); [apply runs_set_readBuf; zlia|by apply runs_ret; [tc_solve|]].
    + intros u _. apply runs_ret; [tc_solve|]. intros d [= <-]. zlia.
Qed.

Lemma runs_read_loop fuel n : 0 < n -> io_runs (fun d => 0 < zlen d <= n) (read_loop fuel n).
Proof.
  intros Hn. induction fuel as [|fuel IH]; cbn [read_loop]; [by apply runs_throw; tc_solve|].
  eapply runs_bind; [tc_solve|by apply runs_read_round|]. intros [d|] Hd; [|exact IH].
  apply runs_ret; [tc_solve|]. by apply Hd.
Qed.

Lemma runs_drain n : 0 < n ->
  forall c, live c -> 0 < zlen (cn_readBuf c) ->
  let out := (_ ← set_readBuf (drop_z n (cn_readBuf c)); mret (take_z n (cn_readBuf c))) c in
  live out.2 /\ conn_evolves c out.2 /\ match out.1 with Ok d => 0 < zlen d <= n | Err _ => True | Panic => False end.
Proof.
  intros Hn c Hl Hb. pose proof (ci_buf _ (proj1 Hl)) as Hmax.
  assert (io_runs (fun d => 0 < zlen d <= n)
    (_ ← set_readBuf (drop_z n (cn_readBuf c)); mret (take_z n (cn_readBuf c)))) as Hr; [|by apply Hr].
  eapply (runs_bind _ _ anything); [apply runs_set_readBuf; zlia|].
  intros u _. apply runs_ret; [tc_solve|]. zlia.
Qed.

Lemma runs_write_chunk fuel t b :
  io_runs (fun r => t <= r.1 <= t + zlen b) (write_loop fuel t b).
Proof.
  revert t b. induction fuel as [|fuel IH]; intros t b c Hl; cbn [write_loop]; [by split_and!|].
  zlen_pos. destruct (Z.ltb_spec 0 (zlen b)); [|split; [done|]; split; [done|cbn; zlia]].
  set (n := if MaxPlaintextLength <? zlen b then MaxPlaintextLength else zlen b).
  assert (0 < n <= zlen b) as Hn.
  { unfold n, MaxPlaintextLength. destruct (Z.ltb_spec 16384 (zlen b)); lia. }
  destruct (runs_out_Seal RecordTypeApplicationData (take_z n b) c Hl) as (Hl1 & He1 & Hr1).
  destruct (out_Seal _ _ c) as [[rec|e|] c1]; cbn [fst snd] in *; [|split; [done|]; split; [done|cbn; lia]|done].
  destruct (runs_on_raw _ _ (runs_raw _ _ (runs_writeFull rec)) c1 Hl1) as (Hl2 & He2 & Hr2).
  destruct (on_raw (writeFull rec) c1) as [[u|e|] c2]; cbn [fst snd] in *;
    [|split; [done|]; split; [by etrans|cbn; lia]|done].
  destruct (IH (t + n) (drop_z n b) c2 Hl2) as (Hl3 & He3 & Hr3). split; [done|].
  split; [by do 2 (etrans; [eassumption|])|].
  destruct (write_loop fuel (t + n) (drop_z n b) c2) as [[r|e|] c3]; cbn in *; [|done..]. zlia.
Qed.

Lemma runs_send_close_notify : io_runs anything send_close_notify.
Proof.
  intros c Hl. unfold send_close_notify.
  destruct (runs_out_Seal RecordTypeAlert close_notify c Hl) as (Hl1 & He1 & Hr1).
  destruct (out_Seal _ _ c) as [[rec|e|] c1]; cbn [fst snd] in *; [|by split_and!|done].
  destruct (runs_on_raw _ _ (runs_deadline true) c1 Hl1) as (Hl2 & He2 & Hr2).
  destruct (on_raw (conn_set_deadline true) c1) as [[u|e|] c2]; cbn [fst snd] in *;
    [|split; [done|]; split; [by etrans|done]|done].
  destruct (runs_on_raw _ _ (runs_raw _ _ (runs_writeFull rec)) c2 Hl2) as (Hl3 & He3 & Hr3).
  destruct (on_raw (writeFull rec) c2) as [[w|e|] c3]; cbn [fst snd] in *; [|
    |done]; (split; [done|]; split; [by do 2 (etrans; [eassumption|])|done]).
Qed.

(** The alert does not run [Close] and returns its error as a value. *)
Lemma on_raw_once {A} (m : stM RawConn A) c : cn_closeOnce (on_raw m c).2 = cn_closeOnce c.
Proof. unfold on_raw. by destruct (m (cn_raw c)). Qed.

Lemma out_Seal_once t p c : cn_closeOnce (out_Seal t p c).2 = cn_closeOnce c.
Proof. unfold out_Seal. destruct (cn_outCipher c); [by destruct (Seal _ _ _)|done]. Qed.

Lemma send_close_notify_once c : cn_closeOnce (send_close_notify c).2 = cn_closeOnce c.
Proof.
  unfold send_close_notify. pose proof (out_Seal_once RecordTypeAlert close_notify c) as H1'.
  destruct (out_Seal _ _ c) as [[rec|e|] c1]; [|done..].
  pose proof (on_raw_once (conn_set_deadline true) c1) as H2'.
  destruct (on_raw _ c1) as [[u|e|] c2]; [|cbn in *; congruence..].
  pose proof (on_raw_once (writeFull rec) c2) as H3'.
  destruct (on_raw _ c2) as [[w|e|] c3]; cbn in *; congruence.
Qed.

Lemma send_close_notify_returns c e : (send_close_notify c).1 <> Err e.
Proof.
  unfold send_close_notify. destruct (out_Seal _ _ c) as [[rec|?|] c1]; [|done..].
  destruct (on_raw _ c1) as [[u|?|] c2]; [|done..]. by destruct (on_raw _ c2) as [[w|?|] c3].
Qed.

(** ** The operations as a whole *)

(** What every operation keeps to. *)
Definition op_ok {A} (Q : A -> Prop) c (out : result A * Conn W) : Prop :=
  no_panic out.1 /\ conn_inv out.2 /\ conn_evolves c out.2 /\ forall a, out.1 = Ok a -> Q a.

Lemma op_ok_live {A} (Q : A -> Prop) c (out : result A * Conn W) :
  live out.2 /\ conn_evolves c out.2 /\ match out.1 with Ok a => Q a | Err _ => True | Panic => False end ->
  op_ok Q c out.
Proof.
  intros ([Hi _] & He & Hq). split; [by destruct (out.1)|]. split_and!; [done|done|]. by intros a Ea; rewrite Ea in Hq.
Qed.

Lemma after_handshake {A} (Q : A -> Prop) su ctx (k : unit -> stM (Conn W) A) c :
  conn_inv c -> provider_ok c ->
  (forall c1, live c1 -> op_ok Q c1 (k tt c1)) -> op_ok Q c ((x ← handshake su ctx; k x) c).
Proof.
  intros Hi Hc Hk. unfold mbind, stM_bind. pose proof (handshake_spec ctx su c Hi Hc) as Hs.
  destruct (handshake su ctx c) as [[u|e|] c1]; [|by destruct Hs as (? & ? & ? & ?)|by destruct Hs as (? & _)].
  destruct Hs as (_ & Hi1 & He1 & Hd). destruct u, (Hk c1) as (Hp & Hi2 & He2 & Hq); [by split|].
  split; [done|]. split; [done|]. split; [by etrans|done].
Qed.

Lemma conn_Handshake_ok su c : conn_inv c -> provider_ok c -> op_ok anything c (conn_Handshake su c).
Proof.
  intros Hi Hc. pose proof (handshake_spec Background su c Hi Hc) as Hs. unfold conn_Handshake, op_ok.
  destruct (handshake su Background c) as [r c1]. destruct Hs as (? & ? & ? & ?). by split_and!.
Qed.

Lemma conn_Read_ok su n c :
  conn_inv c -> provider_ok c -> 0 <= n ->
  op_ok (fun d => zlen d <= n /\ (0 < n -> 0 < zlen d)) c (conn_Read su n c).
Proof.
  intros Hi Hc Hn. apply after_handshake; [done..|]. intros c1 Hl. apply op_ok_live.
  destruct (Z.eqb_spec n 0) as [->|]; [by split_and!|]. cbv beta.
  destruct (Z.ltb_spec 0 (zlen (cn_readBuf c1))).
  - destruct (runs_drain n ltac:(lia) c1 Hl) as (? & ? & Hr); [done|]. split_and!; [done|done|].
    destruct (_.1); [lia|done..].
  - destruct (runs_read_loop (S (length (conn_rx (cn_raw c1)))) n ltac:(lia) c1 Hl) as (? & ? & Hr).
    split_and!; [done|done|]. destruct (_.1); [lia|done..].
Qed.

Lemma conn_Write_ok su b c :
  conn_inv c -> provider_ok c -> op_ok (fun r => 0 <= r.1 <= zlen b) c (conn_Write su b c).
Proof.
  intros Hi Hc. unfold conn_Write. pose proof (handshake_spec Background su c Hi Hc) as Hs. unfold conn_Handshake.
  destruct (handshake su Background c) as [[u|e|] c1]; destruct Hs as (Hp & Hi1 & He1 & Hd); [|zlen_pos|done].
  - destruct (op_ok_live _ c1 _ (runs_write_chunk (S (length b)) 0 b c1 (conj Hi1 Hd))) as (? & ? & ? & ?).
    split; [done|]. split; [done|]. split; [by etrans|done].
  - split; [done|]. split; [done|]. split; [done|]. intros a [= <-]. cbn. lia.
Qed.

Lemma set_closed_inv c e :
  conn_inv c -> cn_closeOnce c = false ->
  let c' := set_closed c (conn_close (cn_raw c)).2 e in conn_inv c' /\ conn_evolves c c'.
Proof.
  intros [Hf Hb Hcl Hp] Ho. split.
  - split; [|done..]. cbn. destruct (cn_handshakeDone c); destruct Hf; by split.
  - split; try done; [intros Hx; congruence|]. split; [exists []; by rewrite app_nil_r|done].
Qed.

Lemma Close_ok c : conn_inv c -> op_ok anything c (Close c).
Proof.
  intros Hi. unfold Close. destruct (cn_closeOnce c) eqn:Ho; [by split_and!|].
  assert (exists alert c1, (if cn_handshakeDone c && (match cn_outCipher c with Some _ => true | None => false end)
       then send_close_notify c else (Ok None, c)) = (Ok alert, c1) /\ conn_inv c1 /\ conn_evolves c c1 /\
       cn_closeOnce c1 = false) as (alert & c1 & -> & Hi1 & He1 & Ho1).
  { destruct (cn_handshakeDone c && _) eqn:Ed; [|by eexists _, _].
    apply andb_true_iff in Ed as [Ed _]. pose proof (send_close_notify_once c) as Hx.
    destruct (runs_send_close_notify c (conj Hi Ed)) as ([? _] & ? & Hq).
    pose proof (send_close_notify_returns c) as Hr.
    destruct (send_close_notify c) as [[alert|e|] c1]; cbn in *; [|by destruct (Hr e)|done].
    exists alert, c1. split_and!; [done..|congruence]. }
  pose proof (set_closed_inv c1 (errors_join [alert; (conn_close (cn_raw c1)).1]) Hi1 Ho1) as [? ?].
  cbn. split; [done|]. split; [done|]. split; [by etrans|done].
Qed.

Lemma Close_once_set c : conn_inv c -> cn_closeOnce (Close c).2 = true.
Proof.
  intros Hi. destruct (Close_ok c Hi) as (Hp & _). unfold Close in *. destruct (cn_closeOnce c) eqn:Ho; [done|].
  pose proof (send_close_notify_returns c) as Hr.
  destruct (cn_handshakeDone c && _); [|done].
  by destruct (send_close_notify c) as [[a|e|] c1]; [|destruct (Hr e)|].
Qed.
End operations.

(** ** Reachable states *)

Section reachable.
Context `{SM3Laws, SM4Laws, HKDFLaws, X509, SM2Laws, !NoPanics} {W : Type}.
Implicit Types c : Conn W.

(** One step of a connection: a call of one of its methods, in surroundings and
    with arguments of its own, or a change of the raw connection and of the state
    that it shares with others, which takes back nothing that was sent and does
    not reopen what was closed. *)
Inductive conn_trans c : Conn W -> Prop :=
| tr_handshake su ctx : conn_trans c (handshake su ctx c).2
| tr_read su n : 0 <= n -> conn_trans c (conn_Read su n c).2
| tr_write su b : conn_trans c (conn_Write su b c).2
| tr_close : conn_trans c (Close c).2
| tr_deadline on : conn_trans c (conn_SetDeadline on c).2
| tr_read_deadline on : conn_trans c (conn_SetReadDeadline on c).2
| tr_write_deadline on : conn_trans c (conn_SetWriteDeadline on c).2
| tr_world raw rest : raw_evolves (cn_raw c) raw -> conn_trans c (set_world c (raw, rest)).

Lemma on_raw_inv {A} (m : stM RawConn A) c :
  runs any_state raw_evolves anything m -> conn_inv c ->
  conn_inv (on_raw m c).2 /\ conn_evolves c (on_raw m c).2.
Proof.
  intros Hm Hi. unfold on_raw. destruct (Hm (cn_raw c) Logic.I) as (_ & Hr & _).
  destruct (m (cn_raw c)). by apply set_raw_inv.
Qed.

Lemma conn_trans_ok c c' :
  conn_trans c c' -> conn_inv c -> provider_ok c ->
  conn_inv c' /\ conn_evolves c c' /\ provider_ok c'.
Proof.
  intros Ht Hi Hc.
  enough (conn_inv c' /\ conn_evolves c c') as [? He].
  { split; [done|]. split; [done|]. unfold provider_ok, cfg_of. rewrite (ce_cfg _ _ He). exact Hc. }
  destruct Ht.
  - pose proof (handshake_spec ctx su c Hi Hc) as Hs. by destruct (handshake su ctx c), Hs as (_ & ? & ? & _).
  - by destruct (conn_Read_ok su n c) as (_ & ? & ? & _).
  - by destruct (conn_Write_ok su b c) as (_ & ? & ? & _).
  - by destruct (Close_ok c) as (_ & ? & ? & _).
  - apply on_raw_inv; [apply runs_deadline|done].
  - apply on_raw_inv; [apply runs_deadline|done].
  - apply on_raw_inv; [apply runs_deadline|done].
  - by apply set_raw_inv.
Qed.

Lemma conn_transs_ok c c' :
  rtc conn_trans c c' -> conn_inv c -> provider_ok c ->
  conn_inv c' /\ conn_evolves c c' /\ provider_ok c'.
Proof.
  induction 1 as [c|c c1 c2 Ht _ IH]; intros Hi Hc; [by split_and!|].
  destruct (conn_trans_ok _ _ Ht Hi Hc) as (Hi1 & He1 & Hc1). destruct (IH Hi1 Hc1) as (? & ? & ?).
  split; [done|]. split; [by etrans|done].
Qed.

Lemma failed_not_done c e : conn_inv c -> cn_handshakeErr c = Some e -> cn_handshakeDone c = false.
Proof.
  intros Hi He. pose proof (ci_phase _ Hi) as Hp. destruct (cn_handshakeDone c); [|done].
  rewrite (rd_err _ Hp) in He. done.
Qed.


(** C25. What a connection has once established it keeps: from any reachable state
    on, the outcome of the handshake (done, or failed with its error), the
    recorded peer, the keys and the IVs never change, sequence numbers never go
    back, a received close_notify stays received, and what was sent stays sent
    and what was closed stays closed.  In particular the handshake runs once:
    after it has returned, with success or not, every later call, however far
    on, returns the same at once and changes nothing. *)
Theorem conn_history role world (cfg : option (Config W)) c c' :
  provider_ok (new_conn role world cfg) -> rtc conn_trans (new_conn role world cfg) c ->
  rtc conn_trans c c' ->
  conn_evolves c c' /\
  ((cn_handshakeDone c = true \/ is_Some (cn_handshakeErr c)) ->
   exists outcome, forall su ctx, handshake su ctx c = (outcome, c) /\ handshake su ctx c' = (outcome, c')).
Proof.
  intros Hc Hr Hr'. destruct (conn_transs_ok _ _ Hr (new_conn_inv _ _ _) Hc) as (Hi & _ & Hc').
  destruct (conn_transs_ok _ _ Hr' Hi Hc') as (Hi' & He & _). split; [done|].
  intros [Hd|[e Hf]]; [exists (Ok tt)|exists (Err e)]; intros su ctx; unfold handshake.
  - by rewrite Hd, (ce_done _ _ He Hd).
  - by rewrite (failed_not_done _ e Hi), (failed_not_done _ e Hi'), Hf, (ce_err _ _ He e Hf) by (done || by apply He).
Qed.
End reachable.

(** ** Closing *)

Section closing.
Context `{SM3Laws, SM4Laws, HKDFLaws, X509, SM2Laws, !NoPanics} {W : Type}.
Implicit Types c : Conn W.


(** What [Close] sends when nothing stands in the way. *)
Lemma send_close_notify_sends c rc :
  cipher_ok rc -> cn_outCipher c = Some rc -> seqno rc < max_uint64 ->
  conn_deadline_err (cn_raw c) = None -> conn_wscript (cn_raw c) = [] ->
  exists rec c1, Seal RecordTypeAlert close_notify rc = (Ok rec, incr_seq rc) /\
    send_close_notify c = (Ok None, c1) /\ conn_tx (cn_raw c1) = conn_tx (cn_raw c) ++ rec /\
    conn_close_err (cn_raw c1) = conn_close_err (cn_raw c) /\ conn_rx (cn_raw c1) = conn_rx (cn_raw c).
Proof.
  intros Hok Hout Hs Hd Hw. destruct (Seal_chunk RecordTypeAlert close_notify rc) as [rec Hrec]; [done|by vm_compute|done|].
  exists rec. eexists. split; [exact Hrec|]. unfold send_close_notify, out_Seal. rewrite Hout, Hrec.
  unfold on_raw, conn_set_deadline, cn_raw, writeFull, conn_write in *. cbn. rewrite Hd. cbn. rewrite Hw, Z.eqb_refl.
  cbn. split; [reflexivity|done].
Qed.

(** C26. [Close] returns on every path, with the raw connection closed, and runs
    once: a second call returns the same error and changes nothing.  Before a
    finished handshake it sends nothing; after one it sends exactly one sealed
    close_notify alert when the connection takes it, and closes the raw
    connection even when sealing or sending fails. *)
Theorem Close_outcome c :
  conn_inv c ->
  exists e c', Close c = (Ok e, c') /\ cn_closeOnce c' = true /\ conn_closed (cn_raw c') = true /\
    Close c' = (Ok e, c') /\
    if cn_closeOnce c then c' = c
    else if cn_handshakeDone c then
      exists rc, cn_outCipher c = Some rc /\
        (conn_deadline_err (cn_raw c) = None -> conn_wscript (cn_raw c) = [] -> seqno rc < max_uint64 ->
         exists rec, Seal RecordTypeAlert close_notify rc = (Ok rec, incr_seq rc) /\
           conn_tx (cn_raw c') = conn_tx (cn_raw c) ++ rec /\
           e = errors_join [None; conn_close_err (cn_raw c)])
    else conn_tx (cn_raw c') = conn_tx (cn_raw c) /\ e = errors_join [None; conn_close_err (cn_raw c)].
Proof.
  intros Hi. destruct (Close_ok c Hi) as (Hp & Hi' & He & _).
  assert (forall e c', Close c = (Ok e, c') -> cn_closeOnce c' = true /\ Close c' = (Ok e, c')) as Hagain.
  { intros e c'. unfold Close. destruct (cn_closeOnce c) eqn:Ho.
    - intros [= <- <-]. by rewrite Ho.
    - destruct (cn_handshakeDone c && _); [destruct (send_close_notify c) as [[a|e'|] c1]; [|done..]|];
        cbn; by intros [= <- <-]. }
  assert (exists e c', Close c = (Ok e, c')) as (e & c' & Ec).
  { pose proof (send_close_notify_returns c) as Hr. unfold Close in *. destruct (cn_closeOnce c); [by eexists _, _|].
    destruct (cn_handshakeDone c && _); [|by eexists _, _].
    destruct (send_close_notify c) as [[a|e'|] c1]; [by eexists _, _|by destruct (Hr e')|done]. }
  destruct (Hagain _ _ Ec) as [Ho' Ec']. exists e, c'. rewrite Ec in Hi'. cbn in Hi'.
  split; [done|]. split; [done|]. split; [by apply (ci_closed _ Hi')|]. split; [done|].
  unfold Close in Ec. destruct (cn_closeOnce c); [by injection Ec as _ <-|].
  pose proof (ci_phase _ Hi) as Hph. destruct (cn_handshakeDone c) eqn:Ed; cbn [andb] in Ec;
    [|cbn in Ec; by injection Ec as <- <-].
  destruct (rd_out _ Hph) as (rc & Hout & Hok). exists rc. split; [done|]. intros Hde Hws Hs.
  destruct (send_close_notify_sends c rc Hok Hout Hs Hde Hws) as (rec & c1 & Hrec & Hsc & Htx & Hce & _).
  rewrite Hout, Hsc in Ec. cbn in Ec. injection Ec as <- <-. exists rec. rewrite <-Hce. by split_and!.
Qed.
End closing.

(** ** Instances *)


(** A connection past its handshake, whose two ciphers are at their start and
    whose peer was not to be verified. *)
Definition toy_unverified : Config MockEvidenceProvider :=
  Build_Config EmptyString None [] false 0 true [x01] [x02] EmptyString EmptyString [] EmptyString 0.
Definition toy_ready_conn (rx : bytes) : Conn MockEvidenceProvider :=
  Build_Conn (toy_client_world rx) (Some toy_unverified) false true None (Some toy_cipher) (Some toy_cipher)
    [] None None [] false false None.

Lemma toy_ready_inv rx : @conn_inv toy_sm3 toy_sm2 toy_x509 MockEvidenceProvider (toy_ready_conn rx).
Proof.
  split; [split; [exists toy_cipher; by split; [|apply toy_cipher_ok]..|done]|by vm_compute|done|done].
Qed.

Lemma conn_history_witness :
  let c0 := NewServerConn (toy_server_world [x16; x03; x03; x00; x01; x07]) (Some toy_static) in
  let c := (@handshake MockEvidenceProvider toy_sm3 toy_sm4 toy_hkdf toy_sm2 toy_x509 toy_surroundings Background c0).2 in
  let c' := (@conn_Read MockEvidenceProvider toy_sm3 toy_sm4 toy_hkdf toy_sm2 toy_x509 toy_surroundings 5 c).2 in
  conn_evolves c c'.
Proof.
  intros c0 c c'.
  refine (proj1 (@conn_history toy_sm3 toy_sm3_laws toy_sm4 toy_sm4_laws toy_hkdf toy_hkdf_laws toy_x509
    toy_sm2 toy_sm2_laws toy_no_panics MockEvidenceProvider true _ (Some toy_static) c c' _ _ _)).
  - exact toy_static_safe.
  - eapply rtc_l; [apply (tr_handshake _ toy_surroundings Background)|]. apply rtc_refl.
  - eapply rtc_l; [apply (tr_read _ toy_surroundings 5); lia|]. apply rtc_refl.
Defined.

Lemma Close_outcome_witness :
  exists e c', Close (toy_ready_conn []) = (Ok e, c') /\ Close c' = (Ok e, c') /\
    conn_tx (cn_raw c') = toy_record RecordTypeAlert close_notify 0.
Proof.
  destruct (@Close_outcome toy_sm3 toy_x509 toy_sm2 MockEvidenceProvider (toy_ready_conn []) (toy_ready_inv _))
    as (e & c' & Hc & _ & _ & Hc' & rc & [= <-] & Hs).
  destruct Hs as (rec & Hrec & Htx & _); [done|done|by vm_compute|].
  exists e, c'. split; [exact Hc|]. split; [exact Hc'|]. rewrite Htx. unfold toy_record.
  unfold Seal in Hrec. rewrite Hrec. reflexivity.
Defined.
