(* ===== verification/Stream.v ===== *)
(** * The byte stream of an established connection

    The contract of [Read], [Write] and [Close] between two connections that
    share a cipher: what is read is what was sealed, in order, none of it
    invented, dropped or repeated, an end of the stream is reported only when
    the peer announced it, and what one side writes and closes the other reads
    whole. *)

From S2P Require Import Prelude Gcm Gmsm Toy NetIO Record Framing KeySchedule GoLib.
From S2P Require Import CsvReport CsvVerify CsvMock CsvClient Asn1 Evidence Gx509 Provider Cert.
From S2P Require Import Config Verifier Handshake Session Effects Honest Conn ConnState.

(** ** The specification: what a sequence of opened records carries *)

Definition app_part (m : RecordType * bytes) : bytes :=
  if bool_decide (m.1 = RecordTypeApplicationData) then m.2 else [].
Definition app_data (msgs : list (RecordType * bytes)) : bytes := concat (app_part <$> msgs).
Definition is_close_notify (m : RecordType * bytes) : bool := bool_decide (m = (RecordTypeAlert, close_notify)).

Lemma app_data_app ms1 ms2 : app_data (ms1 ++ ms2) = app_data ms1 ++ app_data ms2.
Proof. unfold app_data. by rewrite fmap_app, concat_app. Qed.

(** The records [recs] occur in [rx] in order, one after the other, before
    [rest]; what lies between them was thrown away. *)
Inductive taken_from : list bytes -> bytes -> bytes -> Prop :=
| tf_done lost rest : taken_from [] (lost ++ rest) rest
| tf_record lost rec recs rx rest : taken_from recs rx rest -> taken_from (rec :: recs) (lost ++ rec ++ rx) rest.

Lemma taken_from_lost lost recs rx rest : taken_from recs rx rest -> taken_from recs (lost ++ rx) rest.
Proof. destruct 1; rewrite app_assoc; by constructor. Qed.

Lemma taken_from_app recs1 recs2 rx1 rx2 rx3 :
  taken_from recs1 rx1 rx2 -> taken_from recs2 rx2 rx3 -> taken_from (recs1 ++ recs2) rx1 rx3.
Proof.
  induction 1; intros H'; cbn; [by apply taken_from_lost|constructor; auto].
Qed.

Lemma unseal_stream_app recs1 recs2 rc ms1 rc1 ms2 rc2 :
  unseal_stream recs1 rc = (Ok ms1, rc1) -> unseal_stream recs2 rc1 = (Ok ms2, rc2) ->
  unseal_stream (recs1 ++ recs2) rc = (Ok (ms1 ++ ms2), rc2).
Proof.
  revert rc ms1. induction recs1 as [|rec recs1 IH]; intros rc ms1 H1 H2; cbn [app unseal_stream] in *; inv_stm; [done|].
  apply stM_bind_Ok. eexists _, _. split; [eassumption|]. apply stM_bind_Ok. eexists _, _.
  split; [by eapply IH|done].
Qed.

Section stream.
Context {W : Type}.
Implicit Types c : Conn W.

(** Between [c] and [c'] the reading side gave out [data] and opened the
    messages [msgs]. *)
Record took c c' (data : bytes) (msgs : list (RecordType * bytes)) : Prop := {
  tk_records : exists rc rc' recs, cn_inCipher c = Some rc /\ cn_inCipher c' = Some rc' /\
    unseal_stream recs rc = (Ok msgs, rc') /\ taken_from recs (conn_rx (cn_raw c)) (conn_rx (cn_raw c'));
  tk_data : cn_readBuf c ++ app_data msgs = data ++ cn_readBuf c';
  tk_notified : cn_closeNotifyReceived c' = cn_closeNotifyReceived c || existsb is_close_notify msgs;
  tk_out : cn_outCipher c' = cn_outCipher c;
  tk_done : cn_handshakeDone c' = cn_handshakeDone c
}.

Lemma took_trans c c1 c2 d1 d2 ms1 ms2 :
  took c c1 d1 ms1 -> took c1 c2 d2 ms2 -> took c c2 (d1 ++ d2) (ms1 ++ ms2).
Proof.
  intros [(rc & rc1 & recs1 & Ei & E1 & Hu1 & Ht1) Hd1 Hn1 Ho1 Hh1]
    [(rc1' & rc2 & recs2 & E1' & E2 & Hu2 & Ht2) Hd2 Hn2 Ho2 Hh2].
  rewrite E1 in E1'. injection E1' as <-. split; [|..|congruence|congruence].
  - exists rc, rc2, (recs1 ++ recs2). split_and!; [done|done|by eapply unseal_stream_app|by eapply taken_from_app].
  - rewrite app_data_app, app_assoc, Hd1, <-!app_assoc. by rewrite Hd2.
  - by rewrite Hn2, Hn1, existsb_app, orb_assoc.
Qed.

(** Only bytes were thrown away. *)
Definition with_rx c (rx : bytes) : Conn W := set_world c (set_rx (cn_raw c) rx, (cn_world c).2).

Lemma took_lost c rc lost rest :
  cn_inCipher c = Some rc -> conn_rx (cn_raw c) = lost ++ rest -> took c (with_rx c rest) [] [].
Proof.
  intros Hin Hrx. split; try done; [|by rewrite app_nil_r|by rewrite orb_false_r].
  exists rc, rc, []. split_and!; [done..|]. rewrite Hrx. apply tf_done.
Qed.

(** One record was opened. *)
Lemma took_record c rc rec rest t p rc' d buf notified :
  cn_inCipher c = Some rc -> conn_rx (cn_raw c) = rec ++ rest -> Unseal rec rc = (Ok (t, p), rc') ->
  cn_readBuf c = [] -> app_part (t, p) = d ++ buf ->
  notified = cn_closeNotifyReceived c || is_close_notify (t, p) ->
  took c (set_reader c rest rc' buf notified) d [(t, p)].
Proof.
  intros Hin Hrx Hu Hb Hd Hn. split; try done.
  - exists rc, rc', [rec]. split_and!; [done|done| |].
    + cbn [unseal_stream]. apply stM_bind_Ok. by eexists _, _.
    + rewrite Hrx. apply (tf_record [] rec [] rest rest), (tf_done [] rest).
  - rewrite Hb. unfold app_data. cbn [fmap list_fmap concat app]. by rewrite app_nil_r.
  - cbn. by rewrite orb_false_r.
Qed.

(** ** One round of the loop *)

Lemma with_rx_id c : with_rx c (conn_rx (cn_raw c)) = c.
Proof. unfold with_rx, set_world, set_rx, cn_raw. by destruct c as [[[] ?] ? ? ? ? ? ? ? ? ? ? ? ? ?]. Qed.

Lemma read_or_cases n eof c : 0 <= n ->
  (exists bs rest, conn_rx (cn_raw c) = bs ++ rest /\ zlen bs = n /\ read_or n eof c = (Ok bs, with_rx c rest)) \/
  (exists e lost rest, conn_rx (cn_raw c) = lost ++ rest /\ read_or n eof c = (Err e, with_rx c rest) /\
    zlen (conn_rx (cn_raw c)) < n /\
    (e = eof (cn_closeNotifyReceived c) \/ e = conn_rx_err (cn_raw c) /\ is_eof e = false)).
Proof.
  intros Hn. unfold read_or, on_raw, read_full, read_full_from. zlen_pos.
  destruct (Z.leb_spec n 0); [left; exists [], (conn_rx (cn_raw c)); split_and!; [done|rewrite zlen_nil; lia|done]|].
  destruct (Z.leb_spec n (zlen (conn_rx (cn_raw c)))).
  - left. exists (take_z n (conn_rx (cn_raw c))), (drop_z n (conn_rx (cn_raw c))).
    split; [by rewrite take_drop_z|]. split; [zlia|done].
  - right. set (e0 := conn_rx_err (cn_raw c)).
    assert ((if is_eof e0 then eof (cn_closeNotifyReceived c) else e0) = eof (cn_closeNotifyReceived c) \/
      (if is_eof e0 then eof (cn_closeNotifyReceived c) else e0) = e0 /\
      is_eof (if is_eof e0 then eof (cn_closeNotifyReceived c) else e0) = false) as He.
    { destruct (is_eof e0) eqn:Ee; [by left|by right]. }
    destruct (zlen (conn_rx (cn_raw c)) =? 0); [|destruct (same_error e0 io_EOF)];
      eexists _, (conn_rx (cn_raw c)), []; (split; [by rewrite app_nil_r|]);
      (split; [reflexivity|]); (split; [done|exact He || by left]).
Qed.

Lemma is_eof_EOF : is_eof io_EOF = true.
Proof. by vm_compute. Qed.

(** What a computation of the reading side may do, given what it hands out. *)
Definition reads_ok {A} (given : A -> bytes) c (out : result A * Conn W) : Prop :=
  exists msgs, took c out.2 (match out.1 with Ok a => given a | _ => [] end) msgs /\
    (out.1 = Err io_EOF -> cn_closeNotifyReceived out.2 = true).

(** What one round may do besides: it goes on only after it has taken a record,
    with nothing buffered, and its own errors are not the fuel's. *)
Definition round_ok c (out : result (option bytes) * Conn W) : Prop :=
  reads_ok (default []) c out /\
  match out.1 with
  | Ok None => cn_readBuf out.2 = [] /\ (length (conn_rx (cn_raw out.2)) < length (conn_rx (cn_raw c)))%nat
  | Ok (Some _) => True
  | Err e => cn_readBuf out.2 = [] /\ (e = ErrOutOfFuel -> conn_rx_err (cn_raw c) = ErrOutOfFuel)
  | Panic => False
  end /\ conn_rx_err (cn_raw out.2) = conn_rx_err (cn_raw c).

Lemma lost_round c rc lost rest e :
  cn_inCipher c = Some rc -> cn_readBuf c = [] -> conn_rx (cn_raw c) = lost ++ rest ->
  (e = io_EOF -> cn_closeNotifyReceived c = true) ->
  (e = ErrOutOfFuel -> conn_rx_err (cn_raw c) = ErrOutOfFuel) ->
  round_ok c (Err e, with_rx c rest).
Proof.
  intros Hin Hb Hrx He Hf. split; [|by split_and!]. exists []. split; [by eapply took_lost|].
  cbn. by intros [= ->%He].
Qed.

Lemma record_round c rc rec rest t p rc' r d buf notified :
  cn_inCipher c = Some rc -> conn_rx (cn_raw c) = rec ++ rest -> Unseal rec rc = (Ok (t, p), rc') ->
  0 < zlen rec -> cn_readBuf c = [] -> app_part (t, p) = d ++ buf ->
  notified = cn_closeNotifyReceived c || is_close_notify (t, p) ->
  match r with
  | Ok o => default [] o = d /\ (o = None -> buf = [])
  | Err e => d = [] /\ buf = [] /\ (e = io_EOF -> notified = true) /\ e <> ErrOutOfFuel
  | Panic => False
  end ->
  round_ok c (r, set_reader c rest rc' buf notified).
Proof.
  intros Hin Hrx Hu Hl Hb Hd Hn Hr. pose proof (took_record _ _ _ _ _ _ _ _ _ _ Hin Hrx Hu Hb Hd Hn) as Ht.
  split; [exists [(t, p)]; split|split; [|done]].
  - destruct r as [o|e|]; cbn; [by destruct Hr as [-> _]|by destruct Hr as [<- _]|done].
  - destruct r as [o|e|]; cbn; [done| |done]. destruct Hr as (_ & _ & He & _). by intros [= ->%He].
  - destruct r as [[x|]|e|]; cbn; [done| | |done].
    + destruct Hr as [_ Hr]. split; [by apply Hr|]. rewrite Hrx, length_app. unfold zlen in Hl. lia.
    + by destruct Hr as (_ & -> & _ & Hf).
Qed.

Lemma in_Unseal_cases c rc rec :
  cn_inCipher c = Some rc -> cipher_ok rc ->
  (exists t p rc', Unseal rec rc = (Ok (t, p), rc') /\
    in_Unseal rec c = (Ok (t, p), set_reader c (conn_rx (cn_raw c)) rc' (cn_readBuf c) (cn_closeNotifyReceived c))) \/
  (exists e, in_Unseal rec c = (Err e, c)).
Proof.
  intros Hin Hok. pose proof (Unseal_state rec rc) as Hs. pose proof (Unseal_evolves rec rc Hok) as Hp.
  unfold in_Unseal. rewrite Hin. destruct (Unseal rec rc) as [[[t p]|e|] rc'] eqn:Eu.
  - left. by exists t, p, rc'.
  - right. exists e. cbn in Hs. subst rc'. by rewrite set_reader_same.
  - by destruct Hp.
Qed.

Lemma alert_is_close_notify p :
  zlen p = 2 -> byte_at p 0 = x01 -> byte_at p 1 = x00 -> p = close_notify.
Proof.
  destruct p as [|a [|b [|? ?]]]; intros Hl Ha Hb; try discriminate; [|unfold zlen in Hl; cbn in Hl; lia].
  change (a = x01) in Ha. change (b = x00) in Hb. by subst.
Qed.

(** What the loop makes of an opened record. *)
Definition reply (n : Z) (recType : RecordType) (plaintext : bytes) : stM (Conn W) (option bytes) :=
  if bool_decide (recType = RecordTypeAlert) then
    reject_if negb (zlen plaintext =? 2) with Errorf "teetls: malformed alert length %d" [FInt (zlen plaintext)];
    if bool_decide (byte_at plaintext 0 = x01) && bool_decide (byte_at plaintext 1 = x00)
    then _ ← set_notified; throw io_EOF
    else throw (Errorf "teetls: received alert (level %d, desc %d)"
                  [FInt (byte_to_Z (byte_at plaintext 0)); FInt (byte_to_Z (byte_at plaintext 1))])
  else
    reject_if negb (bool_decide (recType = RecordTypeApplicationData))
      with Errorf "teetls: unexpected post-handshake record type %d" [FInt (byte_to_Z recType)];
    if zlen plaintext =? 0 then mret None
    else
      _ ← (if n <? zlen plaintext then set_readBuf (drop_z n plaintext) else mret tt);
      mret (Some (take_z n plaintext)).

Lemma record_reply n c rc rec rest t p rc' :
  0 < n -> cn_inCipher c = Some rc -> cn_readBuf c = [] -> conn_rx (cn_raw c) = rec ++ rest ->
  Unseal rec rc = (Ok (t, p), rc') -> 0 < zlen rec ->
  round_ok c (reply n t p (set_reader c rest rc' [] (cn_closeNotifyReceived c))).
Proof.
  intros Hn Hin Hb Hrx Hu Hl. unfold reply.
  assert (forall d buf r notified, app_part (t, p) = d ++ buf ->
    notified = cn_closeNotifyReceived c || is_close_notify (t, p) ->
    match r with
    | Ok o => default [] o = d /\ (o = None -> buf = [])
    | Err e => d = [] /\ buf = [] /\ (e = io_EOF -> notified = true) /\ e <> ErrOutOfFuel
    | Panic => False
    end -> round_ok c (r, set_reader c rest rc' buf notified)) as Hround by (intros; by eapply record_round).
  destruct (bool_decide_reflect (t = RecordTypeAlert)) as [->|Ha].
  - assert (app_part (RecordTypeAlert, p) = [] ++ []) as Hd by done.
    destruct (Z.eqb_spec (zlen p) 2) as [H2|H2]; cbn [negb].
    + destruct (bool_decide_reflect (byte_at p 0 = x01)) as [E0|E0]; cbn [andb];
        [destruct (bool_decide_reflect (byte_at p 1 = x00)) as [E1|E1]|]; cbn [andb].
      * apply (Hround [] [] (Err io_EOF) true); [done| |by split_and!].
        rewrite (alert_is_close_notify p) by done. unfold is_close_notify.
        by rewrite bool_decide_eq_true_2, orb_true_r.
      * apply (Hround [] []); [done| |by split_and!]. unfold is_close_notify.
        rewrite bool_decide_eq_false_2, orb_false_r; [done|]. by intros [= ->].
      * apply (Hround [] []); [done| |by split_and!]. unfold is_close_notify.
        rewrite bool_decide_eq_false_2, orb_false_r; [done|]. by intros [= ->].
    + apply (Hround [] []); [done| |by split_and!]. unfold is_close_notify.
      rewrite bool_decide_eq_false_2, orb_false_r; [done|]. by intros [= ->].
  - assert (cn_closeNotifyReceived c = cn_closeNotifyReceived c || is_close_notify (t, p)) as Hnot.
    { unfold is_close_notify. rewrite bool_decide_eq_false_2, orb_false_r; [done|]. by intros [= ->]. }
    unfold app_part in Hround. cbn [fst snd] in Hround.
    destruct (bool_decide_reflect (t = RecordTypeApplicationData)) as [->|Ht]; cbn [negb].
    + destruct (Z.eqb_spec (zlen p) 0) as [Hz|Hz].
      * apply zlen_nil_inv in Hz as ->. by apply (Hround [] []).
      * destruct (Z.ltb_spec n (zlen p)).
        -- apply (Hround (take_z n p) (drop_z n p)); [by rewrite take_drop_z|done|by split].
        -- rewrite take_z_all by done. apply (Hround p []); [by rewrite app_nil_r|done|by split].
    + by apply (Hround [] []).
Qed.

Lemma read_round_ok n c rc :
  0 < n -> cn_inCipher c = Some rc -> cipher_ok rc -> cn_readBuf c = [] -> round_ok c (read_round n c).
Proof.
  intros Hn Hin Hok Hb. unfold read_round, mbind, stM_bind.
  destruct (read_or_cases RecordHeaderLen (fun notified => if notified then io_EOF else ErrNoCloseNotify) c)
    as [(header & rest & Hrx & Hl & ->)|(e & lost & rest & Hrx & -> & _ & He)]; [done| |].
  2: { eapply lost_round; [done..| |].
    - intros ->. destruct (cn_closeNotifyReceived c); [done|].
      destruct He as [He|[_ He]]; [done|]. by rewrite is_eof_EOF in He.
    - intros ->. destruct He as [He|[He _]]; [by destruct (cn_closeNotifyReceived c)|done]. }
  destruct (negb _); [by eapply lost_round|]. destruct (_ || _) eqn:Eg; [by eapply lost_round|].
  apply orb_false_iff in Eg as [Eg _]. zbool.
  destruct (read_or_cases (be_uint (slice header 3 5)) (fun _ => ErrTruncatedRecord) (with_rx c rest))
    as [(payload & rest' & Hrx' & Hl' & ->)|(e & lost & rest' & Hrx' & -> & _ & He)]; [lia| |]; cbn in Hrx'.
  2: { change (with_rx (with_rx c rest) rest') with (with_rx c rest').
    eapply (lost_round _ _ (header ++ lost)); [done|done|by rewrite Hrx, Hrx', app_assoc|..].
    - intros ->. destruct He as [He|[_ He]]; [done|]. by rewrite is_eof_EOF in He.
    - intros ->. destruct He as [He|[He _]]; done. }
  change (with_rx (with_rx c rest) rest') with (with_rx c rest').
  assert (conn_rx (cn_raw c) = (header ++ payload) ++ rest') as Hrec by (by rewrite Hrx, Hrx', app_assoc).
  clear Hrx Hrx'. unfold map_err, stM_map_err.
  destruct (in_Unseal_cases (with_rx c rest') rc (header ++ payload) Hin Hok) as [(t & p & rc' & Hu & ->)|(e & ->)];
    [|by eapply lost_round].
  change (cn_readBuf (with_rx c rest')) with (cn_readBuf c). rewrite Hb.
  apply (record_reply n c rc (header ++ payload) rest' t p rc'); try done.
  rewrite zlen_app, Hl. unfold RecordHeaderLen. lia.
Qed.

Lemma read_round_len n c d c' : 0 < n -> read_round n c = (Ok (Some d), c') -> 0 < zlen d <= n.
Proof.
  intros Hn H. unfold read_round in H. inv_stm. destruct v1 as [t p]. inv_stm.
  destruct (bool_decide (t = RecordTypeAlert)).
  - inv_stm. destruct (_ && _); inv_stm; discriminate.
  - inv_stm. zlen_pos. destruct (Z.eqb_spec (zlen p) 0); [by inv_stm|]. inv_stm. zlia.
Qed.

Lemma unseal_stream_ok recs rc ms rc' : cipher_ok rc -> unseal_stream recs rc = (Ok ms, rc') -> cipher_ok rc'.
Proof.
  revert rc ms. induction recs as [|rec recs IH]; intros rc ms Hok Hu; cbn [unseal_stream] in Hu; inv_stm; [done|].
  eapply IH; [by eapply Unseal_Ok_cipher|eassumption].
Qed.

(** A connection whose reading side is set up. *)
Definition reading c : Prop := exists rc, cn_inCipher c = Some rc /\ cipher_ok rc.

Lemma took_reading c c' d ms : took c c' d ms -> reading c -> reading c'.
Proof.
  intros [(rc & rc' & recs & Hin & Hin' & Hu & _) _ _ _ _] (rc0 & Hin0 & Hok). rewrite Hin in Hin0.
  injection Hin0 as <-. exists rc'. split; [done|by eapply unseal_stream_ok].
Qed.

(** ** [Read] *)

(** What a call of [Read] that returns [r] may do: hand out at least one byte, or
    fail with nothing buffered; and report the end of the stream only when the
    peer's close_notify was opened. *)
Definition read_ok (n : Z) c (out : result bytes * Conn W) : Prop :=
  reads_ok id c out /\
  match out.1 with
  | Ok d => 0 < zlen d <= n
  | Err e => cn_readBuf c = [] /\ cn_readBuf out.2 = [] /\
      (e = ErrOutOfFuel -> conn_rx_err (cn_raw c) = ErrOutOfFuel)
  | Panic => False
  end.

Lemma take_of_buffer n c : 0 < n -> reading c -> 0 < zlen (cn_readBuf c) ->
  read_ok n c ((_ ← set_readBuf (drop_z n (cn_readBuf c)); mret (take_z n (cn_readBuf c))) c).
Proof.
  intros Hn (rc & Hin & Hok) Hb. split; [|change (0 < zlen (take_z n (cn_readBuf c)) <= n); zlia].
  exists []. split; [|done]. split; try done.
  - exists rc, rc, []. split_and!; [done..|]. apply (tf_done []).
  - cbn. rewrite app_nil_r. symmetry. apply take_drop_z.
  - cbn. by rewrite orb_false_r.
Qed.

Lemma read_loop_ok n m f c : (length (conn_rx (cn_raw c)) < m <= f)%nat ->
  0 < n -> reading c -> cn_readBuf c = [] ->
  read_loop f n c = read_loop m n c /\ read_ok n c (read_loop m n c).
Proof.
  intros Hm Hn. revert f c Hm. induction m as [|m IH]; intros [|f] c Hm Hr Hb; [lia..|].
  cbn [read_loop]. unfold mbind, stM_bind. destruct Hr as (rc & Hin & Hok).
  destruct (read_round_ok n c rc Hn Hin Hok Hb) as ((msgs & Ht & He) & Hr & Hx).
  destruct (read_round n c) as [[[d|]|e|] c1] eqn:Er; cbn [fst snd default from_option] in *; [| |split; [done|]|done].
  - split; [done|]. split; [by exists msgs|]. cbn.
    pose proof (read_round_len n c d c1 Hn Er). lia.
  - destruct Hr as [Hb1 Hl]. destruct (IH f c1) as [Hf [(msgs' & Ht' & He') Hq]]; [lia| |done|].
    { eapply took_reading; [exact Ht|by exists rc]. }
    split; [exact Hf|]. split.
    + exists (msgs ++ msgs'). split; [|done]. exact (took_trans _ _ _ _ _ _ _ Ht Ht').
    + change (match (read_loop m n c1).1 with Ok d => 0 < zlen d <= n | Err e => cn_readBuf c = [] /\
        cn_readBuf (read_loop m n c1).2 = [] /\ (e = ErrOutOfFuel -> conn_rx_err (cn_raw c) = ErrOutOfFuel)
        | Panic => False end).
      destruct ((read_loop m n c1).1); [done| |done]. destruct Hq as (_ & ? & Hq).
      split_and!; [done|done|]. intros Hfu. rewrite <-Hx. by apply Hq.
  - split; [exists msgs; split; [done|]; cbn; intros [= ->]; by apply He|]. cbn. by destruct Hr.
Qed.

Lemma took_nothing c : reading c -> took c c [] [].
Proof.
  intros (rc & Hin & Hok). split; try done; [|by rewrite app_nil_r|by rewrite orb_false_r].
  exists rc, rc, []. split_and!; [done..|]. apply (tf_done []).
Qed.

(** A side that reads past its handshake. *)
Definition established_reader c : Prop := cn_handshakeDone c = true /\ reading c.

Lemma took_established c c' d ms : took c c' d ms -> established_reader c -> established_reader c'.
Proof. intros Ht [Hd Hr]. split; [by rewrite (tk_done _ _ _ _ Ht)|by eapply took_reading]. Qed.
End stream.

Section reads.
Context `{SM3, SM4, HKDF, SM2, X509} {W : Type}.
Implicit Types c : Conn W.

Lemma conn_Read_done su n c :
  cn_handshakeDone c = true ->
  conn_Read su n c =
    if n =? 0 then (Ok [], c)
    else if 0 <? zlen (cn_readBuf c)
    then (_ ← set_readBuf (drop_z n (cn_readBuf c)); mret (take_z n (cn_readBuf c))) c
    else read_loop (S (length (conn_rx (cn_raw c)))) n c.
Proof.
  intros Hd. unfold conn_Read, conn_Handshake, handshake, mbind at 1, stM_bind at 1. rewrite Hd.
  by destruct (n =? 0).
Qed.

Lemma empty_buffer c : ~ 0 < zlen (cn_readBuf c) -> cn_readBuf c = [].
Proof. intros Hn. zlen_pos. apply zlen_nil_inv. lia. Qed.

Lemma conn_Read_spec su n c : 0 < n -> established_reader c -> read_ok n c (conn_Read su n c).
Proof.
  intros Hn [Hd Hr]. rewrite conn_Read_done by done. destruct (Z.eqb_spec n 0); [lia|].
  destruct (Z.ltb_spec 0 (zlen (cn_readBuf c))); [by apply take_of_buffer|].
  apply (read_loop_ok n _ (S (length (conn_rx (cn_raw c))))); [lia|done|done|by apply empty_buffer; lia].
Qed.

Lemma conn_Read_took su n c : 0 <= n -> established_reader c -> reads_ok id c (conn_Read su n c).
Proof.
  intros Hn He. destruct (Z.eq_dec n 0) as [->|]; [|apply conn_Read_spec; [lia|done]].
  rewrite conn_Read_done by apply He. exists []. split; [apply took_nothing, He|done].
Qed.

(** C10. [Read] on an established connection, as a reader of an abstract stream:
    it hands out between one byte and as many as asked for, taken from the
    front of what is buffered followed by the application data of the records
    it opened, in order; what it does not hand out of them stays buffered for
    the next call; when it fails nothing is buffered before or after, so no
    data is lost with the error; and it never loops forever (its fuel is the
    number of bytes received). *)
Theorem Read_refines_stream su n c :
  0 < n -> established_reader c ->
  let '(r, c') := conn_Read su n c in
  exists msgs, took c c' (match r with Ok d => d | _ => [] end) msgs /\
    match r with
    | Ok d => 0 < zlen d <= n
    | Err e => cn_readBuf c = [] /\ cn_readBuf c' = [] /\ app_data msgs = [] /\
        (e = ErrOutOfFuel -> conn_rx_err (cn_raw c) = ErrOutOfFuel)
    | Panic => False
    end.
Proof.
  intros Hn He. destruct (conn_Read_spec su n c Hn He) as [(msgs & Ht & _) Hr].
  destruct (conn_Read su n c) as [[d|e|] c']; cbn in *; exists msgs; (split; [done|]); [done| |done].
  destruct Hr as (Hb & Hb' & Hf). split_and!; [done|done| |done].
  pose proof (tk_data _ _ _ _ Ht) as Hd. by rewrite Hb, Hb' in Hd.
Qed.

(** ** Any sequence of reads *)

Fixpoint reads su (ns : list Z) c : list (result bytes) * Conn W :=
  match ns with
  | [] => ([], c)
  | n :: ns =>
      let '(r, c1) := conn_Read su n c in
      let '(rs, c2) := reads su ns c1 in
      (r :: rs, c2)
  end.

(** What a caller that ignores the errors has got. *)
Definition given (rs : list (result bytes)) : bytes := concat ((fun r => get_ok [] r) <$> rs).

Lemma reads_took su ns c : Forall (Z.le 0) ns -> established_reader c ->
  let '(rs, c') := reads su ns c in
  exists msgs, took c c' (given rs) msgs /\ (Err io_EOF ∈ rs -> cn_closeNotifyReceived c' = true).
Proof.
  intros Hns. revert c. induction Hns as [|n ns Hn _ IH]; intros c He; cbn [reads].
  { exists []. split; [apply took_nothing, He|by intros ?%elem_of_nil]. }
  destruct (conn_Read_took su n c Hn He) as (ms1 & Ht1 & Hn1).
  destruct (conn_Read su n c) as [r c1]. cbn [fst snd] in *.
  specialize (IH c1 (took_established _ _ _ _ Ht1 He)). destruct (reads su ns c1) as [rs c2].
  destruct IH as (ms2 & Ht2 & Hn2). exists (ms1 ++ ms2). split.
  - assert (given (r :: rs) = match r with Ok a => id a | _ => [] end ++ given rs) as -> by (by destruct r).
    by eapply took_trans.
  - intros [Hr|Hr]%elem_of_cons; [|by apply Hn2].
    rewrite (tk_notified _ _ _ _ Ht2), Hn1; [done|by rewrite Hr].
Qed.

Lemma sealed_of_unsealed recs rc ms rc' :
  cipher_ok rc -> unseal_stream recs rc = (Ok ms, rc') ->
  exists pads, length pads = length ms /\ seal_stream (zip ms pads) rc = (Ok recs, rc').
Proof.
  revert rc ms. induction recs as [|rec recs IH]; intros rc ms Hok Hu; cbn [unseal_stream] in Hu; inv_stm.
  { by exists []. }
  pose proof (Unseal_Ok_cipher _ _ _ _ Hok Hv) as Hok1. destruct v as [t p].
  apply Unseal_sealed in Hv as (Ht & -> & pad & Hs); [|done].
  apply IH in Hv0 as (pads & Hl & Hr); [|done]. exists (pad :: pads). split; [cbn; by rewrite Hl|].
  cbn [zip zip_with seal_stream]. apply stM_bind_Ok. exists rec, (incr_seq rc). split.
  - apply SealWithPadding_sealed; [by apply Hok| |done]. destruct Hs as [_ _ Hm _ _]. zlen_pos.
    unfold MaxCiphertextLength, GCMTagSize in *. lia.
  - apply stM_bind_Ok. by eexists _, _.
Qed.

(** C4. Integrity of the stream against whoever controls the network: over any
    sequence of [Read] calls on an established connection, also ones that
    failed, and whatever bytes arrived, there are messages such that the
    holder of an equal cipher who seals exactly these, in this order, makes
    byte for byte the records that were opened; the data handed out, with what
    is still buffered, is exactly the application data of these messages; and
    no call reports [io.EOF] unless a close_notify is among them (or was
    received before): cutting the stream short never passes for its end. *)
Theorem reads_authentic su ns c rc rs c' :
  Forall (Z.le 0) ns -> cn_handshakeDone c = true -> cn_inCipher c = Some rc -> cipher_ok rc ->
  reads su ns c = (rs, c') ->
  exists msgs pads recs rc', length pads = length msgs /\
    seal_stream (zip msgs pads) rc = (Ok recs, rc') /\ cn_inCipher c' = Some rc' /\
    taken_from recs (conn_rx (cn_raw c)) (conn_rx (cn_raw c')) /\
    cn_readBuf c ++ app_data msgs = given rs ++ cn_readBuf c' /\
    (Err io_EOF ∈ rs -> cn_closeNotifyReceived c = true \/ (RecordTypeAlert, close_notify) ∈ msgs).
Proof.
  intros Hns Hd Hin Hok Hr. pose proof (reads_took su ns c Hns) as Ht. rewrite Hr in Ht.
  destruct Ht as (msgs & [(rc0 & rc' & recs & Hin0 & Hin' & Hu & Htk) Hdata Hnot _ _] & Heof); [by split; [|exists rc]|].
  rewrite Hin in Hin0. injection Hin0 as <-.
  destruct (sealed_of_unsealed recs rc msgs rc' Hok Hu) as (pads & Hl & Hs).
  exists msgs, pads, recs, rc'. split_and!; [done..|]. intros He%Heof. rewrite Hnot in He.
  apply orb_true_iff in He as [He|He]; [by left|right].
  apply existsb_exists in He as (m & Hm & Hc%bool_decide_eq_true). subst m. by apply list_elem_of_In.
Qed.
End reads.

(** ** [Write] *)

Section writes.
Context {W : Type}.
Implicit Types c : Conn W.

Lemma writeFull_cases p r :
  (writeFull p r = (Ok tt, set_tx r (conn_tx r ++ p) (tail (conn_wscript r)))) \/
  (exists e sent, writeFull p r = (Err e, set_tx r (conn_tx r ++ sent) (tail (conn_wscript r))) /\ sent `prefix_of` p /\
    conn_wscript r <> []).
Proof.
  unfold writeFull, conn_write. destruct (conn_wscript r) as [|o script]; cbn [tail].
  { left. by rewrite Z.eqb_refl. }
  set (n := Z.max 0 (Z.min (wo_n o) (zlen p))).
  assert (take_z n p `prefix_of` p) as Hpre by (exists (drop_z n p); by rewrite take_drop_z).
  destruct (wo_err o) as [e|]; [right; by eexists _, _|].
  destruct (Z.eqb_spec n (zlen p)) as [E|]; cbn [negb]; [left; by rewrite E, take_z_all|right; by eexists _, _].
Qed.

(** The pieces of the data, as messages to seal. *)
Definition app_chunks (frags : list bytes) : list (RecordType * bytes * Z) :=
  (fun f => (RecordTypeApplicationData, f, 0)) <$> frags.
Definition chunk_size_ok (f : bytes) : Prop := 1 <= zlen f <= MaxPlaintextLength.

(** What a run of the loop does: [k] bytes went out as the records [recs], after
    them [partial] bytes of one more record that was not fully taken. *)
Record wrote c (b : bytes) (k : Z) (err : option error) (recs : list bytes) (c' : Conn W) : Prop := {
  wr_k : 0 <= k <= zlen b;
  wr_sealed : exists frags rc rc1, cn_outCipher c = Some rc /\ concat frags = take_z k b /\
    Forall chunk_size_ok frags /\ seal_stream (app_chunks frags) rc = (Ok recs, rc1) /\
    match err with
    | None => k = zlen b /\ cn_outCipher c' = Some rc1 /\ conn_tx (cn_raw c') = conn_tx (cn_raw c) ++ concat recs
    | Some _ => k < zlen b /\ exists partial, conn_tx (cn_raw c') = conn_tx (cn_raw c) ++ concat recs ++ partial /\
        (partial = [] \/ exists f rec rc2, Seal RecordTypeApplicationData f rc1 = (Ok rec, rc2) /\
           f `prefix_of` drop_z k b /\ partial `prefix_of` rec)
    end;
  wr_frame : exists tx script rc2, c' = set_writer c (set_tx (cn_raw c) tx script) rc2 /\
    (conn_wscript (cn_raw c) = [] -> script = [])
}.

Lemma set_tx_same r : set_tx r (conn_tx r) (conn_wscript r) = r.
Proof. by destruct r. Qed.

Lemma wrote_nothing c rc k b err :
  cn_outCipher c = Some rc -> k = 0 -> (err = None <-> zlen b = 0) ->
  wrote c b k err [] (set_writer c (cn_raw c) rc).
Proof.
  intros Hout -> He. zlen_pos.
  split; [lia| |exists (conn_tx (cn_raw c)), (conn_wscript (cn_raw c)), rc; by rewrite set_tx_same].
  exists [], rc, rc. split_and!; [done|done|constructor|done|].
  destruct err as [e|].
  - split; [destruct (Z.eq_dec (zlen b) 0) as [Hz|]; [by apply He in Hz|lia]|].
    exists []. split; [by rewrite app_nil_r|by left].
  - split; [symmetry; by apply He|]. split; [done|by rewrite app_nil_r].
Qed.

Lemma set_writer_same c rc : cn_outCipher c = Some rc -> set_writer c (cn_raw c) rc = c.
Proof.
  intros E. unfold set_writer, cn_raw. destruct c as [[? ?] ? ? ? ? ? ? ? ? ? ? ? ? ?]. cbn in *. by subst.
Qed.

(** One more record in front. *)
Lemma wrote_cons c rc rec f b k err recs c' :
  cn_outCipher c = Some rc -> f `prefix_of` b -> chunk_size_ok f ->
  Seal RecordTypeApplicationData f rc = (Ok rec, incr_seq rc) ->
  let c1 := set_writer c (set_tx (cn_raw c) (conn_tx (cn_raw c) ++ rec) (tail (conn_wscript (cn_raw c)))) (incr_seq rc) in
  wrote c1 (drop_z (zlen f) b) k err recs c' -> wrote c b (zlen f + k) err (rec :: recs) c'.
Proof.
  intros Hout [b' ->] Hf Hs c1 [Hk (frags & rc0 & rc1 & Ho & Hcat & Hfr & Hseal & Hres) (tx & sc & rc2 & -> & Hsc)].
  subst c1. rewrite drop_z_app in * by done. injection Ho as <-. zlen_pos.
  split; [rewrite zlen_app; lia| |].
  2: { exists tx, sc, rc2. split; [done|]. intros Hw. apply Hsc. cbn. by rewrite Hw. }
  exists (f :: frags), rc, rc1. split; [done|]. split.
  { cbn [concat]. rewrite Hcat. unfold take_z, zlen. rewrite Z2Nat.inj_add, Nat2Z.id by lia.
    by rewrite take_app_add. }
  split; [by constructor|]. split.
  { cbn [app_chunks fmap list_fmap seal_stream]. apply stM_bind_Ok. exists rec, (incr_seq rc). split; [exact Hs|].
    apply stM_bind_Ok. by exists recs, rc1. }
  destruct err as [e|].
  - destruct Hres as (Hlt & partial & Htx & Hp). split; [rewrite zlen_app; lia|]. exists partial. rewrite Htx. cbn. split; [by rewrite <-!app_assoc|].
    destruct Hp as [->|(g & rec' & rc3 & Hg & Hpre & Hpp)]; [by left|right]. exists g, rec', rc3. split_and!; [done| |done].
    replace (drop_z (zlen f + k) (f ++ b')) with (drop_z k b'); [done|].
    rewrite <-(drop_drop_z k (zlen f)) by lia. by rewrite drop_z_app.
  - destruct Hres as (-> & Ho & Htx). split; [by rewrite zlen_app|]. split; [done|]. rewrite Htx. cbn. by rewrite <-!app_assoc.
Qed.


(** The record was sealed but the connection did not take all of it. *)
Lemma wrote_partial c rc rec f b e sent :
  cn_outCipher c = Some rc -> f `prefix_of` b -> chunk_size_ok f ->
  Seal RecordTypeApplicationData f rc = (Ok rec, incr_seq rc) -> sent `prefix_of` rec ->
  wrote c b 0 (Some e) []
    (set_writer c (set_tx (cn_raw c) (conn_tx (cn_raw c) ++ sent) (tail (conn_wscript (cn_raw c)))) (incr_seq rc)).
Proof.
  intros Hout Hf Hc Hs Hp. pose proof (zlen_nonneg b).
  split; [lia| |eexists _, _, _; split; [reflexivity|by intros ->]].
  exists [], rc, rc. do 4 (split; [done|]).
  split; [destruct Hf as [x ->]; destruct Hc; rewrite zlen_app; zlen_pos; lia|].
  exists sent. split; [done|right]. exists f, rec, (incr_seq rc). by rewrite drop_z_0.
Qed.

Lemma Seal_app_cases f rc :
  cipher_ok rc -> chunk_size_ok f ->
  (exists rec, Seal RecordTypeApplicationData f rc = (Ok rec, incr_seq rc) /\ seqno rc < max_uint64) \/
  (exists e, Seal RecordTypeApplicationData f rc = (Err e, rc) /\ seqno rc = max_uint64).
Proof.
  intros Hok [_ Hf]. destruct (cipher_seq _ Hok) as [_ Hs]. destruct (Z.eq_dec (seqno rc) max_uint64) as [He|].
  - right. pose proof (SealWithPadding_state RecordTypeApplicationData f 0 rc) as Hst.
    destruct (SealWithPadding_cases rc RecordTypeApplicationData f 0 Hok) as (ct & Hc & _); [lia|].
    unfold Seal. destruct (SealWithPadding _ f 0 rc) as [r rc1]. cbn [fst] in Hc. subst r. zlen_pos.
    unfold MaxPlaintextLength, GCMTagSize, MaxCiphertextLength in *. rewrite He, Z.eqb_refl in *.
    rewrite (proj2 (Z.ltb_ge 16384 (zlen f))), (proj2 (Z.leb_gt (2 ^ 63) _)), (proj2 (Z.ltb_ge (16384 + 256) _)) in * by lia.
    cbn in Hst. subst rc1. by eexists.
  - left. destruct (Seal_chunk RecordTypeApplicationData f rc) as [rec Hrec]; [done|done|lia|].
    exists rec. split; [done|lia].
Qed.

Lemma take_chunk_ok (b : bytes) (Hb : 0 < zlen b) :
  let n := if MaxPlaintextLength <? zlen b then MaxPlaintextLength else zlen b in
  chunk_size_ok (take_z n b) /\ zlen (take_z n b) = n /\ take_z n b `prefix_of` b.
Proof.
  cbv zeta. unfold chunk_size_ok, MaxPlaintextLength.
  split; [|split; [|eexists; by rewrite take_drop_z]]; destruct (Z.ltb_spec 16384 (zlen b)); zlia.
Qed.

Lemma write_loop_wrote fuel t b c rc :
  (length b < fuel)%nat -> cn_outCipher c = Some rc -> cipher_ok rc ->
  exists k err recs c', write_loop fuel t b c = (Ok (t + k, err), c') /\ wrote c b k err recs c' /\
    (conn_wscript (cn_raw c) = [] -> seqno rc + zlen b < max_uint64 -> err = None).
Proof.
  revert t b c rc. induction fuel as [|fuel IH]; intros t b c rc Hf Hout Hok; [lia|]. cbn [write_loop]. zlen_pos.
  destruct (Z.ltb_spec 0 (zlen b)) as [Hb|Hb].
  - destruct (take_chunk_ok b Hb) as (Hc & Hl & Hp). set (n := if _ <? _ then _ else _) in *.
    set (f := take_z n b) in *. unfold out_Seal. rewrite Hout.
    destruct (Seal_app_cases f rc Hok Hc) as [(rec & Hs & Hlt)|(e & Hs & He)]; rewrite Hs.
    + unfold on_raw. change (cn_raw (set_writer c (cn_raw c) (incr_seq rc))) with (cn_raw c).
      destruct (writeFull_cases rec (cn_raw c)) as [->|(e & sent & -> & Hsent & Hw)].
      * set (c1 := set_world _ _).
        destruct (IH (t + n) (drop_z n b) c1 (incr_seq rc)) as (k & err & recs & c' & -> & Hwr & Hnone).
        { destruct Hc. assert (zlen (drop_z n b) < zlen b) as Hd by zlia. unfold zlen in Hd. lia. }
        { done. }
        { by apply incr_seq_ok. }
        exists (n + k), err, (rec :: recs), c'. split; [do 3 f_equal; lia|]. split.
        -- rewrite <-Hl. rewrite <-Hl in Hwr. eapply wrote_cons; [exact Hout|exact Hp|exact Hc|exact Hs|exact Hwr].
        -- intros Hw Hsq. apply Hnone; [cbn; by rewrite Hw|].
           rewrite incr_seq_seqno by (destruct (cipher_seq _ Hok); lia). destruct Hc. zlia.
      * eexists 0, (Some e), [], _. split; [by rewrite Z.add_0_r|]. split; [by apply (wrote_partial c rc rec f b e sent)|done].
    + eexists 0, _, [], _. split; [by rewrite Z.add_0_r|]. split.
      * apply wrote_nothing; [done|done|split; [done|lia]].
      * lia.
  - eexists 0, None, [], _. split; [by rewrite Z.add_0_r|]. split; [|done].
    rewrite <-(set_writer_same c rc) at 2 by done. apply wrote_nothing; [done|done|split; [lia|done]].
Qed.
End writes.

(** ** From one side to the other *)

(** [frags] are the plaintexts of the application records [recs]. *)
Definition app_records (rc : RecordCipher) (recs frags : list bytes) (rc' : RecordCipher) : Prop :=
  unseal_stream recs rc = (Ok ((fun f => (RecordTypeApplicationData, f)) <$> frags), rc').

Lemma app_records_cons rc recs f frags rc' :
  app_records rc recs (f :: frags) rc' ->
  exists rec recs' rc1, recs = rec :: recs' /\ Unseal rec rc = (Ok (RecordTypeApplicationData, f), rc1) /\
    app_records rc1 recs' frags rc'.
Proof.
  unfold app_records. destruct recs as [|rec recs]; cbn [unseal_stream]; intros H; inv_stm. cbn in H. simplify_eq.
  by eexists _, _, _.
Qed.

Lemma app_records_nil rc recs rc' : app_records rc recs [] rc' -> recs = [] /\ rc' = rc.
Proof.
  unfold app_records. destruct recs as [|rec recs]; cbn [unseal_stream]; intros H; inv_stm. done.
Qed.

Lemma app_records_of_sealed frags rc recs rc' :
  cipher_ok rc -> seal_stream (app_chunks frags) rc = (Ok recs, rc') ->
  app_records rc recs frags rc' /\ cipher_ok rc'.
Proof.
  intros Hok Hs. destruct (unseal_sealed_stream (app_chunks frags) rc recs rc' Hok) as [Hu Hok']; [|done|].
  - apply Forall_fmap, Forall_true. by intros f.
  - split; [|done]. unfold app_chunks in Hu. rewrite <-list_fmap_compose in Hu. exact Hu.
Qed.

Section transfer.
Context {W : Type}.
Implicit Types c : Conn W.

Lemma read_or_app n eof c a b :
  zlen a = n -> conn_rx (cn_raw c) = a ++ b -> read_or n eof c = (Ok a, with_rx c b).
Proof. intros Ha Hrx. unfold read_or, on_raw. by rewrite (read_full_app n a b). Qed.

(** A whole record at the front is opened and answered. *)
Lemma read_round_record n c rc rec rest t p rc' :
  cn_inCipher c = Some rc -> cipher_ok rc -> conn_rx (cn_raw c) = rec ++ rest ->
  Unseal rec rc = (Ok (t, p), rc') ->
  read_round n c = reply n t p (set_reader c rest rc' (cn_readBuf c) (cn_closeNotifyReceived c)).
Proof.
  intros Hin Hok Hrx Hu. destruct (Unseal_Ok_shape _ _ _ _ _ Hok Hu) as (L & ct & -> & Hct & HL & _).
  unfold MaxCiphertextLength in *. destruct (record_header_fields L [] ltac:(lia)) as (E0 & _ & E2 & _ & _).
  rewrite app_nil_r in E0, E2. unfold read_round, mbind at 1, stM_bind at 1.
  rewrite (read_or_app _ _ c (record_header L) (ct ++ rest)); [|apply zlen_record_header|by rewrite Hrx, <-app_assoc].
  rewrite E0, E2, bool_decide_eq_true_2 by done. unfold MaxCiphertextLength. cbn [negb].
  rewrite (proj2 (Z.leb_gt L 0)), (proj2 (Z.ltb_ge (16384 + 256) L)) by lia. cbn [orb].
  unfold mbind at 1, stM_bind at 1. rewrite (read_or_app _ _ _ ct rest) by done.
  unfold mbind at 1, stM_bind at 1, map_err, stM_map_err.
  assert (in_Unseal (record_header L ++ ct) (with_rx (with_rx c (ct ++ rest)) rest) =
    (Ok (t, p), set_reader c rest rc' (cn_readBuf c) (cn_closeNotifyReceived c))) as ->; [|reflexivity].
  unfold in_Unseal. change (cn_inCipher (with_rx _ _)) with (cn_inCipher c). by rewrite Hin, Hu.
Qed.

(** The connection has [data] to hand out, then the peer's close_notify, then
    [rest]. *)
Record holds c (data rest : bytes) : Prop := {
  ho_done : cn_handshakeDone c = true;
  ho_stream : exists rc recs frags rc1 alert rc2, cn_inCipher c = Some rc /\ cipher_ok rc /\
    app_records rc recs frags rc1 /\ Forall chunk_size_ok frags /\
    Unseal alert rc1 = (Ok (RecordTypeAlert, close_notify), rc2) /\
    conn_rx (cn_raw c) = concat recs ++ alert ++ rest /\ data = cn_readBuf c ++ concat frags
}.
End transfer.

Lemma seal_stream_app ms1 ms2 rc recs1 rc1 recs2 rc2 :
  seal_stream ms1 rc = (Ok recs1, rc1) -> seal_stream ms2 rc1 = (Ok recs2, rc2) ->
  seal_stream (ms1 ++ ms2) rc = (Ok (recs1 ++ recs2), rc2).
Proof.
  revert rc recs1. induction ms1 as [|[[t p] pad] ms1 IH]; intros rc recs1 H1 H2; cbn [app seal_stream] in *;
    inv_stm; [done|].
  apply stM_bind_Ok. eexists _, _. split; [eassumption|]. apply stM_bind_Ok. eexists _, _.
  split; [by eapply IH|done].
Qed.

Section deliver.
Context `{SM3, SM4, HKDF, SM2, X509} {W : Type}.
Implicit Types c : Conn W.

Lemma holds_nothing su n c rest :
  0 < n -> holds c [] rest ->
  exists c', conn_Read su n c = (Err io_EOF, c') /\ conn_rx (cn_raw c') = rest.
Proof.
  intros Hn [Hd (rc & recs & frags & rc1 & alert & rc2 & Hin & Hok & Ha & Hf & Hu & Hrx & Hb)].
  symmetry in Hb. apply app_nil in Hb as [Hb Hc]. destruct frags as [|f frags].
  2: { exfalso. inversion_clear Hf as [|? ? [Hf' _] _]. apply app_nil in Hc as [-> _]. rewrite zlen_nil in Hf'. lia. }
  apply app_records_nil in Ha as [-> ->]. cbn in Hrx. rewrite conn_Read_done, Hb by done.
  destruct (Z.eqb_spec n 0); [lia|]. cbn [zlen Z.ltb]. change (0 <? zlen (@nil Byte.byte)) with false. cbv iota.
  cbn [read_loop]. unfold mbind, stM_bind.
  rewrite (read_round_record n c rc alert rest _ _ rc2) by done. eexists. split; [reflexivity|done].
Qed.

Lemma holds_data su n c data rest :
  0 < n -> holds c data rest -> data <> [] ->
  exists d data' c', conn_Read su n c = (Ok d, c') /\ data = d ++ data' /\ 0 < zlen d <= n /\ holds c' data' rest.
Proof.
  intros Hn [Hd (rc & recs & frags & rc1 & alert & rc2 & Hin & Hok & Ha & Hf & Hu & Hrx & ->)] Hne.
  rewrite conn_Read_done by done. destruct (Z.eqb_spec n 0); [lia|].
  destruct (Z.ltb_spec 0 (zlen (cn_readBuf c))) as [Hb|Hb].
  - exists (take_z n (cn_readBuf c)), (drop_z n (cn_readBuf c) ++ concat frags). eexists.
    split; [reflexivity|]. split; [by rewrite app_assoc, take_drop_z|]. split; [zlia|].
    split; [done|]. by exists rc, recs, frags, rc1, alert, rc2.
  - assert (cn_readBuf c = []) as Hbe by (apply empty_buffer; lia). rewrite Hbe in *. cbn [app] in *.
    destruct frags as [|f frags]; [done|]. inversion_clear Hf as [|? ? Hf1 Hfs].
    apply app_records_cons in Ha as (rec & recs' & rc3 & -> & Hu1 & Ha). cbn [concat] in *.
    rewrite <-app_assoc in Hrx. cbn [read_loop]. unfold mbind, stM_bind.
    rewrite (read_round_record n c rc rec _ _ _ rc3 Hin Hok Hrx Hu1), Hbe.
    pose proof (Unseal_Ok_cipher _ _ _ _ Hok Hu1) as Hok3. destruct Hf1 as [Hf1 _].
    unfold reply. cbn [bool_decide]. rewrite (bool_decide_eq_false_2 (RecordTypeApplicationData = RecordTypeAlert)) by done.
    rewrite bool_decide_eq_true_2 by done. cbn [negb]. destruct (Z.eqb_spec (zlen f) 0); [lia|].
    destruct (Z.ltb_spec n (zlen f)) as [Hlt|Hge]; (eexists (take_z n f), (drop_z n f ++ concat frags), _; split; [reflexivity|]);
      (split; [by rewrite app_assoc, take_drop_z|]); (split; [zlia|]); (split; [done|]);
      exists rc3, recs', frags, rc1, alert, rc2; (split_and!; try done).
    by rewrite drop_z_all.
Qed.

(** Reading until an error, as [io.ReadAll] does with a buffer of [n] bytes. *)
Fixpoint read_all su (fuel : nat) (n : Z) c : bytes * result unit * Conn W :=
  match fuel with
  | O => ([], Err ErrOutOfFuel, c)
  | S fuel' =>
      match conn_Read su n c with
      | (Ok d, c1) => let '(ds, r, c2) := read_all su fuel' n c1 in (d ++ ds, r, c2)
      | (Err e, c1) => ([], Err e, c1)
      | (Panic, c1) => ([], Panic, c1)
      end
  end.

Lemma read_all_holds su n fuel c data rest :
  0 < n -> (length data < fuel)%nat -> holds c data rest ->
  exists c', read_all su fuel n c = (data, Err io_EOF, c') /\ conn_rx (cn_raw c') = rest.
Proof.
  intros Hn. revert c data. induction fuel as [|fuel IH]; intros c data Hf Hh; [lia|]. cbn [read_all].
  destruct data as [|x data].
  - destruct (holds_nothing su n c rest Hn Hh) as (c' & -> & Hr). by exists c'.
  - destruct (holds_data su n c (x :: data) rest Hn Hh) as (d & data' & c1 & -> & Hd & Hl & Hh1); [done|].
    destruct (IH c1 data') as (c2 & -> & Hr); [|done|].
    + rewrite Hd, length_app in Hf. unfold zlen in Hl. lia.
    + exists c2. by rewrite Hd.
Qed.

(** Several [Write] calls. *)
Fixpoint send_all su (bs : list bytes) c : list (result (Z * option error)) * Conn W :=
  match bs with
  | [] => ([], c)
  | b :: bs =>
      let '(r, c1) := conn_Write su b c in
      let '(rs, c2) := send_all su bs c1 in
      (r :: rs, c2)
  end.

Lemma conn_Write_done su b c :
  cn_handshakeDone c = true -> conn_Write su b c = write_loop (S (length b)) 0 b c.
Proof. intros Hd. unfold conn_Write, conn_Handshake, handshake. by rewrite Hd. Qed.

(** C27. Every outcome of [Write] on an established connection: it returns (never
    panics or loops); the count [k] it reports is the number of bytes that
    went out, in order, as whole records of at most 16384 bytes sealed one
    after the other; without an error that is all of the data and exactly
    these records were sent; with one it is less, and what else was sent is at
    most the front of one more sealed record.  On a connection that takes what
    it is given there is no error before the sequence numbers run out. *)
Theorem Write_outcome su b c rc :
  cn_handshakeDone c = true -> cn_outCipher c = Some rc -> cipher_ok rc ->
  exists k err recs c', conn_Write su b c = (Ok (k, err), c') /\ wrote c b k err recs c' /\
    (conn_wscript (cn_raw c) = [] -> seqno rc + zlen b < max_uint64 -> err = None).
Proof.
  intros Hd Hout Hok. rewrite conn_Write_done by done.
  destruct (write_loop_wrote (S (length b)) 0 b c rc) as (k & err & recs & c' & -> & Hw & He); [lia|done|done|].
  by exists k, err, recs, c'.
Qed.

Lemma seal_stream_seqno frags rc recs rc' :
  cipher_ok rc -> Forall chunk_size_ok frags -> seal_stream (app_chunks frags) rc = (Ok recs, rc') ->
  seqno rc' <= seqno rc + zlen (concat frags).
Proof.
  revert rc recs. induction frags as [|f frags IH]; intros rc recs Hok Hf Hs;
    cbn [app_chunks fmap list_fmap seal_stream] in Hs; inv_stm.
  { cbn. unfold zlen. cbn. lia. }
  inversion_clear Hf as [|? ? [Hf1 _] Hfs]. pose proof (cipher_seq _ Hok).
  apply seal_then_unseal in Hv as (_ & -> & Hlt); [|done|done|lia].
  apply IH in Hv0; [|by apply incr_seq_ok|done]. rewrite incr_seq_seqno in Hv0 by lia. cbn [concat]. zlia.
Qed.

(** What several writes leave when the connection takes everything. *)
Lemma send_all_sent su bs c rc :
  cn_handshakeDone c = true -> cn_outCipher c = Some rc -> cipher_ok rc -> conn_wscript (cn_raw c) = [] ->
  seqno rc + zlen (concat bs) < max_uint64 ->
  exists frags recs rc1 raw, send_all su bs c = ((fun b => Ok (zlen b, None)) <$> bs, set_writer c raw rc1) /\
    concat frags = concat bs /\ Forall chunk_size_ok frags /\
    seal_stream (app_chunks frags) rc = (Ok recs, rc1) /\ cipher_ok rc1 /\
    conn_tx raw = conn_tx (cn_raw c) ++ concat recs /\ conn_wscript raw = [] /\
    conn_deadline_err raw = conn_deadline_err (cn_raw c).
Proof.
  revert c rc. induction bs as [|b bs IH]; intros c rc Hd Hout Hok Hw Hs; cbn [send_all].
  - exists [], [], rc, (cn_raw c). rewrite set_writer_same by done. split_and!; try done. by rewrite app_nil_r.
  - cbn [concat] in Hs. rewrite zlen_app in Hs. zlen_pos. rewrite conn_Write_done by done.
    destruct (write_loop_wrote (S (length b)) 0 b c rc) as (k & err & recs & c' & Ew & Hwr & Hn); [lia|done|done|].
    rewrite Ew. assert (err = None) as -> by (apply Hn; [done|lia]).
    destruct Hwr as [_ (frags & rc0 & rc1 & Hout0 & Hcat & Hf & Hseal & -> & Hout1 & Htx) (tx & sc & rc2 & -> & Hsc)].
    rewrite Hout in Hout0. injection Hout0 as <-. cbn in Hout1. injection Hout1 as ->. rewrite (Hsc Hw) in *.
    rewrite take_z_all in Hcat by done. pose proof (seal_stream_seqno _ _ _ _ Hok Hf Hseal) as Hq. rewrite Hcat in Hq.
    destruct (app_records_of_sealed _ _ _ _ Hok Hseal) as [_ Hok1].
    destruct (IH (set_writer c (set_tx (cn_raw c) tx []) rc1) rc1)
      as (frags' & recs' & rc2 & raw & -> & Hcat' & Hf' & Hseal' & Hok2 & Htx' & Hw' & Hd'); [done..|lia|].
    exists (frags ++ frags'), (recs ++ recs'), rc2, raw. cbn in Htx. split_and!; try done.
    + by rewrite concat_app, Hcat, Hcat'.
    + by apply Forall_app.
    + unfold app_chunks. rewrite fmap_app. by apply (seal_stream_app _ _ _ _ rc1).
    + rewrite Htx'. cbn. by rewrite Htx, concat_app, app_assoc.
Qed.

Lemma Close_sends c rc :
  cn_handshakeDone c = true -> cn_closeOnce c = false -> cn_outCipher c = Some rc -> cipher_ok rc ->
  seqno rc < max_uint64 -> conn_deadline_err (cn_raw c) = None -> conn_wscript (cn_raw c) = [] ->
  exists rec c', Seal RecordTypeAlert close_notify rc = (Ok rec, incr_seq rc) /\
    Close c = (Ok (errors_join [None; conn_close_err (cn_raw c)]), c') /\
    conn_tx (cn_raw c') = conn_tx (cn_raw c) ++ rec.
Proof.
  intros Hd Ho Hout Hok Hs Hde Hw.
  destruct (send_close_notify_sends c rc Hok Hout Hs Hde Hw) as (rec & c1 & Hrec & Hsc & Htx & Hce & _).
  unfold Close. rewrite Ho, Hd, Hout, Hsc. cbn. exists rec. eexists. split; [exact Hrec|].
  split; [by rewrite Hce|exact Htx].
Qed.

End deliver.

Section exchange.
Context `{SM3, SM4, HKDF, SM2, X509} {W : Type}.
Implicit Types c : Conn W.

(** What a side that sends [bs] and closes puts on the wire, for a peer that
    holds the same cipher. *)
Lemma sent_is_held su bs c rc :
  cn_handshakeDone c = true -> cn_outCipher c = Some rc -> cipher_ok rc -> conn_wscript (cn_raw c) = [] ->
  conn_deadline_err (cn_raw c) = None -> cn_closeOnce c = false ->
  seqno rc + zlen (concat bs) < max_uint64 ->
  exists wire c1 c2 e, send_all su bs c = ((fun b => Ok (zlen b, None)) <$> bs, c1) /\ Close c1 = (Ok e, c2) /\
    conn_tx (cn_raw c2) = conn_tx (cn_raw c) ++ wire /\
    forall W' (r : Conn W') rest, cn_handshakeDone r = true -> cn_inCipher r = Some rc -> cn_readBuf r = [] ->
      conn_rx (cn_raw r) = wire ++ rest -> holds r (concat bs) rest.
Proof.
  intros Hd Hout Hok Hw Hde Ho Hs.
  destruct (send_all_sent su bs c rc) as (frags & recs & rc1 & raw & Hsend & Hcat & Hf & Hseal & Hok1 & Htx & Hw1 & Hde1);
    [done..|].
  pose proof (seal_stream_seqno _ _ _ _ Hok Hf Hseal) as Hq. rewrite Hcat in Hq.
  destruct (Close_sends (set_writer c raw rc1) rc1) as (rec & c2 & Hrec & Hcl & Htx2);
    [done|done|done|done|lia|by cbn; rewrite Hde1|done|].
  exists (concat recs ++ rec), (set_writer c raw rc1), c2. eexists. split; [exact Hsend|]. split; [exact Hcl|].
  split; [rewrite Htx2; cbn; by rewrite Htx, app_assoc|].
  intros W' r rest Hdr Hin Hb Hrx. destruct (app_records_of_sealed _ _ _ _ Hok Hseal) as [Ha _].
  split; [done|]. exists rc, recs, frags, rc1, rec, (incr_seq rc1). split; [done|]. split; [done|]. split; [done|].
  split; [done|]. split; [|split; [by rewrite Hrx, <-app_assoc|by rewrite Hb, Hcat]].
  unfold Seal in Hrec. by apply seal_then_unseal in Hrec as [? _]; [|done|done|].
Qed.

(** C11. Delivery: what one side passes to any number of [Write] calls, of any
    sizes, before it closes the connection, the other side reads, with reads of
    any size, whole, in order and followed by [io.EOF]; every [Write] reports
    its full length; and nothing after the close_notify is consumed. *)
Theorem write_close_read su su' bs c rc n :
  cn_handshakeDone c = true -> cn_outCipher c = Some rc -> cipher_ok rc -> conn_wscript (cn_raw c) = [] ->
  conn_deadline_err (cn_raw c) = None -> cn_closeOnce c = false ->
  seqno rc + zlen (concat bs) < max_uint64 -> 0 < n ->
  exists wire c1 c2 e, send_all su bs c = ((fun b => Ok (zlen b, None)) <$> bs, c1) /\ Close c1 = (Ok e, c2) /\
    conn_tx (cn_raw c2) = conn_tx (cn_raw c) ++ wire /\
    forall W' (r : Conn W') rest, cn_handshakeDone r = true -> cn_inCipher r = Some rc -> cn_readBuf r = [] ->
      conn_rx (cn_raw r) = wire ++ rest ->
      exists r', read_all su' (S (length (concat bs))) n r = (concat bs, Err io_EOF, r') /\
        conn_rx (cn_raw r') = rest.
Proof.
  intros Hd Hout Hok Hw Hde Ho Hs Hn.
  destruct (sent_is_held su bs c rc) as (wire & c1 & c2 & e & H1' & H2' & H3' & Hh); [done..|].
  exists wire, c1, c2, e. do 3 (split; [done|]). intros W' r rest Hdr Hin Hb Hrx.
  apply read_all_holds; [done|lia|by apply Hh].
Qed.
End exchange.

(** ** Instances *)

(** The records of three bytes and of the close, as the peer of [toy_ready_conn]
    sends them. *)
Definition toy_stream : bytes :=
  concat (get_ok [] (seal_stream [(RecordTypeApplicationData, [x01; x02; x03], 0);
    (RecordTypeAlert, close_notify, 0)] toy_cipher).1).

Abbreviation toy_Read := (@conn_Read MockEvidenceProvider toy_sm3 toy_sm4 toy_hkdf toy_sm2 toy_x509 toy_surroundings).
Abbreviation toy_reads := (@reads toy_sm3 toy_sm4 toy_hkdf toy_sm2 toy_x509 MockEvidenceProvider toy_surroundings).
Abbreviation toy_Write := (@conn_Write MockEvidenceProvider toy_sm3 toy_sm4 toy_hkdf toy_sm2 toy_x509 toy_surroundings).
Abbreviation toy_send_all := (@send_all toy_sm3 toy_sm4 toy_hkdf toy_sm2 toy_x509 MockEvidenceProvider toy_surroundings).
Abbreviation toy_read_all := (@read_all toy_sm3 toy_sm4 toy_hkdf toy_sm2 toy_x509 MockEvidenceProvider toy_surroundings).

Lemma toy_ready_established rx : established_reader (toy_ready_conn rx).
Proof. split; [done|]. exists toy_cipher. split; [done|apply toy_cipher_ok]. Qed.

Lemma Read_refines_stream_witness :
  (toy_Read 2 (toy_ready_conn toy_stream)).1 = Ok [x01; x02] /\
  exists msgs, took (toy_ready_conn toy_stream) (toy_Read 2 (toy_ready_conn toy_stream)).2 [x01; x02] msgs.
Proof.
  assert ((toy_Read 2 (toy_ready_conn toy_stream)).1 = Ok [x01; x02]) as E by (vm_compute; reflexivity).
  split; [exact E|].
  pose proof (@Read_refines_stream toy_sm3 toy_sm4 toy_hkdf toy_sm2 toy_x509 MockEvidenceProvider toy_surroundings 2
    (toy_ready_conn toy_stream) eq_refl (toy_ready_established toy_stream)) as Hr.
  destruct (toy_Read 2 (toy_ready_conn toy_stream)) as [r c']. cbn [fst snd] in *. subst r.
  destruct Hr as (msgs & Ht & _). exists msgs. exact Ht.
Defined.

Lemma reads_authentic_witness :
  (toy_reads [2; 2; 2] (toy_ready_conn toy_stream)).1 = [Ok [x01; x02]; Ok [x03]; Err io_EOF] /\
  exists msgs pads recs rc', seal_stream (zip msgs pads) toy_cipher = (Ok recs, rc') /\
    app_data msgs = [x01; x02; x03] ++ cn_readBuf (toy_reads [2; 2; 2] (toy_ready_conn toy_stream)).2.
Proof.
  assert ((toy_reads [2; 2; 2] (toy_ready_conn toy_stream)).1 = [Ok [x01; x02]; Ok [x03]; Err io_EOF]) as E
    by (vm_compute; reflexivity).
  split; [exact E|].
  destruct (@reads_authentic toy_sm3 toy_sm4 toy_hkdf toy_sm2 toy_x509 MockEvidenceProvider toy_surroundings [2; 2; 2]
    (toy_ready_conn toy_stream) toy_cipher _ _ ltac:(repeat constructor; discriminate) eq_refl eq_refl toy_cipher_ok
    (surjective_pairing _)) as (msgs & pads & recs & rc' & _ & Hs & _ & _ & Hd & _).
  exists msgs, pads, recs, rc'. split; [exact Hs|]. rewrite E in Hd. exact Hd.
Defined.

Lemma Write_outcome_witness :
  exists k err recs c', toy_Write [x07; x08] (toy_ready_conn []) = (Ok (k, err), c') /\
    wrote (toy_ready_conn []) [x07; x08] k err recs c' /\ err = None.
Proof.
  destruct (@Write_outcome toy_sm3 toy_sm4 toy_hkdf toy_sm2 toy_x509 MockEvidenceProvider toy_surroundings [x07; x08]
    (toy_ready_conn []) toy_cipher eq_refl eq_refl toy_cipher_ok) as (k & err & recs & c' & Hw & Hs & Hn).
  exists k, err, recs, c'. split; [exact Hw|]. split; [exact Hs|]. apply Hn; [reflexivity|by vm_compute].
Defined.

Lemma write_close_read_witness :
  let sent := (toy_send_all [[x07]; []; [x08; x09]] (toy_ready_conn [])).2 in
  exists r', toy_read_all 4 2 (toy_ready_conn (conn_tx (cn_raw (Close sent).2)))
    = ([x07; x08; x09], Err io_EOF, r').
Proof.
  destruct (@write_close_read toy_sm3 toy_sm4 toy_hkdf toy_sm2 toy_x509 MockEvidenceProvider toy_surroundings
    toy_surroundings [[x07]; []; [x08; x09]] (toy_ready_conn []) toy_cipher 2 eq_refl eq_refl toy_cipher_ok eq_refl
    eq_refl eq_refl ltac:(by vm_compute) eq_refl) as (wire & c1 & c2 & e & Hs & Hc & Htx & Hr).
  cbv zeta. rewrite Hs. cbn [snd]. rewrite Hc. cbn [snd]. rewrite Htx.
  destruct (Hr MockEvidenceProvider (toy_ready_conn wire) []) as (r' & Hread & _); [reflexivity|reflexivity|reflexivity| |].
  - symmetry. apply app_nil_r.
  - exists r'. exact Hread.
Defined.
