(* ===== verification/Duplex.v ===== *)
(** * Reading and writing at the same time

    [Read] holds one mutex and [Write] another, so the two may overlap.  They
    work on disjoint halves of the connection: each of their computations gives
    the same result and has the same effect on its own half whatever the rest
    of the connection is, and leaves that rest alone ([blind]).  So a reading
    and a writing computation commute. *)

From S2P Require Import Prelude Gcm Gmsm Toy NetIO Record Framing KeySchedule GoLib.
From S2P Require Import CsvReport CsvVerify CsvMock CsvClient Asn1 Evidence Gx509 Provider Cert.
From S2P Require Import Config Verifier Handshake Session Effects Conn ConnState Stream.

Section halves.
Context {W : Type}.
Implicit Types c d : Conn W.

(** [d] with what reading uses and changes taken from [c]. *)
Definition over_reader d c : Conn W :=
  Build_Conn
    ({| conn_rx := conn_rx (cn_raw c); conn_rx_err := conn_rx_err (cn_raw c); conn_tx := conn_tx (cn_raw d);
        conn_wscript := conn_wscript (cn_raw d); conn_deadline_err := conn_deadline_err (cn_raw d);
        conn_deadline_set := conn_deadline_set (cn_raw d); conn_close_err := conn_close_err (cn_raw d);
        conn_closed := conn_closed (cn_raw d) |}, (cn_world d).2)
    (cn_cfg d) (cn_isServer d) (cn_handshakeDone d) (cn_handshakeErr d) (cn_inCipher c) (cn_outCipher d)
    (cn_peerCertPEM d) (cn_peerEvidence d) (cn_peerCertificate d) (cn_readBuf c) (cn_closeNotifyReceived c)
    (cn_closeOnce d) (cn_closeErr d).

(** [d] with what writing uses and changes taken from [c]. *)
Definition over_writer d c : Conn W :=
  Build_Conn
    ({| conn_rx := conn_rx (cn_raw d); conn_rx_err := conn_rx_err (cn_raw d); conn_tx := conn_tx (cn_raw c);
        conn_wscript := conn_wscript (cn_raw c); conn_deadline_err := conn_deadline_err (cn_raw c);
        conn_deadline_set := conn_deadline_set (cn_raw c); conn_close_err := conn_close_err (cn_raw d);
        conn_closed := conn_closed (cn_raw d) |}, (cn_world d).2)
    (cn_cfg d) (cn_isServer d) (cn_handshakeDone d) (cn_handshakeErr d) (cn_inCipher d) (cn_outCipher c)
    (cn_peerCertPEM d) (cn_peerEvidence d) (cn_peerCertificate d) (cn_readBuf d) (cn_closeNotifyReceived d)
    (cn_closeOnce d) (cn_closeErr d).

Lemma over_reader_id c : over_reader c c = c.
Proof. by destruct c as [[[] ?] ? ? ? ? ? ? ? ? ? ? ? ? ?]. Qed.
Lemma over_writer_id c : over_writer c c = c.
Proof. by destruct c as [[[] ?] ? ? ? ? ? ? ? ? ? ? ? ? ?]. Qed.

(** ** Computations on one half *)

Section blind.
Context (over : Conn W -> Conn W -> Conn W).

(** [m] works on the half that [over] takes from its second argument. *)
Definition blind {A} (m : stM (Conn W) A) : Prop := forall d c, m (over d c) = ((m c).1, over d (m c).2).

Lemma blind_bind {A B} (m : stM (Conn W) A) (k : A -> stM (Conn W) B) :
  blind m -> (forall a, blind (k a)) -> blind (m ≫= k).
Proof.
  intros Hm Hk d c. unfold mbind, stM_bind. rewrite (Hm d c). destruct (m c) as [[a|e|] c1]; cbn; [apply Hk|done..].
Qed.

Lemma blind_pure {A} (r : result A) : blind (fun c => (r, c)).
Proof. by intros d c. Qed.

Lemma blind_map_err {A} g (m : stM (Conn W) A) : blind m -> blind (map_err g m).
Proof.
  intros Hm d c. unfold map_err, stM_map_err. rewrite (Hm d c). by destruct (m c) as [[a|e|] c1].
Qed.

Lemma blind_if {A} (b : bool) (m1 m2 : stM (Conn W) A) : blind m1 -> blind m2 -> blind (if b then m1 else m2).
Proof. by destruct b. Qed.

(** A computation and three ways to go on. *)
Lemma blind_cases {A B} (m : stM (Conn W) A) (k : A -> stM (Conn W) B) (f : error -> result B) :
  blind m -> (forall a, blind (k a)) ->
  blind (fun c => match m c with (Ok a, c) => k a c | (Err e, c) => (f e, c) | (Panic, c) => (Panic, c) end).
Proof. intros Hm Hk d c. rewrite (Hm d c). destruct (m c) as [[a|e|] c1]; cbn; [apply Hk|done..]. Qed.
End blind.

Lemma blind_read_or n eof : blind over_reader (read_or n eof).
Proof.
  intros d c. unfold read_or, on_raw, read_full. cbn.
  by destruct (read_full_from n (conn_rx (cn_raw c)) (conn_rx_err (cn_raw c))) as [[a|e|] rest].
Qed.

Lemma blind_in_Unseal record : blind over_reader (in_Unseal record).
Proof.
  intros d c. unfold in_Unseal. cbn. destruct (cn_inCipher c) as [ri|]; [by destruct (Unseal record ri)|done].
Qed.

Lemma blind_read_round n : blind over_reader (read_round n).
Proof.
  unfold read_round. apply blind_bind; [apply blind_read_or|]. intros header.
  apply blind_if; [apply blind_pure|]. apply blind_if; [apply blind_pure|].
  apply blind_bind; [apply blind_read_or|]. intros payload.
  apply blind_bind; [apply blind_map_err, blind_in_Unseal|]. intros [t p].
  apply blind_if; apply blind_if; try apply blind_pure.
  - apply blind_if; [apply blind_bind; [by intros d c|]; intros u|]; apply blind_pure.
  - apply blind_if; [apply blind_pure|]. apply blind_bind; [apply blind_if; [by intros d c|apply blind_pure]|].
    intros u. apply blind_pure.
Qed.

Lemma blind_read_loop fuel n : blind over_reader (read_loop fuel n).
Proof.
  induction fuel as [|fuel IH]; cbn [read_loop]; [apply blind_pure|].
  apply blind_bind; [apply blind_read_round|]. intros [d|]; [apply blind_pure|exact IH].
Qed.

Lemma blind_out_Seal t p : blind over_writer (out_Seal t p).
Proof.
  intros d c. unfold out_Seal. cbn. destruct (cn_outCipher c) as [rc|]; [by destruct (Seal t p rc)|done].
Qed.

Lemma blind_writeFull record : blind over_writer (on_raw (writeFull record)).
Proof.
  intros d c. unfold on_raw, writeFull, conn_write. cbn.
  destruct (conn_wscript (cn_raw c)) as [|o script]; cbn; [by destruct (negb _)|].
  destruct (wo_err o); [done|]. by destruct (negb _).
Qed.

Lemma blind_set_deadline on : blind over_writer (on_raw (conn_set_deadline on)).
Proof.
  intros d [[[? ? ? ? [e|] ? ? ?] ?] ? ? ? ? ? ? ? ? ? ? ? ? ?]; done.
Qed.

Lemma blind_write_loop fuel t b : blind over_writer (write_loop fuel t b).
Proof.
  revert t b. induction fuel as [|fuel IH]; intros t b; cbn [write_loop]; [apply blind_pure|].
  destruct (0 <? zlen b); [|apply blind_pure].
  apply blind_cases; [apply blind_out_Seal|intros record]. apply blind_cases; [apply blind_writeFull|intros u; apply IH].
Qed.

Lemma blind_send_close_notify : blind over_writer send_close_notify.
Proof.
  unfold send_close_notify. apply blind_cases; [apply blind_out_Seal|intros record].
  apply blind_cases; [apply blind_set_deadline|intros u].
  apply blind_cases; [apply blind_writeFull|intros v; apply blind_pure].
Qed.

(** ** The two halves are apart *)

(** A computation changes its half only. *)
Lemma reader_frame {A} (m : stM (Conn W) A) c : blind over_reader m -> (m c).2 = over_reader c (m c).2.
Proof. intros Hm. rewrite <-(over_reader_id c) at 1. by rewrite (Hm c c). Qed.

Lemma writer_frame {A} (m : stM (Conn W) A) c : blind over_writer m -> (m c).2 = over_writer c (m c).2.
Proof. intros Hm. rewrite <-(over_writer_id c) at 1. by rewrite (Hm c c). Qed.

(** From the state [s] the second computation may as well come first. *)
Definition commute {S A B} (m1 : stM S A) (m2 : stM S B) (s : S) : Prop :=
  forall a s1 b s2, m1 s = (a, s1) -> m2 s1 = (b, s2) -> exists s3, m2 s = (b, s3) /\ m1 s3 = (a, s2).

Lemma halves_commute {A B} (m1 : stM (Conn W) A) (m2 : stM (Conn W) B) c :
  blind over_reader m1 -> blind over_writer m2 -> commute m1 m2 c.
Proof.
  intros Hb1 Hb2 a c1 b c2 E1 E2. pose proof (reader_frame m1 c Hb1) as F1. rewrite E1 in F1. cbn in F1.
  assert (c1 = over_writer c1 c) as Hc1 by (rewrite F1; done). rewrite Hc1, (Hb2 c1 c) in E2.
  injection E2 as <- <-. pose proof (writer_frame m2 c Hb2) as F2. destruct (m2 c) as [b c3] eqn:E3. cbn in *.
  exists c3. split; [done|]. assert (c3 = over_reader c3 c) as Hc3 by (rewrite F2; done).
  rewrite Hc3, (Hb1 c3 c), E1. cbn. rewrite F2, F1. done.
Qed.
End halves.

Section commute.
Context `{SM3, SM4, HKDF, SM2, X509} {W : Type}.
Implicit Types c : Conn W.

(** On an established connection a [Read] and a [Write] commute: whichever
    comes first, both return the same and the connection ends in the same
    state, so their overlapping has no effect that some order would not have. *)
Theorem read_write_commute su su' n b c :
  cn_handshakeDone c = true -> commute (conn_Read su n) (conn_Write su' b) c.
Proof.
  intros Hd r c1 w c2 Hr Hw.
  set (read := fun c => if n =? 0 then (Ok [], c)
    else if 0 <? zlen (cn_readBuf c)
    then (_ ← set_readBuf (drop_z n (cn_readBuf c)); mret (take_z n (cn_readBuf c))) c
    else read_loop (S (length (conn_rx (cn_raw c)))) n c).
  assert (blind over_reader read) as Hread.
  { intros d c0. unfold read. cbn [over_reader cn_readBuf cn_raw cn_world fst conn_rx].
    destruct (n =? 0); [done|]. destruct (0 <? _); [done|]. apply blind_read_loop. }
  assert (forall c0, cn_handshakeDone c0 = true -> conn_Read su n c0 = read c0) as Er
    by (intros; by apply conn_Read_done).
  rewrite Er in Hr by done.
  assert (cn_handshakeDone c1 = true) as Hd1.
  { pose proof (reader_frame read c Hread) as F. rewrite Hr in F. cbn in F. by rewrite F. }
  rewrite conn_Write_done in Hw by done.
  destruct (halves_commute _ _ c Hread (blind_write_loop (S (length b)) 0 b) _ _ _ _ Hr Hw) as (c3 & E3 & E4).
  exists c3. rewrite conn_Write_done by done. split; [done|]. rewrite Er; [done|].
  pose proof (writer_frame _ c (blind_write_loop (S (length b)) 0 b)) as F. rewrite E3 in F. cbn in F. by rewrite F.
Qed.
End commute.

Lemma read_write_commute_witness :
  let c := toy_ready_conn toy_stream in
  let c1 := (toy_Read 2 c).2 in
  exists c3, toy_Write [x07] c = ((toy_Write [x07] c1).1, c3) /\
    toy_Read 2 c3 = ((toy_Read 2 c).1, (toy_Write [x07] c1).2).
Proof.
  intros c c1.
  exact (@read_write_commute toy_sm3 toy_sm4 toy_hkdf toy_sm2 toy_x509 MockEvidenceProvider toy_surroundings
    toy_surroundings 2 [x07] c eq_refl _ c1 _ _ (surjective_pairing _) (surjective_pairing _)).
Defined.
