(* ===== verification/Goroutines.v ===== *)
(** * Many goroutines on one connection (conn.go)

    [Conn] is used by any number of goroutines at once.  Here a call is a
    sequence of small steps: every mutex operation, every load and store of an
    atomic, every access to a field that others may access, every record sealed
    and every record written; goroutines interleave between any two of them.
    Two things stay together: the run of a handshake function, in which the
    goroutine is alone with the raw connection (the publication of its result is
    taken field by field), and a round of the reading loop, which only touches
    the reading half of the connection, behind [readMu]. *)

From stdpp Require Import functions.
From S2P Require Import Prelude Gcm Gmsm Toy NetIO Record Framing KeySchedule GoLib.
From S2P Require Import CsvReport CsvVerify CsvMock CsvClient Asn1 Evidence Gx509 Provider Cert.
From S2P Require Import Config Verifier Handshake Session Effects Conn ConnState.

(** ** Calls and program counters *)

(** A call, with the surroundings that its handshake would run in. *)
Inductive Call :=
| CallHandshake (su : Surroundings) (ctx : Context_)
| CallRead (su : Surroundings) (n : Z)
| CallWrite (su : Surroundings) (b : bytes)
| CallClose.

Inductive Ret :=
| RetHandshake (r : result unit)
| RetRead (r : result bytes)
| RetWrite (n : Z) (err : option error)
| RetClose (err : option error).

(** What a method does once [c.Handshake()] has returned. *)
Inductive Next := ThenReturn | ThenRead (n : Z) | ThenWrite (b : bytes).

(** [handshake]: the step that comes next. *)
Inductive HsPC :=
| HsLoad                              (* handshakeDone.Load() *)
| HsLock                              (* handshakeMutex.Lock() *)
| HsCheck                             (* the second look, under the mutex *)
| HsRun                               (* Server- or ClientHandshakeContext *)
| HsFail (e : error)                  (* c.handshakeErr = err *)
| HsSetIn (res : HandshakeResult)     (* c.inCipher = res.InCipher *)
| HsSetOut (res : HandshakeResult)    (* c.outCipher = res.OutCipher *)
| HsSetPeer (res : HandshakeResult)   (* the fields under peerMu *)
| HsStore                             (* handshakeDone.Store(true) *)
| HsUnlock (r : result unit).         (* the deferred Unlock, and return *)

Inductive RdPC := RdLock | RdBuf | RdRound | RdUnlock (r : result bytes).

(** [Write] with [totalSent] and what is left of [b]. *)
Inductive WrPC := WrLock | WrLoop | WrSend (chunkSize : Z) (record : bytes) | WrUnlock (err : option error).

Inductive ClPC :=
| ClOnce                              (* closeOnce.Do *)
| ClLoad                              (* handshakeDone.Load() && c.outCipher != nil *)
| ClLock | ClSeal | ClDeadline (record : bytes) | ClSend (record : bytes)
| ClUnlock (alertErr : option error)
| ClRaw (alertErr : option error)     (* rawConn.Close() *)
| ClStore (closeErr : option error).  (* c.closeErr = ..., and the end of Do *)

Inductive PC :=
| Idle
| InHandshake (su : Surroundings) (ctx : Context_) (k : Next) (pc : HsPC)
| InRead (n : Z) (pc : RdPC)
| InWrite (totalSent : Z) (b : bytes) (pc : WrPC)
| InClose (pc : ClPC)
| Finished (r : Ret)
| Crashed.                            (* by a panic *)

Definition enter (call : Call) : PC :=
  match call with
  | CallHandshake su ctx => InHandshake su ctx ThenReturn HsLoad
  | CallRead su n => InHandshake su Background (ThenRead n) HsLoad
  | CallWrite su b => InHandshake su Background (ThenWrite b) HsLoad
  | CallClose => InClose ClOnce
  end.

(** After [if err := c.Handshake(); err != nil]. *)
Definition proceed (k : Next) (r : result unit) : PC :=
  match r, k with
  | Panic, _ => Crashed
  | r, ThenReturn => Finished (RetHandshake r)
  | Err e, ThenRead _ => Finished (RetRead (Err e))
  | Err e, ThenWrite _ => Finished (RetWrite 0 (Some e))
  | Ok _, ThenRead n => if n =? 0 then Finished (RetRead (Ok [])) else InRead n RdLock
  | Ok _, ThenWrite b => InWrite 0 b WrLock
  end.

(** ** Shared state *)

Inductive Lock := HandshakeMutex | ReadMu | WriteMu | CloseOnce.
#[global] Instance lock_eq_dec : EqDecision Lock.
Proof. solve_decision. Defined.

(** The connection, who holds each lock, and how often a handshake function
    has been called (which the program does not record). *)
Record Shared (W : Type) := {
  sh_conn : Conn W;
  sh_locks : Lock -> option nat;
  sh_runs : nat
}.
Arguments sh_conn {W} _.
Arguments sh_locks {W} _.
Arguments sh_runs {W} _.
Arguments Build_Shared {W} _ _ _.

Section conn.
Context {W : Type}.
Implicit Types (c : Conn W) (m : Shared W).

(** [set_established] in its four writes. *)
Definition set_inCipher c (rc : RecordCipher) : Conn W :=
  Build_Conn (cn_world c) (cn_cfg c) (cn_isServer c) (cn_handshakeDone c) (cn_handshakeErr c)
    (Some rc) (cn_outCipher c) (cn_peerCertPEM c) (cn_peerEvidence c) (cn_peerCertificate c)
    (cn_readBuf c) (cn_closeNotifyReceived c) (cn_closeOnce c) (cn_closeErr c).
Definition set_outCipher c (rc : RecordCipher) : Conn W :=
  Build_Conn (cn_world c) (cn_cfg c) (cn_isServer c) (cn_handshakeDone c) (cn_handshakeErr c)
    (cn_inCipher c) (Some rc) (cn_peerCertPEM c) (cn_peerEvidence c) (cn_peerCertificate c)
    (cn_readBuf c) (cn_closeNotifyReceived c) (cn_closeOnce c) (cn_closeErr c).
Definition set_peer c (res : HandshakeResult) : Conn W :=
  Build_Conn (cn_world c) (cn_cfg c) (cn_isServer c) (cn_handshakeDone c) (cn_handshakeErr c)
    (cn_inCipher c) (cn_outCipher c) (hr_PeerCertPEM res) (cloneEvidence (hr_PeerEvidence res))
    (match hr_PeerCertificate res with Some x => Some x | None => cn_peerCertificate c end)
    (cn_readBuf c) (cn_closeNotifyReceived c) (cn_closeOnce c) (cn_closeErr c).
Definition set_done c : Conn W :=
  Build_Conn (cn_world c) (cn_cfg c) (cn_isServer c) true (cn_handshakeErr c)
    (cn_inCipher c) (cn_outCipher c) (cn_peerCertPEM c) (cn_peerEvidence c) (cn_peerCertificate c)
    (cn_readBuf c) (cn_closeNotifyReceived c) (cn_closeOnce c) (cn_closeErr c).

(** [c.closeErr = e] and the end of [Do]. *)
Definition set_closeErr c (e : option error) : Conn W := set_closed c (cn_raw c) e.

Definition set_conn m c : Shared W := Build_Shared c (sh_locks m) (sh_runs m).
Definition set_lock m (l : Lock) (o : option nat) : Shared W :=
  Build_Shared (sh_conn m) (<[l:=o]> (sh_locks m)) (sh_runs m).
Definition count_run m : Shared W := Build_Shared (sh_conn m) (sh_locks m) (S (sh_runs m)).

(** [None]: the goroutine is blocked. *)
Definition acquire (l : Lock) (i : nat) (pc : PC) m : option (PC * Shared W) :=
  match sh_locks m l with
  | None => Some (pc, set_lock m l (Some i))
  | Some _ => None
  end.
Definition release (l : Lock) (pc : PC) m : option (PC * Shared W) := Some (pc, set_lock m l None).

(** The goroutine goes on to [pc], with the connection at [c]. *)
Definition goto m (pc : PC) c : option (PC * Shared W) := Some (pc, set_conn m c).

Lemma goto_inv m pc c pc' m' : goto m pc c = Some (pc', m') -> pc' = pc /\ m' = set_conn m c.
Proof. by intros [= <- <-]. Qed.

(** ** One step of each method *)

Section steps.
Context `{SM3, SM4, HKDF, SM2, X509}.

Definition advance_handshake (i : nat) (su : Surroundings) (ctx : Context_) (k : Next) (pc : HsPC) m
  : option (PC * Shared W) :=
  let c := sh_conn m in
  let next := InHandshake su ctx k in
  match pc with
  | HsLoad => goto m (if cn_handshakeDone c then proceed k (Ok tt) else next HsLock) c
  | HsLock => acquire HandshakeMutex i (next HsCheck) m
  | HsCheck =>
      goto m (next (if cn_handshakeDone c then HsUnlock (Ok tt)
                    else match cn_handshakeErr c with Some e => HsUnlock (Err e) | None => HsRun end)) c
  | HsRun =>
      let '(res, world) :=
        if cn_isServer c then ServerHandshakeContext ctx su (cn_cfg c) (cn_world c)
        else ClientHandshakeContext ctx su (cn_cfg c) (cn_world c) in
      goto (count_run m)
        (match res with Ok res => next (HsSetIn res) | Err e => next (HsFail e) | Panic => Crashed end)
        (set_world c world)
  | HsFail e => goto m (next (HsUnlock (Err e))) (set_handshakeErr c e)
  | HsSetIn res => goto m (next (HsSetOut res)) (set_inCipher c (hr_InCipher res))
  | HsSetOut res => goto m (next (HsSetPeer res)) (set_outCipher c (hr_OutCipher res))
  | HsSetPeer res => goto m (next HsStore) (set_peer c res)
  | HsStore => goto m (next (HsUnlock (Ok tt))) (set_done c)
  | HsUnlock r => release HandshakeMutex (proceed k r) m
  end.

Definition advance_read (i : nat) (n : Z) (pc : RdPC) m : option (PC * Shared W) :=
  let c := sh_conn m in
  match pc with
  | RdLock => acquire ReadMu i (InRead n RdBuf) m
  | RdBuf =>
      if 0 <? zlen (cn_readBuf c)
      then goto m (InRead n (RdUnlock (Ok (take_z n (cn_readBuf c)))))
             (set_readBuf (drop_z n (cn_readBuf c)) c).2
      else goto m (InRead n RdRound) c
  | RdRound =>
      let '(r, c') := read_round n c in
      goto m (match r with
              | Ok (Some d) => InRead n (RdUnlock (Ok d))
              | Ok None => InRead n RdRound
              | Err e => InRead n (RdUnlock (Err e))
              | Panic => Crashed
              end) c'
  | RdUnlock r => release ReadMu (Finished (RetRead r)) m
  end.

Definition advance_write (i : nat) (totalSent : Z) (b : bytes) (pc : WrPC) m : option (PC * Shared W) :=
  let c := sh_conn m in
  match pc with
  | WrLock => acquire WriteMu i (InWrite totalSent b WrLoop) m
  | WrLoop =>
      if 0 <? zlen b then
        let chunkSize := if MaxPlaintextLength <? zlen b then MaxPlaintextLength else zlen b in
        let '(r, c') := out_Seal RecordTypeApplicationData (take_z chunkSize b) c in
        goto m (match r with
                | Ok record => InWrite totalSent b (WrSend chunkSize record)
                | Err e => InWrite totalSent b (WrUnlock (Some (wrapf "teetls: seal record: %w" e)))
                | Panic => Crashed
                end) c'
      else goto m (InWrite totalSent b (WrUnlock None)) c
  | WrSend chunkSize record =>
      let '(r, c') := on_raw (writeFull record) c in
      goto m (match r with
              | Ok _ => InWrite (totalSent + chunkSize) (drop_z chunkSize b) WrLoop
              | Err e => InWrite totalSent b (WrUnlock (Some e))
              | Panic => Crashed
              end) c'
  | WrUnlock err => release WriteMu (Finished (RetWrite totalSent err)) m
  end.

Definition advance_close (i : nat) (pc : ClPC) m : option (PC * Shared W) :=
  let c := sh_conn m in
  match pc with
  | ClOnce =>
      if cn_closeOnce c then goto m (Finished (RetClose (cn_closeErr c))) c
      else acquire CloseOnce i (InClose ClLoad) m
  | ClLoad =>
      goto m (InClose (if cn_handshakeDone c && (match cn_outCipher c with Some _ => true | None => false end)
                       then ClLock else ClRaw None)) c
  | ClLock => acquire WriteMu i (InClose ClSeal) m
  | ClSeal =>
      let '(r, c') := out_Seal RecordTypeAlert close_notify c in
      goto m (match r with
              | Ok record => InClose (ClDeadline record)
              | Err e => InClose (ClUnlock (Some (wrapf "teetls: seal close_notify: %w" e)))
              | Panic => Crashed
              end) c'
  | ClDeadline record =>
      let '(r, c') := on_raw (conn_set_deadline true) c in
      goto m (match r with
              | Ok _ => InClose (ClSend record)
              | Err e => InClose (ClUnlock (Some (wrapf "teetls: set close_notify deadline: %w" e)))
              | Panic => Crashed
              end) c'
  | ClSend record =>
      let '(r, c') := on_raw (writeFull record) c in
      goto m (match r with
              | Ok _ => InClose (ClUnlock None)
              | Err e => InClose (ClUnlock (Some (wrapf "teetls: write close_notify: %w" e)))
              | Panic => Crashed
              end) c'
  | ClUnlock alertErr => release WriteMu (InClose (ClRaw alertErr)) m
  | ClRaw alertErr =>
      let '(rawErr, raw) := conn_close (cn_raw c) in
      goto m (InClose (ClStore (errors_join [alertErr; rawErr]))) (set_world c (raw, (cn_world c).2))
  | ClStore closeErr =>
      Some (Finished (RetClose closeErr), set_lock (set_conn m (set_closeErr c closeErr)) CloseOnce None)
  end.

(** [None]: the goroutine is between calls, crashed or blocked. *)
Definition advance (i : nat) (pc : PC) m : option (PC * Shared W) :=
  match pc with
  | Idle | Finished _ | Crashed => None
  | InHandshake su ctx k pc => advance_handshake i su ctx k pc m
  | InRead n pc => advance_read i n pc m
  | InWrite totalSent b pc => advance_write i totalSent b pc m
  | InClose pc => advance_close i pc m
  end.
End steps.
End conn.

(** ** Runs *)

Inductive Event := Invoke (i : nat) (call : Call) | Return (i : nat) (r : Ret).

(** All goroutines, what they share and what has been called and returned. *)
Record System (W : Type) := {
  sy_ths : nat -> PC;
  sy_shared : Shared W;
  sy_hist : list Event
}.
Arguments sy_ths {W} _.
Arguments sy_shared {W} _.
Arguments sy_hist {W} _.
Arguments Build_System {W} _ _ _.

Section runs.
Context `{SM3, SM4, HKDF, SM2, X509} {W : Type}.
Implicit Types s : System W.

Definition sy_conn s : Conn W := sh_conn (sy_shared s).

(** Nobody has called anything yet. *)
Definition at_rest (c : Conn W) : System W :=
  Build_System (fun _ => Idle) (Build_Shared c (fun _ => None) 0) [].

(** A length given to [Read] is one. *)
Definition call_ok (call : Call) : Prop := match call with CallRead _ n => 0 <= n | _ => True end.

Inductive sys_step s : System W -> Prop :=
| step_invoke i call :
    sy_ths s i = Idle -> call_ok call ->
    sys_step s (Build_System (<[i:=enter call]> (sy_ths s)) (sy_shared s) (sy_hist s ++ [Invoke i call]))
| step_advance i pc m :
    advance i (sy_ths s i) (sy_shared s) = Some (pc, m) ->
    sys_step s (Build_System (<[i:=pc]> (sy_ths s)) m (sy_hist s))
| step_return i r :
    sy_ths s i = Finished r ->
    sys_step s (Build_System (<[i:=Idle]> (sy_ths s)) (sy_shared s) (sy_hist s ++ [Return i r])).

(** A schedule, to run the system on. *)
Inductive Action := DoInvoke (i : nat) (call : Call) | DoAdvance (i : nat) | DoReturn (i : nat).

Definition act (a : Action) s : option (System W) :=
  match a with
  | DoInvoke i call =>
      match sy_ths s i with
      | Idle => Some (Build_System (<[i:=enter call]> (sy_ths s)) (sy_shared s) (sy_hist s ++ [Invoke i call]))
      | _ => None
      end
  | DoAdvance i =>
      match advance i (sy_ths s i) (sy_shared s) with
      | Some (pc, m) => Some (Build_System (<[i:=pc]> (sy_ths s)) m (sy_hist s))
      | None => None
      end
  | DoReturn i =>
      match sy_ths s i with
      | Finished r => Some (Build_System (<[i:=Idle]> (sy_ths s)) (sy_shared s) (sy_hist s ++ [Return i r]))
      | _ => None
      end
  end.
Fixpoint act_all (l : list Action) s : option (System W) :=
  match l with
  | [] => Some s
  | a :: l' => match act a s with Some s' => act_all l' s' | None => None end
  end.

Definition action_ok (a : Action) : Prop := match a with DoInvoke _ call => call_ok call | _ => True end.

Lemma act_step a s s' : action_ok a -> act a s = Some s' -> sys_step s s'.
Proof.
  intros Ha Hs. destruct a as [i call|i|i]; cbn in Hs.
  - destruct (sy_ths s i) eqn:E; simplify_eq. by constructor.
  - destruct (advance _ _ _) as [[pc m]|] eqn:E; simplify_eq. by constructor.
  - destruct (sy_ths s i) eqn:E; simplify_eq. by constructor.
Qed.

Lemma act_all_steps l s s' : Forall action_ok l -> act_all l s = Some s' -> rtc sys_step s s'.
Proof.
  intros Hl. revert s. induction Hl as [|a l Ha _ IH]; intros s; cbn [act_all].
  - intros [= <-]. apply rtc_refl.
  - destruct (act a s) as [s1|] eqn:E; [|done]. intros Hs. eapply rtc_l; [by eapply act_step|by apply IH].
Qed.
End runs.
