(* ===== verification/Exclusion.v ===== *)
(** * What the locks of a connection give (conn.go)

    For any number of goroutines in any interleaving: each lock has one holder
    and its fields are touched by nobody else, and the handshake runs once and
    all see the same outcome of it.  [sys_inv] is the invariant, with what a
    goroutine may rely on at each point ([pc_ok]) and the connection as it will
    be once a publication under way is finished ([settle]). *)

From stdpp Require Import functions.
From S2P Require Import Prelude Gcm Gmsm Toy NetIO Record Framing KeySchedule GoLib.
From S2P Require Import CsvReport CsvVerify CsvMock CsvClient Asn1 Evidence Gx509 Provider Cert.
From S2P Require Import Config Verifier Handshake Session Effects Conn ConnState Stream Duplex Goroutines.

(** ** Locks *)

Definition has_lock (pc : PC) (l : Lock) : bool :=
  match pc, l with
  | InHandshake _ _ _ (HsLoad | HsLock), _ => false
  | InHandshake _ _ _ _, HandshakeMutex => true
  | InRead _ (RdBuf | RdRound | RdUnlock _), ReadMu => true
  | InWrite _ _ (WrLoop | WrSend _ _ | WrUnlock _), WriteMu => true
  | InClose (ClSeal | ClDeadline _ | ClSend _ | ClUnlock _), WriteMu => true
  | InClose ClOnce, _ => false
  | InClose _, CloseOnce => true
  | _, _ => false
  end.

(** The lock that the next step acquires. *)
Definition waits_for {W} (pc : PC) (c : Conn W) : option Lock :=
  match pc with
  | InHandshake _ _ _ HsLock => Some HandshakeMutex
  | InRead _ RdLock => Some ReadMu
  | InWrite _ _ WrLock => Some WriteMu
  | InClose ClOnce => if cn_closeOnce c then None else Some CloseOnce
  | InClose ClLock => Some WriteMu
  | _ => None
  end.

(** ** Accesses *)

(** The fields without a lock or an atomic of their own. *)
Inductive Field := FHandshakeErr | FInCipher | FOutCipher | FReadBuf | FCloseErr.
Inductive Access := Reads | Writes.

(** What the next step does to them; [accesses_complete] shows that no step
    writes more. *)
Definition accesses {W} (pc : PC) (c : Conn W) : list (Field * Access) :=
  match pc with
  | InHandshake _ _ _ HsCheck => if cn_handshakeDone c then [] else [(FHandshakeErr, Reads)]
  | InHandshake _ _ _ (HsFail _) => [(FHandshakeErr, Writes)]
  | InHandshake _ _ _ (HsSetIn _) => [(FInCipher, Writes)]
  | InHandshake _ _ _ (HsSetOut _) => [(FOutCipher, Writes)]
  | InRead _ RdBuf => [(FReadBuf, Reads); (FReadBuf, Writes)]
  | InRead _ RdRound => [(FInCipher, Reads); (FReadBuf, Writes)]
  | InWrite _ _ WrLoop => [(FOutCipher, Reads)]
  | InClose ClOnce => if cn_closeOnce c then [(FCloseErr, Reads)] else []
  | InClose ClLoad => if cn_handshakeDone c then [(FOutCipher, Reads)] else []
  | InClose ClSeal => [(FOutCipher, Reads)]
  | InClose (ClStore _) => [(FCloseErr, Writes)]
  | _ => []
  end.

(** ** The invariant *)

Section invariant.
Context `{SM3, SM4, HKDF, SM2, X509} {W : Type}.
Implicit Types (c : Conn W) (m : Shared W) (s : System W).

(** What is left of a publication that is under way. *)
Definition pending (pc : PC) c : Conn W :=
  match pc with
  | InHandshake _ _ _ (HsFail e) => set_handshakeErr c e
  | InHandshake _ _ _ (HsSetIn res) => set_established c res
  | InHandshake _ _ _ (HsSetOut res) => set_done (set_peer (set_outCipher c (hr_OutCipher res)) res)
  | InHandshake _ _ _ (HsSetPeer res) => set_done (set_peer c res)
  | InHandshake _ _ _ HsStore => set_done c
  | _ => c
  end.
Definition publishing (pc : PC) : bool :=
  match pc with
  | InHandshake _ _ _ (HsFail _ | HsSetIn _ | HsSetOut _ | HsSetPeer _ | HsStore) => true
  | _ => false
  end.

(** The connection as it will be once that is finished. *)
Definition settle (ths : nat -> PC) m : Conn W :=
  match sh_locks m HandshakeMutex with
  | Some i => pending (ths i) (sh_conn m)
  | None => sh_conn m
  end.

(** Neither done nor failed. *)
Definition undecided c : Prop := cn_handshakeDone c = false /\ cn_handshakeErr c = None.
Definition outcome (r : result unit) c : Prop :=
  match r with Ok _ => cn_handshakeDone c = true | Err e => cn_handshakeErr c = Some e | Panic => False end.

Definition next_ok (k : Next) : Prop := match k with ThenRead n => 0 <= n | _ => True end.

(** What a goroutine may rely on where it is. *)
Definition pc_ok (pc : PC) c : Prop :=
  match pc with
  | InHandshake _ _ k hs =>
      next_ok k /\
      match hs with
      | HsRun | HsFail _ | HsSetPeer _ | HsStore => undecided c
      | HsSetIn res | HsSetOut res => undecided c
      | HsUnlock r => outcome r c
      | HsLoad | HsLock | HsCheck => True
      end
  | InRead n rd => (0 < n /\ cn_handshakeDone c = true) /\
      match rd with RdRound => cn_readBuf c = [] | _ => True end
  | InWrite _ b wr => cn_handshakeDone c = true /\
      match wr with WrSend chunkSize _ => 0 < chunkSize <= zlen b | _ => True end
  | InClose ClOnce => True
  | InClose (ClLoad | ClRaw _) => cn_closeOnce c = false
  | InClose (ClStore _) => cn_closeOnce c = false /\ conn_closed (cn_raw c) = true
  | InClose _ => cn_closeOnce c = false /\ cn_handshakeDone c = true
  | Finished (RetHandshake r) => outcome r c
  | Crashed => False
  | Idle | Finished _ => True
  end.

Definition event_ok c (e : Event) : Prop :=
  match e with Return _ (RetHandshake r) => outcome r c | _ => True end.

Record sys_inv s : Prop := {
  si_locks i l : has_lock (sy_ths s i) l = true <-> sh_locks (sy_shared s) l = Some i;
  si_pcs i : pc_ok (sy_ths s i) (sy_conn s);
  si_conn : conn_inv (settle (sy_ths s) (sy_shared s));
  si_provider : provider_ok (sy_conn s);
  si_runs : (sh_runs (sy_shared s) <= 1)%nat /\
            (undecided (settle (sy_ths s) (sy_shared s)) -> sh_runs (sy_shared s) = 0%nat);
  si_hist : Forall (event_ok (sy_conn s)) (sy_hist s)
}.

(** ** What a step leaves alone *)

(** The step of a goroutine at [pc]. *)
Record keeps_faith (pc : PC) c c' : Prop := {
  kf_done : cn_handshakeDone c = true -> cn_handshakeDone c' = true;
  kf_err e : cn_handshakeErr c = Some e -> cn_handshakeErr c' = Some e;
  kf_undecided : has_lock pc HandshakeMutex = false -> undecided c -> undecided c';
  kf_once : has_lock pc CloseOnce = false -> cn_closeOnce c' = cn_closeOnce c;
  kf_closed : conn_closed (cn_raw c) = true -> conn_closed (cn_raw c') = true;
  kf_buf : has_lock pc ReadMu = false -> cn_readBuf c' = cn_readBuf c;
  kf_cfg : cn_cfg c' = cn_cfg c
}.

Lemma keeps_faith_refl pc c : keeps_faith pc c c.
Proof. by split. Qed.

Lemma outcome_stable pc r c c' : keeps_faith pc c c' -> outcome r c -> outcome r c'.
Proof. intros []. destruct r; cbn; auto. Qed.


(** The others keep what they rely on. *)
Lemma pc_ok_stable pc pc1 c c' :
  keeps_faith pc c c' -> (forall l, has_lock pc l = true -> has_lock pc1 l = false) ->
  pc_ok pc1 c -> pc_ok pc1 c'.
Proof.
  intros Hk Hl. pose proof Hk as [Hd He Hu Ho Hc Hb _].
  assert (has_lock pc1 HandshakeMutex = true -> undecided c -> undecided c') as Hu'.
  { intros Hx. apply Hu. destruct (has_lock pc HandshakeMutex) eqn:E; [|done]. by rewrite Hl in Hx. }
  assert (has_lock pc1 CloseOnce = true -> cn_closeOnce c' = cn_closeOnce c) as Ho'.
  { intros Hx. apply Ho. destruct (has_lock pc CloseOnce) eqn:E; [|done]. by rewrite Hl in Hx. }
  assert (has_lock pc1 ReadMu = true -> cn_readBuf c' = cn_readBuf c) as Hb'.
  { intros Hx. apply Hb. destruct (has_lock pc ReadMu) eqn:E; [|done]. by rewrite Hl in Hx. }
  pose proof (fun r => outcome_stable pc r _ _ Hk) as Hout.
  destruct pc1 as [|su ctx k hs|n rd|t b wr|cl|r|]; cbn [pc_ok]; try done.
  - intros [? Hp]. split; [done|]. destruct hs; cbn in Hu'; auto.
  - intros [[? ?] Hr]. split; [auto|]. destruct rd; try done. by rewrite Hb'.
  - intros []; auto.
  - destruct cl; try (intros []); cbn in Ho'; try rewrite Ho' by done; auto.
  - destruct r; auto.
Qed.

(** ** Lock discipline of a step *)

Lemma proceed_no_lock k r l : has_lock (proceed k r) l = false.
Proof. destruct r as [u|e|], k as [|n|b]; cbn; try done. by destruct (n =? 0). Qed.

(** A goroutine takes a lock only when it is free and gives back what it leaves. *)
Definition moves_locks (i : nat) (pc pc' : PC) m m' : Prop := forall l,
  (has_lock pc l = true -> sh_locks m l = Some i) ->
  sh_locks m' l = (if has_lock pc' l then Some i else if has_lock pc l then None else sh_locks m l) /\
  (has_lock pc' l = true -> has_lock pc l = false -> sh_locks m l = None).

Lemma goto_moves i pc m m1 pc1 c pc' m' :
  goto m1 pc1 c = Some (pc', m') -> sh_locks m1 = sh_locks m ->
  (forall l, has_lock pc1 l = has_lock pc l) -> moves_locks i pc pc' m m'.
Proof. intros [= <- <-] E Hne l Hl. cbn. rewrite E, Hne. destruct (has_lock pc l); [|done]. by rewrite Hl. Qed.

Lemma acquire_moves i pc l m pc1 pc' m' :
  acquire l i pc1 m = Some (pc', m') -> has_lock pc l = false ->
  (forall l', has_lock pc1 l' = has_lock pc l' || bool_decide (l' = l)) -> moves_locks i pc pc' m m'.
Proof.
  unfold acquire. destruct (sh_locks m l) eqn:E; [done|]. intros [= <- <-] Hf Hne l' Hl'. cbn.
  rewrite Hne. case_bool_decide as Hd.
  - subst. by rewrite fn_lookup_insert, orb_true_r.
  - rewrite fn_lookup_insert_ne, orb_false_r by done. destruct (has_lock pc l'); [|done]. by rewrite Hl'.
Qed.

Lemma release_moves i pc l m m1 pc1 :
  sh_locks m1 = sh_locks m -> has_lock pc l = true ->
  (forall l', has_lock pc1 l' = has_lock pc l' && bool_decide (l' <> l)) ->
  moves_locks i pc pc1 m (set_lock m1 l None).
Proof.
  intros E Hf Hne l' Hl'. cbn. rewrite Hne, E. case_bool_decide as Hd.
  - rewrite fn_lookup_insert_ne, andb_true_r by done. destruct (has_lock pc l'); [|done]. by rewrite Hl'.
  - assert (l' = l) as -> by (destruct (decide (l' = l)); naive_solver). by rewrite fn_lookup_insert, andb_false_r, Hf.
Qed.

Lemma proceed_moves i pc m k r :
  (forall l, has_lock pc l = bool_decide (l = HandshakeMutex)) ->
  moves_locks i pc (proceed k r) m (set_lock m HandshakeMutex None).
Proof.
  intros Hp. apply release_moves; [done|by rewrite Hp|]. intros l. rewrite proceed_no_lock, Hp.
  by destruct l.
Qed.

(** Take the branches of the step in [Ha] apart. *)
Ltac step_cases Ha :=
  repeat match type of Ha with
  | (let '(_, _) := ?x in _) = _ => destruct x eqn:?
  | context [if ?b then _ else _] => destruct b eqn:?
  | context [match ?x with _ => _ end] => destruct x eqn:?
  end.

Lemma advance_moves i pc m pc' m' :
  advance i pc m = Some (pc', m') -> pc' <> Crashed -> moves_locks i pc pc' m m'.
Proof.
  intros Ha Hc. destruct pc as [|su ctx k hs|n rd|t b wr|cl|r|]; try done; cbn [advance] in Ha;
    [destruct hs; cbn [advance_handshake] in Ha|destruct rd; cbn [advance_read] in Ha
    |destruct wr; cbn [advance_write] in Ha|destruct cl; cbn [advance_close] in Ha].
  10: { injection Ha as <- <-. by apply proceed_moves; intros []. }
  1: { eapply goto_moves; [exact Ha|done|]. intros l. destruct (cn_handshakeDone _); [|done]. apply proceed_no_lock. }
  all: step_cases Ha; try (by injection Ha as <- _);
    first [ eapply goto_moves; [exact Ha|reflexivity|by intros []]
          | eapply acquire_moves; [exact Ha|reflexivity|by intros []]
          | injection Ha as <- <-; apply release_moves; [reflexivity|reflexivity|by intros []] ].
Qed.
End invariant.

Section preserved.
Context `{SM3Laws, SM4Laws, HKDFLaws, X509, SM2Laws, !NoPanics} {W : Type}.
Implicit Types (c : Conn W) (m : Shared W) (s : System W).

Lemma reader_faith {A} pc (m : stM (Conn W) A) c :
  has_lock pc ReadMu = true -> blind over_reader m -> keeps_faith pc c (m c).2.
Proof. intros Hl Hb. rewrite (reader_frame m c Hb). split; try done. congruence. Qed.

Lemma writer_faith {A} pc (m : stM (Conn W) A) c : blind over_writer m -> keeps_faith pc c (m c).2.
Proof. intros Hb. rewrite (writer_frame m c Hb). by split. Qed.

Lemma advance_faith i pc m pc' m' :
  advance i pc m = Some (pc', m') -> pc_ok pc (sh_conn m) -> provider_ok (sh_conn m) ->
  keeps_faith pc (sh_conn m) (sh_conn m').
Proof.
  intros Ha Hp Hc. destruct pc as [|su ctx k hs|n rd|t b wr|cl|r|]; try done; cbn [advance] in Ha;
    [destruct hs; cbn [advance_handshake] in Ha|destruct rd; cbn [advance_read] in Ha
    |destruct wr; cbn [advance_write] in Ha|destruct cl; cbn [advance_close] in Ha].
  all: try (unfold acquire in Ha; destruct (sh_locks m _); [done|]).
  all: try (injection Ha as <- <-; apply keeps_faith_refl).
  all: try (injection Ha as <- <-; by split).
  - destruct (handshake_run ctx su (sh_conn m) Hc) as (_ & [_ Hr] & _).
    destruct (if cn_isServer _ then _ else _) as [res world]. injection Ha as <- <-. by split.
  - injection Ha as <- <-. destruct Hp as [_ [Hd He]]. split; try done. cbn. intros e' E. congruence.
  - destruct (0 <? _); injection Ha as <- <-; [by split|apply keeps_faith_refl].
  - pose proof (reader_faith (InRead n RdRound) (read_round n) (sh_conn m) eq_refl (blind_read_round n)) as Hf.
    destruct (read_round n (sh_conn m)) as [r c']. by injection Ha as <- <-.
  - destruct (0 <? zlen b); [|injection Ha as <- <-; apply keeps_faith_refl].
    match type of Ha with context [out_Seal ?t0 ?p] =>
      pose proof (writer_faith (InWrite t b WrLoop) (out_Seal t0 p) (sh_conn m) (blind_out_Seal _ _)) as Hf;
      destruct (out_Seal t0 p (sh_conn m)) end. by injection Ha as <- <-.
  - pose proof (writer_faith (InWrite t b (WrSend chunkSize record)) _ (sh_conn m) (blind_writeFull record)) as Hf.
    destruct (on_raw _ _). by injection Ha as <- <-.
  - destruct (cn_closeOnce _); [injection Ha as <- <-; apply keeps_faith_refl|].
    unfold acquire in Ha. destruct (sh_locks m _); [done|]. injection Ha as <- <-. apply keeps_faith_refl.
  - pose proof (writer_faith (InClose ClSeal) _ (sh_conn m) (blind_out_Seal RecordTypeAlert close_notify)) as Hf.
    destruct (out_Seal _ _ _). by injection Ha as <- <-.
  - pose proof (writer_faith (InClose (ClDeadline record)) _ (sh_conn m) (blind_set_deadline true)) as Hf.
    destruct (on_raw _ _). by injection Ha as <- <-.
  - pose proof (writer_faith (InClose (ClSend record)) _ (sh_conn m) (blind_writeFull record)) as Hf.
    destruct (on_raw _ _). by injection Ha as <- <-.
Qed.

(** Where the goroutine is then. *)
Lemma proceed_ok k r c : next_ok k -> outcome r c -> pc_ok (proceed k r) c.
Proof.
  intros Hk Hr. destruct r as [u|e|], k as [|n|b]; cbn in *; try done.
  destruct (Z.eqb_spec n 0); cbn; [done|]. split_and!; [lia|done..].
Qed.

Lemma runs_no_panic {A} (Q : A -> Prop) (m : stM (Conn W) A) c :
  runs live conn_evolves Q m -> live c -> no_panic (m c).1.
Proof. intros Hm Hl. destruct (Hm c Hl) as (_ & _ & Hr). by destruct ((m c).1). Qed.

(** A step that runs [mm], whose panic would crash the goroutine. *)
Lemma ran_ok {A} (Q : A -> Prop) (mm : stM (Conn W) A) (f : result A -> PC) m pc' m' :
  runs live conn_evolves Q mm -> live (sh_conn m) -> blind over_reader mm \/ blind over_writer mm ->
  (let '(r, c') := mm (sh_conn m) in goto m (f r) c') = Some (pc', m') ->
  (forall r c', mm (sh_conn m) = (r, c') -> cn_handshakeDone c' = true -> cn_closeOnce c' = cn_closeOnce (sh_conn m) ->
    r <> Panic -> pc_ok (f r) c') -> pc_ok pc' (sh_conn m').
Proof.
  intros Hr Hl Hb. pose proof (runs_no_panic Q mm _ Hr Hl) as Hp.
  assert (cn_handshakeDone (mm (sh_conn m)).2 = cn_handshakeDone (sh_conn m) /\
          cn_closeOnce (mm (sh_conn m)).2 = cn_closeOnce (sh_conn m)) as [Hd Ho].
  { destruct Hb as [Hb|Hb]; [rewrite (reader_frame _ _ Hb)|rewrite (writer_frame _ _ Hb)]; done. }
  destruct (mm (sh_conn m)) as [r c']. intros [= <- <-] Hf. cbn in *. apply Hf; try done. by rewrite Hd; apply Hl.
Qed.

Lemma runs_raw_write record : runs live (@conn_evolves W) anything (on_raw (writeFull record)).
Proof. apply runs_on_raw, runs_raw, runs_writeFull. Qed.

Lemma advance_pc_ok i pc m pc' m' :
  advance i pc m = Some (pc', m') -> pc_ok pc (sh_conn m) -> provider_ok (sh_conn m) ->
  (cn_handshakeDone (sh_conn m) = true -> conn_inv (sh_conn m)) ->
  pc_ok pc' (sh_conn m').
Proof.
  intros Ha Hp Hc Hi. pose proof (advance_faith _ _ _ _ _ Ha Hp Hc) as Hk. pose proof Hk as [Hd He Hu Ho Hcl _ _].
  destruct pc as [|su ctx k hs|n rd|t b wr|cl|r|]; try done; cbn [advance] in Ha;
    [destruct hs; cbn [advance_handshake] in Ha|destruct rd; cbn [advance_read] in Ha
    |destruct wr; cbn [advance_write] in Ha|destruct cl; cbn [advance_close] in Ha].
  all: try (unfold acquire in Ha; destruct (sh_locks m _); [done|]; injection Ha as <- <-; done).
  all: try (by injection Ha as <- <-).
  - injection Ha as <- <-. destruct Hp as [Hn _]. destruct (cn_handshakeDone _) eqn:E; [by apply (proceed_ok k (Ok tt))|done].
  - injection Ha as <- <-. destruct Hp as [Hn _]. split; [done|].
    destruct (cn_handshakeDone _) eqn:E; [done|]. by destruct (cn_handshakeErr _) eqn:E'.
  - destruct Hp as [Hn Hun]. destruct (handshake_run ctx su (sh_conn m) Hc) as (Hnp & _).
    destruct (if cn_isServer _ then _ else _) as [res world]. injection Ha as <- <-. by destruct res.
  - injection Ha as <- <-. destruct Hp as [? [? ?]]. by split_and!.
  - injection Ha as <- <-. destruct Hp as [? [? ?]]. by split_and!.
  - injection Ha as <- <-. destruct Hp. by apply proceed_ok.
  - destruct (Z.ltb_spec 0 (zlen (cn_readBuf (sh_conn m)))); injection Ha as <- <-; destruct Hp as [? _].
    + done.
    + split; [done|]. apply (empty_buffer (sh_conn m)). lia.
  - destruct Hp as [[Hn Hdn] Hb]. assert (live (sh_conn m)) as Hlive by (by split; [apply Hi|]).
    eapply (ran_ok _ (read_round n)); [by apply runs_read_round|done|left; apply blind_read_round|exact Ha|].
    intros r c' E Hd' _ Hr. destruct r as [[d|]|e|]; [done| |done|done]. split; [done|].
    destruct (rd_in _ (live_ready _ Hlive)) as (rc & Hin & Hok).
    destruct (read_round_ok n _ rc Hn Hin Hok Hb) as (_ & Hrd & _). rewrite E in Hrd. cbn in Hrd. apply Hrd.
  - destruct Hp as [Hdn _]. destruct (Z.ltb_spec 0 (zlen b)) as [Hpos|]; [|by injection Ha as <- <-].
    eapply (ran_ok _ (out_Seal _ _)); [apply runs_out_Seal|by split; [apply Hi|]|right; apply blind_out_Seal|exact Ha|].
    intros r c' _ Hd' _ Hr. destruct r as [d|e|]; [|done..]. split; [done|].
    unfold MaxPlaintextLength. destruct (Z.ltb_spec 16384 (zlen b)); lia.
  - destruct Hp as [Hdn _].
    eapply (ran_ok _ (on_raw _)); [apply runs_raw_write|by split; [apply Hi|]|right; apply blind_writeFull|exact Ha|].
    intros r c' _ Hd' _ Hr. by destruct r as [d|e|].
  - cbn in Ha. destruct (cn_closeOnce _) eqn:E; [by injection Ha as <- <-|].
    unfold acquire in Ha. destruct (sh_locks m _); [done|]. by injection Ha as <- <-.
  - injection Ha as <- <-. destruct (cn_handshakeDone _) eqn:E; [|done]. by destruct (cn_outCipher _).
  - destruct Hp as [Hn Hdn].
    eapply (ran_ok _ (out_Seal _ _)); [apply runs_out_Seal|by split; [apply Hi|]|right; apply blind_out_Seal|exact Ha|].
    intros r c' _ Hd' Ho' Hr. rewrite <-Ho' in Hn. by destruct r as [d|e|].
  - destruct Hp as [Hn Hdn].
    eapply (ran_ok _ (on_raw _)); [apply runs_on_raw, runs_deadline|by split; [apply Hi|]|right; apply blind_set_deadline|exact Ha|].
    intros r c' _ Hd' Ho' Hr. rewrite <-Ho' in Hn. by destruct r as [d|e|].
  - destruct Hp as [Hn Hdn].
    eapply (ran_ok _ (on_raw _)); [apply runs_raw_write|by split; [apply Hi|]|right; apply blind_writeFull|exact Ha|].
    intros r c' _ Hd' Ho' Hr. rewrite <-Ho' in Hn. by destruct r as [d|e|].
  - injection Ha as <- <-. by destruct Hp.
Qed.

(** ** The connection when the publication under way is finished *)

Lemma pending_id pc c : publishing pc = false -> pending pc c = c.
Proof. destruct pc as [|? ? ? []| | | | |]; done. Qed.

Lemma publishing_undecided pc c : publishing pc = true -> pc_ok pc c -> undecided c.
Proof. destruct pc as [|? ? ? []| | | | |]; try done; by intros _ [_ ?]. Qed.

Lemma publishing_has_lock pc : has_lock pc HandshakeMutex = false -> publishing pc = false.
Proof. destruct pc as [|? ? ? []| | | | |]; done. Qed.

(** The part of the connection that others than the publisher see settled. *)
Definition settle_from (ths : nat -> PC) (o : option nat) c : Conn W :=
  match o with Some j => pending (ths j) c | None => c end.

Definition locks_ok (ths : nat -> PC) m : Prop := forall i l, has_lock (ths i) l = true <-> sh_locks m l = Some i.

Lemma locks_ok_step ths m i pc' m' :
  locks_ok ths m -> moves_locks i (ths i) pc' m m' -> locks_ok (<[i:=pc']> ths) m'.
Proof.
  unfold locks_ok. intros Hl Hm j l. destruct (Hm l) as [El Hfree]; [apply Hl|]. rewrite El.
  destruct (decide (j = i)) as [->|Hne].
  - rewrite fn_lookup_insert. destruct (has_lock pc' l) eqn:E; [done|]. split; [done|].
    destruct (has_lock (ths i) l) eqn:E'; [done|]. intros Hi%Hl. congruence.
  - assert (Some i <> Some j) as Hij by congruence.
    rewrite fn_lookup_insert_ne by done. rewrite Hl. destruct (has_lock pc' l) eqn:E.
    + destruct (has_lock (ths i) l) eqn:E'; [apply Hl in E'; by rewrite E'|rewrite (Hfree eq_refl eq_refl)].
      by split; intros ?.
    + destruct (has_lock (ths i) l) eqn:E'; [|done]. apply Hl in E'. rewrite E'. by split; intros ?.
Qed.

Lemma settle_before ths m i :
  locks_ok ths m -> settle ths m = if has_lock (ths i) HandshakeMutex then pending (ths i) (sh_conn m)
                                   else settle_from ths (sh_locks m HandshakeMutex) (sh_conn m).
Proof.
  intros Hl. unfold settle. destruct (has_lock (ths i) HandshakeMutex) eqn:E; [|done]. apply Hl in E. by rewrite E.
Qed.

Lemma settle_after ths m i pc' m' :
  locks_ok ths m -> moves_locks i (ths i) pc' m m' ->
  settle (<[i:=pc']> ths) m' =
    if has_lock pc' HandshakeMutex then pending pc' (sh_conn m')
    else if has_lock (ths i) HandshakeMutex then sh_conn m'
    else settle_from ths (sh_locks m HandshakeMutex) (sh_conn m').
Proof.
  intros Hl Hm. unfold settle. destruct (Hm HandshakeMutex) as [-> _]; [apply Hl|].
  destruct (has_lock pc' HandshakeMutex); [by rewrite fn_lookup_insert|].
  destruct (has_lock (ths i) HandshakeMutex) eqn:E; [done|].
  destruct (sh_locks m HandshakeMutex) as [j|] eqn:Ej; [|done]. cbn. rewrite fn_lookup_insert_ne; [done|].
  intros <-. apply Hl in Ej. congruence.
Qed.

Lemma settle_from_done ths m o c' :
  (forall i, pc_ok (ths i) (sh_conn m)) -> cn_handshakeDone (sh_conn m) = true -> settle_from ths o c' = c'.
Proof.
  intros Hp Hd. destruct o as [j|]; [|done]. cbn. apply pending_id. destruct (publishing (ths j)) eqn:E; [|done].
  destruct (publishing_undecided _ _ E (Hp j)). congruence.
Qed.

(** What a step makes of it. *)
Record settles (c c' : Conn W) (runs runs' : nat) : Prop := {
  st_inv : conn_inv c -> conn_inv c';
  st_undecided : undecided c' -> undecided c;
  st_runs : runs' = runs \/ (undecided c /\ ~ undecided c' /\ runs' = S runs)
}.

Lemma settles_same c n : settles c c n n.
Proof. split; auto. Qed.

(** Past the handshake. *)
Lemma settles_done c c' n :
  cn_handshakeDone c' = true -> (conn_inv c -> conn_inv c') -> settles c c' n n.
Proof. intros Hd Hi. split; [done| |by left]. intros [? _]. congruence. Qed.

(** A step that runs a computation of a half. *)
Lemma settles_ran {A} (Q : A -> Prop) (mm : stM (Conn W) A) (f : result A -> PC) m pc' m' :
  runs live conn_evolves Q mm -> cn_handshakeDone (sh_conn m) = true -> cn_handshakeDone (sh_conn m') = true ->
  (let '(r, c') := mm (sh_conn m) in goto m (f r) c') = Some (pc', m') ->
  settles (sh_conn m) (sh_conn m') (sh_runs m) (sh_runs m').
Proof.
  intros Hr Hd Hd' Ha. destruct (mm (sh_conn m)) as [r c'] eqn:E. injection Ha as <- <-.
  apply settles_done; [done|]. intros Hi. destruct (Hr (sh_conn m)) as ([Hi' _] & _); [done|].
  by rewrite E in Hi'.
Qed.

Lemma pending_same pc c :
  cn_raw (pending pc c) = cn_raw c /\ cn_closeOnce (pending pc c) = cn_closeOnce c.
Proof. by destruct pc as [|? ? ? []| | | | |]. Qed.

(** What closing the raw connection and the end of [Close] do, before or after
    the publication. *)
Lemma settles_closing ths o c (f : Conn W -> Conn W) n :
  (forall pc, pending pc (f c) = f (pending pc c)) ->
  (forall c1, cn_raw c1 = cn_raw c -> cn_closeOnce c1 = cn_closeOnce c -> conn_inv c1 -> conn_inv (f c1)) ->
  (forall c1, undecided (f c1) -> undecided c1) ->
  settles (settle_from ths o c) (settle_from ths o (f c)) n n.
Proof.
  intros Hpe Hi Hu. destruct o as [j|]; cbn.
  - rewrite Hpe. destruct (pending_same (ths j) c). split; [by apply Hi|apply Hu|by left].
  - split; [by apply Hi|apply Hu|by left].
Qed.

Lemma advance_settles ths i m pc' m' :
  advance i (ths i) m = Some (pc', m') -> locks_ok ths m -> (forall j, pc_ok (ths j) (sh_conn m)) ->
  provider_ok (sh_conn m) -> pc' <> Crashed ->
  settles (settle ths m) (settle (<[i:=pc']> ths) m') (sh_runs m) (sh_runs m').
Proof.
  intros Ha Hl Hp Hc Hcr. pose proof (advance_moves _ _ _ _ _ Ha Hcr) as Hm.
  rewrite (settle_before ths m i Hl), (settle_after ths m i pc' m' Hl Hm).
  pose proof (Hp i) as Hpi. pose proof (advance_faith _ _ _ _ _ Ha Hpi Hc) as Hk. clear Hm.
  assert (forall o c', cn_handshakeDone (sh_conn m) = true -> settle_from ths o c' = c') as Hdone
    by (intros; by eapply settle_from_done).
  assert (forall o, cn_handshakeDone (sh_conn m) = true -> publishing pc' = false ->
    (if has_lock pc' HandshakeMutex then pending pc' (sh_conn m') else settle_from ths o (sh_conn m')) = sh_conn m')
    as Hafter by (intros o Hd Hpu; rewrite Hdone, pending_id by done; by destruct (has_lock _ _)).
  destruct (ths i) as [|su ctx k hs|n rd|t b wr|cl|r|]; try done; cbn [advance] in Ha;
    [destruct hs; cbn [advance_handshake] in Ha|destruct rd; cbn [advance_read] in Ha
    |destruct wr; cbn [advance_write] in Ha|destruct cl; cbn [advance_close] in Ha].
  all: try (unfold acquire in Ha; destruct (sh_locks m _) eqn:El; [done|]).
  all: try (injection Ha as <- <-; apply settles_same).
  - injection Ha as Epc <-. assert (has_lock pc' HandshakeMutex = false) as ->; [|apply settles_same].
    rewrite <-Epc. destruct (cn_handshakeDone _); [apply (proceed_no_lock k (Ok tt))|done].
  - injection Ha as <- <-. destruct (cn_handshakeDone _); [|destruct (cn_handshakeErr _)]; apply settles_same.
  - destruct Hpi as [_ [Hd He]]. pose proof (handshake_spec ctx su (sh_conn m)) as Hspec.
    unfold handshake in Hspec. rewrite Hd, He in Hspec. destruct (if cn_isServer _ then _ else _) as [res world].
    injection Ha as <- <-. split.
    + intros Hi. specialize (Hspec Hi Hc). by destruct res; [apply Hspec|apply Hspec|].
    + intros _. by split.
    + right. split; [by split|]. split; [|done]. destruct res; [intros [? _]|intros [_ ?]|]; done.
  - injection Ha as <- <-. rewrite proceed_no_lock. apply settles_same.
  - cbn [has_lock]. destruct Hpi as [[_ Hd] _]. rewrite Hdone, Hafter; [|done| |done]; destruct (0 <? _); injection Ha as <- <-;
      try done; [|apply settles_same]. apply settles_done; [done|]. intros Hi.
    destruct (fun Hb => runs_set_readBuf (W := W) (drop_z n (cn_readBuf (sh_conn m))) Hb (sh_conn m)) as ([Hi' _] & _);
      [pose proof (ci_buf _ Hi); zlen_pos; zlia|done|done].
  - cbn [has_lock]. destruct Hpi as [[Hn Hd] _]. rewrite Hdone, Hafter; [|done| |done].
    + eapply settles_ran; [by apply runs_read_round|done|by apply Hk|exact Ha].
    + destruct (read_round _ _) as [[[d|]|e|] c']; by injection Ha as <- _.
  - cbn [has_lock]. destruct Hpi as [Hd _]. rewrite Hdone, Hafter; [|done| |done].
    + destruct (0 <? zlen b); [|injection Ha as <- <-; apply settles_same].
      eapply (settles_ran _ (out_Seal _ _)); [apply runs_out_Seal|done|by apply Hk|exact Ha].
    + destruct (0 <? zlen b); [|by injection Ha as <- _].
      destruct (out_Seal _ _ _) as [[d|e|] c']; by injection Ha as <- _.
  - cbn [has_lock]. destruct Hpi as [Hd _]. rewrite Hdone, Hafter; [|done| |done].
    + eapply (settles_ran _ (on_raw _)); [apply runs_raw_write|done|by apply Hk|exact Ha].
    + destruct (on_raw _ _) as [[d|e|] c']; by injection Ha as <- _.
  - destruct (cn_closeOnce _); [injection Ha as <- <-; apply settles_same|].
    unfold acquire in Ha. destruct (sh_locks m CloseOnce); [done|]. injection Ha as <- <-. apply settles_same.
  - injection Ha as <- <-. destruct (_ && _); apply settles_same.
  - cbn [has_lock]. destruct Hpi as [_ Hd]. rewrite Hdone, Hafter; [|done| |done].
    + eapply (settles_ran _ (out_Seal _ _)); [apply runs_out_Seal|done|by apply Hk|exact Ha].
    + destruct (out_Seal _ _ _) as [[d|e|] c']; by injection Ha as <- _.
  - cbn [has_lock]. destruct Hpi as [_ Hd]. rewrite Hdone, Hafter; [|done| |done].
    + eapply (settles_ran _ (on_raw _)); [apply runs_on_raw, runs_deadline|done|by apply Hk|exact Ha].
    + destruct (on_raw _ _) as [[d|e|] c']; by injection Ha as <- _.
  - cbn [has_lock]. destruct Hpi as [_ Hd]. rewrite Hdone, Hafter; [|done| |done].
    + eapply (settles_ran _ (on_raw _)); [apply runs_raw_write|done|by apply Hk|exact Ha].
    + destruct (on_raw _ _) as [[d|e|] c']; by injection Ha as <- _.
  - injection Ha as <- <-.
    apply (settles_closing _ _ _ (fun c => set_world c ((conn_close (cn_raw c)).2, (cn_world c).2))).
    + by intros [|? ? ? []| | | | |].
    + intros c1 _ _ Hi. apply set_raw_inv; [done|]. split; [exists []; by rewrite app_nil_r|done].
    + by intros c1 [].
  - injection Ha as <- <-. destruct Hpi as [Ho Hcl].
    apply (settles_closing _ _ _ (fun c => set_closeErr c closeErr)).
    + by intros [|? ? ? []| | | | |].
    + intros c1 Er Eo Hi. pose proof (set_closed_inv c1 closeErr Hi) as [Hi' _]; [by rewrite Eo|].
      unfold set_closeErr. assert ((conn_close (cn_raw c1)).2 = cn_raw c1) as <-; [|done].
      rewrite <-Er in Hcl. destruct (cn_raw c1). cbn in *. by rewrite Hcl.
    + by intros c1 [].
Qed.

(** ** Every reachable state *)

Lemma at_rest_inv c : conn_inv c -> provider_ok c -> sys_inv (at_rest c).
Proof. intros Hi Hc. split; cbn; try done. split; [lia|done]. Qed.

Lemma event_ok_stable pc c c' e : keeps_faith pc c c' -> event_ok c e -> event_ok c' e.
Proof. intros Hk. destruct e as [i call|i [r| | |]]; try done. by eapply outcome_stable. Qed.

(** A goroutine enters or leaves a call. *)
Lemma hop_inv s i pc e :
  sys_inv s -> (forall l, has_lock (sy_ths s i) l = false) -> (forall l, has_lock pc l = false) ->
  pc_ok pc (sy_conn s) -> event_ok (sy_conn s) e ->
  sys_inv (Build_System (<[i:=pc]> (sy_ths s)) (sy_shared s) (sy_hist s ++ [e])).
Proof.
  intros [Hl Hp Hi Hc Hr Hh] Hn Hn' Hpc He.
  assert (settle (<[i:=pc]> (sy_ths s)) (sy_shared s) = settle (sy_ths s) (sy_shared s)) as Es.
  { unfold settle. destruct (sh_locks (sy_shared s) HandshakeMutex) as [j|] eqn:Ej; [|done].
    rewrite fn_lookup_insert_ne; [done|]. intros <-. apply Hl in Ej. by rewrite Hn in Ej. }
  split; cbn [sy_ths sy_shared sy_hist]; try rewrite Es; try done.
  - intros j l. destruct (decide (j = i)) as [->|Hne]; [|by rewrite fn_lookup_insert_ne by done].
    rewrite fn_lookup_insert, Hn', <-Hl, Hn. done.
  - intros j. by destruct (decide (j = i)) as [->|Hne]; [rewrite fn_lookup_insert|rewrite fn_lookup_insert_ne by done].
  - apply Forall_app. by split; [|constructor].
Qed.

Lemma sys_step_inv s s' : sys_step s s' -> sys_inv s -> sys_inv s'.
Proof.
  intros Hs [Hl Hp Hi Hc Hr Hh]. destruct Hs as [i call Ei Hcall|i pc m Ha|i r Ei].
  - apply hop_inv; [by split|intros l; by rewrite Ei|intros l; by destruct call| |done].
    destruct call; cbn; split; done.
  - pose proof (advance_faith _ _ _ _ _ Ha (Hp i) Hc) as Hk.
    assert (cn_handshakeDone (sy_conn s) = true -> conn_inv (sy_conn s)) as Hid.
    { intros Hd. unfold settle in Hi. change (conn_inv (settle_from (sy_ths s) (sh_locks (sy_shared s) HandshakeMutex) (sy_conn s))) in Hi.
      by erewrite settle_from_done in Hi. }
    pose proof (advance_pc_ok _ _ _ _ _ Ha (Hp i) Hc Hid) as Hp'.
    assert (pc <> Crashed) as Hcr by (by intros ->).
    pose proof (advance_moves _ _ _ _ _ Ha Hcr) as Hm.
    pose proof (advance_settles _ _ _ _ _ Ha Hl Hp Hc Hcr) as [Si Su Sr].
    split; cbn.
    + by apply (locks_ok_step _ (sy_shared s)).
    + intros j. destruct (decide (j = i)) as [->|Hne]; [by rewrite fn_lookup_insert|].
      rewrite fn_lookup_insert_ne by done. eapply pc_ok_stable; [exact Hk| |apply Hp].
      intros l Hil. apply Hl in Hil. destruct (has_lock (sy_ths s j) l) eqn:Ej; [|done].
      apply Hl in Ej. congruence.
    + by apply Si.
    + pose proof (kf_cfg _ _ _ Hk) as Ecfg. unfold provider_ok, cfg_of, sy_conn in *. cbn. by rewrite Ecfg.
    + destruct Hr as [Hr1 Hr2]. destruct Sr as [->|(Hu & Hnu & ->)]; [by auto|].
      rewrite Hr2 by done. split; [done|]. by intros ?%Hnu.
    + eapply Forall_impl; [exact Hh|]. intros e. by eapply event_ok_stable.
  - pose proof (Hp i) as Hpi. rewrite Ei in Hpi. apply hop_inv; [by split|intros l; by rewrite Ei|done|done|by destruct r].
Qed.

Lemma sys_reachable_inv c s :
  conn_inv c -> provider_ok c -> rtc sys_step (at_rest c) s -> sys_inv s.
Proof.
  intros Hi Hc Hs. pose proof (at_rest_inv c Hi Hc) as H0'.
  revert H0'. induction Hs as [|s1 s2 s3 Hs _ IH]; [done|]. intros H1'. by eapply IH, sys_step_inv.
Qed.

(** Once the handshake is done, what is published is all there is. *)
Lemma settled_live s : sys_inv s -> cn_handshakeDone (sy_conn s) = true -> conn_inv (sy_conn s).
Proof.
  intros [_ Hp Hi _ _ _] Hd. change (conn_inv (settle_from (sy_ths s) (sh_locks (sy_shared s) HandshakeMutex) (sy_conn s))) in Hi.
  by erewrite settle_from_done in Hi.
Qed.

(** ** No data race *)

(** What protects an access. *)
Definition guarded (fa : Field * Access) (pc : PC) c : Prop :=
  match fa with
  | (FHandshakeErr, _) => has_lock pc HandshakeMutex = true
  | (FInCipher, Writes) | (FOutCipher, Writes) =>
      has_lock pc HandshakeMutex = true /\ cn_handshakeDone c = false
  | (FInCipher, Reads) | (FOutCipher, Reads) => cn_handshakeDone c = true
  | (FReadBuf, _) => has_lock pc ReadMu = true
  | (FCloseErr, Writes) => has_lock pc CloseOnce = true /\ cn_closeOnce c = false
  | (FCloseErr, Reads) => cn_closeOnce c = true
  end.

Lemma accesses_guarded fa pc c : fa ∈ accesses pc c -> pc_ok pc c -> guarded fa pc c.
Proof.
  intros Hf Hp. destruct pc as [|su ctx k []|n []|t b []|[]|r|]; cbn in Hf; try done;
    try (destruct (cn_handshakeDone c) eqn:E); try (destruct (cn_closeOnce c) eqn:E');
    repeat (apply elem_of_cons in Hf as [->|Hf]); try (by apply elem_of_nil in Hf); cbn; try done;
    try (by apply Hp); try (split; [done|]; by apply Hp).
Qed.

(** The field is untouched; a cipher's own state is behind the mutex of
    [RecordCipher], so of the two pointers only nil or not counts. *)
Definition untouched (f : Field) c c' : Prop :=
  match f with
  | FHandshakeErr => cn_handshakeErr c' = cn_handshakeErr c
  | FInCipher => is_Some (cn_inCipher c') <-> is_Some (cn_inCipher c)
  | FOutCipher => is_Some (cn_outCipher c') <-> is_Some (cn_outCipher c)
  | FReadBuf => cn_readBuf c' = cn_readBuf c
  | FCloseErr => cn_closeErr c' = cn_closeErr c
  end.

Lemma untouched_refl f c : untouched f c c.
Proof. by destruct f. Qed.

Lemma ran_untouched {A} (mm : stM (Conn W) A) (f : result A -> PC) m pc' m' fld :
  (let '(r, c') := mm (sh_conn m) in goto m (f r) c') = Some (pc', m') ->
  untouched fld (sh_conn m) (mm (sh_conn m)).2 -> untouched fld (sh_conn m) (sh_conn m').
Proof. destruct (mm (sh_conn m)) as [r c']. by intros [= <- <-]. Qed.

Lemma untouched_writer {A} (mm : stM (Conn W) A) fld c :
  blind over_writer mm -> (is_Some (cn_outCipher (mm c).2) <-> is_Some (cn_outCipher c)) -> untouched fld c (mm c).2.
Proof. intros Hb Ho. pose proof (writer_frame mm c Hb) as F. by destruct fld; [rewrite F|rewrite F|exact Ho|rewrite F|rewrite F]. Qed.

Lemma untouched_raw {A} (mm : stM RawConn A) fld c : untouched fld c (on_raw mm c).2.
Proof. unfold on_raw. destruct (mm (cn_raw c)). by destruct fld. Qed.

Lemma out_Seal_pointer t p c : is_Some (cn_outCipher (out_Seal t p c).2) <-> is_Some (cn_outCipher c).
Proof. unfold out_Seal. destruct (cn_outCipher c) as [rc|] eqn:E; [|by cbn; rewrite E].
  destruct (Seal t p rc). by split; intros _; eexists.
Qed.

(** Reading keeps the pointer to its cipher. *)
Definition keeps_in {A} (mm : stM (Conn W) A) : Prop :=
  forall c, is_Some (cn_inCipher (mm c).2) <-> is_Some (cn_inCipher c).

Lemma keeps_in_pure {A} (r : result A) : keeps_in (fun c => (r, c)).
Proof. done. Qed.
Lemma keeps_in_bind {A B} (mm : stM (Conn W) A) (k : A -> stM (Conn W) B) :
  keeps_in mm -> (forall x, keeps_in (k x)) -> keeps_in (mm ≫= k).
Proof.
  intros Hm Hk c. unfold mbind, stM_bind. pose proof (Hm c) as Hc. destruct (mm c) as [[x|e|] c1]; [|done..].
  etrans; [apply Hk|exact Hc].
Qed.
Lemma keeps_in_if {A} (b : bool) (m1 m2 : stM (Conn W) A) : keeps_in m1 -> keeps_in m2 -> keeps_in (if b then m1 else m2).
Proof. by destruct b. Qed.
Lemma keeps_in_read_or n eof : keeps_in (read_or (W := W) n eof).
Proof. intros c. unfold read_or, on_raw. destruct (read_full n (cn_raw c)) as [[]]; done. Qed.
Lemma keeps_in_Unseal record : keeps_in (in_Unseal (W := W) record <?> "teetls: unseal record: %w").
Proof.
  intros c. unfold map_err, stM_map_err, in_Unseal. destruct (cn_inCipher c) as [rc|] eqn:E; [|by cbn; rewrite E].
  destruct (Unseal record rc) as [[] ?]; by split; intros _; eexists.
Qed.

Lemma keeps_in_round n : keeps_in (read_round (W := W) n).
Proof.
  unfold read_round. apply keeps_in_bind; [apply keeps_in_read_or|]. intros header.
  apply keeps_in_if; [apply keeps_in_pure|]. apply keeps_in_if; [apply keeps_in_pure|].
  apply keeps_in_bind; [apply keeps_in_read_or|]. intros payload.
  apply keeps_in_bind; [apply keeps_in_Unseal|]. intros [t p].
  apply keeps_in_if; apply keeps_in_if; try apply keeps_in_pure.
  - apply keeps_in_if; [apply keeps_in_bind; [done|]; intros u|]; apply keeps_in_pure.
  - apply keeps_in_if; [apply keeps_in_pure|]. apply keeps_in_bind; [by apply keeps_in_if|].
    intros u. apply keeps_in_pure.
Qed.

Lemma untouched_reader {A} (mm : stM (Conn W) A) fld c :
  blind over_reader mm -> keeps_in mm -> fld <> FReadBuf -> untouched fld c (mm c).2.
Proof. intros Hb Ho Hn. pose proof (reader_frame mm c Hb) as F. by destruct fld; [rewrite F|exact (Ho c)|rewrite F| |rewrite F]. Qed.

(** The list of a step's accesses is complete for the writes. *)
Lemma accesses_complete i pc m pc' m' f :
  advance i pc m = Some (pc', m') -> (f, Writes) ∉ accesses pc (sh_conn m) ->
  untouched f (sh_conn m) (sh_conn m').
Proof.
  intros Ha Hf. destruct pc as [|su ctx k hs|n rd|t b wr|cl|r|]; try done; cbn [advance accesses] in *;
    [destruct hs; cbn [advance_handshake] in Ha|destruct rd; cbn [advance_read] in Ha
    |destruct wr; cbn [advance_write] in Ha|destruct cl; cbn [advance_close] in Ha].
  all: try (unfold acquire in Ha; destruct (sh_locks m _); [done|]).
  all: try (by injection Ha as <- <-; apply untouched_refl).
  all: try (by injection Ha as <- <-; destruct f; first [done|destruct Hf; set_solver]).
  - destruct (if cn_isServer _ then _ else _) as [res world]. injection Ha as <- <-. by destruct f.
  - destruct (0 <? _); injection Ha as <- <-; [|apply untouched_refl]. destruct f; try done. destruct Hf. set_solver.
  - eapply ran_untouched; [exact Ha|]. apply untouched_reader; [apply blind_read_round|apply keeps_in_round|].
    intros ->. destruct Hf. set_solver.
  - destruct (0 <? zlen b); [|injection Ha as <- <-; apply untouched_refl].
    eapply ran_untouched; [exact Ha|]. apply untouched_writer; [apply blind_out_Seal|apply out_Seal_pointer].
  - eapply ran_untouched; [exact Ha|]. apply untouched_raw.
  - destruct (cn_closeOnce _); [injection Ha as <- <-; apply untouched_refl|].
    unfold acquire in Ha. destruct (sh_locks m _); [done|]. injection Ha as <- <-. apply untouched_refl.
  - eapply ran_untouched; [exact Ha|]. apply untouched_writer; [apply blind_out_Seal|apply out_Seal_pointer].
  - eapply ran_untouched; [exact Ha|]. apply untouched_raw.
  - eapply ran_untouched; [exact Ha|]. apply untouched_raw.
Qed.

(** C17. Freedom from data races: whatever the goroutines do, no two of them are
    ever both about to access one of the fields [handshakeErr], [inCipher],
    [outCipher], [readBuf] and [closeErr] unless both only read it, and while
    one is about to access such a field no step of another changes it. *)
Theorem conn_race_free c s i j f a :
  conn_inv c -> provider_ok c -> rtc sys_step (at_rest c) s -> i <> j ->
  (f, a) ∈ accesses (sy_ths s i) (sy_conn s) ->
  (forall b, (f, b) ∈ accesses (sy_ths s j) (sy_conn s) -> a = Reads /\ b = Reads) /\
  (forall pc m, advance j (sy_ths s j) (sy_shared s) = Some (pc, m) -> untouched f (sy_conn s) (sh_conn m)).
Proof.
  intros Hi Hc Hs Hij Ha. pose proof (sys_reachable_inv c s Hi Hc Hs) as [Hl Hp _ _ _ _].
  enough (forall b, (f, b) ∈ accesses (sy_ths s j) (sy_conn s) -> a = Reads /\ b = Reads) as Hrr.
  { split; [done|]. intros pc m Hadv. eapply accesses_complete; [exact Hadv|]. by intros [_ ?]%Hrr. }
  intros b Hb.
  apply accesses_guarded in Ha; [|done]. apply accesses_guarded in Hb; [|done].
  assert (forall l, has_lock (sy_ths s i) l = true -> has_lock (sy_ths s j) l = true -> False) as Hex.
  { intros l Hli%Hl Hlj%Hl. congruence. }
  destruct f, a, b; cbn in Ha, Hb; try done; exfalso; intuition (eauto; congruence).
Qed.

(** ** One handshake *)

(** C7. The handshake of a connection runs at most once, however many goroutines
    call its methods, and all calls of [Handshake] that return agree on its
    outcome. *)
Theorem handshake_once c s :
  conn_inv c -> provider_ok c -> rtc sys_step (at_rest c) s ->
  (sh_runs (sy_shared s) <= 1)%nat /\
  forall i r j r', Return i (RetHandshake r) ∈ sy_hist s -> Return j (RetHandshake r') ∈ sy_hist s ->
    r = r' /\ outcome r (sy_conn s).
Proof.
  intros Hi Hc Hs. pose proof (sys_reachable_inv c s Hi Hc Hs) as Hinv. pose proof Hinv as [_ _ _ _ [Hr _] Hh].
  split; [done|]. intros i r j r' Hir Hjr. rewrite Forall_forall in Hh.
  pose proof (Hh _ Hir) as Ho. pose proof (Hh _ Hjr) as Ho'. split; [|exact Ho]. cbn in Ho, Ho'.
  assert (cn_handshakeDone (sy_conn s) = true -> cn_handshakeErr (sy_conn s) = None) as Hex.
  { intros Hd. pose proof (ci_phase _ (settled_live s Hinv Hd)) as Hph. rewrite Hd in Hph. by apply rd_err. }
  destruct r as [[]|e|], r' as [[]|e'|]; cbn in *; try done; [rewrite Hex in Ho'|rewrite Hex in Ho|]; congruence.
Qed.
End preserved.

(** ** Instances *)

Abbreviation toy_act_all := (@act_all toy_sm3 toy_sm4 toy_hkdf toy_sm2 toy_x509 MockEvidenceProvider).
Abbreviation toy_sys_step := (@sys_step toy_sm3 toy_sm4 toy_hkdf toy_sm2 toy_x509 MockEvidenceProvider).

(** One goroutine about to seal a record, with its mutex, and one that closes. *)
Definition toy_write_and_close : list Action :=
  [DoInvoke 0 (CallWrite toy_surroundings [x07]); DoAdvance 0; DoAdvance 0; DoInvoke 1 CallClose; DoAdvance 1].

Lemma toy_run {A} (f : System MockEvidenceProvider -> A) l s0 x :
  match toy_act_all l s0 with Some s => Some (f s) | None => None end = Some x ->
  exists s, toy_act_all l s0 = Some s /\ f s = x.
Proof. destruct (toy_act_all l s0) as [s|]; [|done]. intros [= <-]. by exists s. Qed.

Lemma toy_ready_safe rx : provider_ok (toy_ready_conn rx).
Proof. intros p. done. Qed.

Lemma conn_race_free_witness :
  exists s, rtc toy_sys_step (at_rest (toy_ready_conn [])) s /\
    (FOutCipher, Reads) ∈ accesses (sy_ths s 0%nat) (sy_conn s) /\
    forall b, (FOutCipher, b) ∈ accesses (sy_ths s 1%nat) (sy_conn s) -> b = Reads.
Proof.
  destruct (toy_run (fun s => (accesses (sy_ths s 0%nat) (sy_conn s), accesses (sy_ths s 1%nat) (sy_conn s)))
    toy_write_and_close (at_rest (toy_ready_conn [])) ([(FOutCipher, Reads)], [(FOutCipher, Reads)]))
    as (s & Hs & Hacc); [vm_compute; reflexivity|]. injection Hacc as Ha Hb.
  apply act_all_steps in Hs; [|repeat constructor].
  exists s. split; [exact Hs|]. rewrite Ha. split; [apply list_elem_of_here|]. intros b Hin.
  apply (@conn_race_free toy_sm3 toy_sm3_laws toy_sm4 toy_sm4_laws toy_hkdf toy_hkdf_laws toy_x509 toy_sm2
    toy_sm2_laws toy_no_panics MockEvidenceProvider (toy_ready_conn []) s 0%nat 1%nat FOutCipher Reads
    (toy_ready_inv []) (toy_ready_safe []) Hs ltac:(discriminate)); [rewrite Ha; apply list_elem_of_here|exact Hin].
Defined.

(** Two goroutines that call [Handshake] at once on a connection whose peer
    sends garbage: one runs it, the other waits and is told the same. *)
Definition toy_two_handshakes : list Action :=
  [DoInvoke 0 (CallHandshake toy_surroundings Background); DoInvoke 1 (CallHandshake toy_surroundings Background);
   DoAdvance 0; DoAdvance 1; DoAdvance 0; DoAdvance 0; DoAdvance 0; DoAdvance 0; DoAdvance 0;
   DoAdvance 1; DoAdvance 1; DoAdvance 1; DoReturn 0; DoReturn 1].

Definition handshakes_returned (h : list Event) : list nat :=
  omap (fun e => match e with Return i (RetHandshake (Err _)) => Some i | _ => None end) h.

Lemma handshake_once_witness :
  let c := NewClientConn (toy_client_world [x16; x03; x03; x00; x01; x07]) (Some toy_static) in
  exists s, rtc toy_sys_step (at_rest c) s /\ (sh_runs (sy_shared s) <= 1)%nat /\
    handshakes_returned (sy_hist s) = [0%nat; 1%nat] /\
    forall r r', Return 0 (RetHandshake r) ∈ sy_hist s -> Return 1 (RetHandshake r') ∈ sy_hist s -> r = r'.
Proof.
  intros c. destruct (toy_run (fun s => handshakes_returned (sy_hist s)) toy_two_handshakes (at_rest c) [0%nat; 1%nat])
    as (s & Hs & Hr); [vm_compute; reflexivity|].
  apply act_all_steps in Hs; [|repeat constructor]. exists s. split; [exact Hs|].
  destruct (@handshake_once toy_sm3 toy_sm3_laws toy_sm4 toy_sm4_laws toy_hkdf toy_hkdf_laws toy_x509 toy_sm2
    toy_sm2_laws toy_no_panics MockEvidenceProvider c s (@new_conn_inv toy_sm3 toy_sm2 toy_x509 _ _ _ _)
    toy_static_safe Hs) as [Hn Hsame].
  split; [exact Hn|]. split; [exact Hr|]. intros r r' H1 H2. exact (proj1 (Hsame _ _ _ _ H1 H2)).
Defined.
