(* ===== verification/Progress.v ===== *)
(** * Every call returns (conn.go)

    The locks of a connection cannot deadlock, and no schedule keeps a call from
    returning: from any reachable state, the calls that are under way come to
    their end in a bounded number of steps, in whatever order the goroutines
    take them. *)

From stdpp Require Import functions.
From S2P Require Import Prelude Gcm Gmsm Toy NetIO Record Framing KeySchedule GoLib.
From S2P Require Import CsvReport CsvVerify CsvMock CsvClient Asn1 Evidence Gx509 Provider Cert.
From S2P Require Import Config Verifier Handshake Session Effects Conn ConnState Stream Duplex.
From S2P Require Import Goroutines Exclusion.

(** ** Deadlock *)

Definition in_call (pc : PC) : bool :=
  match pc with Idle | Finished _ => false | _ => true end.

Section progress.
Context `{SM3Laws, SM4Laws, HKDFLaws, X509, SM2Laws, !NoPanics} {W : Type}.
Implicit Types (c : Conn W) (m : Shared W) (s : System W).

Definition can_advance s (i : nat) : Prop := is_Some (advance i (sy_ths s i) (sy_shared s)).

(** The goroutine [i] waits for a lock that [j] holds. *)
Definition waits_on s (i j : nat) : Prop :=
  exists l, waits_for (sy_ths s i) (sy_conn s) = Some l /\ sh_locks (sy_shared s) l = Some j.

Lemma advance_enabled i pc m :
  in_call pc = true -> pc <> Crashed ->
  (forall l, waits_for pc (sh_conn m) = Some l -> sh_locks m l = None) -> is_Some (advance i pc m).
Proof.
  intros Hin Hcr Hw. destruct pc as [|su ctx k hs|n rd|t b wr|cl|r|]; try done; cbn [advance waits_for] in *.
  - destruct hs; cbn [advance_handshake]; try (by eexists); [unfold acquire; by rewrite (Hw _ eq_refl)|].
    destruct (if cn_isServer _ then _ else _). by eexists.
  - destruct rd; cbn [advance_read]; try (by eexists).
    + unfold acquire. by rewrite (Hw _ eq_refl).
    + by destruct (0 <? _).
    + by destruct (read_round _ _).
  - destruct wr; cbn [advance_write]; try (by eexists).
    + unfold acquire. by rewrite (Hw _ eq_refl).
    + destruct (0 <? _); [|by eexists]. by destruct (out_Seal _ _ _).
    + by destruct (on_raw _ _).
  - destruct cl; cbn [advance_close]; try (by eexists).
    + destruct (cn_closeOnce _); [by eexists|]. unfold acquire. by rewrite (Hw _ eq_refl).
    + unfold acquire. by rewrite (Hw _ eq_refl).
    + by destruct (out_Seal _ _ _).
    + by destruct (on_raw _ _).
    + by destruct (on_raw _ _).
Qed.

(** Who holds a lock waits for none, or for [writeMu] with [closeOnce] in hand. *)
Lemma holder_waits pc c l l' :
  has_lock pc l = true -> waits_for pc c = Some l' -> l = CloseOnce /\ l' = WriteMu.
Proof.
  destruct pc as [|su ctx k []|n []|t b []|[]|r|], l; cbn; try done; try (by intros _ [= <-]);
    destruct (cn_closeOnce c); done.
Qed.

Lemma waits_end c s i :
  conn_inv c -> provider_ok c -> rtc sys_step (at_rest c) s -> in_call (sy_ths s i) = true ->
  sy_ths s i <> Crashed /\
  (can_advance s i \/
   exists j, waits_on s i j /\ (can_advance s j \/ exists k, waits_on s j k /\ can_advance s k)).
Proof.
  intros Hi Hc Hs Hin. pose proof (sys_reachable_inv c s Hi Hc Hs) as [Hl Hp _ _ _ _].
  assert (forall j, sy_ths s j <> Crashed) as Hcr by (intros j E; by pose proof (Hp j) as Hpj; rewrite E in Hpj).
  assert (forall j, in_call (sy_ths s j) = true -> can_advance s j \/ exists k, waits_on s j k) as Hstep.
  { intros j Hj. destruct (waits_for (sy_ths s j) (sy_conn s)) as [l|] eqn:Ew.
    - destruct (sh_locks (sy_shared s) l) as [k|] eqn:Ek; [right; by exists k, l|].
      left. apply advance_enabled; [done|done|]. intros l' E. unfold sy_conn in Ew. congruence.
    - left. apply advance_enabled; [done|done|]. intros l' E. unfold sy_conn in Ew. congruence. }
  assert (forall j l, has_lock (sy_ths s j) l = true -> in_call (sy_ths s j) = true) as Hhold
    by (intros j l; by destruct (sy_ths s j)).
  split; [done|]. destruct (Hstep i Hin) as [?|(j & l & Hw & Hj)]; [by left|right]. exists j.
  split; [by exists l|]. apply Hl in Hj. destruct (Hstep j (Hhold _ _ Hj)) as [?|(k & l' & Hw' & Hk)]; [by left|right].
  exists k. split; [by exists l'|]. apply Hl in Hk.
  destruct (holder_waits _ _ _ _ Hj Hw') as [-> ->].
  destruct (Hstep k (Hhold _ _ Hk)) as [?|(k' & l'' & Hw'' & _)]; [done|].
  by destruct (holder_waits _ _ _ _ Hk Hw'').
Qed.

(** C18. No deadlock: in every reachable state a goroutine that is in a call has
    not panicked, and can take its next step, or waits for a lock whose holder
    can, or waits behind a [Close] that itself waits for the writer, who can. *)
Theorem no_deadlock c s i :
  conn_inv c -> provider_ok c -> rtc sys_step (at_rest c) s -> in_call (sy_ths s i) = true ->
  sy_ths s i <> Crashed /\
  (can_advance s i \/
   exists j, waits_on s i j /\ (can_advance s j \/ exists k, waits_on s j k /\ can_advance s k)).
Proof. apply waits_end. Qed.

(** ** Termination *)

(** The steps that a call has before it at most, besides the records it reads. *)
Definition weight_next (k : Next) : nat :=
  match k with ThenReturn => 0 | ThenRead _ => 4 | ThenWrite b => 3 + 2 * length b end.
Definition weight (pc : PC) : nat :=
  match pc with
  | Idle | Finished _ | Crashed => 0
  | InHandshake _ _ k hs =>
      weight_next k +
      match hs with
      | HsLoad => 9 | HsLock => 8 | HsCheck => 7 | HsRun => 6 | HsSetIn _ => 5 | HsSetOut _ => 4 | HsSetPeer _ => 3
      | HsStore => 2 | HsFail _ => 2 | HsUnlock _ => 1
      end
  | InRead _ rd => match rd with RdLock => 4 | RdBuf => 3 | RdRound => 2 | RdUnlock _ => 1 end
  | InWrite _ b wr =>
      match wr with
      | WrLock => 3 + 2 * length b | WrLoop => 2 + 2 * length b | WrSend _ _ => 1 + 2 * length b | WrUnlock _ => 1
      end
  | InClose cl =>
      match cl with
      | ClOnce => 9 | ClLoad => 8 | ClLock => 7 | ClSeal => 6 | ClDeadline _ => 5 | ClSend _ => 4 | ClUnlock _ => 3
      | ClRaw _ => 2 | ClStore _ => 1
      end
  end%nat.

Definition rx_length c : nat := length (conn_rx (cn_raw c)).

Lemma weight_proceed k r : (weight (proceed k r) <= weight_next k)%nat.
Proof. destruct r as [u|e|], k as [|n|b]; cbn; try lia. destruct (n =? 0); cbn [weight]; lia. Qed.

Lemma taken_from_length recs rx rest : taken_from recs rx rest -> (length rest <= length rx)%nat.
Proof. induction 1 as [lost rest|lost rec recs rx rest _ IH]; rewrite !length_app; lia. Qed.

Lemma handshake_rx ctx su c :
  provider_ok c ->
  (length (conn_rx (if cn_isServer c then ServerHandshakeContext ctx su (cn_cfg c) (cn_world c)
              else ClientHandshakeContext ctx su (cn_cfg c) (cn_world c)).2.1) <= rx_length c)%nat.
Proof.
  intros Hc. unfold rx_length, cn_raw. destruct (cn_isServer c).
  - destruct (server_run ctx su (cn_cfg c) (cn_world c) Hc) as (_ & [[got Hg] _ _ _ _ _ _] & _).
    cbn in Hg. rewrite Hg, length_app. lia.
  - destruct (runs_client ctx su (cn_cfg c) Hc (cn_world c) Logic.I) as (_ & Hr & _).
    destruct Hr as [[got Hg] _ _ _ _ _ _].
    apply (f_equal length) in Hg. rewrite length_app in Hg. rewrite Hg. apply Nat.le_add_l.
Qed.

Lemma lighter_writer {A} (mm : stM (Conn W) A) (f : result A -> PC) m pc' m' w :
  blind over_writer mm -> (forall r, (weight (f r) < w)%nat) ->
  (let '(r, c') := mm (sh_conn m) in goto m (f r) c') = Some (pc', m') ->
  (weight pc' + rx_length (sh_conn m') < w + rx_length (sh_conn m))%nat.
Proof.
  intros Hb Hw Ha. pose proof (writer_frame mm (sh_conn m) Hb) as Hf.
  destruct (mm (sh_conn m)) as [r c']. injection Ha as <- <-. cbn in *. rewrite Hf.
  change (rx_length (over_writer (sh_conn m) c')) with (rx_length (sh_conn m)). pose proof (Hw r). lia.
Qed.

(** Every step brings the end nearer. *)
Lemma advance_lighter i pc m pc' m' :
  advance i pc m = Some (pc', m') -> pc_ok pc (sh_conn m) -> provider_ok (sh_conn m) ->
  (cn_handshakeDone (sh_conn m) = true -> conn_inv (sh_conn m)) ->
  (weight pc' + rx_length (sh_conn m') < weight pc + rx_length (sh_conn m))%nat.
Proof.
  intros Ha Hp Hc Hi. destruct pc as [|su ctx k hs|n rd|t b wr|cl|r|]; try done; cbn [advance] in Ha;
    [destruct hs; cbn [advance_handshake] in Ha|destruct rd; cbn [advance_read] in Ha
    |destruct wr; cbn [advance_write] in Ha|destruct cl; cbn [advance_close] in Ha].
  all: try (unfold acquire in Ha; destruct (sh_locks m _); [done|]).
  all: try (injection Ha as <- <-; unfold rx_length, cn_raw; cbn; lia).
  - apply goto_inv in Ha as [-> ->]. pose proof (weight_proceed k (Ok tt)).
    destruct (cn_handshakeDone _); unfold rx_length; cbn [weight sh_conn set_conn]; lia.
  - injection Ha as <- <-. unfold rx_length. destruct (cn_handshakeDone _); [|destruct (cn_handshakeErr _)];
      cbn [weight sh_conn set_conn]; lia.
  - pose proof (handshake_rx ctx su (sh_conn m) Hc) as Hrx. destruct (if cn_isServer _ then _ else _) as [res world].
    injection Ha as <- <-. unfold rx_length in *. cbn in Hrx. destruct res; unfold cn_raw at 1; cbn; lia.
  - assert (pc' = proceed k r /\ m' = set_lock m HandshakeMutex None) as [-> ->] by (by injection Ha as <- <-).
    pose proof (weight_proceed k r). unfold rx_length. cbn [weight sh_conn set_lock]. lia.
  - destruct (0 <? _); injection Ha as <- <-; unfold rx_length, cn_raw; cbn; lia.
  - destruct Hp as [[Hn Hd] Hb]. destruct (rd_in _ (live_ready _ (conj (Hi Hd) Hd))) as (rc & Hin & Hok).
    destruct (read_round_ok n _ rc Hn Hin Hok Hb) as ((msgs & [(_ & _ & recs & _ & _ & _ & Ht) _ _ _ _] & _) & Hr & _).
    destruct (read_round n (sh_conn m)) as [r c']. injection Ha as <- <-. apply taken_from_length in Ht.
    unfold rx_length. cbn in *. destruct r as [[d|]|e|]; cbn; [lia|destruct Hr; lia|lia..].
  - destruct (Z.ltb_spec 0 (zlen b)); [|injection Ha as <- <-; unfold rx_length, cn_raw; cbn; lia].
    eapply lighter_writer; [apply (blind_out_Seal)| |exact Ha]. intros [d|e|]; cbn; lia.
  - destruct Hp as [Hd Hch]. unfold zlen in Hch. eapply lighter_writer; [apply blind_writeFull| |exact Ha].
    intros [d|e|]; cbn; [|lia..]. unfold drop_z. rewrite length_drop. lia.
  - destruct (cn_closeOnce _); [injection Ha as <- <-; unfold rx_length, cn_raw; cbn; lia|].
    unfold acquire in Ha. destruct (sh_locks m _); [done|]. injection Ha as <- <-. unfold rx_length, cn_raw; cbn; lia.
  - injection Ha as <- <-. unfold rx_length, cn_raw. destruct (_ && _); cbn; lia.
  - eapply lighter_writer; [apply blind_out_Seal| |exact Ha]. intros [d|e|]; cbn; lia.
  - eapply lighter_writer; [apply blind_set_deadline| |exact Ha]. intros [d|e|]; cbn; lia.
  - eapply lighter_writer; [apply blind_writeFull| |exact Ha]. intros [d|e|]; cbn; lia.
  - injection Ha as <- <-. cbn. change (rx_length (set_closeErr _ _)) with (rx_length (sh_conn m)). lia.
Qed.

(** One step of a goroutine that is in a call; no new calls. *)
Inductive adv_step s : System W -> Prop :=
| adv_one i pc m :
    advance i (sy_ths s i) (sy_shared s) = Some (pc, m) ->
    adv_step s (Build_System (<[i:=pc]> (sy_ths s)) m (sy_hist s)).

(** The steps that all calls under way, those of the goroutines [gs], can take. *)
Definition steps_left (gs : list nat) s : nat :=
  sum_list ((fun i => weight (sy_ths s i)) <$> gs) + rx_length (sy_conn s).

Lemma adv_step_sys s s' : adv_step s s' -> sys_step s s'.
Proof. intros [i pc m Ha]. by constructor. Qed.

Lemma sum_weights_insert (gs : list nat) (ths : nat -> PC) i pc :
  NoDup gs -> i ∈ gs ->
  (sum_list ((fun j => weight (<[i:=pc]> ths j)) <$> gs) + weight (ths i) =
   sum_list ((fun j => weight (ths j)) <$> gs) + weight pc)%nat.
Proof.
  induction 1 as [|j gs Hj Hnd IH]; [by intros ?%elem_of_nil|]. intros Hi. cbn.
  destruct (decide (i = j)) as [->|Hne].
  - rewrite fn_lookup_insert.
    assert (((fun j0 => weight (<[j:=pc]> ths j0)) <$> gs) = ((fun j0 => weight (ths j0)) <$> gs)) as ->; [|lia].
    apply list_fmap_ext. intros n j' Hj'. rewrite fn_lookup_insert_ne; [done|].
    intros ->. by apply Hj, list_elem_of_lookup_2 with n.
  - rewrite fn_lookup_insert_ne by done. apply elem_of_cons in Hi as [?|Hi]; [done|]. specialize (IH Hi). lia.
Qed.

Lemma adv_step_left (gs : list nat) s s' :
  sys_inv s -> NoDup gs -> (forall i, i ∉ gs -> in_call (sy_ths s i) = false) -> adv_step s s' ->
  (steps_left gs s' < steps_left gs s)%nat /\ forall i, i ∉ gs -> in_call (sy_ths s' i) = false.
Proof.
  intros Hs Hnd Hall [i pc m Ha]. pose proof Hs as [Hl Hp Hi Hc _ _].
  assert (i ∈ gs) as Hin.
  { destruct (decide (i ∈ gs)) as [|Hn]; [done|]. apply Hall in Hn. by destruct (sy_ths s i). }
  assert (cn_handshakeDone (sy_conn s) = true -> conn_inv (sy_conn s)) as Hid by (by apply settled_live).
  pose proof (advance_lighter _ _ _ _ _ Ha (Hp i) Hc Hid) as Hlt.
  pose proof (sum_weights_insert gs (sy_ths s) i pc Hnd Hin) as Hsum.
  split; [unfold steps_left, sy_conn in *; cbn in *; lia|]. cbn. intros j Hj. rewrite fn_lookup_insert_ne; [by apply Hall|].
  by intros ->.
Qed.

(** C19. Every call returns: from any reachable state and under any schedule, the
    calls that are under way end.  The steps they can still take are bounded, by
    a number that the data still to be read and to be written determines, and
    when none of them can take a step each has its result. *)
Theorem calls_return c s (gs : list nat) :
  conn_inv c -> provider_ok c -> rtc sys_step (at_rest c) s ->
  NoDup gs -> (forall i, i ∉ gs -> in_call (sy_ths s i) = false) ->
  (forall k s', nsteps adv_step k s s' -> (k <= steps_left gs s)%nat) /\
  (forall s', rtc adv_step s s' -> (forall s'', ~ adv_step s' s'') ->
     forall i, in_call (sy_ths s' i) = false).
Proof.
  intros Hi Hc Hs Hnd Hall. split.
  - intros k. revert s Hs Hall. induction k as [|k IH]; intros s Hs Hall s' Hk; [lia|].
    inversion Hk as [|? ? s1 ? H1' Hk']; subst. clear Hk.
    destruct (adv_step_left gs s s1) as [Hlt Hall1]; [by apply (sys_reachable_inv c)|done..|].
    assert (k <= steps_left gs s1)%nat; [|lia]. apply (IH s1) with s'; [|done..].
    eapply rtc_r; [exact Hs|by apply adv_step_sys].
  - intros s' Hss' Hstuck i. destruct (in_call (sy_ths s' i)) eqn:E; [exfalso|done].
    assert (rtc sys_step (at_rest c) s') as Hs'.
    { etrans; [exact Hs|]. eapply rtc_subrel; [|exact Hss']. exact adv_step_sys. }
    assert (forall j, ~ can_advance s' j) as Hno.
    { intros j [[pc m] Ha]. eapply Hstuck. by econstructor. }
    destruct (waits_end c s' i Hi Hc Hs' E) as [_ [Ha|(j & _ & [Ha|(k & _ & Ha)])]]; by eapply Hno.
Qed.
End progress.

(** ** Instances *)

(** One goroutine in the critical section of its write, and a [Close] behind it. *)
Definition toy_close_waits : list Action := toy_write_and_close ++ [DoAdvance 1].

Lemma no_deadlock_witness :
  exists s, rtc toy_sys_step (at_rest (toy_ready_conn [])) s /\
    waits_on s 1 0 /\
    (@can_advance toy_sm3 toy_sm4 toy_hkdf toy_x509 toy_sm2 _ s 1%nat \/ exists j, waits_on s 1 j).
Proof.
  destruct (toy_run (fun s => (waits_for (sy_ths s 1%nat) (sy_conn s), sh_locks (sy_shared s) WriteMu,
    in_call (sy_ths s 1%nat))) toy_close_waits (at_rest (toy_ready_conn [])) (Some WriteMu, Some 0%nat, true))
    as (s & Hs & Hf); [vm_compute; reflexivity|]. injection Hf as Hw Hl Hin.
  apply act_all_steps in Hs; [|repeat constructor].
  exists s. split; [exact Hs|]. split; [by exists WriteMu|].
  destruct (@no_deadlock toy_sm3 toy_sm3_laws toy_sm4 toy_sm4_laws toy_hkdf toy_hkdf_laws toy_x509 toy_sm2
    toy_sm2_laws toy_no_panics MockEvidenceProvider (toy_ready_conn []) s 1%nat
    (toy_ready_inv []) (toy_ready_safe []) Hs Hin) as [_ [Ha|(j & Hj & _)]]; [by left|right; by exists j].
Defined.

Lemma calls_return_witness :
  exists s, rtc toy_sys_step (at_rest (toy_ready_conn [])) s /\
    steps_left [0%nat; 1%nat] s = 11%nat /\
    forall k s', nsteps (@adv_step toy_sm3 toy_sm4 toy_hkdf toy_x509 toy_sm2 _) k s s' -> (k <= 11)%nat.
Proof.
  destruct (toy_run (fun s => (steps_left [0%nat; 1%nat] s)) toy_close_waits
    (at_rest (toy_ready_conn [])) 11%nat) as (s & Hs & Hf); [vm_compute; reflexivity|].
  assert (forall i, i ∉ [0%nat; 1%nat] -> in_call (sy_ths s i) = false) as Hall.
  { intros i Hi. rewrite !not_elem_of_cons in Hi. destruct Hi as (H0' & H1' & _).
    cbn in Hs. injection Hs as <-. cbn. by rewrite !fn_lookup_insert_ne by done. }
  assert (NoDup [0%nat; 1%nat]) as Hnd by (apply (bool_decide_unpack _); done).
  apply act_all_steps in Hs; [|repeat constructor].
  exists s. split; [exact Hs|]. split; [exact Hf|]. intros k s' Hk.
  destruct (@calls_return toy_sm3 toy_sm3_laws toy_sm4 toy_sm4_laws toy_hkdf toy_hkdf_laws toy_x509 toy_sm2
    toy_sm2_laws toy_no_panics MockEvidenceProvider (toy_ready_conn []) s [0%nat; 1%nat]
    (toy_ready_inv []) (toy_ready_safe []) Hs Hnd Hall) as [Hb _].
  rewrite <-Hf. by apply Hb with s'.
Defined.
