(* ===== verification/Linear.v ===== *)
(** * An established connection is linearizable (conn.go)

    Specification: [atomic_step], in which a call of a method takes effect at
    one moment between its invocation and its return, by the method's whole
    definition in Conn.  The goroutines' small steps implement it: every history
    of invocations and returns is one of the specification, with the connection
    in the same state when no call is under way. *)

From stdpp Require Import functions.
From S2P Require Import Prelude Gcm Gmsm Toy NetIO Record Framing KeySchedule GoLib.
From S2P Require Import CsvReport CsvVerify CsvMock CsvClient Asn1 Evidence Gx509 Provider Cert.
From S2P Require Import Config Verifier Handshake Session Effects Conn ConnState Stream Duplex.
From S2P Require Import Goroutines Exclusion Progress.

(** ** The specification *)

Inductive APC := AIdle | APending (call : Call) | ADone (r : Ret).

Record AtomicSystem (W : Type) := {
  as_ths : nat -> APC;
  as_conn : Conn W;
  as_hist : list Event
}.
Arguments as_ths {W} _.
Arguments as_conn {W} _.
Arguments as_hist {W} _.
Arguments Build_AtomicSystem {W} _ _ _.

Section spec.
Context `{SM3, SM4, HKDF, SM2, X509} {W : Type}.

(** A whole call at once. *)
Definition exec (call : Call) (c : Conn W) : option (Ret * Conn W) :=
  match call with
  | CallHandshake su ctx => match handshake su ctx c with (Panic, _) => None | (r, c') => Some (RetHandshake r, c') end
  | CallRead su n => match conn_Read su n c with (Panic, _) => None | (r, c') => Some (RetRead r, c') end
  | CallWrite su b => match conn_Write su b c with (Ok (n, err), c') => Some (RetWrite n err, c') | _ => None end
  | CallClose => match Close c with (Ok e, c') => Some (RetClose e, c') | _ => None end
  end.

Inductive atomic_step (a : AtomicSystem W) : AtomicSystem W -> Prop :=
| atomic_invoke i call :
    as_ths a i = AIdle -> call_ok call ->
    atomic_step a (Build_AtomicSystem (<[i:=APending call]> (as_ths a)) (as_conn a) (as_hist a ++ [Invoke i call]))
| atomic_exec i call r c' :
    as_ths a i = APending call -> exec call (as_conn a) = Some (r, c') ->
    atomic_step a (Build_AtomicSystem (<[i:=ADone r]> (as_ths a)) c' (as_hist a))
| atomic_return i r :
    as_ths a i = ADone r ->
    atomic_step a (Build_AtomicSystem (<[i:=AIdle]> (as_ths a)) (as_conn a) (as_hist a ++ [Return i r])).

Definition atomic_at_rest (c : Conn W) : AtomicSystem W := Build_AtomicSystem (fun _ => AIdle) c [].
End spec.

(** ** The parts of a connection *)

Section parts.
Context {W : Type}.
Implicit Types c d : Conn W.

Definition reader_half c :=
  (conn_rx (cn_raw c), conn_rx_err (cn_raw c), cn_inCipher c, cn_readBuf c, cn_closeNotifyReceived c).
Definition writer_half c :=
  (conn_tx (cn_raw c), conn_wscript (cn_raw c), conn_deadline_err (cn_raw c), conn_deadline_set (cn_raw c),
   cn_outCipher c).
Definition close_part c := (conn_closed (cn_raw c), cn_closeOnce c, cn_closeErr c).
(** What nothing changes once the handshake is done. *)
Definition settled_part c :=
  (cn_cfg c, cn_isServer c, cn_handshakeDone c, cn_handshakeErr c, cn_peerCertPEM c, cn_peerEvidence c,
   cn_peerCertificate c, (cn_world c).2, conn_close_err (cn_raw c)).

(** Equal in the part that a lock protects. *)
Definition same (l : Lock) c d : Prop :=
  match l with
  | ReadMu => reader_half c = reader_half d
  | WriteMu => writer_half c = writer_half d
  | CloseOnce => close_part c = close_part d
  | HandshakeMutex => settled_part c = settled_part d
  end.

#[global] Instance same_equivalence l : Equivalence (same l).
Proof. destruct l; (split; [intros c|intros c d|intros c d e]; cbn; congruence). Qed.

(** There are no other parts. *)
Lemma same_all c d : (forall l, same l c d) -> c = d.
Proof.
  intros Hs. pose proof (Hs ReadMu) as H1. pose proof (Hs WriteMu) as H2. pose proof (Hs CloseOnce) as H3.
  pose proof (Hs HandshakeMutex) as H4. clear Hs.
  destruct c as [[[] ?] ? ? ? ? ? ? ? ? ? ? ? ? ?], d as [[[] ?] ? ? ? ? ? ? ? ? ? ? ? ? ?].
  cbn in *. unfold reader_half, writer_half, close_part, settled_part, cn_raw in *. cbn in *. congruence.
Qed.

Lemma over_reader_same c d : same ReadMu c d -> over_reader c d = c.
Proof.
  intros Hs. apply same_all. intros [| | |]; cbn; [done| |done|done].
  unfold reader_half, over_reader, cn_raw in *. cbn in *. by symmetry.
Qed.

Lemma over_writer_same c d : same WriteMu c d -> over_writer c d = c.
Proof.
  intros Hs. apply same_all. intros [| | |]; cbn; [done|done| |done].
  unfold writer_half, over_writer, cn_raw in *. cbn in *. by symmetry.
Qed.

(** Two results with the same value and the same part. *)
Definition agree {A} (l : Lock) (x y : result A * Conn W) : Prop := x.1 = y.1 /\ same l x.2 y.2.

#[global] Instance agree_equivalence {A} l : Equivalence (@agree A l).
Proof.
  split.
  - intros x. by split.
  - intros x y [? ?]. split; [done|by symmetry].
  - intros x y z [? ?] [? ?]. split; [congruence|by etrans].
Qed.

(** A computation of a half depends on that half only. *)
Lemma reader_agree {A} (m : stM (Conn W) A) c d : blind over_reader m -> same ReadMu c d -> agree ReadMu (m c) (m d).
Proof. intros Hb Hs. rewrite <-(over_reader_same c d Hs), (Hb c d). done. Qed.

Lemma writer_agree {A} (m : stM (Conn W) A) c d : blind over_writer m -> same WriteMu c d -> agree WriteMu (m c) (m d).
Proof. intros Hb Hs. rewrite <-(over_writer_same c d Hs), (Hb c d). done. Qed.

(** And changes nothing else. *)
Lemma reader_keeps {A} (m : stM (Conn W) A) l c : blind over_reader m -> l <> ReadMu -> same l c (m c).2.
Proof. intros Hb Hl. rewrite (reader_frame m c Hb). by destruct l. Qed.

Lemma writer_keeps {A} (m : stM (Conn W) A) l c : blind over_writer m -> l <> WriteMu -> same l c (m c).2.
Proof. intros Hb Hl. rewrite (writer_frame m c Hb). by destruct l. Qed.
End parts.

(** ** The simulation *)

Section simulation.
Context `{SM3Laws, SM4Laws, HKDFLaws, X509, SM2Laws, !NoPanics} {W : Type}.
Implicit Types (c d : Conn W) (m : Shared W) (s : System W) (a : AtomicSystem W).

(** What is left of [Write] and of the alert once a record is sealed. *)
Definition write_sent (fuel : nat) (t : Z) (b : bytes) (n : Z) (record : bytes) : stM (Conn W) (Z * option error) :=
  fun c =>
  match on_raw (writeFull record) c with
  | (Err e, c) => (Ok (t, Some e), c)
  | (Panic, c) => (Panic, c)
  | (Ok _, c) => write_loop fuel (t + n) (drop_z n b) c
  end.
Definition alert_sent (record : bytes) : stM (Conn W) (option error) := fun c =>
  match on_raw (writeFull record) c with
  | (Err e, c) => (Ok (Some (wrapf "teetls: write close_notify: %w" e)), c)
  | (Panic, c) => (Panic, c)
  | (Ok _, c) => (Ok None, c)
  end.
Definition alert_sealed (record : bytes) : stM (Conn W) (option error) := fun c =>
  match on_raw (conn_set_deadline true) c with
  | (Err e, c) => (Ok (Some (wrapf "teetls: set close_notify deadline: %w" e)), c)
  | (Panic, c) => (Panic, c)
  | (Ok _, c) => alert_sent record c
  end.

Lemma blind_write_sent fuel t b n record : blind over_writer (write_sent fuel t b n record).
Proof. apply blind_cases; [apply blind_writeFull|intros u; apply blind_write_loop]. Qed.
Lemma blind_alert_sent record : blind over_writer (alert_sent record).
Proof. apply blind_cases; [apply blind_writeFull|intros u; apply blind_pure]. Qed.
Lemma blind_alert_sealed record : blind over_writer (alert_sealed record).
Proof. apply blind_cases; [apply blind_set_deadline|intros u; apply blind_alert_sent]. Qed.

Definition call_of (su : Surroundings) (ctx : Context_) (k : Next) : Call :=
  match k with ThenReturn => CallHandshake su ctx | ThenRead n => CallRead su n | ThenWrite b => CallWrite su b end.

(** What the specification's [Close] has returned, or will. *)
Definition closed_with c (alertErr : option error) : option error :=
  errors_join [alertErr; conn_close_err (cn_raw c)].

(** A goroutine at [pc] of the connection [cc], and the specification's
    counterpart at [apc] of the connection [ca]: in the middle of a critical
    section, what is left of it on [cc] amounts to the whole call on [ca]. *)
Definition thread_link (pc : PC) (apc : APC) (cc ca : Conn W) : Prop :=
  match pc with
  | Idle => apc = AIdle
  | InHandshake su ctx k HsLoad => next_ok k /\ apc = APending (call_of su ctx k)
  | InHandshake _ _ _ _ => False
  | InRead n RdRound =>
      (exists su, apc = APending (CallRead su n)) /\ cn_readBuf ca = [] /\
      exists fuel, (rx_length cc < fuel)%nat /\
        agree ReadMu (read_loop fuel n cc) (read_loop (S (rx_length ca)) n ca)
  | InRead n (RdUnlock r) => apc = ADone (RetRead r)
  | InRead n _ => exists su, apc = APending (CallRead su n)
  | InWrite t b WrLock => t = 0 /\ exists su, apc = APending (CallWrite su b)
  | InWrite t b WrLoop =>
      exists su b0 fuel, apc = APending (CallWrite su b0) /\ (length b < fuel)%nat /\
        agree WriteMu (write_loop fuel t b cc) (write_loop (S (length b0)) 0 b0 ca)
  | InWrite t b (WrSend n record) =>
      exists su b0 fuel, apc = APending (CallWrite su b0) /\ (length (drop_z n b) < fuel)%nat /\
        agree WriteMu (write_sent fuel t b n record cc) (write_loop (S (length b0)) 0 b0 ca)
  | InWrite t b (WrUnlock err) => apc = ADone (RetWrite t err)
  | InClose (ClDeadline record) =>
      apc = APending CallClose /\ is_Some (cn_outCipher ca) /\
      agree WriteMu (alert_sealed record cc) (send_close_notify ca)
  | InClose (ClSend record) =>
      apc = APending CallClose /\ is_Some (cn_outCipher ca) /\
      agree WriteMu (alert_sent record cc) (send_close_notify ca)
  | InClose (ClUnlock e | ClRaw e) =>
      apc = ADone (RetClose (closed_with ca e)) /\ close_part ca = (true, true, closed_with ca e)
  | InClose (ClStore e) =>
      apc = ADone (RetClose e) /\ conn_closed (cn_raw cc) = true /\ close_part ca = (true, true, e)
  | InClose _ => apc = APending CallClose
  | Finished r => apc = ADone r
  | Crashed => False
  end.

(** The part behind [l] is ahead of the specification's, or behind it. *)
Definition mid (pc : PC) (l : Lock) : bool :=
  match pc, l with
  | InRead _ RdRound, ReadMu => true
  | InWrite _ _ (WrLoop | WrSend _ _), WriteMu => true
  | InClose (ClDeadline _ | ClSend _), WriteMu => true
  | InClose (ClUnlock _ | ClRaw _ | ClStore _), CloseOnce => true
  | _, _ => false
  end.

Lemma mid_has_lock pc l : mid pc l = true -> has_lock pc l = true.
Proof. by destruct pc as [|? ? ? []|? []|? ? []|[]| |], l. Qed.

Record linked s a : Prop := {
  lk_hist : as_hist a = sy_hist s;
  lk_ths i : thread_link (sy_ths s i) (as_ths a i) (sy_conn s) (as_conn a);
  lk_same l : (forall i, mid (sy_ths s i) l = false) -> same l (sy_conn s) (as_conn a)
}.

(** The link of a goroutine looks at the parts it is in the middle of. *)
Lemma link_stable pc apc cc ca cc' ca' :
  (forall l, mid pc l = true \/ l = HandshakeMutex -> same l cc cc' /\ same l ca ca') ->
  thread_link pc apc cc ca -> thread_link pc apc cc' ca'.
Proof.
  intros Hs. destruct pc as [|su ctx k hs|n rd|t b wr|cl|r|]; try done.
  - destruct rd; try done. destruct (Hs ReadMu) as [H1' H2']; [by left|]. cbn [thread_link].
    intros (? & Hb & fuel & Hf & Ha). split; [done|]. pose proof H1' as E1. pose proof H2' as E2.
    unfold same, reader_half in E1, E2.
    split; [by injection E2 as _ _ _ <-|]. assert (rx_length cc' = rx_length cc) as -> by (unfold rx_length; congruence).
    assert (rx_length ca' = rx_length ca) as -> by (unfold rx_length; congruence).
    exists fuel. split; [done|]. etrans; [symmetry; by apply reader_agree, H1'; apply blind_read_loop|].
    etrans; [exact Ha|]. apply reader_agree; [apply blind_read_loop|done].
  - destruct wr; try done; (destruct (Hs WriteMu) as [H1' H2']; [by left|]); cbn [thread_link];
      intros (su & b0 & fuel & ? & ? & Ha); exists su, b0, fuel; (split; [done|]; split; [done|]).
    + etrans; [symmetry; apply writer_agree; [apply blind_write_loop|exact H1']|].
      etrans; [exact Ha|]. apply writer_agree; [apply blind_write_loop|done].
    + etrans; [symmetry; apply writer_agree; [apply blind_write_sent|exact H1']|].
      etrans; [exact Ha|]. apply writer_agree; [apply blind_write_loop|done].
  - assert (same HandshakeMutex ca ca') as Hh by (by apply Hs; right).
    assert (conn_close_err (cn_raw ca') = conn_close_err (cn_raw ca)) as Hce
      by (unfold same, settled_part in Hh; congruence).
    destruct cl; try done; cbn [thread_link]; unfold closed_with; rewrite ?Hce.
    + destruct (Hs WriteMu) as [H1' H2']; [by left|]. intros (? & Ho & Ha). split; [done|].
      split; [unfold same, writer_half in H2'; congruence|].
      etrans; [symmetry; apply writer_agree; [apply blind_alert_sealed|exact H1']|].
      etrans; [exact Ha|]. apply writer_agree; [apply blind_send_close_notify|done].
    + destruct (Hs WriteMu) as [H1' H2']; [by left|]. intros (? & Ho & Ha). split; [done|].
      split; [unfold same, writer_half in H2'; congruence|].
      etrans; [symmetry; apply writer_agree; [apply blind_alert_sent|exact H1']|].
      etrans; [exact Ha|]. apply writer_agree; [apply blind_send_close_notify|done].
    + destruct (Hs CloseOnce) as [H1' H2']; [by left|]. cbn in H2'. rewrite H2'. done.
    + destruct (Hs CloseOnce) as [H1' H2']; [by left|]. cbn in H2'. rewrite H2'. done.
    + destruct (Hs CloseOnce) as [H1' H2']; [by left|]. cbn in H2'. rewrite H2'.
      unfold same, close_part in H1'. intros (? & ? & ?). split_and!; [done|congruence|done].
Qed.

(** One goroutine moves, on both sides. *)
Lemma linked_update s a i pc' m' a' :
  linked s a -> sys_inv s -> has_lock (sy_ths s i) HandshakeMutex = false ->
  (forall j, j <> i -> as_ths a' j = as_ths a j) -> as_hist a' = as_hist a ->
  (forall l, has_lock (sy_ths s i) l = false -> same l (sy_conn s) (sh_conn m') /\ same l (as_conn a) (as_conn a')) ->
  thread_link pc' (as_ths a' i) (sh_conn m') (as_conn a') ->
  (forall l, has_lock (sy_ths s i) l = true -> mid pc' l = false -> same l (sh_conn m') (as_conn a')) ->
  linked (Build_System (<[i:=pc']> (sy_ths s)) m' (sy_hist s)) a'.
Proof.
  intros [Hh Ht Hs] Hinv Hhs Hths Hhist Hkeep Hlink Hsame. split.
  - by rewrite Hhist.
  - intros j. cbn. destruct (decide (j = i)) as [->|Hne]; [by rewrite fn_lookup_insert|].
    rewrite fn_lookup_insert_ne, Hths by done. eapply link_stable; [|apply Ht]. intros l Hl. apply Hkeep.
    destruct Hl as [Hl| ->]; [|done]. destruct (has_lock (sy_ths s i) l) eqn:E; [|done].
    apply mid_has_lock in Hl. apply (si_locks _ Hinv) in E, Hl. congruence.
  - intros l Hmid. cbn in Hmid |- *. change (same l (sh_conn m') (as_conn a')).
    assert (mid pc' l = false) as Hm' by (pose proof (Hmid i) as Hx; by rewrite fn_lookup_insert in Hx).
    destruct (has_lock (sy_ths s i) l) eqn:E; [by apply Hsame|].
    destruct (Hkeep l E) as [H1' H2']. etrans; [symmetry; exact H1'|]. etrans; [|exact H2']. apply Hs. intros j.
    destruct (decide (j = i)) as [->|Hne]; [|pose proof (Hmid j) as Hx; by rewrite fn_lookup_insert_ne in Hx].
    destruct (mid (sy_ths s i) l) eqn:E'; [|done]. apply mid_has_lock in E'. congruence.
Qed.

(** The holder of a lock that is not in the middle of its section. *)
Lemma holder_same s a i l :
  linked s a -> sys_inv s -> has_lock (sy_ths s i) l = true -> mid (sy_ths s i) l = false ->
  same l (sy_conn s) (as_conn a).
Proof.
  intros [_ _ Hs] Hinv Hl Hm. apply Hs. intros j. destruct (decide (j = i)) as [->|Hne]; [done|].
  destruct (mid (sy_ths s j) l) eqn:E; [|done]. apply mid_has_lock in E. apply (si_locks _ Hinv) in E, Hl. congruence.
Qed.

(** What a step leaves alone, past the handshake. *)
Lemma ran_keeps {A} (mm : stM (Conn W) A) (f : result A -> PC) m pc' m' l :
  (blind over_reader mm /\ l <> ReadMu) \/ (blind over_writer mm /\ l <> WriteMu) ->
  (let '(r, c') := mm (sh_conn m) in goto m (f r) c') = Some (pc', m') -> same l (sh_conn m) (sh_conn m').
Proof.
  intros Hb Ha. assert (same l (sh_conn m) (mm (sh_conn m)).2) as Hs
    by (destruct Hb as [[Hb Hl]|[Hb Hl]]; [by apply reader_keeps|by apply writer_keeps]).
  destruct (mm (sh_conn m)) as [r c']. by injection Ha as <- <-.
Qed.

Lemma advance_keeps i pc m pc' m' l :
  advance i pc m = Some (pc', m') -> (forall su ctx k hs, pc = InHandshake su ctx k hs -> hs = HsLoad) ->
  has_lock pc l = false -> same l (sh_conn m) (sh_conn m').
Proof.
  intros Ha Hh Hl. destruct pc as [|su ctx k hs|n rd|t b wr|cl|r|]; try done; cbn [advance] in Ha;
    [rewrite (Hh _ _ _ _ eq_refl) in Ha; cbn [advance_handshake] in Ha|destruct rd; cbn [advance_read] in Ha
    |destruct wr; cbn [advance_write] in Ha|destruct cl; cbn [advance_close] in Ha].
  all: try (unfold acquire in Ha; destruct (sh_locks m _); [done|]).
  all: try (by injection Ha as <- <-).
  - destruct (0 <? _); injection Ha as <- <-; [|done]. by destruct l.
  - eapply ran_keeps; [|exact Ha]. left. split; [apply blind_read_round|by intros ->].
  - destruct (0 <? zlen b); [|by injection Ha as <- <-].
    eapply ran_keeps; [|exact Ha]. right. split; [apply blind_out_Seal|by intros ->].
  - eapply ran_keeps; [|exact Ha]. right. split; [apply blind_writeFull|by intros ->].
  - destruct (cn_closeOnce _); [by injection Ha as <- <-|]. unfold acquire in Ha.
    destruct (sh_locks m _); [done|]. by injection Ha as <- <-.
  - eapply ran_keeps; [|exact Ha]. right. split; [apply blind_out_Seal|by intros ->].
  - eapply ran_keeps; [|exact Ha]. right. split; [apply blind_set_deadline|by intros ->].
  - eapply ran_keeps; [|exact Ha]. right. split; [apply blind_writeFull|by intros ->].
  - injection Ha as <- <-. by destruct l.
  - injection Ha as <- <-. by destruct l.
Qed.

(** ** A goroutine's step on both sides *)

(** The two still agree once the goroutine [i] is at [pc'] and the state is [m']. *)
Definition simulated s a (i : nat) (pc' : PC) m' : Prop :=
  exists a', rtc atomic_step a a' /\ linked (Build_System (<[i:=pc']> (sy_ths s)) m' (sy_hist s)) a'.

(** A connection whose handshake is done. *)
Section step.
Context (s : System W) (a : AtomicSystem W) (i : nat).
Context (Hlinked : linked s a) (Hinv : sys_inv s) (Hdone : cn_handshakeDone (sy_conn s) = true).

Lemma linked_live : live (sy_conn s).
Proof. split; [by apply settled_live|done]. Qed.

Lemma linked_settled : same HandshakeMutex (sy_conn s) (as_conn a).
Proof. apply Hlinked. intros j. by destruct (sy_ths s j) as [|? ? ? []|? []|? ? []|[]| |]. Qed.

Lemma linked_done : cn_handshakeDone (as_conn a) = true.
Proof. pose proof linked_settled as Hs. unfold same, settled_part in Hs. congruence. Qed.

(** No goroutine is in a handshake, beyond the first look. *)
Lemma linked_load j su ctx k hs : sy_ths s j = InHandshake su ctx k hs -> hs = HsLoad.
Proof. intros E. pose proof (lk_ths _ _ Hlinked j) as Ht. rewrite E in Ht. by destruct hs. Qed.

Lemma linked_no_handshake : has_lock (sy_ths s i) HandshakeMutex = false.
Proof.
  destruct (sy_ths s i) as [|su ctx k hs|? []|? ? []|[]| |] eqn:E; try done. by rewrite (linked_load _ _ _ _ _ E).
Qed.

(** A lock that is free, or not yet put to use. *)
Lemma free_same l : sh_locks (sy_shared s) l = None -> same l (sy_conn s) (as_conn a).
Proof.
  intros Hl. apply Hlinked. intros j. destruct (mid (sy_ths s j) l) eqn:E; [|done].
  apply mid_has_lock, (si_locks _ Hinv) in E. congruence.
Qed.

Lemma held_same l :
  has_lock (sy_ths s i) l = true -> mid (sy_ths s i) l = false -> same l (sy_conn s) (as_conn a).
Proof. by eapply holder_same. Qed.

(** The specification does nothing. *)
Lemma sim_stutter pc' m' :
  advance i (sy_ths s i) (sy_shared s) = Some (pc', m') ->
  thread_link pc' (as_ths a i) (sh_conn m') (as_conn a) ->
  (forall l, has_lock (sy_ths s i) l = true -> mid pc' l = false -> same l (sh_conn m') (as_conn a)) ->
  simulated s a i pc' m'.
Proof.
  intros Ha Hlink Hsame. exists a. split; [apply rtc_refl|].
  apply linked_update with a; [done|done|apply linked_no_handshake|done|done| |exact Hlink|exact Hsame].
  intros l Hno. split; [|reflexivity]. eapply advance_keeps; [exact Ha| |done]. apply linked_load.
Qed.

(** The specification makes the whole call. *)
Lemma sim_exec pc' m' call r ca' :
  advance i (sy_ths s i) (sy_shared s) = Some (pc', m') ->
  as_ths a i = APending call -> exec call (as_conn a) = Some (r, ca') ->
  (forall l, has_lock (sy_ths s i) l = false -> same l (as_conn a) ca') ->
  thread_link pc' (ADone r) (sh_conn m') ca' ->
  (forall l, has_lock (sy_ths s i) l = true -> mid pc' l = false -> same l (sh_conn m') ca') ->
  simulated s a i pc' m'.
Proof.
  intros Ha Hp He Hk Hlink Hsame.
  exists (Build_AtomicSystem (<[i:=ADone r]> (as_ths a)) ca' (as_hist a)).
  split; [by eapply rtc_once, atomic_exec|].
  apply linked_update with a; [done|done|apply linked_no_handshake| |done| | |exact Hsame]; cbn.
  - intros j Hj. by rewrite fn_lookup_insert_ne.
  - intros l Hno. split; [|by apply Hk]. eapply advance_keeps; [exact Ha| |done]. apply linked_load.
  - by rewrite fn_lookup_insert.
Qed.

(** The first look at [handshakeDone], and the calls that it ends. *)
Lemma sim_handshake su ctx k hs pc' m' :
  sy_ths s i = InHandshake su ctx k hs -> advance i (sy_ths s i) (sy_shared s) = Some (pc', m') ->
  simulated s a i pc' m'.
Proof.
  intros E Ha. pose proof Ha as Ha0. pose proof (linked_load _ _ _ _ _ E) as ->.
  pose proof (lk_ths _ _ Hlinked i) as Ht. pose proof (si_pcs _ Hinv i) as Hp. pose proof linked_done as Hda.
  rewrite E in Ht, Hp, Ha0. cbn [thread_link] in Ht. destruct Ht as [_ Ht].
  cbn [advance advance_handshake] in Ha0. unfold sy_conn in Hdone. rewrite Hdone in Ha0.
  apply goto_inv in Ha0 as [Hpc Hm]. rewrite Hpc, Hm in *. clear Hpc Hm pc' m'.
  destruct k as [|n|b]; cbn [proceed call_of] in *.
  - eapply (sim_exec _ _ _ (RetHandshake (Ok tt)) (as_conn a)); [exact Ha|exact Ht| |done|done|by rewrite E].
    cbn. unfold handshake. by rewrite Hda.
  - destruct (n =? 0) eqn:En.
    + eapply (sim_exec _ _ _ (RetRead (Ok [])) (as_conn a)); [exact Ha|exact Ht| |done|done|by rewrite E].
      cbn. by rewrite conn_Read_done, En by done.
    + eapply sim_stutter; [exact Ha| |by rewrite E]. cbn. by eexists.
  - eapply sim_stutter; [exact Ha| |by rewrite E]. cbn. split; [done|by eexists].
Qed.

Lemma read_loop_S fuel n c :
  read_loop (S fuel) n c =
    match read_round n c with
    | (Ok (Some d), c') => (Ok d, c')
    | (Ok None, c') => read_loop fuel n c'
    | (Err e, c') => (Err e, c')
    | (Panic, c') => (Panic, c')
    end.
Proof. cbn [read_loop]. unfold mbind, stM_bind. by destruct (read_round n c) as [[[d|]|e|] c']. Qed.

Lemma write_loop_S fuel t b c :
  write_loop (S fuel) t b c =
    if 0 <? zlen b then
      let n := if MaxPlaintextLength <? zlen b then MaxPlaintextLength else zlen b in
      match out_Seal RecordTypeApplicationData (take_z n b) c with
      | (Ok record, c') => write_sent fuel t b n record c'
      | (Err e, c') => (Ok (t, Some (wrapf "teetls: seal record: %w" e)), c')
      | (Panic, c') => (Panic, c')
      end
    else (Ok (t, None), c).
Proof. cbn [write_loop]. destruct (0 <? zlen b); [|done]. by destruct (out_Seal _ _ c) as [[]]. Qed.

(** [Read]: it takes effect when it takes from the buffer, or when its last
    record is in. *)
Lemma sim_read_end n pc' m' r su :
  sy_ths s i = InRead n RdRound -> advance i (sy_ths s i) (sy_shared s) = Some (pc', m') ->
  0 < n -> as_ths a i = APending (CallRead su n) -> cn_readBuf (as_conn a) = [] ->
  pc' = InRead n (RdUnlock r) -> r <> Panic ->
  agree ReadMu (r, sh_conn m') (read_loop (S (rx_length (as_conn a))) n (as_conn a)) -> simulated s a i pc' m'.
Proof.
  intros E Ha Hn Hp Hb -> Hr [Hv Hs].
  pose proof (fun l => reader_keeps _ l (as_conn a) (blind_read_loop (S (rx_length (as_conn a))) n)) as Hk.
  destruct (read_loop _ n (as_conn a)) as [r' ca'] eqn:El. cbn in Hv, Hs, Hk. subst r'.
  eapply (sim_exec _ _ _ (RetRead r) ca'); [exact Ha|exact Hp| | |done|].
  - cbn. rewrite conn_Read_done, Hb by apply linked_done. destruct (Z.eqb_spec n 0); [lia|].
    change (0 <? zlen (@nil Byte.byte)) with false. cbv iota. unfold rx_length in El. rewrite El. by destruct r.
  - intros l. rewrite E. intros Hl. apply Hk. by intros ->.
  - rewrite E. by intros [].
Qed.

Lemma sim_read n rd pc' m' :
  sy_ths s i = InRead n rd -> advance i (sy_ths s i) (sy_shared s) = Some (pc', m') -> simulated s a i pc' m'.
Proof.
  intros E Ha. pose proof Ha as Ha0. pose proof (lk_ths _ _ Hlinked i) as Ht. pose proof (si_pcs _ Hinv i) as Hp.
  pose proof held_same as Hheld. rewrite E in Ht, Hp, Ha0, Hheld. destruct Hp as [[Hn _] Hb].
  destruct rd as [| | |r]; cbn [advance advance_read] in Ha0.
  - unfold acquire in Ha0. destruct (sh_locks _ _); [done|]. injection Ha0 as <- <-.
    eapply sim_stutter; [exact Ha|exact Ht|by rewrite E].
  - destruct Ht as [su Ht]. pose proof (Hheld ReadMu eq_refl eq_refl) as Hs.
    destruct (Z.ltb_spec 0 (zlen (cn_readBuf (sh_conn (sy_shared s))))) as [Hpos|Hemp].
    + apply goto_inv in Ha0 as [-> ->]. pose proof Hs as Hs'. unfold same, reader_half, sy_conn in Hs'.
      injection Hs' as E1 E2 E3 E4 E5.
      eapply (sim_exec _ _ _ (RetRead (Ok (take_z n (cn_readBuf (as_conn a)))))
        (set_readBuf (drop_z n (cn_readBuf (as_conn a))) (as_conn a)).2); [exact Ha|exact Ht| | | |].
      * cbn. rewrite conn_Read_done by apply linked_done. destruct (Z.eqb_spec n 0); [lia|].
        rewrite <-E4. destruct (Z.ltb_spec 0 (zlen (cn_readBuf (sh_conn (sy_shared s))))); [done|lia].
      * rewrite E. by intros [].
      * cbn. by rewrite E4.
      * rewrite E. intros []; try done. intros _ _. cbn. unfold reader_half, cn_raw in *. cbn. congruence.
    + apply goto_inv in Ha0 as [-> ->]. assert (cn_readBuf (sh_conn (sy_shared s)) = []) as Hb' by (apply empty_buffer; lia).
      eapply sim_stutter; [exact Ha| |rewrite E; by intros []]. cbn [thread_link sh_conn set_conn].
      split; [by exists su|]. pose proof Hs as Hs'. unfold same, reader_half, sy_conn in Hs'.
      split; [by injection Hs' as _ _ _ <- _|]. exists (S (rx_length (sy_conn s))). split; [apply Nat.lt_succ_diag_r|].
      assert (rx_length (as_conn a) = rx_length (sy_conn s)) as -> by (unfold rx_length, sy_conn; congruence).
      apply reader_agree; [apply blind_read_loop|exact Hs].
  - destruct Ht as ([su Ht] & Hba & fuel & Hf & Hag). destruct fuel as [|fuel]; [lia|]. rewrite (read_loop_S fuel) in Hag.
    assert (cn_handshakeDone (sh_conn (sy_shared s)) = true -> conn_inv (sh_conn (sy_shared s))) as Hi
      by (by apply settled_live).
    pose proof (si_pcs _ Hinv i) as Hp. rewrite E in Hp.
    pose proof Ha as Ha1. rewrite E in Ha1.
    pose proof (advance_lighter _ _ _ _ _ Ha1 Hp (si_provider _ Hinv) Hi) as Hlt.
    pose proof (advance_pc_ok _ _ _ _ _ Ha1 Hp (si_provider _ Hinv) Hi) as Hp'.
    unfold sy_conn in Hag, Hf.
    destruct (read_round n (sh_conn (sy_shared s))) as [[[d|]|e|] c']; apply goto_inv in Ha0 as [-> ->]; try done.
    + by eapply sim_read_end.
    + eapply sim_stutter; [exact Ha| |rewrite E; by intros []]. cbn [thread_link sh_conn set_conn].
      split; [by exists su|]. split; [done|]. exists fuel. split; [|exact Hag]. cbn in Hlt. lia.
    + by eapply sim_read_end.
  - injection Ha0 as <- <-. eapply sim_stutter; [exact Ha|exact Ht|]. rewrite E. intros [] Hl Hm; try done.
    by apply Hheld.
Qed.

(** [Write]: it takes effect when its last record is sent, or one fails. *)
Lemma sim_write_end t b wr pc' m' err su b0 :
  sy_ths s i = InWrite t b wr -> has_lock (InWrite t b wr) WriteMu = true ->
  advance i (sy_ths s i) (sy_shared s) = Some (pc', m') ->
  as_ths a i = APending (CallWrite su b0) -> pc' = InWrite t b (WrUnlock err) ->
  agree WriteMu (Ok (t, err), sh_conn m') (write_loop (S (length b0)) 0 b0 (as_conn a)) -> simulated s a i pc' m'.
Proof.
  intros E Hlock Ha Hp -> [Hv Hs].
  pose proof (fun l => writer_keeps _ l (as_conn a) (blind_write_loop (S (length b0)) 0 b0)) as Hk.
  destruct (write_loop _ 0 b0 (as_conn a)) as [r' ca'] eqn:El. cbn in Hv, Hs, Hk. subst r'.
  eapply (sim_exec _ _ _ (RetWrite t err) ca'); [exact Ha|exact Hp| | |done|].
  - cbn [exec]. rewrite conn_Write_done, El by apply linked_done. done.
  - intros l. rewrite E. intros Hl. apply Hk. intros ->. by rewrite Hlock in Hl.
  - rewrite E. intros []; destruct wr; try done; intros; apply Hs.
Qed.

Lemma sim_write t b wr pc' m' :
  sy_ths s i = InWrite t b wr -> advance i (sy_ths s i) (sy_shared s) = Some (pc', m') -> simulated s a i pc' m'.
Proof.
  intros E Ha. pose proof Ha as Ha0. pose proof (lk_ths _ _ Hlinked i) as Ht. pose proof (si_pcs _ Hinv i) as Hp.
  pose proof held_same as Hheld. rewrite E in Ht, Hp, Ha0, Hheld.
  assert (cn_handshakeDone (sh_conn (sy_shared s)) = true -> conn_inv (sh_conn (sy_shared s))) as Hi
    by (by apply settled_live).
  pose proof (advance_pc_ok _ _ _ _ _ Ha0 Hp (si_provider _ Hinv) Hi) as Hp'.
  destruct wr as [| |n record|err]; cbn [advance advance_write] in Ha0.
  - unfold acquire in Ha0. destruct (sh_locks _ _) eqn:El; [done|]. injection Ha0 as <- <-.
    destruct Ht as [-> [su Ht]]. eapply sim_stutter; [exact Ha| |by rewrite E].
    exists su, b, (S (length b)). split; [done|]. split; [lia|].
    apply writer_agree; [apply blind_write_loop|by apply free_same].
  - destruct Ht as (su & b0 & fuel & Ht & Hf & Hag). destruct fuel as [|fuel]; [lia|].
    unfold sy_conn in Hag. rewrite (write_loop_S fuel) in Hag. cbv zeta in Hag, Ha0.
    destruct (0 <? zlen b); [|apply goto_inv in Ha0 as [-> ->]; by eapply (sim_write_end t b WrLoop)].
    destruct (out_Seal _ _ _) as [[record|e|] c']; apply goto_inv in Ha0 as [-> ->]; try done.
    + eapply sim_stutter; [exact Ha| |rewrite E; by intros []]. exists su, b0, fuel. split; [done|].
      split; [|exact Hag]. destruct Hp' as [_ Hch]. unfold drop_z. rewrite length_drop. unfold zlen in *. lia.
    + by eapply (sim_write_end t b WrLoop).
  - destruct Ht as (su & b0 & fuel & Ht & Hf & Hag). unfold write_sent, sy_conn in Hag.
    destruct (on_raw _ _) as [[u|e|] c']; apply goto_inv in Ha0 as [-> ->]; try done.
    + eapply sim_stutter; [exact Ha| |rewrite E; by intros []]. by exists su, b0, fuel.
    + by eapply (sim_write_end t b (WrSend n record)).
  - injection Ha0 as <- <-. eapply sim_stutter; [exact Ha|exact Ht|]. rewrite E. intros [] Hl Hm; try done.
    by apply Hheld.
Qed.

(** [Close]: it takes effect when its alert is sent, or cannot be. *)
Lemma close_exec c alertErr c' :
  cn_closeOnce c = false -> cn_handshakeDone c = true -> is_Some (cn_outCipher c) ->
  send_close_notify c = (Ok alertErr, c') ->
  exec CallClose c = Some (RetClose (closed_with c' alertErr),
                           set_closed c' (conn_close (cn_raw c')).2 (closed_with c' alertErr)).
Proof. intros Ho Hd [rc Hr] Hs. cbn. unfold Close. rewrite Ho, Hd, Hr, Hs. done. Qed.

Lemma sim_close_end cl pc' m' alertErr :
  sy_ths s i = InClose cl -> has_lock (InClose cl) WriteMu = true ->
  advance i (sy_ths s i) (sy_shared s) = Some (pc', m') ->
  as_ths a i = APending CallClose -> pc' = InClose (ClUnlock alertErr) -> is_Some (cn_outCipher (as_conn a)) ->
  (mid (InClose cl) CloseOnce = false) ->
  agree WriteMu (Ok alertErr, sh_conn m') (send_close_notify (as_conn a)) -> simulated s a i pc' m'.
Proof.
  intros E Hlock Ha Hp -> Hout Hmid [Hv Hs].
  assert (has_lock (InClose cl) CloseOnce = true) as Hlock' by (by destruct cl).
  pose proof (fun l => writer_keeps _ l (as_conn a) blind_send_close_notify) as Hk.
  destruct (send_close_notify (as_conn a)) as [r' ca'] eqn:Es. cbn in Hv, Hs, Hk. subst r'.
  assert (cn_closeOnce (as_conn a) = false) as Ho.
  { pose proof held_same as Hc. rewrite E in Hc. specialize (Hc CloseOnce Hlock' Hmid). unfold same, close_part in Hc.
    pose proof (si_pcs _ Hinv i) as Hpc. rewrite E in Hpc. destruct cl; try done; cbn in Hpc; destruct Hpc; congruence. }
  eapply (sim_exec _ _ _ _ _ Ha Hp (close_exec _ _ _ Ho linked_done Hout Es)).
  - intros l Hl. rewrite E in Hl. destruct l; try (by rewrite Hlock in Hl); try (by rewrite Hlock' in Hl).
    + pose proof (Hk HandshakeMutex ltac:(done)) as Hx. exact Hx.
    + pose proof (Hk ReadMu ltac:(done)) as Hx. exact Hx.
  - done.
  - intros l Hl Hm. rewrite E in Hl. destruct l; [by destruct cl..|exact Hs|done].
Qed.

Lemma sim_close cl pc' m' :
  sy_ths s i = InClose cl -> advance i (sy_ths s i) (sy_shared s) = Some (pc', m') -> simulated s a i pc' m'.
Proof.
  intros E Ha. pose proof Ha as Ha0. pose proof (lk_ths _ _ Hlinked i) as Ht. pose proof (si_pcs _ Hinv i) as Hp.
  pose proof held_same as Hheld. rewrite E in Ht, Hp, Ha0, Hheld.
  assert (is_Some (cn_outCipher (sy_conn s))) as Hout
    by (destruct (rd_out _ (live_ready _ linked_live)) as (rc & -> & _); done).
  assert (cn_handshakeDone (sh_conn (sy_shared s)) = true -> conn_inv (sh_conn (sy_shared s))) as Hi
    by (by apply settled_live).
  pose proof (advance_pc_ok _ _ _ _ _ Ha0 Hp (si_provider _ Hinv) Hi) as Hp'.
  pose proof linked_settled as Hst. unfold same, settled_part in Hst.
  destruct cl as [| | | |record|record|alertErr|alertErr|closeErr]; cbn [advance advance_close] in Ha0.
  - destruct (cn_closeOnce _) eqn:Eo.
    + apply goto_inv in Ha0 as [-> ->].
      assert (same CloseOnce (sy_conn s) (as_conn a)) as Hs.
      { apply Hlinked. intros j. pose proof (si_pcs _ Hinv j) as Hpj. unfold sy_conn in Hpj.
        destruct (sy_ths s j) as [|? ? ? []|? []|? ? []|[]| |]; cbn in *; try done;
          intuition congruence. }
      pose proof Hs as Hs'. unfold same, close_part, sy_conn in Hs'. injection Hs' as E1 E2 E3.
      eapply (sim_exec _ _ _ (RetClose (cn_closeErr (as_conn a))) (as_conn a)); [exact Ha|exact Ht| |done| |by rewrite E].
      * cbn. unfold Close. by rewrite <-E2, Eo.
      * cbn. by rewrite E3.
    + unfold acquire in Ha0. destruct (sh_locks _ _); [done|]. injection Ha0 as <- <-.
      eapply sim_stutter; [exact Ha|exact Ht|by rewrite E].
  - apply goto_inv in Ha0 as [-> ->]. unfold sy_conn in Hdone, Hout. rewrite Hdone in *. destruct Hout as [rc Hout].
    rewrite Hout in *. eapply sim_stutter; [exact Ha|exact Ht|]. rewrite E. intros l Hl Hm.
    by destruct l; try done; apply Hheld.
  - unfold acquire in Ha0. destruct (sh_locks _ _); [done|]. injection Ha0 as <- <-.
    eapply sim_stutter; [exact Ha|exact Ht|]. rewrite E. intros l Hl Hm. by destruct l; try done; apply Hheld.
  - pose proof (Hheld WriteMu eq_refl eq_refl) as Hs.
    assert (is_Some (cn_outCipher (as_conn a))) as Houta by (unfold same, writer_half in Hs; congruence).
    pose proof (writer_agree send_close_notify _ _ blind_send_close_notify Hs) as Hag.
    pose proof (writer_keeps _ CloseOnce (sy_conn s) (blind_out_Seal RecordTypeAlert close_notify)) as Hk.
    unfold send_close_notify at 1 in Hag. unfold sy_conn in Hag, Hk.
    destruct (out_Seal _ _ _) as [[record|e|] c']; apply goto_inv in Ha0 as [-> ->]; try done.
    + eapply sim_stutter; [exact Ha|by split_and!|]. rewrite E. intros [] Hl Hm; try done.
      etrans; [symmetry; by apply Hk|by apply (Hheld CloseOnce)].
    + by eapply (sim_close_end ClSeal).
  - destruct Ht as (Ht & Houta & Hag).
    pose proof (writer_keeps _ CloseOnce (sy_conn s) (blind_set_deadline true)) as Hk.
    unfold alert_sealed, sy_conn in Hag. unfold sy_conn in Hk.
    destruct (on_raw _ _) as [[u|e|] c']; apply goto_inv in Ha0 as [-> ->]; try done.
    + eapply sim_stutter; [exact Ha|by split_and!|]. rewrite E. intros [] Hl Hm; try done.
      etrans; [symmetry; by apply Hk|by apply (Hheld CloseOnce)].
    + by eapply (sim_close_end (ClDeadline record)).
  - destruct Ht as (Ht & Houta & Hag). unfold alert_sent, sy_conn in Hag.
    destruct (on_raw _ _) as [[u|e|] c']; apply goto_inv in Ha0 as [-> ->]; try done;
      by eapply (sim_close_end (ClSend record)).
  - injection Ha0 as <- <-. eapply sim_stutter; [exact Ha|exact Ht|]. rewrite E. intros [] Hl Hm; try done.
    by apply (Hheld WriteMu).
  - apply goto_inv in Ha0 as [-> ->]. destruct Ht as [Ht Hcl]. cbn [conn_close] in *.
    assert (conn_close_err (cn_raw (sh_conn (sy_shared s))) = conn_close_err (cn_raw (as_conn a))) as Hce
      by (unfold sy_conn in Hst; congruence).
    eapply sim_stutter; [exact Ha| |rewrite E; by intros []]. cbn [thread_link]. rewrite Hce. done.
  - injection Ha0 as <- <-. destruct Ht as (Ht & Hc & Hcl). eapply sim_stutter; [exact Ha|exact Ht|].
    rewrite E. intros [] Hl Hm; try done. cbn. rewrite Hcl. unfold close_part. cbn. by rewrite <-Hc.
Qed.

Lemma sim_advance pc' m' : advance i (sy_ths s i) (sy_shared s) = Some (pc', m') -> simulated s a i pc' m'.
Proof.
  intros Ha. destruct (sy_ths s i) as [|su ctx k hs|n rd|t b wr|cl|r|] eqn:E; try done; rewrite <-E in Ha.
  - by eapply sim_handshake.
  - by eapply sim_read.
  - by eapply sim_write.
  - by eapply sim_close.
Qed.
End step.

(** The goroutine [i] enters a call or leaves it, on both sides. *)
Lemma linked_hop s a i pc' apc' e :
  linked s a -> (forall l, mid (sy_ths s i) l = false) -> (forall l, mid pc' l = false) ->
  thread_link pc' apc' (sy_conn s) (as_conn a) ->
  linked (Build_System (<[i:=pc']> (sy_ths s)) (sy_shared s) (sy_hist s ++ [e]))
         (Build_AtomicSystem (<[i:=apc']> (as_ths a)) (as_conn a) (as_hist a ++ [e])).
Proof.
  intros [Hh Ht Hs] Hmid Hmid' Hlink. split; cbn.
  - by rewrite Hh.
  - intros j. by destruct (decide (j = i)) as [->|Hne];
      [rewrite !fn_lookup_insert|rewrite !fn_lookup_insert_ne by done; apply Ht].
  - intros l Hm. apply Hs. intros j. destruct (decide (j = i)) as [->|Hne]; [done|].
    pose proof (Hm j) as Hx. by rewrite fn_lookup_insert_ne in Hx.
Qed.

Lemma sim_step s a s' :
  linked s a -> sys_inv s -> cn_handshakeDone (sy_conn s) = true -> sys_step s s' ->
  exists a', rtc atomic_step a a' /\ linked s' a'.
Proof.
  intros Hl Hinv Hd Hs. destruct Hs as [i call E Hc|i pc m Ha|i r E].
  - pose proof (lk_ths _ _ Hl i) as Ht. rewrite E in Ht. eexists. split; [by apply rtc_once, (atomic_invoke a i call)|].
    apply linked_hop; [done|by rewrite E|by destruct call|by destruct call].
  - by apply sim_advance.
  - pose proof (lk_ths _ _ Hl i) as Ht. rewrite E in Ht. eexists. split; [by apply rtc_once, (atomic_return a i r)|].
    apply linked_hop; [done|by rewrite E|done|done].
Qed.

Lemma linked_at_rest c : linked (at_rest c) (atomic_at_rest c).
Proof. split; by cbn. Qed.

(** The handshake stays done. *)
Lemma sys_step_done s s' :
  sys_inv s -> cn_handshakeDone (sy_conn s) = true -> sys_step s s' -> cn_handshakeDone (sy_conn s') = true.
Proof.
  intros Hinv Hd Hs. destruct Hs as [|i pc m Ha|]; [done| |done].
  by apply (advance_faith _ _ _ _ _ Ha (si_pcs _ Hinv i) (si_provider _ Hinv)).
Qed.

Lemma linked_reachable c s :
  conn_inv c -> provider_ok c -> cn_handshakeDone c = true -> rtc sys_step (at_rest c) s ->
  cn_handshakeDone (sy_conn s) = true /\ exists a, rtc atomic_step (atomic_at_rest c) a /\ linked s a.
Proof.
  intros Hi Hc Hd. revert s. refine (rtc_ind_r _ _ _ _).
  - split; [done|]. exists (atomic_at_rest c). split; [apply rtc_refl|apply linked_at_rest].
  - intros s1 s2 Hs1 Hs2 [Hd1 (a & Ha & Hl)]. pose proof (sys_reachable_inv c s1 Hi Hc Hs1) as Hinv. split; [by apply (sys_step_done s1)|].
    destruct (sim_step s1 a s2 Hl Hinv Hd1 Hs2) as (a' & Ha' & Hl'). exists a'. split; [by etrans|done].
Qed.

End simulation.

(** ** Instances *)

(** A [Read] with a whole [Write] inside it. *)
Definition toy_overlap : list Action :=
  [DoInvoke 0 (CallRead toy_surroundings 2); DoAdvance 0; DoAdvance 0; DoInvoke 1 (CallWrite toy_surroundings [x07]);
   DoAdvance 1; DoAdvance 0; DoAdvance 1; DoAdvance 1; DoAdvance 0; DoAdvance 1; DoAdvance 1; DoAdvance 1; DoReturn 1;
   DoAdvance 0; DoReturn 0].

(** What [Read] and [Write] have returned, in that order of time. *)
Definition returned (h : list Event) : list (nat * (bytes + Z)) :=
  omap (fun e => match e with
                 | Return i (RetRead (Ok d)) => Some (i, inl d)
                 | Return i (RetWrite n None) => Some (i, inr n)
                 | _ => None
                 end) h.

