(* ===== verification/Channel.v ===== *)
(** * From two configurations to a delivered stream

    The whole program put together: two connections over a network that
    delivers, each with its own configuration, evidence provider, entropy and
    clock; the handshake, the application data and the close. *)

From S2P Require Import Prelude Gcm Gmsm Toy NetIO Record Framing KeySchedule GoLib.
From S2P Require Import CsvReport CsvVerify CsvMock CsvClient Asn1 Evidence Gx509 Provider Cert.
From S2P Require Import Config Verifier Handshake Session Effects Honest Conn ConnState Stream.

Section channel.
Context `{SM3, SM4, HKDF, SM2, X509} {W : Type}.
Implicit Types c : Conn W.

(** The connection after its handshake, the network having delivered [rx] more. *)
Record connected c (inC outC : RecordCipher) (rx tx : bytes) : Prop := {
  cd_done : cn_handshakeDone c = true;
  cd_in : cn_inCipher c = Some inC;
  cd_out : cn_outCipher c = Some outC;
  cd_buf : cn_readBuf c = [];
  cd_once : cn_closeOnce c = false;
  cd_raw : conn_rx (cn_raw c) = rx /\ conn_tx (cn_raw c) = tx /\ conn_wscript (cn_raw c) = [] /\
    conn_deadline_err (cn_raw c) = None
}.

(** A connection yet to be handshaked, and what its handshake will use. *)
Definition start (role : bool) (conn : RawConn) (rx : bytes) (cache : CertCache) (rnd : bytes) (w : W)
    (log : list error) (cfg : Config W) : Conn W :=
  new_conn role (conn_at conn rx [], ((cache, (rnd, w)), log)) (Some cfg).

Lemma client_connects ctx su (cfg : Config W) cache rnd w wire sent inC outC conn rest log :
  client_completes ctx su cfg cache rnd w wire sent inC outC -> conn_deadline_err conn = None ->
  exists c, handshake su ctx (start false conn (wire ++ rest) cache rnd w log cfg) = (Ok tt, c) /\
    connected c inC outC rest sent.
Proof.
  intros Hc Hd. destruct (Hc conn rest [] log) as (r & st & Hr & <- & <- & [Hrx Htx Hw Hde]).
  unfold handshake. cbn. rewrite Hr. eexists. split; [reflexivity|]. split; try done.
  split_and!; [done..|]. by rewrite <-Hd.
Qed.

Lemma server_connects ctx su (cfg : Config W) cache rnd w wire sent inC outC conn rest log :
  server_completes ctx su cfg cache rnd w wire sent inC outC -> conn_deadline_err conn = None ->
  exists c, handshake su ctx (start true conn (wire ++ rest) cache rnd w log cfg) = (Ok tt, c) /\
    connected c inC outC rest sent.
Proof.
  intros Hc Hd. destruct (Hc conn rest [] log Hd) as (r & st & Hr & <- & <- & [Hrx Htx Hw Hde]).
  unfold handshake. cbn. rewrite Hr. eexists. split; [reflexivity|]. split; try done.
  split_and!; [done..|]. by rewrite <-Hd.
Qed.

End channel.

Section both.
Context `{SM3, SM4, HKDF, SM2, X509} {W W' : Type}.

(** One side's data, over the network, to the other. *)
Lemma connected_transfer su su' bs n (c : Conn W) inC outC rx tx :
  connected c inC outC rx tx -> cipher_ok outC -> seqno outC = 0 -> zlen (concat bs) < max_uint64 -> 0 < n ->
  exists wire c1 c2 e, send_all su bs c = ((fun b => Ok (zlen b, None)) <$> bs, c1) /\ Close c1 = (Ok e, c2) /\
    conn_tx (cn_raw c2) = tx ++ wire /\
    forall (r : Conn W') inC' tx' rest, connected r outC inC' (wire ++ rest) tx' ->
      exists r', read_all su' (S (length (concat bs))) n r = (concat bs, Err io_EOF, r').
Proof.
  intros [Hd _ Hout _ Ho (_ & <- & Hw & Hde)] Hok Hs Hl Hn.
  destruct (sent_is_held su bs c outC) as (wire & c1 & c2 & e & H1' & H2' & H3' & Hh); [done..|by rewrite Hs|].
  exists wire, c1, c2, e. do 3 (split; [done|]). intros r inC' tx' rest [Hdr Hin _ Hb _ (Hrx & _)].
  destruct (read_all_holds su' n (S (length (concat bs))) r (concat bs) rest) as (r' & Hr & _); [done|lia|by apply Hh|].
  by exists r'.
Qed.

(** The sender connects, writes [bs] and closes, having sent [hello] in its
    handshake; the receiver, given what the sender sent and whatever follows it,
    connects and reads exactly [bs], then the end. *)
Definition delivers ctx su (sender : Conn W) ctx' su' (receiver : bytes -> Conn W') (hello : bytes)
    (bs : list bytes) (n : Z) : Prop :=
  exists wire c1 c2 c3 e, handshake su ctx sender = (Ok tt, c1) /\
    send_all su bs c1 = ((fun b => Ok (zlen b, None)) <$> bs, c2) /\ Close c2 = (Ok e, c3) /\
    conn_tx (cn_raw c3) = hello ++ wire /\
    forall rest, exists r1 r2, handshake su' ctx' (receiver (hello ++ wire ++ rest)) = (Ok tt, r1) /\
      read_all su' (S (length (concat bs))) n r1 = (concat bs, Err io_EOF, r2).

Lemma delivers_connected ctx su (sender : Conn W) ctx' su' (receiver : bytes -> Conn W') hello tx' rx bs n inC outC :
  (exists c, handshake su ctx sender = (Ok tt, c) /\ connected c inC outC rx hello) ->
  (forall rest, exists c, handshake su' ctx' (receiver (hello ++ rest)) = (Ok tt, c) /\ connected c outC inC rest tx') ->
  cipher_ok outC -> seqno outC = 0 -> zlen (concat bs) < max_uint64 -> 0 < n ->
  delivers ctx su sender ctx' su' receiver hello bs n.
Proof.
  intros (c1 & Hh & Hc) Hr Hok Hs Hl Hn.
  destruct (connected_transfer su su' bs n c1 inC outC rx hello Hc Hok Hs Hl Hn)
    as (wire & c2 & c3 & e & H1' & H2' & H3' & Hread).
  exists wire, c1, c2, c3, e. do 4 (split; [done|]). intros rest.
  destruct (Hr (wire ++ rest)) as (r1 & Hh' & Hc'). destruct (Hread r1 inC tx' rest Hc') as (r2 & Hra).
  by exists r1, r2.
Qed.
End both.

Section attested.
Context `{SM3Laws, SM4Laws, HKDFLaws, Hlaws : X509Laws} {W W' : Type}.
Context (ep : EvidenceProvider W) (hrk bundle meas : bytes) `{Hep : !EvidenceProviderLaws ep hrk bundle meas}.
Context (ep' : EvidenceProvider W') (hrk' bundle' meas' : bytes)
  `{Hep' : !EvidenceProviderLaws ep' hrk' bundle' meas'}.

(** C5. The program end to end.  Two connections whose certificates come from
    lawful evidence providers, each side trusting the other's root and
    tolerating its measurement, clocks within the certificates' day: over a
    network that delivers, each completes its handshake, and whatever one of
    them then writes, in any number of calls of any sizes, and closes, the
    other reads whole, in order, with buffers of any size, followed by
    [io.EOF]; this for both directions. *)
Theorem attested_channel (c : Config W) (c' : Config W') ctx su rnd w k random pub rnd' pem key ce
    ctx' su' rnd0 w0 pem' key' cache1 rnd1 w1 k' random' pub' rnd1' :
  config_ok c -> config_ok c' ->
  draws rnd k random pub rnd' -> draws rnd1 k' random' pub' rnd1' ->
  attested_side ctx su c ep hrk bundle meas rnd' w pem key ce ->
  attested_side ctx' su' c' ep' hrk' bundle' meas' rnd0 w0 pem' key' (cache1, (rnd1, w1)) ->
  trusts hrk' meas' w c -> trusts hrk meas w1 c' ->
  su_clock su' 4%nat - hour <= su_now su <= su_clock su' 4%nat + 24 * hour - second ->
  su_clock su 4%nat - hour <= su_now su' <= su_clock su 4%nat + 24 * hour - second ->
  exists toServer toClient, forall conn conn' log log' more more' bs n,
    conn_deadline_err conn = None -> conn_deadline_err conn' = None -> zlen (concat bs) < max_uint64 -> 0 < n ->
    let client rx := start false conn rx empty_cache rnd w log c in
    let server rx := start true conn' rx empty_cache rnd0 w0 log' c' in
    delivers ctx su (client (toClient ++ more)) ctx' su' server toServer bs n /\
    delivers ctx' su' (server (toServer ++ more')) ctx su client toClient bs n.
Proof.
  intros Hc Hc' Hd Hd' Ha Ha' Ht Ht' Hn Hn'.
  destruct (attested_run ep hrk bundle meas ep' hrk' bundle' meas' c c' ctx su rnd w k random pub rnd' pem key ce
    ctx' su' rnd0 w0 pem' key' cache1 rnd1 w1 k' random' pub' rnd1' Hc Hc' Hd Hd' Ha Ha' Ht Ht' Hn Hn')
    as (ts & tc & co & so & Hcl & Hsv & Hoc & Hos & Hqc & Hqs).
  exists ts, tc. intros conn conn' log log' more more' bs n Hde Hde' Hl Hp. split.
  - eapply delivers_connected; [by eapply client_connects|intros rest; by eapply server_connects|done..].
  - eapply delivers_connected; [by eapply server_connects|intros rest; by eapply client_connects|done..].
Qed.
End attested.

(** ** An instance: two mutually attested sides and three bytes *)

Definition toy_end (role : bool) (rnd rx : bytes) : Conn MockEvidenceProvider :=
  start role (toy_conn []) rx empty_cache rnd toy_mock [] (toy_side true).

Lemma attested_channel_witness :
  exists toServer toClient,
    @delivers toy_sm3 toy_sm4 toy_hkdf toy_sm2 toy_x509 MockEvidenceProvider MockEvidenceProvider
      Background toy_surroundings (toy_end false (replicate 500 x05) (toClient ++ [])) Background toy_surroundings
      (toy_end true (replicate 500 x09)) toServer [[x01; x02]; [x03]] 2.
Proof.
  enough (forall a b, toy_prepared true (replicate 436 x05) = a -> toy_prepared true (replicate 500 x09) = b ->
    prepared_good (replicate 388 x05) a = true -> prepared_good (replicate (64 + 388) x09) b = true ->
    exists toServer toClient,
    @delivers toy_sm3 toy_sm4 toy_hkdf toy_sm2 toy_x509 MockEvidenceProvider MockEvidenceProvider
      Background toy_surroundings (toy_end false (replicate 500 x05) (toClient ++ [])) Background toy_surroundings
      (toy_end true (replicate 500 x09)) toServer [[x01; x02]; [x03]] 2) as Hall.
  { eapply Hall; [reflexivity|reflexivity|vm_compute; reflexivity..]. }
  intros a b Ea Eb Ga Gb.
  destruct (prepared_good_Ok _ _ Ga) as (pem & key & cache & w & -> & Hl & _).
  destruct (prepared_good_Ok _ _ Gb) as (pem' & key' & cache' & w' & -> & Hl' & Hw').
  destruct (@attested_channel toy_sm3 toy_sm3_laws toy_sm4 toy_sm4_laws toy_hkdf toy_hkdf_laws toy_x509 toy_sm2
    toy_sm2_laws toy_x509_laws MockEvidenceProvider MockEvidenceProvider
    (@MockProvider toy_sm2) toy_hrk toy_bundle toy_meas (@MockProvider_laws toy_sm2 toy_sm2_laws toy_hrk toy_bundle toy_meas)
    (@MockProvider toy_sm2) toy_hrk toy_bundle toy_meas (@MockProvider_laws toy_sm2 toy_sm2_laws toy_hrk toy_bundle toy_meas)
    (toy_side true) (toy_side true) Background toy_surroundings _ _ _ _ _ _ _ _ _
    Background toy_surroundings _ _ _ _ _ _ _ _ _ _ _
    (toy_side_ok true) (toy_side_ok true) (toy_draws x05 436) (toy_draws x09 388)
    (toy_attested_side _ _ _ _ _ Ea Hl) (toy_attested_side _ _ _ _ _ Eb Hl')
    (toy_side_trusts true toy_mock eq_refl) (toy_side_trusts true w' Hw') toy_clocks toy_clocks)
    as (ts & tc & Hall).
  exists ts, tc.
  exact (proj1 (Hall (toy_conn []) (toy_conn []) [] [] [] [] [[x01; x02]; [x03]] 2 eq_refl eq_refl
    ltac:(vm_compute; reflexivity) ltac:(vm_compute; reflexivity))).
Defined.
