(* ===== verification/Transport.v ===== *)
(** * Dialing and listening (transport.go)

    [Listen], [Accept], [Dial], [DialContext] and the HTTP constructors.  The
    network is a parameter: what the standard library's dialer and listener
    return.  The goroutine that watches the caller's context during a dial is an
    event of the dial: it has fired or not by the time it is stopped, and if it
    has, it has set a deadline on the raw connection. *)

From S2P Require Import Prelude Gcm Gmsm Toy NetIO Record Framing KeySchedule GoLib.
From S2P Require Import CsvReport CsvVerify CsvMock CsvClient Asn1 Evidence Gx509 Provider Cert.
From S2P Require Import Config Verifier Handshake Session Effects Honest Conn ConnState.

Definition ErrListenCredentials : error := ErrNew "teetls: requires either CertPEM/KeyPEM or EvidenceProvider".
Definition ErrListenMeasurements : error :=
  Errorf "teetls: server listening in strict mode with mutual attestation requires ExpectedMeasurements" [].
Definition ErrDialMeasurements : error :=
  Errorf "teetls: client dialing in strict mode requires ExpectedMeasurements" [].

Section transport.
Context {W : Type}.
Implicit Types c : Config W.

(** A nil configuration is an empty one. *)
Definition config_or_zero (cfg : option (Config W)) : Config W :=
  match cfg with None => zero_Config | Some c => c end.
Definition is_strict c : bool := bool_decide (mode c = ModeStrict).
Definition no_measurements c : bool := zlen (cfg_ExpectedMeasurements c) =? 0.

(** ** Listening *)

(** [net.Listener]: the outcomes of its coming [Accept] calls. *)
Abbreviation NetListener := (list (result RawConn)).
Record listener := { ln_Listener : NetListener; ln_cfg : Config W }.

Definition Listen (net_Listen : string -> string -> result NetListener) (network addr : string)
    (cfg : option (Config W)) : result listener :=
  let c := config_or_zero cfg in
  _ ← Validate c <?> "teetls: invalid listen config: %w";
  reject_if no_bytes (cfg_CertPEM c) && no_bytes (cfg_KeyPEM c)
            && (match cfg_EvidenceProvider c with None => true | Some _ => false end)
    with ErrListenCredentials;
  reject_if is_strict c && cfg_VerifyMutualAttestation c && negb (cfg_InsecureSkipAttestationVerify c)
            && no_measurements c
    with ErrListenMeasurements;
  l ← net_Listen network addr <?> "teetls: listen: %w";
  Ok {| ln_Listener := l; ln_cfg := c |}.

(** [rest] is what the new connection shares with the others.  [None] is a call
    that has not returned: nobody has connected. *)
Definition Accept (l : listener) (rest : (CertCache * (bytes * W)) * list error)
    : option (result (Conn W)) * listener :=
  match ln_Listener l with
  | [] => (None, l)
  | r :: next =>
      (Some (rawConn ← r; Ok (NewServerConn (rawConn, rest) (Some (ln_cfg l)))),
       {| ln_Listener := next; ln_cfg := ln_cfg l |})
  end.

(** ** Dialing *)

(** What a dial is given by its context: the context as the dialer and the
    handshake see it, its deadline, whether it was done before the watcher was
    stopped, and its error when the handshake has ended. *)
Record DialEnv := {
  de_ctx : Context_;
  de_Deadline : option Z;
  de_now : Z;                  (* time.Now at the deadline's computation *)
  de_fired : bool;
  de_Err : option error
}.

(** The deadline of the handshake; the zero time is [None]. *)
Definition handshake_deadline (d : DialEnv) c : option Z :=
  let deadline := de_Deadline d in
  let timeoutDeadline := de_now d + timeout c in
  match deadline with
  | None => Some timeoutDeadline
  | Some t => if timeoutDeadline <? t then Some timeoutDeadline else Some t
  end.

Definition is_set (deadline : option Z) : bool := match deadline with None => false | Some _ => true end.

(** [conn.handshake] under the watcher, which has the last word on the deadline
    when it has fired. *)
Definition watched_handshake `{SM3, SM4, HKDF, SM2, X509} su (d : DialEnv) : stM (Conn W) unit := fun conn =>
  let '(r, conn) := handshake su (de_ctx d) conn in
  (r, if de_fired d then (conn_SetDeadline true conn).2 else conn).

(** The result, and the connection that was opened, if one was, as it is left. *)
Definition DialContext `{SM3, SM4, HKDF, SM2, X509}
    (net_Dial : Context_ -> Z -> string -> string -> result RawConn) su (d : DialEnv)
    (rest : (CertCache * (bytes * W)) * list error) (network addr : string) (cfg : option (Config W))
  : result (Conn W) * option (Conn W) :=
  let c := config_or_zero cfg in
  match
    _ ← Validate c <?> "teetls: invalid dial config: %w";
    reject_if is_strict c && negb (cfg_InsecureSkipAttestationVerify c) && no_measurements c
      with ErrDialMeasurements;
    map_err (fun e => Errorf "teetls: dial %s: %w" [FStr addr; FWrap e]) (net_Dial (de_ctx d) (timeout c) network addr)
  with
  | Err e => (Err e, None)
  | Panic => (Panic, None)
  | Ok rawConn =>
      let rawConn := if is_set (handshake_deadline d c) then (conn_set_deadline true rawConn).2 else rawConn in
      let conn := NewClientConn (rawConn, rest) (Some c) in
      match watched_handshake su d conn with
      | (Panic, conn) => (Panic, Some conn)
      | (Err handshakeErr, conn) =>
          let conn := (Close conn).2 in
          match de_Err d with
          | Some e => (Err (Errorf "teetls: dial %s: %w" [FStr addr; FWrap e]), Some conn)
          | None => (Err (wrapf "teetls: handshake failed: %w" handshakeErr), Some conn)
          end
      | (Ok _, conn) =>
          let conn := (conn_SetDeadline false conn).2 in
          (Ok conn, Some conn)
      end
  end.

(** [context.Background()]: no deadline, never done. *)
Definition background_env (now : Z) : DialEnv :=
  {| de_ctx := Background; de_Deadline := None; de_now := now; de_fired := false; de_Err := None |}.
Definition Dial `{SM3, SM4, HKDF, SM2, X509} net_Dial su (now : Z) rest (network addr : string)
    (cfg : option (Config W)) : result (Conn W) * option (Conn W) :=
  DialContext net_Dial su (background_env now) rest network addr cfg.

(** ** HTTP *)

(** The fields that are set of [http.Transport] and [http.Client]. *)
Record HTTPTransport (D : Type) := {
  ht_DialTLSContext : D;
  ht_ForceAttemptHTTP2 : bool;
  ht_MaxIdleConns : Z;
  ht_IdleConnTimeout : Z;
  ht_TLSHandshakeTimeout : Z;
  ht_ExpectContinueTimeout : Z
}.
Record HTTPClient (D : Type) := {
  hc_Transport : HTTPTransport D;
  hc_Timeout : Z
}.

(** The dialing function of the transport, over the network. *)
Abbreviation DialFun := (DialEnv -> (CertCache * (bytes * W)) * list error -> string -> string ->
  result (Conn W) * option (Conn W)).

Definition NewHTTPTransport `{SM3, SM4, HKDF, SM2, X509} net_Dial su (cfg : option (Config W))
    : HTTPTransport DialFun := {|
  ht_DialTLSContext := fun d rest network addr => DialContext net_Dial su d rest network addr cfg;
  ht_ForceAttemptHTTP2 := false;
  ht_MaxIdleConns := 100;
  ht_IdleConnTimeout := 90 * second;
  ht_TLSHandshakeTimeout := 10 * second;
  ht_ExpectContinueTimeout := 1 * second
|}.

Definition NewHTTPClient `{SM3, SM4, HKDF, SM2, X509} net_Dial su (cfg : option (Config W))
    : HTTPClient DialFun :=
  let timeout := match cfg with Some c => timeout c | None => defaultTimeout end in
  {| hc_Transport := NewHTTPTransport net_Dial su cfg; hc_Timeout := timeout |}.
End transport.

(** ** The checks before the network *)

Section checks.
Context `{SM3Laws, SM4, HKDFLaws, X509, SM2Laws} {W : Type}.
Implicit Types c : Config W.

Lemma strict_not_permissive c : is_strict c = true -> cfg_Mode c <> ModePermissive.
Proof.
  unfold is_strict, mode. intros Hs%bool_decide_eq_true Hp. rewrite Hp in Hs. vm_compute in Hs. discriminate.
Qed.

Lemma no_measurements_no_peer c fs w now pem ev :
  is_strict c = true -> no_measurements c = true -> ~ peer_valid fs w now pem c ev.
Proof.
  intros Hs Hn%Z.eqb_eq%zlen_nil_inv [_ _ _ _ Hm].
  destruct Hm as (m & Hin & _); [by apply strict_not_permissive|]. rewrite Hn in Hin. by apply elem_of_nil in Hin.
Qed.

(** A client that may only accept listed measurements and lists none. *)
Lemma client_doomed ctx su c st r st' :
  is_strict c = true -> cfg_InsecureSkipAttestationVerify c = false -> no_measurements c = true ->
  ClientHandshakeContext ctx su (Some c) st <> (Ok r, st').
Proof.
  intros Hs Hk Hn Hr.
  apply (client_sound _ _ _ c) in Hr as (k & z & s & [_ _ _ [(ev & _ & Hv) _ _] _ _ _]); [|done|done].
  by apply no_measurements_no_peer in Hv.
Qed.

Lemma server_doomed ctx su c st r st' :
  is_strict c = true -> cfg_InsecureSkipAttestationVerify c = false -> no_measurements c = true ->
  cfg_VerifyMutualAttestation c = true ->
  ServerHandshakeContext ctx su (Some c) st <> (Ok r, st').
Proof.
  intros Hs Hk Hn Hm Hr.
  apply (server_sound _ _ _ c) in Hr as (w' & k & z & s & [_ _ _ He _ Hc _]); [|done|done].
  rewrite Hm in He. cbn [orb] in He. rewrite He in Hc.
  assert (mutual_ext [x01] = true) as Hx by (by vm_compute). rewrite Hx in Hc.
  destruct (se_ClientAuth s) as [[pem sig]|]; [|by destruct Hc].
  destruct Hc as (_ & [(ev & _ & Hv) _ _]). by apply no_measurements_no_peer in Hv.
Qed.

(** A server with nothing to make a certificate from. *)
Definition no_credentials c : bool :=
  no_bytes (cfg_CertPEM c) && no_bytes (cfg_KeyPEM c)
  && (match cfg_EvidenceProvider c with None => true | Some _ => false end).

Lemma server_no_credentials ctx su c st r st' :
  no_credentials c = true -> ServerHandshakeContext ctx su (Some c) st <> (Ok r, st').
Proof.
  unfold no_credentials. intros Hn Hr. apply andb_true_iff in Hn as [Hn Hp]. apply andb_true_iff in Hn as [Hn _].
  destruct (cfg_EvidenceProvider c) eqn:Ep; [done|].
  assert (forall s, prepareCertificate ctx (su_clock su) c s
    = (Err (wrapf "get or generate certificate: %w" (ErrNew "teetls: requires either CertPEM/KeyPEM or EvidenceProvider")), s))
    as Hprep.
  { intros s. unfold prepareCertificate, GetOrGenerateCertificateContext. rewrite Hn, Ep. reflexivity. }
  unfold ServerHandshakeContext in Hr.
  apply stM_bind_Ok in Hr as (u & s1 & _ & Hr). apply stM_bind_Ok in Hr as (u' & s2 & _ & Hr).
  apply with_defer_Ok in Hr as (s3 & Eb & _). unfold server_handshake_body in Eb.
  apply stM_bind_Ok in Eb as (x & s4 & Hp'%stM_map_err_Ok & _). unfold on_cert, on_snd, on_fst in Hp'.
  destruct s2 as [conn [ce lg]]. by rewrite Hprep in Hp'.
Qed.

(** What the handshake itself refuses. *)
Lemma server_validates ctx su c st r st' :
  ServerHandshakeContext ctx su (Some c) st = (Ok r, st') -> config_ok c.
Proof.
  intros Hr. unfold ServerHandshakeContext in Hr. apply stM_bind_Ok in Hr as (u & s1 & Hv%stM_map_err_Ok & _).
  apply lift_Ok in Hv as [Hv _]. by apply (rdecides_Ok _ _ _ _ (Validate_rdecides c)) in Hv as [? _].
Qed.

Lemma client_validates ctx su c st r st' :
  ClientHandshakeContext ctx su (Some c) st = (Ok r, st') -> config_ok c.
Proof.
  intros Hr. unfold ClientHandshakeContext in Hr. apply stM_bind_Ok in Hr as (u & s1 & Hv%stM_map_err_Ok & _).
  apply lift_Ok in Hv as [Hv _]. by apply (rdecides_Ok _ _ _ _ (Validate_rdecides c)) in Hv as [? _].
Qed.

(** C24. The early checks of [Listen] and [DialContext] cost nothing: a
    configuration that either refuses before it uses the network (also for want
    of credentials or of a whitelist) is one with which no handshake of that
    side could ever succeed, whatever the peer, the provider and the clock. *)
Theorem early_refusals_lose_nothing net_Listen net_Dial network addr (cfg : option (Config W)) l0 raw :
  net_Listen network addr = Ok l0 -> (forall ctx t, net_Dial ctx t network addr = Ok raw) ->
  ((forall l, Listen net_Listen network addr cfg <> Ok l) ->
   forall ctx su st r st', ServerHandshakeContext ctx su (Some (config_or_zero cfg)) st <> (Ok r, st')) /\
  (forall su d rest, (DialContext net_Dial su d rest network addr cfg).2 = None ->
   forall ctx su st r st', ClientHandshakeContext ctx su (Some (config_or_zero cfg)) st <> (Ok r, st')).
Proof.
  intros Hl Hd. set (c := config_or_zero cfg). split.
  - intros Hn ctx su st r st' Hr. pose proof (server_validates _ _ _ _ _ _ Hr) as Hv.
    apply Validate_config_ok in Hv. unfold Listen in Hn. fold c in Hn. rewrite Hv in Hn. cbn in Hn.
    fold (no_credentials c) in Hn.
    destruct (no_credentials c) eqn:Ec; [by eapply server_no_credentials|].
    destruct (is_strict c && _ && _ && _) eqn:Em; [|rewrite Hl in Hn; by eapply Hn].
    apply andb_true_iff in Em as [[[Em1 Em2]%andb_true_iff Em3%negb_true_iff]%andb_true_iff Em4].
    by eapply server_doomed.
  - intros su d rest Hn ctx su' st r st' Hr. pose proof (client_validates _ _ _ _ _ _ Hr) as Hv.
    apply Validate_config_ok in Hv. unfold DialContext in Hn. fold c in Hn. rewrite Hv in Hn.
    cbv beta iota delta [mbind result_bind map_err result_map_err] in Hn.
    destruct (is_strict c && _ && _) eqn:Em.
    + apply andb_true_iff in Em as [[Em1 Em3%negb_true_iff]%andb_true_iff Em4]. by eapply client_doomed.
    + rewrite Hd in Hn. destruct (watched_handshake _ _ _) as [[u|e|] conn]; [done| |done].
      by destruct (de_Err d).
Qed.
End checks.

(** ** What a dial leaves behind *)

Section dial.
Context `{SM3Laws, SM4Laws, HKDFLaws, X509, SM2Laws, !NoPanics} {W : Type}.

Lemma set_deadline_inv on (c : Conn W) :
  conn_inv c -> conn_inv (conn_SetDeadline on c).2 /\ conn_evolves c (conn_SetDeadline on c).2.
Proof. intros Hi. apply on_raw_inv; [apply runs_deadline|done]. Qed.

Lemma watched_handshake_ok su (d : DialEnv) (c : Conn W) :
  conn_inv c -> provider_ok c ->
  let '(r, c') := watched_handshake su d c in
  no_panic r /\ conn_inv c' /\ conn_evolves c c' /\ (r = Ok tt -> cn_handshakeDone c' = true).
Proof.
  intros Hi Hc. unfold watched_handshake. pose proof (handshake_spec (de_ctx d) su c Hi Hc) as Hs.
  destruct (handshake su (de_ctx d) c) as [r c1]. destruct Hs as (Hp & Hi1 & He1 & Hr).
  destruct (de_fired d); [|split_and!; [done..|by intros ->]].
  destruct (set_deadline_inv true c1 Hi1) as [Hi2 He2]. split; [done|]. split; [done|]. split; [by etrans|].
  intros ->. by apply He2.
Qed.

Lemma cleared_deadline (c : Conn W) :
  conn_deadline_err (cn_raw (conn_SetDeadline false c).2) = None ->
  conn_deadline_set (cn_raw (conn_SetDeadline false c).2) = false.
Proof.
  unfold conn_SetDeadline, on_raw, conn_set_deadline.
  destruct (conn_deadline_err (cn_raw c)) as [e|] eqn:Ed; cbn; [by rewrite Ed|done].
Qed.

(** C23. Every outcome of [DialContext]: it does not panic; the connection it
    returns has finished its handshake and keeps the connection invariant (so,
    unless verification is switched off, the server's certificate was attested
    under the policy of this configuration), and no deadline of the dial is
    left on it; and when it fails after it had opened a raw connection, that
    connection is closed. *)
Theorem DialContext_outcome net_Dial su d rest network addr (cfg : option (Config W)) :
  (forall ctx t, no_panic (net_Dial ctx t network addr)) ->
  config_safe (config_or_zero cfg) ->
  match DialContext net_Dial su d rest network addr cfg with
  | (Ok conn, opened) =>
      opened = Some conn /\ conn_inv conn /\ cn_handshakeDone conn = true /\ cn_isServer conn = false /\
      cfg_of conn = config_or_zero cfg /\
      (conn_deadline_err (cn_raw conn) = None -> conn_deadline_set (cn_raw conn) = false)
  | (Err _, opened) => forall conn, opened = Some conn -> conn_closed (cn_raw conn) = true
  | (Panic, _) => False
  end.
Proof.
  intros Hd Hc. unfold DialContext. set (c := config_or_zero cfg).
  pose proof (Validate_no_panic c) as Hv. destruct (Validate c) as [u|e|]; cbn [map_err result_map_err mbind result_bind];
    [|done|done].
  destruct (is_strict c && _ && _); [done|]. specialize (Hd (de_ctx d) (timeout c)).
  destruct (net_Dial (de_ctx d) (timeout c) network addr) as [raw|e|]; cbn [map_err result_map_err]; [|done|done].
  set (raw' := if is_set _ then _ else _).
  pose proof (new_conn_inv false (raw', rest) (Some c)) as Hi.
  pose proof (watched_handshake_ok su d (NewClientConn (raw', rest) (Some c)) Hi Hc) as Hw.
  destruct (watched_handshake su d _) as [[[]|e|] conn]; destruct Hw as (Hp & Hi1 & He1 & Hdone); [| |done].
  - destruct (set_deadline_inv false conn Hi1) as [Hi2 He2]. split; [done|]. split; [done|].
    split; [by apply He2, Hdone|]. split; [by rewrite (ce_role _ _ He2), (ce_role _ _ He1)|].
    split; [unfold cfg_of; by rewrite (ce_cfg _ _ He2), (ce_cfg _ _ He1)|]. apply cleared_deadline.
  - assert (conn_closed (cn_raw (Close conn).2) = true) as Hcl.
    { destruct (Close_ok conn Hi1) as (_ & Hi2 & _). by apply (ci_closed _ Hi2), Close_once_set. }
    destruct (de_Err d); intros conn' [= <-]; exact Hcl.
Qed.
End dial.

(** ** Instances *)

Abbreviation toy_dial rx cfg := (@DialContext MockEvidenceProvider toy_sm3 toy_sm4 toy_hkdf toy_sm2 toy_x509
  (fun _ _ _ _ => Ok (toy_conn rx)) toy_surroundings (background_env 0)
  ((empty_cache, (replicate 500 x05, toy_mock)), []) "tcp" "host:443" (Some cfg)).

(** A server that sends an alert in the clear instead of its hello. *)
Lemma DialContext_outcome_witness :
  exists e conn, toy_dial [x15; x03; x03; x00; x02; x02; x28] toy_unverified = (Err e, Some conn) /\
    conn_closed (cn_raw conn) = true.
Proof.
  pose proof (@DialContext_outcome toy_sm3 toy_sm3_laws toy_sm4 toy_sm4_laws toy_hkdf toy_hkdf_laws toy_x509
    toy_sm2 toy_sm2_laws toy_no_panics MockEvidenceProvider (fun _ _ _ _ => Ok (toy_conn [x15; x03; x03; x00; x02; x02; x28]))
    toy_surroundings (background_env 0) ((empty_cache, (replicate 500 x05, toy_mock)), []) "tcp" "host:443"
    (Some toy_unverified)) as Hd.
  assert (match toy_dial [x15; x03; x03; x00; x02; x02; x28] toy_unverified with
    (Err _, Some _) => true | _ => false end = true) as E by (vm_compute; reflexivity).
  destruct (toy_dial [x15; x03; x03; x00; x02; x02; x28] toy_unverified) as [[conn|e|] [conn'|]]; try discriminate E.
  exists e, conn'. split; [reflexivity|]. apply Hd; [discriminate|intros p; discriminate|reflexivity].
Defined.

Lemma early_refusals_lose_nothing_witness :
  (toy_dial [] toy_static).2 = None /\
  forall ctx su st r st', @ClientHandshakeContext toy_sm3 toy_sm4 toy_hkdf toy_sm2 toy_x509 MockEvidenceProvider
    ctx su (Some toy_static) st <> (Ok r, st').
Proof.
  assert ((toy_dial [] toy_static).2 = None) as E by (vm_compute; reflexivity). split; [exact E|].
  intros ctx su st r st'.
  exact (proj2 (@early_refusals_lose_nothing toy_sm3 toy_sm3_laws toy_sm4 toy_hkdf toy_hkdf_laws toy_x509
    toy_sm2 toy_sm2_laws MockEvidenceProvider (fun _ _ => Ok []) (fun _ _ _ _ => Ok (toy_conn [])) "tcp" "host:443"
    (Some toy_static) [] (toy_conn []) eq_refl (fun _ _ => eq_refl)) toy_surroundings (background_env 0)
    ((empty_cache, (replicate 500 x05, toy_mock)), []) E ctx su st r st').
Defined.
